(* ===== verification/_CoqProject ===== *)
-Q . S2P
Prelude.v
Abi.v
Disk.v
Ide.v
Bio.v
Log.v
Blk.v
Kstring.v
Printf.v
User.v
Progs.v
Grep.v
Sh.v
Shell.v
Ring.v
Console.v
Pipe.v
Kalloc.v
Fs.v
FsSpec.v
Icache.v
FsDir.v
FsProps.v
Mkfs.v
Vm.v
VmCopy.v
Mp.v
Spinlock.v
Kernel.v
File.v
Proc.v
ProcSpec.v
ProcTable.v
ProcInv.v
Syscall.v
Exec.v
Boot.v
Sysfile.v
Trap.v
Seg.v
SysProps.v
Umalloc.v
Uthread.v
