(* ===== verification/Prelude.v ===== *)
(** * xv6 (Dixv6): a verification development

    A verification of the xv6 kernel for the PC, its user programs and the
    program that builds its disk, all under src/.  C functions are translated
    to Rocq functions with the same names; the theorems are about those.

    ** The program and its parts

    A user program enters the kernel by a trap.  [trap] (trap.c) dispatches
    interrupts to the drivers and system calls to [syscall] (syscall.c), which
    fetches arguments from user memory and runs a call of sysproc.c or
    sysfile.c.  Calls on processes use proc.c, which schedules, forks, waits
    and kills, on the page tables of vm.c and the pages of kalloc.c.  Calls on
    files go through the file table (file.c) to pipes (pipe.c), the console
    (console.c) or the file system (fs.c).  The file system brackets its
    writes with transactions of log.c, which reads and writes sectors through
    the buffer cache (bio.c), which uses a disk driver (ide.c, or memide.c for
    a disk in memory).  The disk is made by mkfs.c on the host.  User programs
    link the library (ulib.c, printf.c, umalloc.c) and reach the kernel only
    through system calls.  The machine is started by bootmain.c, which loads
    the kernel; mp.c then finds the processors, and seginit and tvinit give
    each of them its segments and gates.

    ** How code is modelled

    - Integers are [Z] at their C width, brought back by [u8], [u16], [u32]
      and [s32] of this file where the C code can wrap.
    - Kernel code on one state is in the monad [M]: [Ok], [Panic] with the
      message of [panic], or [Sleep] with the channel when the code calls
      [sleep].  A C function that sleeps in a loop is then run again from the
      start of the loop by the scheduler's side of the model.
    - Code above the block layer is a tree of operations, [prog] of Blk.v: it
      can be run on the concrete cache, log and disk, or on an abstract block
      store, and block_layer_sim relates the two.
    - User programs are interaction trees over system calls (User.v).
    - Byte memory is a function from addresses (Kstring.v); the page allocator
      and the page tables live in one such memory (Kalloc.v, Vm.v), as do the
      free list and the threads of the user library in a memory of words
      ([wmem] of this file).
    - Arrays of structs are lists, a pointer to an element is its index, and
      linked lists keep their [next] and [prev] fields.
    - Hardware that the sources only talk to is a parameter: the ATA
      controller of Ide.v and Boot.v is a class with what its manual promises
      as laws.

    ** The files

    Foundations
    - Prelude.v (this file): machine integers, flags, little-endian words,
      slices of byte lists, arrays, the monad [M], hints and tactics.
    - Abi.v: syscall.h, fcntl.h.

    Disk and block layer
    - Disk.v: buf.h and memide.c; the interface [Driver]/[DriverOk] that a
      driver promises to the cache; [Traced], a driver that records every
      disk image a crash may leave.
    - Ide.v: ide.c, with the queue of requests linked through the buffers.
    - Bio.v: bio.c, the buffers with their doubly linked list; state [bio].
    - Log.v: log.c on Bio.v; state [log] and the on-disk header.
    - Blk.v: programs over bread, log_write, brelse, begin_trans and
      commit_trans, run on Bio.v and Log.v or on the store [bstate].

    File system
    - Fs.v: fs.c, one definition per function, state [fsk] (the inode cache
      and the rest of the kernel).
    - FsSpec.v: what the bitmap, the tree of blocks of an inode and the bytes
      of a file are; balloc, bmap, readi, writei against that.
    - Icache.v: the reference counts of the inode cache.
    - FsDir.v: directories and path names.
    - FsProps.v: the theorems on files, and a small file system to run them.
    - Mkfs.v: mkfs.c, on the sectors of the image it writes.

    Memory, processes, system calls
    - Kalloc.v: kalloc.c.  Vm.v: the page tables of vm.c.  VmCopy.v: what
      setupkvm, copyuvm, deallocuvm and freevm do to whole address spaces.
    - Spinlock.v: spinlock.c, on one CPU and interleaved on several.
    - Kernel.v: the state [kernel] (proc.h, file.h), the locks that [sleep] is
      called with, and sleep channels.
    - File.v: file.c and pipealloc, pipeclose, pipewrite, piperead of pipe.c.
    - Proc.v: proc.c, cut at the context switches; [allocproc], [fork] and
      [exit] also in the pieces that other CPUs can come between.
    - ProcSpec.v: what these do to the process table and the locks.
      ProcTable.v: the invariants of the table and of the locks.  ProcInv.v:
      the kernel as a state machine with any number of CPUs.
    - Syscall.v: syscall.c (arguments) and sysproc.c.  Exec.v: exec.c and
      loaduvm.  Sysfile.v: sysfile.c and the dispatch.  Trap.v: trap.c.
    - Seg.v: the descriptors of mmu.h, with seginit, switchuvm, switchkvm and
      kvmalloc of vm.c and tvinit and idtinit of trap.c, on the registers of a
      CPU.
    - SysProps.v: theorems on the arguments of system calls.

    Start-up
    - Boot.v: bootmain.c, on physical memory and the ports of the disk.
    - Mp.v: mp.c and mp.h, on the memory that holds the BIOS's tables.

    Console and pipes
    - Ring.v: ring buffers with counters that wrap.
    - Console.v: console.c, kbd.c, kbd.h, uart.c.  Pipe.v: pipe.c.

    Library and user programs
    - Kstring.v: string.c, ulib.c.  Printf.v: printf.c and cprintf.
    - Umalloc.v: umalloc.c.  Uthread.v: uthread.c, uthread_switch.S.
    - User.v: programs and the operating system they run on.  Progs.v: cat,
      wc, echo, kill, ln, mkdir, rm, zombie, halt, init, ls, big.  Grep.v:
      grep.c.  Sh.v and Shell.v: the parser and the commands of sh.c.

    ** What the theorems show

    - Disk: ide_serves (requests in order, one interrupt each);
      bread_spec, brelse_bwrite_spec (the cache implements a map from sectors
      to contents); commit_durable, crash_leaves_prefix, log_write_keeps_txn,
      torn_transaction (what a transaction and a crash leave, including that
      this log does not make transactions atomic); block_layer_sim (every
      program above sees a block store).
    - Files: readi_spec, writei_spec, dirlookup_spec, dirlink_spec,
      path_elements, icache_references, balloc_bfree; the lemmas
      balloc_takes_log and itrunc_leaks show defects.  mkfs_image: the image that mkfs writes is a file system in
      the same sense, with every file in it.
    - Memory: kalloc_exclusive (a page has one owner), allocuvm_spec (fresh
      zero pages, nothing else changed), copyuvm_spec (an equal address space
      that shares nothing), freevm_spec (every page given back), umalloc_safe.
    - Start-up and protection: bootmain_loads (the kernel's file is in
      memory when it is called), mpinit_spec (which processors are found),
      kernel_entry (user code enters the kernel only by a system call, at its
      vector and on its kernel stack).
    - Concurrency: spin_exclusion and spin_progress for locks; process_table,
      giveup_returns (which locks may be held when the CPU is given up) and
      scheduler_fair for processes; pipe_fifo for pipes;
      switch_resumes and third_thread_starves for user threads.
    - Console: kbdintr_refines and consoleread_refines (line editing).
    - System calls: arg_bounds, and a defect, sbrk_escapes; a second one is
      the lemma read_overruns.
    - Programs: parsecmd_grammar and shell_runs for the shell, match_language
      for grep, with a defect of its buffer in the lemma grep_repeats, and
      wc_main.

    ** Bounds and fuel

    Loops with a bound in the code (NBUF, NPROC, NINODE, the size of a
    bitmap, a directory or a transfer) recurse on that bound, or on fuel
    computed from it: [io_fuel] of a transfer of n bytes is n / 512 + 3 since
    each round but the first and last moves a whole block; [dir_fuel] is the
    number of entries plus 2; [parse_fuel] is 4 times the length of the line
    plus 8, as each call of the parser but four per token consumes input;
    [iappend] uses length / 512 + 3.  The functional theorems show that these
    are enough, since they state that the code returns.  Loops over memory
    without a bound in the code (strlen, the free lists of umalloc.c, the
    polls of the disk's status, the loop of mpinit) take fuel as an argument and return [None] when it
    runs out; their theorems give a sufficient amount.  The main loops of
    user programs are [ITree.iter] and need none.

    ** What is not modelled, and why

    - Start-up: main.c calls the initialisers of the other parts in order and
      starts the other processors through lapic.c; bootasm.S, entry.S,
      entryother.S and initcode.S are assembly.  The states they establish
      are hypotheses ([booted] of ProcInv.v, [machine_ok] of Seg.v) or
      computed by the modelled init functions.
    - Assembly: swtch.S, trapasm.S, vectors.S, usys.S are changes of stacks
      and registers; Proc.v is cut where swtch is called, Trap.v starts where
      alltraps calls trap.  (uthread_switch.S is modelled.)
    - Devices that are only programmed: lapic.c, ioapic.c, picirq.c, timer.c,
      uartinit and consoleinit write fixed values to the registers of devices.
    - usertests.c, forktest.c, stressfs.c, alarmtest.c, test.c are tests;
      barrier.c is an exercise for the host's threads, unfinished in the
      sources.
    - Locks other than in Spinlock.v, Proc.v and, for the lock of the clock,
      Syscall.v and Trap.v: the other parts run each critical section as one
      step, which spin_exclusion justifies.  So does [wakeup], which takes the
      lock of the process table around its change.
    - Messages printed by cprintf and printf on errors of the host, and those
      of the shell's constructors before a syntax error.  The shell's
      [malloc] is taken to succeed. *)

From stdpp Require Import base numbers list gmap strings relations.
From Stdlib Require Import ZArith Lia.

Local Open Scope Z_scope.

(** ** Machine integers

    C integers are kept at their width: a [uint] is a [Z] in [0, 2^32), and
    every arithmetic result is brought back with [u32]; [s32] reads the same
    bits as an [int]. *)

Definition u8 (x : Z) : Z := x mod 2 ^ 8.
Definition u16 (x : Z) : Z := x mod 2 ^ 16.
Definition u32 (x : Z) : Z := x mod 2 ^ 32.
Definition s16 (x : Z) : Z := (x + 2 ^ 15) mod 2 ^ 16 - 2 ^ 15.
Definition s32 (x : Z) : Z := (x + 2 ^ 31) mod 2 ^ 32 - 2 ^ 31.

Lemma u32_range x : 0 <= u32 x < 2 ^ 32.
Proof. apply Z.mod_pos_bound. lia. Qed.

Lemma u32_id x : 0 <= x < 2 ^ 32 -> u32 x = x.
Proof. apply Z.mod_small. Qed.

Lemma u8_range x : 0 <= u8 x < 256.
Proof. apply Z.mod_pos_bound. lia. Qed.

Lemma u8_id x : 0 <= x < 256 -> u8 x = x.
Proof. apply Z.mod_small. Qed.

Lemma u32_idemp x : u32 (u32 x) = u32 x.
Proof. apply Z.mod_mod. lia. Qed.

Lemma u16_range x : 0 <= u16 x < 65536.
Proof. apply Z.mod_pos_bound. lia. Qed.

Lemma u16_id x : 0 <= x < 65536 -> u16 x = x.
Proof. apply Z.mod_small. Qed.

Lemma s16_id x : - 2 ^ 15 <= x < 2 ^ 15 -> s16 x = x.
Proof. intros H. unfold s16. rewrite Z.mod_small; lia. Qed.

Lemma s32_id x : - 2 ^ 31 <= x < 2 ^ 31 -> s32 x = x.
Proof. intros H. unfold s32. rewrite Z.mod_small; lia. Qed.

Lemma s16_u16 x : s16 (u16 x) = s16 x.
Proof. unfold s16, u16. by rewrite Zplus_mod_idemp_l. Qed.

Lemma s32_u32 x : s32 (u32 x) = s32 x.
Proof. unfold s32, u32. by rewrite Zplus_mod_idemp_l. Qed.

(** ** Characters *)

(** The codes of the characters of a string literal. *)
Fixpoint chars (s : string) : list Z :=
  match s with
  | EmptyString => []
  | String c s => Z.of_nat (Ascii.nat_of_ascii c) :: chars s
  end.

(** The C string at the start of a buffer. *)
Fixpoint cstring (l : list Z) : list Z :=
  match l with [] => [] | c :: l => if c =? 0 then [] else c :: cstring l end.

(** ** Memory as words

    The words of a memory by their addresses, for code that works on words
    only, at addresses that are multiples of four. *)

Definition wmem : Type := Z -> Z.
Definition wput (m : wmem) (a v : Z) : wmem := fun x => if x =? a then v else m x.

Lemma wput_ne m x v y : y <> x -> wput m x v y = m y.
Proof. intros. unfold wput. by destruct (Z.eqb_spec y x). Qed.

Lemma wput_eq m x v : wput m x v x = v.
Proof. unfold wput. by rewrite Z.eqb_refl. Qed.

(** ** Flag words

    [flags & m], [flags |= m] and [flags &= ~m] for a word of flags. *)

Definition fhas (fl m : Z) : bool := negb (Z.land fl m =? 0).
Definition fset (fl m : Z) : Z := Z.lor fl m.
Definition fclr (fl m : Z) : Z := Z.ldiff fl m.

Lemma fhas_bit fl k : 0 <= k -> fhas fl (2 ^ k) = Z.testbit fl k.
Proof.
  intros Hk. unfold fhas.
  destruct (Z.testbit fl k) eqn:E.
  - apply negb_true_iff, Z.eqb_neq. intros H0.
    apply (f_equal (fun z => Z.testbit z k)) in H0.
    rewrite Z.land_spec, Z.pow2_bits_true, E, Z.bits_0 in H0 by lia. done.
  - apply negb_false_iff, Z.eqb_eq. apply Z.bits_inj_iff. intros j.
    rewrite Z.land_spec, Z.bits_0.
    destruct (decide (j = k)) as [->|]; [by rewrite E|].
    rewrite Z.pow2_bits_false by lia. apply andb_false_r.
Qed.

Lemma fhas_fset fl k j : 0 <= k -> 0 <= j ->
  fhas (fset fl (2 ^ k)) (2 ^ j) = bool_decide (j = k) || fhas fl (2 ^ j).
Proof.
  intros. rewrite !fhas_bit by lia. unfold fset. rewrite Z.lor_spec.
  destruct (decide (j = k)) as [->|Hne].
  - rewrite Z.pow2_bits_true by lia. rewrite bool_decide_true by done.
    by rewrite orb_true_r.
  - rewrite Z.pow2_bits_false by lia. rewrite bool_decide_false by done.
    by rewrite orb_false_r.
Qed.

Lemma fhas_fclr fl k j : 0 <= k -> 0 <= j ->
  fhas (fclr fl (2 ^ k)) (2 ^ j) = negb (bool_decide (j = k)) && fhas fl (2 ^ j).
Proof.
  intros. rewrite !fhas_bit by lia. unfold fclr. rewrite Z.ldiff_spec.
  destruct (decide (j = k)) as [->|Hne].
  - rewrite Z.pow2_bits_true by lia. rewrite bool_decide_true by done.
    by rewrite andb_false_r.
  - rewrite Z.pow2_bits_false by lia. rewrite bool_decide_false by done.
    by rewrite andb_true_r.
Qed.

(** [flg] evaluates the tests of a flag word under assignments to it. *)
Ltac flg_eval :=
  repeat match goal with
  | |- context [bool_decide (?x = ?y)] =>
      let v := eval vm_compute in (bool_decide (x = y)) in
      lazymatch v with true => idtac | false => idtac end;
      change (bool_decide (x = y)) with v
  | H : context [bool_decide (?x = ?y)] |- _ =>
      let v := eval vm_compute in (bool_decide (x = y)) in
      lazymatch v with true => idtac | false => idtac end;
      change (bool_decide (x = y)) with v in H
  end.
Ltac flg :=
  repeat first
    [ rewrite fhas_fset by lia | rewrite fhas_fclr by lia
    | match goal with H : _ |- _ => rewrite fhas_fset in H by lia end
    | match goal with H : _ |- _ => rewrite fhas_fclr in H by lia end ];
  flg_eval; cbn [negb andb orb] in *.

(** ** Little-endian fields of a byte array *)

Fixpoint le_dec (bs : list Z) : Z :=
  match bs with
  | [] => 0
  | b :: t => b + 256 * le_dec t
  end.

Fixpoint le_enc (n : nat) (x : Z) : list Z :=
  match n with
  | O => []
  | S n' => x mod 256 :: le_enc n' (x / 256)
  end.

Lemma length_le_enc n x : length (le_enc n x) = n.
Proof. revert x. induction n; intros; simpl; auto. Qed.

Lemma le_dec_enc n x : le_dec (le_enc n x) = x mod 256 ^ Z.of_nat n.
Proof.
  revert x. induction n as [|n IH]; intros x.
  - simpl. by rewrite Z.mod_1_r.
  - cbn [le_enc le_dec]. rewrite IH, Nat2Z.inj_succ, Z.pow_succ_r by lia.
    rewrite Z.rem_mul_r; lia.
Qed.

Definition bytes_ok (bs : list Z) : Prop := Forall (fun b => 0 <= b < 256) bs.

Lemma le_enc_dec bs : bytes_ok bs -> le_enc (length bs) (le_dec bs) = bs.
Proof.
  induction 1 as [|b t Hb Ht IH]; [done|]. cbn [length le_enc le_dec].
  rewrite (Z.mul_comm 256), Z_mod_plus_full, Z.div_add by lia.
  rewrite Z.mod_small, (Z.div_small b 256), Z.add_0_l by lia.
  by rewrite IH.
Qed.

Lemma le_enc_bytes n x : bytes_ok (le_enc n x).
Proof.
  revert x. induction n; intros x; constructor; [|apply IHn].
  apply Z.mod_pos_bound. lia.
Qed.

Lemma le_dec_range bs : bytes_ok bs -> 0 <= le_dec bs < 256 ^ Z.of_nat (length bs).
Proof.
  induction 1 as [|b t Hb Ht IH]; [simpl; lia|].
  cbn [length le_dec]. rewrite Nat2Z.inj_succ, Z.pow_succ_r by lia. lia.
Qed.

(** [slice o n d] is the [n] bytes of [d] at offset [o]; [splice o bs d] is
    [d] after [memmove(d + o, bs, sizeof bs)]. *)

Section slices.
Context {A : Type}.
  Implicit Types (d bs : list A).

Definition slice (o n : nat) (d : list A) : list A := take n (drop o d).
Definition splice (o : nat) (bs d : list A) : list A :=
    take o d ++ bs ++ drop (o + length bs) d.

Lemma length_slice o n d : (o + n <= length d)%nat -> length (slice o n d) = n.
Proof. intros. unfold slice. rewrite length_take, length_drop. lia. Qed.

Lemma length_splice o bs d :
    (o + length bs <= length d)%nat -> length (splice o bs d) = length d.
Proof.
    intros. unfold splice. rewrite !length_app, length_take, length_drop. lia.
Qed.

Lemma lookup_slice o n d i :
    slice o n d !! i = if decide (i < n)%nat then d !! (o + i)%nat else None.
Proof.
    unfold slice. case_decide.
    - by rewrite lookup_take_lt, lookup_drop by lia.
    - by rewrite lookup_take_ge by lia.
Qed.

Lemma lookup_splice o bs d i : (o + length bs <= length d)%nat ->
    splice o bs d !! i =
      if decide (o <= i < o + length bs)%nat then bs !! (i - o)%nat else d !! i.
Proof.
    intros Hl. unfold splice. case_decide as Hc.
    - rewrite lookup_app_r by (rewrite length_take; lia).
      rewrite length_take, Nat.min_l by lia. by rewrite lookup_app_l by lia.
    - destruct (decide (i < o)%nat).
      + rewrite lookup_app_l by (rewrite length_take; lia).
        by rewrite lookup_take_lt by lia.
      + rewrite lookup_app_r by (rewrite length_take; lia).
        rewrite length_take, Nat.min_l by lia.
        rewrite lookup_app_r by lia. rewrite lookup_drop. f_equal. lia.
Qed.

Lemma slice_splice_same o n bs d : length bs = n ->
    (o + n <= length d)%nat -> slice o n (splice o bs d) = bs.
Proof.
    intros <- Hl. apply list_eq. intros i. rewrite lookup_slice.
    case_decide as Hi.
    - rewrite lookup_splice, decide_True by lia. f_equal. lia.
    - symmetry. apply lookup_ge_None_2. lia.
Qed.

Lemma slice_splice_disj o n p bs d : (p + length bs <= length d)%nat ->
    (o + n <= p \/ p + length bs <= o)%nat ->
    slice o n (splice p bs d) = slice o n d.
Proof.
    intros Hl Hd. apply list_eq. intros i. rewrite !lookup_slice.
    case_decide as Hi; [|done]. by rewrite lookup_splice, decide_False by lia.
Qed.

Lemma splice_slice_id o n d :
    (o + n <= length d)%nat -> splice o (slice o n d) d = d.
Proof.
    intros Hl. apply list_eq. intros i.
    rewrite lookup_splice; rewrite !length_slice by lia; [|lia].
    case_decide as Hi; [|done].
    rewrite lookup_slice, decide_True by lia. f_equal. lia.
Qed.

Lemma splice_splice_same o bs bs' d : length bs = length bs' ->
    (o + length bs <= length d)%nat ->
    splice o bs' (splice o bs d) = splice o bs' d.
Proof.
    intros He Hl. apply list_eq. intros i.
    rewrite !lookup_splice; rewrite ?length_splice; try lia.
    repeat case_decide; try done; lia.
Qed.
End slices.

(** Fields of a C struct laid out in a byte array. *)

Definition get_le (n o : nat) (d : list Z) : Z := le_dec (slice o n d).
Definition put_le (n o : nat) (x : Z) (d : list Z) : list Z := splice o (le_enc n x) d.

Lemma length_put_le n o x d :
  (o + n <= length d)%nat -> length (put_le n o x d) = length d.
Proof. intros. unfold put_le. apply length_splice. by rewrite length_le_enc. Qed.

Lemma get_put_le n o x d : (o + n <= length d)%nat ->
  get_le n o (put_le n o x d) = x mod 256 ^ Z.of_nat n.
Proof.
  intros. unfold get_le, put_le.
  rewrite slice_splice_same by (rewrite ?length_le_enc; lia). apply le_dec_enc.
Qed.

Lemma get_put_le_disj n o m p x d : (p + m <= length d)%nat ->
  (o + n <= p \/ p + m <= o)%nat -> get_le n o (put_le m p x d) = get_le n o d.
Proof.
  intros. unfold get_le, put_le. f_equal.
  apply slice_splice_disj; rewrite length_le_enc; lia.
Qed.

(** Arrays are C arrays of a fixed length: an access out of range is the
    default, and every use in the models is in range or checked. *)

Definition aget {A} (d : A) (l : list A) (i : Z) : A :=
  if decide (0 <= i) then default d (l !! Z.to_nat i) else d.
Definition aset {A} (l : list A) (i : Z) (x : A) : list A :=
  if decide (0 <= i) then <[Z.to_nat i := x]> l else l.

Lemma length_aset {A} (l : list A) i x : length (aset l i x) = length l.
Proof. unfold aset. case_decide; [apply length_insert|done]. Qed.

Lemma aget_aset_eq {A} (d : A) l i x :
  0 <= i < Z.of_nat (length l) -> aget d (aset l i x) i = x.
Proof.
  intros. unfold aget, aset. rewrite !decide_True by lia.
  by rewrite list_lookup_insert_eq by lia.
Qed.

Lemma aget_aset_ne {A} (d : A) l i j x : i <> j -> aget d (aset l i x) j = aget d l j.
Proof.
  intros. unfold aget, aset. repeat case_decide; try done.
  by rewrite list_lookup_insert_ne by lia.
Qed.

Lemma aset_aget {A} (d : A) l i :
  0 <= i < Z.of_nat (length l) -> aset l i (aget d l i) = l.
Proof.
  intros. unfold aget, aset. rewrite !decide_True by lia.
  destruct (lookup_lt_is_Some_2 l (Z.to_nat i)) as [x Hx]; [lia|].
  rewrite Hx. by apply list_insert_id.
Qed.

(** ** The kernel monad

    Kernel code threads a state, may [panic], and may block in [sleep].
    [Sleep c s] is a process that has gone to sleep on channel [c] leaving the
    state [s] behind. *)

Inductive wchan : Type :=
| WBuf (i : nat)
| WLog
| WInode (i : nat)
| WProc (i : nat)
| WTicks
| WInput
| WAddr (a : Z).
#[export] Instance wchan_eq_dec : EqDecision wchan.
Proof. solve_decision. Defined.

Inductive res (S A : Type) : Type :=
| Ok (a : A) (s : S)
| Panic (msg : string)
| Sleep (c : wchan) (s : S).
Arguments Ok {S A} a s.
Arguments Panic {S A} msg.
Arguments Sleep {S A} c s.

Definition M (S A : Type) : Type := S -> res S A.

Section monad.
Context {S : Type}.

Definition ret {A} (a : A) : M S A := fun s => Ok a s.
Definition bind {A B} (m : M S A) (k : A -> M S B) : M S B := fun s =>
    match m s with
    | Ok a s' => k a s'
    | Panic msg => Panic msg
    | Sleep c s' => Sleep c s'
    end.
Definition panic {A} (msg : string) : M S A := fun _ => Panic msg.
Definition sleep {A} (c : wchan) : M S A := fun s => Sleep c s.
Definition gets {A} (f : S -> A) : M S A := fun s => Ok (f s) s.
Definition modify (f : S -> S) : M S unit := fun s => Ok tt (f s).

  (** Run an operation of a component whose state is a field of [S]. *)
Definition zoom {T A} (get : S -> T) (put : T -> S -> S) (m : M T A) : M S A :=
    fun s =>
      match m (get s) with
      | Ok a t => Ok a (put t s)
      | Panic msg => Panic msg
      | Sleep c t => Sleep c (put t s)
      end.
End monad.

Declare Scope kernel_scope.
Delimit Scope kernel_scope with kernel.
Notation "'let*' x ':=' m 'in' k" := (bind m (fun x => k))
  (at level 10, x pattern, m at level 100, k at level 200) : kernel_scope.
Notation "m ';;;' k" := (bind m (fun _ => k))
  (at level 100, k at level 200, right associativity) : kernel_scope.

(** ** Automation *)

Create HintDb xv6.
Create Rewrite HintDb xv6_len.

#[export] Hint Resolve u32_range u8_range u16_range le_enc_bytes : xv6.
#[export] Hint Rewrite @length_aset @length_le_enc @length_app @length_take
  @length_drop @length_insert @length_replicate @length_alter : xv6_len.

(** [len] closes goals on list lengths. *)
Ltac len := autorewrite with xv6_len in *; simpl in *; try lia.

(** [divlia] is [lia] with the equations of division by constants. *)
Ltac divlia := Z.to_euclidean_division_equations; lia.

(** [deex] opens every existential and conjunction of the context. *)
Ltac deex :=
  repeat match goal with
  | H : exists _, _ |- _ => let x := fresh "x" in destruct H as [x H]
  | H : _ /\ _ |- _ => let H' := fresh H in destruct H as [H H']
  end.

(** [bool_case] splits on the boolean scrutinee of the goal and moves the
    comparison it decides to the context. *)
Ltac bool_prop :=
  repeat match goal with
  | H : (_ =? _) = true |- _ => apply Z.eqb_eq in H
  | H : (_ =? _) = false |- _ => apply Z.eqb_neq in H
  | H : (_ <? _) = true |- _ => apply Z.ltb_lt in H
  | H : (_ <? _) = false |- _ => apply Z.ltb_ge in H
  | H : (_ <=? _) = true |- _ => apply Z.leb_le in H
  | H : (_ <=? _) = false |- _ => apply Z.leb_gt in H
  | H : (_ && _)%bool = true |- _ => apply andb_true_iff in H as [? ?]
  | H : (_ || _)%bool = false |- _ => apply orb_false_iff in H as [? ?]
  | H : negb _ = true |- _ => apply negb_true_iff in H
  | H : negb _ = false |- _ => apply negb_false_iff in H
  | H : bool_decide _ = true |- _ => apply bool_decide_eq_true in H
  | H : bool_decide _ = false |- _ => apply bool_decide_eq_false in H
  end.
Ltac bool_case :=
  match goal with
  | |- context [if ?b then _ else _] =>
      let E := fresh "E" in destruct b eqn:E; bool_prop
  end.

(** An invariant of a step relation holds in every reachable state. *)
Lemma rtc_invariant {A} (R : relation A) (P : A -> Prop) x y :
  (forall x y, P x -> R x y -> P y) -> rtc R x y -> P x -> P y.
Proof. intros HP Hr. induction Hr; eauto. Qed.

(** ** Finite sets *)

Lemma size_union_le `{Countable A} (X Y : gset A) : (size (X ∪ Y) <= size X + size Y)%nat.
Proof. rewrite size_union_alt. assert (size (Y ∖ X) <= size Y)%nat by (apply subseteq_size; set_solver). lia. Qed.

Lemma size_add_le `{Countable A} (x : A) (Y : gset A) : (size ({[x]} ∪ Y) <= S (size Y))%nat.
Proof. etrans; [apply size_union_le|]. by rewrite size_singleton. Qed.
