(* ===== verification/Disk.v ===== *)
(** * Buffers and disk drivers (buf.h, memide.c)

    The buffer structure, the interface a disk driver promises to the buffer
    cache ([Driver], [DriverOk]) and the in-memory driver of memide.c as an
    instance of it.  [Traced] wraps a driver with the history of its disk
    images, one per write, which is what a crash can leave behind. *)

From stdpp Require Import base numbers list gmap strings.
From Stdlib Require Import ZArith Lia.
From S2P Require Import Prelude.

Local Open Scope Z_scope.
Local Open Scope kernel_scope.

Definition BSIZE : nat := 512.

Definition B_BUSY : Z := 2 ^ 0.
Definition B_VALID : Z := 2 ^ 1.
Definition B_DIRTY : Z := 2 ^ 2.

(** [struct buf]; a pointer to a buffer is its index in the buffer cache. *)
Record buf : Type := Buf {
  flags : Z;
  dev : Z;
  sector : Z;
  prev : nat;
  next : nat;
  data : list Z
}.

Definition set_flags (fl : Z) (b : buf) : buf :=
  Buf fl (dev b) (sector b) (prev b) (next b) (data b).
Definition set_key (dv sec : Z) (b : buf) : buf :=
  Buf (flags b) dv sec (prev b) (next b) (data b).
Definition set_prev (p : nat) (b : buf) : buf :=
  Buf (flags b) (dev b) (sector b) p (next b) (data b).
Definition set_next (p : nat) (b : buf) : buf :=
  Buf (flags b) (dev b) (sector b) (prev b) p (data b).
Definition set_data (x : list Z) (b : buf) : buf :=
  Buf (flags b) (dev b) (sector b) (prev b) (next b) x.

Definition busy (b : buf) : bool := fhas (flags b) B_BUSY.
Definition valid (b : buf) : bool := fhas (flags b) B_VALID.
Definition dirty (b : buf) : bool := fhas (flags b) B_DIRTY.

(** [dev = -1] marks a buffer of the cache that has never been used. *)
Definition NODEV : Z := u32 (-1).

(** ** What a disk driver promises

    [iderw b] synchronises the buffer [b] with the disk; [image d dv sec] is
    the contents of a sector, [None] where there is none. *)

Class Driver (D : Type) : Type := {
  iderw : buf -> M D buf;
  image : D -> Z -> Z -> option (list Z);
  drv_wf : D -> Prop
}.

Class DriverOk (D : Type) `{Driver D} : Prop := {
  image_nodev d sec : image d NODEV sec = None;
  image_map d : exists img : gmap (Z * Z) (list Z), forall k, img !! k = image d k.1 k.2;
  image_length d dv sec x : drv_wf d -> image d dv sec = Some x -> length x = BSIZE;
  iderw_notbusy b d : busy b = false -> exists msg, iderw b d = Panic msg;
  iderw_nothing b d : valid b = true -> dirty b = false ->
    exists msg, iderw b d = Panic msg;
  iderw_nosector b d : 0 <= sector b -> image d (dev b) (sector b) = None ->
    exists msg, iderw b d = Panic msg;
  iderw_write b d : drv_wf d -> busy b = true -> dirty b = true ->
    length (data b) = BSIZE -> is_Some (image d (dev b) (sector b)) ->
    exists d', iderw b d = Ok (set_flags (fset (fclr (flags b) B_DIRTY) B_VALID) b) d' /\
      drv_wf d' /\
      forall dv sec, image d' dv sec =
        if decide (dv = dev b /\ sec = sector b) then Some (data b) else image d dv sec;
  iderw_read b d x : drv_wf d -> busy b = true -> dirty b = false -> valid b = false ->
    image d (dev b) (sector b) = Some x ->
    exists d', iderw b d = Ok (set_data x (set_flags (fset (flags b) B_VALID) b)) d' /\
      drv_wf d' /\ forall dv sec, image d' dv sec = image d dv sec
}.

(** ** The in-memory disk of memide.c *)

Module Memide.

Record disk : Type := Disk { memdisk : list Z; disksize : Z }.

(** [ideinit]: the disk is the file-system image linked into the kernel. *)
Definition ideinit (fs_img : list Z) : disk :=
  Disk fs_img (Z.of_nat (length fs_img) / 512).

Definition offset (b : buf) : nat := Z.to_nat (u32 (sector b * 512)).

Definition iderw (b : buf) : M disk buf := fun d =>
  if negb (busy b) then Panic "iderw: buf not busy"
  else if Z.land (flags b) (Z.lor B_VALID B_DIRTY) =? B_VALID
  then Panic "iderw: nothing to do"
  else if negb (dev b =? 1) then Panic "iderw: request not for disk 1"
  else if disksize d <=? sector b then Panic "iderw: sector out of range"
  else if dirty b then
    Ok (set_flags (fset (fclr (flags b) B_DIRTY) B_VALID) b)
       (Disk (splice (offset b) (data b) (memdisk d)) (disksize d))
  else
    Ok (set_data (slice (offset b) BSIZE (memdisk d))
         (set_flags (fset (flags b) B_VALID) b)) d.

Definition image (d : disk) (dv sec : Z) : option (list Z) :=
  if decide (dv = 1 /\ 0 <= sec < disksize d)
  then Some (slice (Z.to_nat (sec * 512)) BSIZE (memdisk d)) else None.

Definition wf (d : disk) : Prop :=
  512 * disksize d <= Z.of_nat (length (memdisk d)) < 2 ^ 32.

#[global] Instance driver : Driver disk := {
  Disk.iderw := iderw; Disk.image := image; drv_wf := wf
}.

Lemma ideinit_wf img : Z.of_nat (length img) < 2 ^ 32 -> wf (ideinit img).
Proof. intros. unfold wf, ideinit; simpl. split; [|done]. divlia. Qed.

(** The two tests of the flag word that [iderw] makes. *)
Lemma nothing_to_do fl :
  (Z.land fl (Z.lor B_VALID B_DIRTY) =? B_VALID) = fhas fl B_VALID && negb (fhas fl B_DIRTY).
Proof.
  change B_VALID with (2 ^ 1). change B_DIRTY with (2 ^ 2).
  rewrite !fhas_bit by lia.
  destruct (Z.eqb_spec (Z.land fl (Z.lor (2 ^ 1) (2 ^ 2))) (2 ^ 1)) as [E|E].
  - pose proof (f_equal (fun z => Z.testbit z 1) E) as E1.
    pose proof (f_equal (fun z => Z.testbit z 2) E) as E2.
    cbv beta in E1, E2. rewrite Z.land_spec, andb_true_r in E1, E2.
    rewrite E1, E2. done.
  - symmetry. apply not_true_iff_false. intros Hb. bool_prop. apply E.
    apply Z.bits_inj_iff. intros j. rewrite Z.land_spec, Z.lor_spec.
    destruct (decide (j = 1)) as [->|]; [by rewrite H|].
    destruct (decide (j = 2)) as [->|]; [by rewrite H0|].
    rewrite !Z.pow2_bits_false by lia. by rewrite andb_false_r.
Qed.

Lemma sector_offset d b : wf d -> dev b = 1 /\ 0 <= sector b < disksize d ->
  offset b = Z.to_nat (sector b * 512) /\
  (offset b + BSIZE <= length (memdisk d))%nat.
Proof.
  unfold wf, offset, BSIZE. intros Hwf [_ Hs]. rewrite u32_id by lia. lia.
Qed.

Lemma image_finite d :
  exists img : gmap (Z * Z) (list Z), forall k, img !! k = image d k.1 k.2.
Proof.
  set (f := fun i : nat => (1, Z.of_nat i) : Z * Z).
  set (sectors := list_to_set (f <$> seq 0 (Z.to_nat (disksize d))) : gset (Z * Z)).
  exists (map_imap (fun k _ => image d k.1 k.2) (gset_to_gmap () sectors)).
  intros k. rewrite map_lookup_imap, lookup_gset_to_gmap.
  destruct (decide (k ∈ sectors)) as [Hk|Hk].
  - by rewrite option_guard_True.
  - rewrite option_guard_False by done. simpl. unfold image. rewrite decide_False; [done|].
    intros [H1 H2]. apply Hk. apply elem_of_list_to_set, list_elem_of_fmap.
    exists (Z.to_nat k.2). split; [|rewrite elem_of_seq; lia].
    unfold f. destruct k; simpl in *. f_equal; lia.
Qed.

#[global] Instance driver_ok : DriverOk disk.
Proof.
  split; cbn.
  - intros d sec. unfold image. rewrite decide_False; [done|]. by intros [? _].
  - apply image_finite.
  - intros d dv sec x Hwf. unfold image. case_decide as H; [|done].
    intros [= <-]. apply length_slice. unfold wf, BSIZE in *. lia.
  - intros b d Hb. unfold iderw. rewrite Hb. eauto.
  - intros b d Hv Hd. unfold iderw. rewrite nothing_to_do.
    unfold valid, dirty in *. rewrite Hv, Hd. bool_case; eauto.
  - intros b d Hs. unfold image, iderw. case_decide as H; [done|]. intros _.
    repeat (bool_case; eauto); exfalso; apply H; lia.
  - intros b d Hwf Hb Hd Hl Hs. unfold iderw.
    rewrite Hb, nothing_to_do. unfold dirty in *. rewrite Hd, andb_false_r. simpl.
    unfold image in Hs. case_decide as Hc; [|by destruct Hs]. clear Hs.
    destruct (sector_offset d b Hwf Hc) as [Ho Hle].
    destruct Hc as [H1 H2]. rewrite H1. simpl.
    destruct (Z.leb_spec (disksize d) (sector b)); [lia|].
    eexists; split; [done|]. split.
    { unfold wf in *; simpl. rewrite length_splice by (rewrite Hl; done). lia. }
    intros dv sec. unfold image; simpl.
    destruct (decide (dv = 1 /\ 0 <= sec < disksize d)) as [[-> Hsec]|Hn].
    + case_decide as Hk.
      * destruct Hk as [_ ->]. f_equal. rewrite <- Ho. by apply slice_splice_same.
      * f_equal. apply slice_splice_disj; rewrite Hl; [done|].
        rewrite Ho. unfold BSIZE. assert (sec <> sector b) by naive_solver. lia.
    + rewrite decide_False; [done|]. intros [-> ->]. by apply Hn.
  - intros b d x Hwf Hb Hd Hv Hs. unfold iderw.
    rewrite Hb, nothing_to_do. unfold valid, dirty in *. rewrite Hd, Hv. simpl.
    unfold image in Hs. case_decide as Hc; [|done]. injection Hs as <-.
    destruct (sector_offset d b Hwf Hc) as [Ho Hle].
    destruct Hc as [H1 H2]. rewrite H1. simpl.
    destruct (Z.leb_spec (disksize d) (sector b)); [lia|].
    eexists; split; [by rewrite Ho|]. done.
Qed.

End Memide.

(** ** History of a disk *)

Module Traced.
Section traced.
Context {D : Type} `{Driver D}.

(** [hist] lists the driver's states, the latest first: one entry per
    request that reached the disk. *)
Record t : Type := Traced { now : D; hist : list D }.

(** The states of a history are well formed and have the same sectors. *)
Definition like (d d' : D) : Prop :=
  drv_wf d' /\ forall dv sec, is_Some (image d' dv sec) <-> is_Some (image d dv sec).

Definition iderw (b : buf) : M t buf := fun s =>
  match Disk.iderw b (now s) with
  | Ok b' d => Ok b' (Traced d (d :: hist s))
  | Panic msg => Panic msg
  | Sleep c d => Sleep c (Traced d (hist s))
  end.

#[global] Instance driver : Driver t := {
  Disk.iderw := iderw;
  image s := image (now s);
  drv_wf s := drv_wf (now s) /\ Forall (like (now s)) (hist s)
}.

Lemma like_step d d' h : drv_wf d' ->
  (forall dv sec, is_Some (image d' dv sec) <-> is_Some (image d dv sec)) ->
  Forall (like d) h -> drv_wf d' /\ Forall (like d') (d' :: h).
Proof.
  intros Hwf Hd Hh. split; [done|]. constructor; [done|].
  eapply Forall_impl; [done|]. intros d2 [Hwf2 Hd2]. split; [done|].
  intros dv sec. by rewrite Hd2, Hd.
Qed.

#[global] Instance driver_ok `{!DriverOk D} : DriverOk t.
Proof.
  split; cbn; unfold iderw.
  - intros. apply image_nodev.
  - intros d. apply image_map.
  - intros d dv sec x [Hwf _]. by apply image_length.
  - intros b d Hb. destruct (iderw_notbusy b (now d) Hb) as [msg ->]. eauto.
  - intros b d Hv Hd. destruct (iderw_nothing b (now d) Hv Hd) as [msg ->]. eauto.
  - intros b d Hs Hi. destruct (iderw_nosector b (now d) Hs Hi) as [msg ->]. eauto.
  - intros b d [Hwf Hh] Hb Hd Hl Hs.
    destruct (iderw_write b (now d) Hwf Hb Hd Hl Hs) as (d' & -> & ? & Himg).
    eexists. split; [done|]. split; [|done]. apply (like_step (now d)); try done.
    intros dv sec. rewrite Himg. case_decide as E; [|done]. destruct E as [-> ->].
    split; intros _; [done|by eexists].
  - intros b d x [Hwf Hh] Hb Hd Hv Hs.
    destruct (iderw_read b (now d) x Hwf Hb Hd Hv Hs) as (d' & -> & ? & Himg).
    eexists. split; [done|]. split; [|done]. apply (like_step (now d)); try done.
    intros dv sec. by rewrite Himg.
Qed.

End traced.
Arguments t D : clear implicits.
End Traced.
