(* ===== verification/Ide.v ===== *)
(** * The IDE driver (ide.c)

    The queue of requests and the programming of the controller through its
    ports.  The controller itself is a parameter ([Ata]) with what its manual
    promises as laws ([AtaOk]).  The theorem: requests reach the disk in the
    order of the calls, one at a time, and each interrupt completes the oldest
    one and starts the next. *)

From stdpp Require Import base numbers list strings relations.
From Stdlib Require Import ZArith Lia.
From S2P Require Import Prelude Disk.

Local Open Scope Z_scope.

Definition IDE_BSY : Z := 0x80.
Definition IDE_DRDY : Z := 0x40.
Definition IDE_DF : Z := 0x20.
Definition IDE_ERR : Z := 0x01.
Definition IDE_CMD_READ : Z := 0x20.
Definition IDE_CMD_WRITE : Z := 0x30.

(** ** The controller

    Its ports, the contents of its disks, and the command it was given and
    has not finished: the drive, the sector and the data of a write. *)

Class Ata (D : Type) : Type := {
  inb : Z -> D -> Z * D;
  outb : Z -> Z -> D -> D;
  outsl : Z -> list Z -> D -> D;
  insl : Z -> nat -> D -> list Z * D;
  media : D -> Z -> Z -> option (list Z);
  doing : D -> option (Z * Z * option (list Z));
  finishes : D -> D -> Prop
}.

(** The command block: device control, count, the sector in three bytes, and
    the drive with the rest of the sector. *)
Definition command {D} `{Ata D} (a b c e : Z) (d : D) : D :=
  outb 0x1f6 e (outb 0x1f5 c (outb 0x1f4 b (outb 0x1f3 a (outb 0x1f2 1 (outb 0x3f6 0 d))))).

Definition drive (e : Z) : Z := Z.land (Z.shiftr e 4) 1.
Definition lba (a b c e : Z) : Z :=
  a + Z.shiftl b 8 + Z.shiftl c 16 + Z.shiftl (Z.land e 15) 24.

Class AtaOk (D : Type) `{Ata D} : Prop := {
  (** Reading the status changes nothing, and an idle controller is ready. *)
  ata_status d : (inb 0x1f7 d).2 = d;
  ata_ready d : doing d = None -> Z.land (inb 0x1f7 d).1 (Z.lor IDE_BSY IDE_DRDY) = IDE_DRDY;
  ata_read d a b c e : doing d = None ->
    let d' := outb 0x1f7 IDE_CMD_READ (command a b c e d) in
    doing d' = Some (drive e, lba a b c e, None) /\ forall v l, media d' v l = media d v l;
  ata_write d a b c e x : doing d = None -> length x = BSIZE ->
    let d' := outsl 0x1f0 x (outb 0x1f7 IDE_CMD_WRITE (command a b c e d)) in
    doing d' = Some (drive e, lba a b c e, Some x) /\ forall v l, media d' v l = media d v l;
  (** A finished command on a sector that exists. *)
  ata_finish_write d d' v l x : finishes d d' -> doing d = Some (v, l, Some x) -> is_Some (media d v l) ->
    doing d' = None /\
    forall v' l', media d' v' l' = if decide (v' = v /\ l' = l) then Some x else media d v' l';
  ata_finish_read d d' v l x : finishes d d' -> doing d = Some (v, l, None) -> media d v l = Some x ->
    doing d' = None /\ (forall v' l', media d' v' l' = media d v' l') /\
    Z.land (inb 0x1f7 d').1 (Z.lor IDE_DF IDE_ERR) = 0 /\
    (insl 0x1f0 BSIZE d').1 = x /\ doing (insl 0x1f0 BSIZE d').2 = None /\
    (forall v' l', media (insl 0x1f0 BSIZE d').2 v' l' = media d v' l')
}.

Section driver.
Context {D : Type} `{Ata D}.

(** The buffers, [qnext] of each, the queue, and the channels on which
    [wakeup] was called, the latest first. *)
Record ide : Type := IdeState {
  bufs : nat -> buf; qnext : nat -> option nat; idequeue : option nat; havedisk1 : bool;
  woken : list wchan; ata : D
}.

Definition set_ata (d : D) (s : ide) : ide :=
  IdeState (bufs s) (qnext s) (idequeue s) (havedisk1 s) (woken s) d.
Definition set_queue (q : option nat) (s : ide) : ide :=
  IdeState (bufs s) (qnext s) q (havedisk1 s) (woken s) (ata s).
Definition set_qnext (i : nat) (q : option nat) (s : ide) : ide :=
  IdeState (bufs s) (fun j => if decide (j = i) then q else qnext s j) (idequeue s) (havedisk1 s) (woken s) (ata s).
Definition upd_buf (i : nat) (f : buf -> buf) (s : ide) : ide :=
  IdeState (fun j => if decide (j = i) then f (bufs s j) else bufs s j) (qnext s) (idequeue s) (havedisk1 s)
    (woken s) (ata s).
Definition wakeup (i : nat) (s : ide) : ide :=
  IdeState (bufs s) (qnext s) (idequeue s) (havedisk1 s) (WBuf i :: woken s) (ata s).

(** [fuel] bounds the polls of the status. *)
Fixpoint idewait (fuel : nat) (checkerr : bool) (d : D) : option (Z * D) :=
  match fuel with
  | O => None
  | S f =>
      let '(r, d) := inb 0x1f7 d in
      if negb (Z.land r (Z.lor IDE_BSY IDE_DRDY) =? IDE_DRDY) then idewait f checkerr d
      else if checkerr && negb (Z.land r (Z.lor IDE_DF IDE_ERR) =? 0) then Some (-1, d)
      else Some (0, d)
  end.

(** The test for the second disk: at most [n] looks at the status. *)
Fixpoint probe (n : nat) (d : D) : bool * D :=
  match n with
  | O => (false, d)
  | S n => let '(r, d) := inb 0x1f7 d in if negb (r =? 0) then (true, d) else probe n d
  end.

Definition ideinit (fuel : nat) (s : ide) : option ide :=
  r ← idewait fuel false (ata s);
  let d := outb 0x1f6 (Z.lor 0xe0 (Z.shiftl 1 4)) r.2 in
  let '(found, d) := probe 1000 d in
  let d := outb 0x1f6 (Z.lor 0xe0 (Z.shiftl 0 4)) d in
  Some (IdeState (bufs s) (qnext s) (idequeue s) (found || havedisk1 s) (woken s) d).

Definition idestart (fuel : nat) (b : option nat) (s : ide) : option (res ide unit) :=
  match b with
  | None => Some (Panic "idestart")
  | Some i =>
      let b := bufs s i in
      r ← idewait fuel false (ata s);
      let d := command (Z.land (sector b) 0xff) (Z.land (Z.shiftr (sector b) 8) 0xff)
        (Z.land (Z.shiftr (sector b) 16) 0xff)
        (Z.lor (Z.lor 0xe0 (Z.shiftl (Z.land (dev b) 1) 4)) (Z.land (Z.shiftr (sector b) 24) 0x0f)) r.2 in
      let d :=
        if dirty b then outsl 0x1f0 (data b) (outb 0x1f7 IDE_CMD_WRITE d)
        else outb 0x1f7 IDE_CMD_READ d in
      Some (Ok tt (set_ata d s))
  end.

Definition ideintr (fuel : nat) (s : ide) : option (res ide unit) :=
  match idequeue s with
  | None => Some (Ok tt s)
  | Some i =>
      let s := set_queue (qnext s i) s in
      s ← (if negb (dirty (bufs s i)) then
             r ← idewait fuel true (ata s);
             if 0 <=? r.1 then
               let '(x, d) := insl 0x1f0 BSIZE r.2 in Some (upd_buf i (set_data x) (set_ata d s))
             else Some (set_ata r.2 s)
           else Some s);
      let s := upd_buf i (fun b => set_flags (fclr (fset (flags b) B_VALID) B_DIRTY) b) s in
      let s := wakeup i s in
      match idequeue s with
      | Some j => idestart fuel (Some j) s
      | None => Some (Ok tt s)
      end
  end.

(** The end of the queue that starts at [i]. *)
Fixpoint queue_end (fuel : nat) (s : ide) (i : nat) : option nat :=
  match fuel with
  | O => None
  | S f => match qnext s i with None => Some i | Some j => queue_end f s j end
  end.

(** The loop at the end of [iderw]. *)
Definition iderw_wait (i : nat) (s : ide) : res ide unit :=
  if Z.land (flags (bufs s i)) (Z.lor B_VALID B_DIRTY) =? B_VALID then Ok tt s else Sleep (WBuf i) s.

(** [fuel] also bounds the walk to the end of the queue. *)
Definition iderw (fuel : nat) (i : nat) (s : ide) : option (res ide unit) :=
  let b := bufs s i in
  if negb (busy b) then Some (Panic "iderw: buf not busy")
  else if Z.land (flags b) (Z.lor B_VALID B_DIRTY) =? B_VALID then Some (Panic "iderw: nothing to do")
  else if negb (dev b =? 0) && negb (havedisk1 s) then Some (Panic "iderw: ide disk 1 not present")
  else
    let s := set_qnext i None s in
    s ← match idequeue s with
        | None => Some (set_queue (Some i) s)
        | Some h => l ← queue_end fuel s h; Some (set_qnext l (Some i) s)
        end;
    r ← (if decide (idequeue s = Some i) then idestart fuel (Some i) s else Some (Ok tt s));
    match r with
    | Ok _ s => Some (iderw_wait i s)
    | Panic msg => Some (Panic msg)
    | Sleep c s => Some (Sleep c s)
    end.

(** ** Sectors and the command block *)

Lemma drive_bits x y : (x = 0 \/ x = 1) -> 0 <= y < 16 ->
  let e := Z.lor (Z.lor 0xe0 (Z.shiftl x 4)) y in drive e = x /\ Z.land e 15 = y.
Proof.
  intros Hx Hy. assert (Hy' : y ∈ (Z.of_nat <$> seq 0 16)).
  { apply list_elem_of_fmap. exists (Z.to_nat y). rewrite elem_of_seq. lia. }
  cbn in Hy'. repeat (apply elem_of_cons in Hy' as [->|Hy']; [destruct Hx as [->| ->]; by vm_compute|]).
  by apply elem_of_nil in Hy'.
Qed.

Lemma lba_sector sec dv : 0 <= sec < 2 ^ 28 -> (dv = 0 \/ dv = 1) ->
  let e := Z.lor (Z.lor 0xe0 (Z.shiftl (Z.land dv 1) 4)) (Z.land (Z.shiftr sec 24) 0x0f) in
  drive e = dv /\
  lba (Z.land sec 0xff) (Z.land (Z.shiftr sec 8) 0xff) (Z.land (Z.shiftr sec 16) 0xff) e = sec.
Proof.
  intros Hs Hd. assert (Hdv : Z.land dv 1 = dv) by (destruct Hd as [->| ->]; done). rewrite Hdv.
  change 0x0f with (Z.ones 4). change 0xff with (Z.ones 8). rewrite !Z.land_ones, !Z.shiftr_div_pow2 by lia.
  destruct (drive_bits dv (sec / 2 ^ 24 mod 2 ^ 4) Hd) as [H1 H2]; [apply Z.mod_pos_bound; lia|].
  cbn zeta in *. split; [exact H1|]. unfold lba. rewrite H2, !Z.shiftl_mul_pow2 by lia.
  change (2 ^ 4) with 16. change (2 ^ 8) with 256. change (2 ^ 16) with 65536. change (2 ^ 24) with 16777216. divlia.
Qed.

(** ** The queue *)

Context `{!AtaOk D}.

(** What the buffer asks of the disk. *)
Definition request (s : ide) (i : nat) : Z * Z * option (list Z) :=
  let b := bufs s i in (dev b, sector b, if dirty b then Some (data b) else None).

(** A buffer that may be handed to [iderw]: owned, with something to do, and
    for a sector that exists. *)
Record wanted (s : ide) (i : nat) : Prop := Wanted {
  want_busy : busy (bufs s i) = true;
  want_todo : (Z.land (flags (bufs s i)) (Z.lor B_VALID B_DIRTY) =? B_VALID) = false;
  want_data : length (data (bufs s i)) = BSIZE;
  want_sector : 0 <= sector (bufs s i) < 2 ^ 28;
  want_dev : dev (bufs s i) = 0 \/ (dev (bufs s i) = 1 /\ havedisk1 s = true);
  want_media : is_Some (media (ata s) (dev (bufs s i)) (sector (bufs s i)))
}.

(** The queue is the list [q], and the controller works for its head. *)
Record queued (s : ide) (q : list nat) : Prop := Queued {
  q_nodup : NoDup q;
  q_head : idequeue s = head q;
  q_links : forall k i, q !! k = Some i -> qnext s i = q !! S k;
  q_wanted : forall i, i ∈ q -> wanted s i;
  q_doing : doing (ata s) = request s <$> head q
}.

Lemma idewait_idle fuel d : doing d = None -> idewait (S fuel) false d = Some (0, d).
Proof.
  intros Hd. cbn [idewait]. pose proof (ata_ready _ Hd) as Hr. pose proof (ata_status d) as Hs.
  destruct (inb 0x1f7 d) as [r d']. simpl in *. subst. by rewrite Hr, Z.eqb_refl.
Qed.

(** The same buffers and disks. *)
Record alike (s s' : ide) : Prop := Alike {
  al_bufs : forall i, bufs s' i = bufs s i;
  al_have : havedisk1 s' = havedisk1 s;
  al_media : forall v l, media (ata s') v l = media (ata s) v l
}.

Lemma wanted_alike s s' i : alike s s' -> wanted s i -> wanted s' i.
Proof. intros [Hb Hh Hm] []. split; rewrite ?Hb, ?Hh, ?Hm; done. Qed.

Lemma request_alike s s' i : alike s s' -> request s' i = request s i.
Proof. intros [Hb _ _]. unfold request. by rewrite Hb. Qed.

Lemma idestart_ok fuel i s : wanted s i -> doing (ata s) = None ->
  exists d, idestart (S fuel) (Some i) s = Some (Ok tt (set_ata d s)) /\ alike s (set_ata d s) /\
    doing d = Some (request s i).
Proof.
  intros [Hb Ht Hl Hs Hd Hm] Hidle. unfold idestart. rewrite (idewait_idle _ _ Hidle). cbn [mbind option_bind snd].
  destruct (lba_sector (sector (bufs s i)) (dev (bufs s i))) as [E1 E2]; [done|tauto|]. cbn zeta in E1, E2.
  unfold request. destruct (dirty (bufs s i)).
  - destruct (ata_write (ata s) (Z.land (sector (bufs s i)) 0xff) (Z.land (Z.shiftr (sector (bufs s i)) 8) 0xff)
      (Z.land (Z.shiftr (sector (bufs s i)) 16) 0xff) (Z.lor (Z.lor 0xe0 (Z.shiftl (Z.land (dev (bufs s i)) 1) 4))
        (Z.land (Z.shiftr (sector (bufs s i)) 24) 0x0f)) _ Hidle Hl) as [H1 H2].
    eexists. split; [reflexivity|]. rewrite E1, E2 in H1. by split.
  - destruct (ata_read (ata s) (Z.land (sector (bufs s i)) 0xff) (Z.land (Z.shiftr (sector (bufs s i)) 8) 0xff)
      (Z.land (Z.shiftr (sector (bufs s i)) 16) 0xff) (Z.lor (Z.lor 0xe0 (Z.shiftl (Z.land (dev (bufs s i)) 1) 4))
        (Z.land (Z.shiftr (sector (bufs s i)) 24) 0x0f)) Hidle) as [H1 H2].
    eexists. split; [reflexivity|]. rewrite E1, E2 in H1. by split.
Qed.

Lemma queue_end_ok fuel s q k i : (forall k i, q !! k = Some i -> qnext s i = q !! S k) ->
  q !! k = Some i -> (length q - k <= fuel)%nat -> queue_end fuel s i = last q.
Proof.
  intros Hq. revert k i. induction fuel as [|f IH]; intros k i Hk Hf.
  { apply lookup_lt_Some in Hk. lia. }
  cbn [queue_end]. rewrite (Hq _ _ Hk). destruct (q !! S k) as [j|] eqn:Ej.
  - apply (IH (S k)); [done|lia].
  - rewrite last_lookup. apply lookup_ge_None in Ej. pose proof (lookup_lt_Some _ _ _ Hk).
    by replace (Nat.pred (length q)) with k by lia.
Qed.

Lemma iderw_ok fuel i s q : queued s q -> wanted s i -> i ∉ q -> (length q < fuel)%nat ->
  exists s', iderw fuel i s = Some (Sleep (WBuf i) s') /\ queued s' (q ++ [i]) /\ alike s s' /\ woken s' = woken s.
Proof.
  intros [Hnd Hh Hl Hw Hdo] Hi Hni Hf. pose proof Hi as [Hb Ht Hlen Hs Hd Hm]. unfold iderw.
  rewrite Hb, Ht. cbn [negb].
  assert (Hg : negb (dev (bufs s i) =? 0) && negb (havedisk1 s) = false).
  { destruct Hd as [->|[_ ->]]; [done|]. apply andb_false_r. }
  rewrite Hg. destruct fuel as [|fuel]; [lia|]. cbn [idequeue set_qnext]. rewrite Hh.
  destruct q as [|h q]; cbn [head].
  - cbn [mbind option_bind idequeue set_queue]. rewrite decide_True by done.
    set (s1 := set_queue _ _). assert (Ha : alike s s1) by done.
    destruct (idestart_ok fuel i s1) as (d & -> & Ha2 & Hdo2); [by eapply wanted_alike|done|].
    cbn [mbind option_bind]. unfold iderw_wait. cbn [bufs set_ata s1 set_queue set_qnext]. rewrite Ht.
    eexists. split; [done|]. assert (Ha3 : alike s (set_ata d s1)) by (destruct Ha2; done).
    split; [|done]. split; [apply NoDup_singleton|done| | |].
    + intros [|k] j; [|done]. intros [= <-]. cbn. by rewrite decide_True.
    + intros j ->%list_elem_of_singleton. by eapply wanted_alike.
    + cbn [ata set_ata head fmap option_fmap option_map app]. rewrite Hdo2. f_equal.
  - rewrite (queue_end_ok _ _ (h :: q) 0 h); [| |done|cbn [length] in *; lia].
    2: { intros k j Hk. cbn [qnext set_qnext]. rewrite decide_False; [by apply Hl|].
      intros ->. apply Hni. by eapply list_elem_of_lookup_2. }
    rewrite last_lookup. cbn [length Nat.pred].
    destruct (lookup_lt_is_Some_2 (h :: q) (length q)) as [l El]; [cbn; lia|]. rewrite El.
    cbn [mbind option_bind idequeue set_qnext]. rewrite Hh. cbn [head].
    assert (Hli : l <> i) by (intros ->; apply Hni; by eapply list_elem_of_lookup_2).
    rewrite decide_False by (intros [= ->]; apply Hni; by left).
    cbn [mbind option_bind]. unfold iderw_wait. cbn [bufs set_qnext]. rewrite Ht.
    eexists. split; [done|]. split; [|split; [done|done]]. set (s1 := set_qnext _ _ _).
    assert (Ha : alike s s1) by done. split.
    + apply NoDup_app. split; [done|]. split; [|apply NoDup_singleton].
      intros x Hx ->%list_elem_of_singleton. done.
    + done.
    + intros k j Hk. cbn [s1 qnext set_qnext]. apply lookup_app_Some in Hk as [Hk|[Hk1 Hk2]].
      * destruct (decide (j = l)) as [->|Hne].
        -- assert (k = length q) as ->; [by eapply (NoDup_lookup (h :: q))|].
           rewrite lookup_app_r by (cbn; lia). cbn [length]. by rewrite Nat.sub_diag.
        -- rewrite decide_False by (intros ->; apply Hni; by eapply list_elem_of_lookup_2).
           rewrite (Hl _ _ Hk), lookup_app_l; [done|].
           pose proof (lookup_lt_Some _ _ _ Hk). destruct (decide (k = length q)) as [->|]; [congruence|cbn in *; lia].
      * destruct (k - length (h :: q))%nat eqn:Ek; [|done]. injection Hk2 as <-.
        rewrite decide_False, decide_True by done. symmetry. apply lookup_ge_None. rewrite length_app. cbn in *. lia.
    + intros j [Hj| ->%list_elem_of_singleton]%elem_of_app; (eapply wanted_alike; [exact Ha|]); [by apply Hw|done].
    + exact Hdo.
Qed.

(** What a request does to the disks, and to its buffer. *)
Definition perform (r : Z * Z * option (list Z)) (f : Z -> Z -> option (list Z)) : Z -> Z -> option (list Z) :=
  match r with
  | (v, l, Some x) => fun v' l' => if decide (v' = v /\ l' = l) then Some x else f v' l'
  | (_, _, None) => f
  end.

Definition synced (s : ide) (i : nat) : buf :=
  let b := bufs s i in
  set_flags (fclr (fset (flags b) B_VALID) B_DIRTY)
    (if dirty b then b else set_data (default [] (media (ata s) (dev b) (sector b))) b).

(** The part of [ideintr] that gets the data of a read. *)
Lemma intr_data fuel s i q d : queued s (i :: q) -> finishes (ata s) d ->
  let s1 := set_queue (qnext s i) (set_ata d s) in
  exists d2, (if negb (dirty (bufs s1 i)) then
      r ← idewait (S fuel) true (ata s1);
      if 0 <=? r.1 then
        let '(x, d) := insl 0x1f0 BSIZE r.2 in Some (upd_buf i (set_data x) (set_ata d s1))
      else Some (set_ata r.2 s1)
    else Some s1) = Some (if dirty (bufs s i) then set_ata d2 s1
      else upd_buf i (set_data (default [] (media (ata s) (dev (bufs s i)) (sector (bufs s i))))) (set_ata d2 s1)) /\
    doing d2 = None /\ (forall v l, media d2 v l = perform (request s i) (media (ata s)) v l).
Proof.
  intros Hq Hf s1. pose proof (q_doing _ _ Hq) as Hdo. cbn [head fmap option_fmap option_map] in Hdo.
  destruct (q_wanted _ _ Hq i ltac:(by left)) as [_ _ _ _ _ [x Hx]].
  cbn [s1 bufs set_queue set_ata ata]. unfold request in *. destruct (dirty (bufs s i)) eqn:Ed; cbn [negb].
  - destruct (ata_finish_write _ _ _ _ _ Hf Hdo) as [H1 H2]; [by eexists|]. exists d. by split.
  - destruct (ata_finish_read _ _ _ _ _ Hf Hdo Hx) as (H1 & H2 & H3 & H4 & H5 & H6).
    exists (insl 0x1f0 BSIZE d).2. split; [|by split].
    cbn [idewait]. pose proof (ata_ready _ H1) as Hr. pose proof (ata_status d) as Hs.
    destruct (inb 0x1f7 d) as [r d']. simpl in Hr, Hs, H3. subst d'. rewrite Hr, H3, Z.eqb_refl.
    cbn. rewrite Hx. destruct (insl 0x1f0 BSIZE d) as [y d2]. simpl in H4. by subst y.
Qed.

Lemma perform_some r f v l : is_Some (f v l) -> is_Some (perform r f v l).
Proof. destruct r as [[v' l'] [x|]]; simpl; [|done]. case_decide; [by eexists|done]. Qed.

Lemma ideintr_ok fuel s i q d : queued s (i :: q) -> finishes (ata s) d ->
  exists s', ideintr (S fuel) (set_ata d s) = Some (Ok tt s') /\ queued s' q /\
    bufs s' i = synced s i /\ (forall j, j <> i -> bufs s' j = bufs s j) /\
    woken s' = WBuf i :: woken s /\
    (forall v l, media (ata s') v l = perform (request s i) (media (ata s)) v l).
Proof.
  intros Hq Hf. destruct (intr_data fuel s i q d Hq Hf) as (d2 & Hd & Hdo & Hm).
  pose proof Hq as [Hnd Hh Hl Hw _]. unfold ideintr. cbn [idequeue set_ata head]. rewrite Hh. cbn [head].
  cbn zeta in Hd. change (qnext (set_ata d s) i) with (qnext s i). rewrite Hd. cbn [mbind option_bind].
  set (s1 := wakeup i _).
  assert (Hb1 : bufs s1 i = synced s i).
  { unfold s1, synced. destruct (dirty (bufs s i)); cbn; by repeat case_decide. }
  assert (Hb2 : forall j, j <> i -> bufs s1 j = bufs s j).
  { intros j Hj. unfold s1. destruct (dirty (bufs s i)); cbn; by rewrite !decide_False. }
  assert (Ht : idequeue s1 = qnext s i /\ qnext s1 = qnext s /\ ata s1 = d2 /\ woken s1 = WBuf i :: woken s /\
    havedisk1 s1 = havedisk1 s) by (unfold s1; by destruct (dirty (bufs s i))).
  destruct Ht as (Hidq & Hqn & Hata & Hwk & Hhave). rewrite Hidq, (Hl 0%nat i) by done. cbn [lookup list_lookup].
  apply NoDup_cons in Hnd as [Hni Hnd].
  assert (Hw1 : forall j, j ∈ q -> wanted s1 j).
  { intros j Hj. destruct (Hw j ltac:(by right)) as [? ? ? ? ? Hmj].
    assert (j <> i) by (intros ->; done).
    split; rewrite ?Hb2, ?Hhave by done; try done. rewrite Hata, Hm. by apply perform_some. }
  destruct q as [|j q]; cbn [lookup list_lookup].
  - exists s1. split; [done|]. split; [|by rewrite Hata]. split; [done| |done|done|by rewrite Hata].
    by rewrite Hidq, (Hl 0%nat i).
  - destruct (idestart_ok fuel j s1) as (d3 & Hst & Ha & Hdo3); [apply Hw1; by left|by rewrite Hata|].
    exists (set_ata d3 s1). split; [exact Hst|]. split; [|split; [done|split; [done|split; [done|]]]].
    + split; [done| | | |exact Hdo3].
      * change (idequeue (set_ata d3 s1)) with (idequeue s1). by rewrite Hidq, (Hl 0%nat i).
      * intros k x Hk. change (qnext (set_ata d3 s1)) with (qnext s1). rewrite Hqn. by apply (Hl (S k)).
      * intros x Hx. eapply wanted_alike; [exact Ha|by apply Hw1].
    + intros v l. rewrite (al_media _ _ Ha), Hata. apply Hm.
Qed.

(** ** The driver over time

    A configuration is the driver and the buffers whose owners are asleep in
    [iderw].  An event is a request that is made or completed. *)

Inductive event : Type := Made (i : nat) (r : Z * Z * option (list Z)) | Completed (i : nat) (r : Z * Z * option (list Z)).

Inductive istep : ide * list nat -> list event -> ide * list nat -> Prop :=
| istep_rw fuel i s s' sl : i ∉ sl -> wanted s i -> (length sl < fuel)%nat ->
    iderw fuel i s = Some (Sleep (WBuf i) s') -> istep (s, sl) [Made i (request s i)] (s', i :: sl)
| istep_intr fuel i s d s' sl : idequeue s = Some i -> finishes (ata s) d ->
    ideintr (S fuel) (set_ata d s) = Some (Ok tt s') -> istep (s, sl) [Completed i (request s i)] (s', sl)
| istep_wake i s sl1 sl2 : iderw_wait i s = Ok tt s -> istep (s, sl1 ++ i :: sl2) [] (s, sl1 ++ sl2)
| istep_owner i f s sl : i ∉ sl -> istep (s, sl) [] (upd_buf i f s, sl).

Inductive history (c0 : ide * list nat) : list event -> ide * list nat -> Prop :=
| history_nil : history c0 [] c0
| history_snoc es es' c c' : history c0 es c -> istep c es' c' -> history c0 (es ++ es') c'.

Definition made (es : list event) : list (nat * (Z * Z * option (list Z))) :=
  omap (fun e => match e with Made i r => Some (i, r) | _ => None end) es.
Definition completed (es : list event) : list (nat * (Z * Z * option (list Z))) :=
  omap (fun e => match e with Completed i r => Some (i, r) | _ => None end) es.

(** The disks after requests, the first of the list first. *)
Definition replay (rs : list (nat * (Z * Z * option (list Z)))) (f : Z -> Z -> option (list Z)) :=
  foldl (fun f r => perform r.2 f) f rs.

Record driving (s0 : ide) (es : list event) (c : ide * list nat) (q : list nat) : Prop := Driving {
  dr_queue : queued c.1 q;
  dr_asleep : forall i, i ∈ q -> i ∈ c.2;
  dr_sleepers : NoDup c.2;
  dr_order : made es = completed es ++ ((fun i => (i, request c.1 i)) <$> q);
  dr_media : forall v l, media (ata c.1) v l = replay (completed es) (media (ata s0)) v l
}.

Lemma queued_fuel (q sl : list nat) (fuel : nat) : NoDup q -> (forall i, i ∈ q -> i ∈ sl) -> NoDup sl -> (length sl < fuel)%nat ->
  (length q < fuel)%nat.
Proof.
  intros H1 H2 H3 Hf. enough (length q <= length sl)%nat by lia.
  apply submseteq_length, NoDup_submseteq; [done|]. exact H2.
Qed.

Lemma perform_ext r f g : (forall v l, f v l = g v l) -> forall v l, perform r f v l = perform r g v l.
Proof. intros E v l. destruct r as [[? ?] [x|]]; simpl; [|done]. by case_decide. Qed.

Lemma made_app es es' : made (es ++ es') = made es ++ made es'.
Proof. apply omap_app. Qed.

Lemma completed_app es es' : completed (es ++ es') = completed es ++ completed es'.
Proof. apply omap_app. Qed.

Lemma driving_step s0 es es' c c' q : driving s0 es c q -> istep c es' c' ->
  exists q', driving s0 (es ++ es') c' q'.
Proof.
  intros [Hq Ha Hnd Ho Hm] Hs.
  destruct Hs as [fuel i s s' sl Hi Hw Hf Hrw|fuel i s d s' sl Hh Hfin Hin|i s sl1 sl2 Hwait|i f s sl Hi]; cbn [fst snd] in *.
  - destruct (iderw_ok fuel i s q Hq Hw) as (s2 & Hrw2 & Hq2 & Hal & _); [auto|by eapply queued_fuel, Hf; try apply Hq|].
    rewrite Hrw in Hrw2. injection Hrw2 as <-. exists (q ++ [i]).
    split; cbn [fst snd]; rewrite ?made_app, ?completed_app; change (completed [Made _ _]) with (@nil (nat * (Z * Z * option (list Z)))); rewrite ?app_nil_r.
    + done.
    + intros j [Hj| ->%list_elem_of_singleton]%elem_of_app; [right; auto|by left].
    + by constructor.
    + rewrite Ho, <- app_assoc, fmap_app. f_equal. cbn. rewrite (request_alike _ _ _ Hal). f_equal.
      apply list_fmap_ext. intros k j Hk. by rewrite (request_alike _ _ _ Hal).
    + intros v l. by rewrite (al_media _ _ Hal).
  - pose proof (q_head _ _ Hq) as Hhd. rewrite Hh in Hhd. destruct q as [|i' q]; [done|]. injection Hhd as <-.
    destruct (ideintr_ok fuel s i q d Hq Hfin) as (s2 & Hin2 & Hq2 & _ & Hb & _ & Hm2).
    rewrite Hin in Hin2. injection Hin2 as <-. exists q. pose proof (q_nodup _ _ Hq) as [Hni _]%NoDup_cons.
    split; cbn [fst snd]; rewrite ?made_app, ?completed_app; change (made [Completed _ _]) with (@nil (nat * (Z * Z * option (list Z)))); rewrite ?app_nil_r.
    + done.
    + intros j Hj. apply Ha. by right.
    + done.
    + rewrite Ho, <- app_assoc. cbn. do 2 f_equal. apply list_fmap_ext. intros k j Hk.
      unfold request. rewrite Hb; [done|]. intros ->. apply Hni. by eapply list_elem_of_lookup_2.
    + intros v l. rewrite Hm2. unfold replay. rewrite foldl_app. by apply perform_ext.
  - exists q. rewrite app_nil_r. split; cbn [fst snd]; try done.
    + intros j Hj. pose proof (Ha j Hj) as Hin. apply elem_of_app in Hin as [|[->|]%elem_of_cons]; [set_solver| |set_solver].
      exfalso. destruct (q_wanted _ _ Hq _ Hj) as [_ Ht _ _ _ _]. unfold iderw_wait in Hwait. by rewrite Ht in Hwait.
    + apply NoDup_app in Hnd as (? & Hd & [? ?]%NoDup_cons). apply NoDup_app. split; [done|]. split; [|done]. set_solver.
  - exists q. rewrite app_nil_r.
    assert (Hb : forall j, j ∈ q -> bufs (upd_buf i f s) j = bufs s j).
    { intros j Hj. cbn. rewrite decide_False; [done|]. intros ->. auto. }
    destruct Hq as [Hq1 Hq2 Hq3 Hq4 Hq5]. split; cbn [fst snd]; try done.
    + split; try done.
      * intros j Hj. destruct (Hq4 j Hj). by split; rewrite ?(Hb j Hj).
      * cbn [ata upd_buf]. rewrite Hq5. destruct q as [|h q]; [done|]. cbn. f_equal. unfold request. by rewrite Hb by (by left).
    + rewrite Ho. f_equal. apply list_fmap_ext. intros k j Hk. unfold request.
      rewrite Hb; [done|]. by eapply list_elem_of_lookup_2.
Qed.

(** C7. Over any history of calls of [iderw], interrupts, wake-ups and uses of
    buffers by their owners: requests are completed in the order they were
    made, the disks hold what the completed requests wrote, one after the
    other, and the controller works for the oldest outstanding request.  When
    it finishes, [ideintr] returns, the buffer has the sector's contents and
    is valid and clean, its owner is woken and the next request is started.
    A call of [iderw] for a sector that exists always gets to sleep in the
    queue. *)
Theorem ide_serves s0 es s sl : idequeue s0 = None -> doing (ata s0) = None -> history (s0, []) es (s, sl) ->
  exists q, made es = completed es ++ ((fun i => (i, request s i)) <$> q) /\
    (forall v l, media (ata s) v l = replay (completed es) (media (ata s0)) v l) /\
    doing (ata s) = request s <$> head q /\
    (forall i q' d fuel, q = i :: q' -> finishes (ata s) d -> exists s',
       ideintr (S fuel) (set_ata d s) = Some (Ok tt s') /\ bufs s' i = synced s i /\
       woken s' = WBuf i :: woken s /\ doing (ata s') = request s' <$> head q') /\
    (forall i fuel, i ∉ sl -> wanted s i -> (length sl < fuel)%nat -> exists s',
       iderw fuel i s = Some (Sleep (WBuf i) s') /\ doing (ata s') = request s' <$> head (q ++ [i])).
Proof.
  intros H0 Hd Hh. assert (Hdr : exists q, driving s0 es (s, sl) q).
  { remember (s, sl) as c eqn:Ec. clear Ec. induction Hh as [|es es' c c' Hh [q IH] Hs].
    - exists []. split; cbn; try done; [|by apply NoDup_nil_2]. split; try done; [apply NoDup_nil_2|by intros ? ?%elem_of_nil].
    - by eapply driving_step. }
  destruct Hdr as (q & Hdr). exists q. destruct Hdr as [Hq Ha Hnd Ho Hm]. cbn [fst snd] in *.
  split; [done|]. split; [done|]. split; [apply Hq|]. split.
  - intros i q' d fuel -> Hf. destruct (ideintr_ok fuel s i q' d Hq Hf) as (s' & H1 & H2 & H3 & _ & H4 & _).
    exists s'. repeat (split; [done|]). apply H2.
  - intros i fuel Hi Hw Hf. destruct (iderw_ok fuel i s q Hq Hw) as (s' & H1 & H2 & _); [auto|by eapply queued_fuel, Hf; try apply Hq|].
    exists s'. split; [done|]. apply H2.
Qed.

(** A read that ends in an error is taken for a success: the buffer becomes
    valid with what it held before. *)
Lemma read_error_ignored fuel s i d : idequeue s = Some i -> qnext s i = None -> dirty (bufs s i) = false ->
  idewait fuel true (ata s) = Some (-1, d) ->
  exists s', ideintr fuel s = Some (Ok tt s') /\ valid (bufs s' i) = true /\ data (bufs s' i) = data (bufs s i).
Proof.
  intros Hq Hn Hd Hw. unfold ideintr. rewrite Hq. cbn. rewrite Hd. cbn. rewrite Hw. cbn. rewrite Hn.
  eexists. split; [done|]. cbn. rewrite decide_True by done. split; [|done].
  unfold valid. cbn. change B_VALID with (2 ^ 1). change B_DIRTY with (2 ^ 2).
  rewrite fhas_fclr, fhas_fset by lia. done.
Qed.
End driver.

(** ** A controller

    One that keeps the last byte written to each port, takes a command when
    it is written to the command port (or when the data of a write is), and
    finishes it at once when asked. *)
Module Sim.
Record ctl : Type := Ctl {
  reg : Z -> Z; disk : Z -> Z -> option (list Z); busy_with : option (Z * Z * option (list Z)); buffer : list Z
}.

Definition target (r : Z -> Z) : Z * Z := (drive (r 0x1f6), lba (r 0x1f3) (r 0x1f4) (r 0x1f5) (r 0x1f6)).

Definition outb (p v : Z) (d : ctl) : ctl :=
  if (p =? 0x1f7) && (v =? IDE_CMD_READ) then Ctl (reg d) (disk d) (Some (target (reg d), None)) (buffer d)
  else Ctl (fun x => if x =? p then v else reg d x) (disk d) (busy_with d) (buffer d).

Definition outsl (p : Z) (x : list Z) (d : ctl) : ctl :=
  Ctl (reg d) (disk d) (Some (target (reg d), Some x)) (buffer d).

Definition finish (d : ctl) : ctl :=
  match busy_with d with
  | Some (v, l, Some x) =>
      Ctl (reg d) (fun v' l' => if decide (v' = v /\ l' = l) then Some x else disk d v' l') None (buffer d)
  | Some (v, l, None) => Ctl (reg d) (disk d) None (default [] (disk d v l))
  | None => d
  end.

#[global] Instance ata : Ata ctl := {
  inb p d := (IDE_DRDY, d); Ide.outb := outb; Ide.outsl := outsl; insl p n d := (buffer d, d);
  media := disk; doing := busy_with; finishes d d' := d' = finish d
}.

#[global] Instance ata_ok : AtaOk ctl.
Proof.
  split; try done.
  - intros d d' v l x -> Hd _. cbn in *. unfold finish. by rewrite Hd.
  - intros d d' v l x -> Hd Hx. cbn in *. unfold finish. rewrite Hd. cbn. by rewrite Hx.
Qed.
End Sim.

(** Two buffers for sectors 3 (a read) and 4 (a write). *)
Definition demo_ide : @ide Sim.ctl :=
  IdeState (fun i => if decide (i = 0)%nat then Buf B_BUSY 0 3 0 0 (replicate BSIZE 0)
                     else Buf (Z.lor B_BUSY B_DIRTY) 0 4 0 0 (replicate BSIZE 9))
    (fun _ => None) None false [] (Sim.Ctl (fun _ => 0) (fun v l => Some (replicate BSIZE 7)) None []).

Definition demo_call (i : nat) (s : @ide Sim.ctl) : @ide Sim.ctl :=
  match iderw 9 i s with Some (Sleep _ s) => s | _ => s end.

Lemma ide_serves_witness : let s1 := demo_call 0 demo_ide in let s2 := demo_call 1 s1 in
  exists q, [(0%nat, request demo_ide 0); (1%nat, request s1 1)] = (fun i => (i, request s2 i)) <$> q.
Proof.
  intros s1 s2.
  destruct (ide_serves demo_ide [Made 0 (request demo_ide 0); Made 1 (request s1 1)] s2 [1%nat; 0%nat]) as (q & Hq & _).
  - reflexivity.
  - reflexivity.
  - apply (history_snoc _ [Made 0 (request demo_ide 0)] [Made 1 (request s1 1)] (s1, [0%nat])).
    + apply (history_snoc _ [] [Made 0 (request demo_ide 0)] (demo_ide, [])); [constructor|].
      apply (istep_rw 9); [by intros ?%elem_of_nil| |cbn; lia|reflexivity].
      split; try reflexivity; [by vm_compute|by left|by eexists].
    + apply (istep_rw 9); [by intros ?%list_elem_of_singleton| |cbn; lia|reflexivity].
      split; try reflexivity; [by vm_compute|by left|by eexists].
  - exists q. exact Hq.
Defined.
