(* ===== verification/Bio.v ===== *)
(** * The buffer cache (bio.c)

    [NBUF] buffers on a doubly linked, most-recently-used list threaded
    through [prev]/[next] with a sentinel.  The operations of bio.c work on
    the pointers; [dll] relates the pointers to the list of buffers they
    thread, and the invariant [binv] says what the cache means for its
    clients: at most one buffer per sector, and a clean buffer agrees with
    the disk. *)

From stdpp Require Import base numbers list gmap strings.
From Stdlib Require Import ZArith Lia.
From S2P Require Import Prelude Disk.

Local Open Scope Z_scope.
Local Open Scope kernel_scope.

Definition NBUF : nat := 10.

(** [&bcache.head], as an index just past [bcache.buf]. *)
Definition HEAD : nat := NBUF.

Definition buf0 : buf := Buf 0 0 0 0 0 (replicate BSIZE 0).

(** ** Pointer operations on the buffer array *)

Definition bget_at (bs : list buf) (i : nat) : buf := default buf0 (bs !! i).
Definition bupd (i : nat) (f : buf -> buf) (bs : list buf) : list buf := alter f i bs.

(** One iteration of the loop of [binit]: put [b] after the head. *)
Definition binit_link (bs : list buf) (b : nat) : list buf :=
  let hn := next (bget_at bs HEAD) in
  let bs := bupd b (fun x => set_key NODEV (sector x) (set_prev HEAD (set_next hn x))) bs in
  let bs := bupd (next (bget_at bs HEAD)) (set_prev b) bs in
  bupd HEAD (set_next b) bs.

Definition binit (bs : list buf) : list buf :=
  fold_left binit_link (seq 0 NBUF)
    (bupd HEAD (fun x => set_next HEAD (set_prev HEAD x)) bs).

(** The two loops of [bget]: follow [step] from [p] until the head or a
    buffer that passes [test].  [fuel] bounds the number of nodes visited. *)
Fixpoint bscan (step : buf -> nat) (test : buf -> bool) (fuel : nat)
    (bs : list buf) (p : nat) : option nat :=
  match fuel with
  | O => None
  | S fuel' =>
      if decide (p = HEAD) then None
      else if test (bget_at bs p) then Some p
      else bscan step test fuel' bs (step (bget_at bs p))
  end.

Definition brelse_move (bs : list buf) (b : nat) : list buf :=
  let x := bget_at bs b in
  let bs := bupd (next x) (set_prev (prev x)) bs in
  let bs := bupd (prev x) (set_next (next x)) bs in
  let bs := bupd b (set_next (next (bget_at bs HEAD))) bs in
  let bs := bupd b (set_prev HEAD) bs in
  let bs := bupd (next (bget_at bs HEAD)) (set_prev b) bs in
  bupd HEAD (set_next b) bs.

(** ** The operations *)

Section bio.
Context {D : Type} `{Driver D}.

Record bio : Type := Bio { bufs : list buf; drv : D }.

Definition set_bufs (f : list buf -> list buf) (s : bio) : bio := Bio (f (bufs s)) (drv s).
Definition thebuf (s : bio) (i : nat) : buf := bget_at (bufs s) i.

Definition cached (dv sec : Z) (b : buf) : bool := (dev b =? dv) && (sector b =? sec).
Definition evictable (b : buf) : bool := negb (busy b) && negb (dirty b).

Definition bget (dv sec : Z) : M bio nat := fun s =>
  match bscan next (cached dv sec) (S NBUF) (bufs s) (next (thebuf s HEAD)) with
  | Some b =>
      if negb (busy (thebuf s b)) then
        Ok b (set_bufs (bupd b (fun x => set_flags (fset (flags x) B_BUSY) x)) s)
      else Sleep (WBuf b) s
  | None =>
      match bscan prev evictable (S NBUF) (bufs s) (prev (thebuf s HEAD)) with
      | Some b =>
          Ok b (set_bufs (bupd b (fun x => set_flags B_BUSY (set_key dv sec x))) s)
      | None => Panic "bget: no buffers"
      end
  end.

(** [iderw] on the buffer at index [i]. *)
Definition rw (i : nat) : M bio unit := fun s =>
  match iderw (thebuf s i) (drv s) with
  | Ok b d => Ok tt (Bio (bupd i (fun _ => b) (bufs s)) d)
  | Panic msg => Panic msg
  | Sleep c d => Sleep c (Bio (bufs s) d)
  end.

Definition bread (dv sec : Z) : M bio nat :=
  let* b := bget (u32 dv) (u32 sec) in
  let* x := gets (fun s => thebuf s b) in
  if negb (valid x) then rw b ;;; ret b else ret b.

Definition bwrite (b : nat) : M bio unit :=
  let* x := gets (fun s => thebuf s b) in
  if negb (busy x) then panic "bwrite"
  else modify (set_bufs (bupd b (fun x => set_flags (fset (flags x) B_DIRTY) x))) ;;;
       rw b.

Definition brelse (b : nat) : M bio unit :=
  let* x := gets (fun s => thebuf s b) in
  if negb (busy x) then panic "brelse"
  else modify (set_bufs (fun bs =>
         bupd b (fun x => set_flags (fclr (flags x) B_BUSY) x) (brelse_move bs b))).

End bio.
Arguments bio D : clear implicits.
Arguments Bio {D} bufs drv.

(** ** Doubly linked lists *)

(** [linked nx px c]: consecutive nodes of [c] point at each other. *)
Fixpoint linked (nx px : nat -> nat) (c : list nat) : Prop :=
  match c with
  | x :: ((y :: _) as t) => nx x = y /\ px y = x /\ linked nx px t
  | _ => True
  end.

Lemma linked_app nx px a x b :
  linked nx px (a ++ x :: b) <-> linked nx px (a ++ [x]) /\ linked nx px (x :: b).
Proof.
  induction a as [|y a IH]; [simpl; tauto|].
  destruct a as [|z a]; [simpl; tauto|].
  change ((y :: z :: a) ++ x :: b) with (y :: (z :: a) ++ x :: b).
  change ((y :: z :: a) ++ [x]) with (y :: (z :: a) ++ [x]).
  cbn [linked app] in *. tauto.
Qed.

Lemma linked_rev nx px c : linked nx px c -> linked px nx (rev c).
Proof.
  induction c as [|x [|y t] IH]; [done|done|].
  intros (H1 & H2 & H3). change (rev (x :: y :: t)) with ((rev t ++ [y]) ++ [x]).
  rewrite <- app_assoc. apply linked_app. split; [by apply IH|done].
Qed.

(** Assigning [next] of a node that is not followed in [c], or [prev] of a
    node that follows none, keeps [c] linked. *)
Lemma linked_ext nx px nx' px' c :
  linked nx px c ->
  (forall a x y b, c = a ++ x :: y :: b -> nx' x = nx x /\ px' y = px y) ->
  linked nx' px' c.
Proof.
  induction c as [|x [|y t] IH]; [done|done|].
  intros (H1 & H2 & H3) He.
  destruct (He [] x y t eq_refl) as [E1 E2].
  split; [congruence|]. split; [congruence|]. apply IH; [done|].
  intros a x' y' b Hc. apply (He (x :: a) x' y' b). by rewrite Hc.
Qed.

Definition nx (bs : list buf) (i : nat) : nat := next (bget_at bs i).
Definition px (bs : list buf) (i : nat) : nat := prev (bget_at bs i).

(** The list that the pointers of the cache thread, from [head.next]. *)
Definition dll (bs : list buf) (l : list nat) : Prop :=
  length bs = S NBUF /\ NoDup l /\ (forall i, i ∈ l <-> (i < NBUF)%nat) /\
  linked (nx bs) (px bs) (HEAD :: l ++ [HEAD]).

Lemma linked_seg nx px nx' px' w c1 c0 z :
  w :: c1 = c0 ++ [z] -> linked nx px (w :: c1) ->
  (forall x, x ∈ c0 -> nx' x = nx x) -> (forall y, y ∈ c1 -> px' y = px y) ->
  linked nx' px' (w :: c1).
Proof.
  intros Hc HL Hn Hp. apply (linked_ext nx px); [done|]. intros a x y b Hs. split.
  - apply Hn. destruct (exists_last (l := y :: b)) as (e & z' & He); [done|].
    rewrite He, Hc in Hs.
    assert (c0 ++ [z] = (a ++ x :: e) ++ [z']) as Hs' by (by rewrite Hs, <- app_assoc).
    apply app_inj_tail in Hs' as [-> _]. set_solver.
  - apply Hp. destruct a as [|a0 a]; simplify_list_eq; set_solver.
Qed.

Lemma bget_at_bupd bs i f j :
  bget_at (bupd i f bs) j =
    if decide (i = j /\ (j < length bs)%nat) then f (bget_at bs j) else bget_at bs j.
Proof.
  unfold bget_at, bupd. case_decide as Hc.
  - destruct Hc as [-> Hl]. rewrite list_lookup_alter, decide_True by done.
    by destruct (lookup_lt_is_Some_2 bs j Hl) as [x ->].
  - destruct (decide (i = j)) as [->|Hne].
    + rewrite !lookup_ge_None_2; rewrite ?length_alter; [done| |]; lia.
    + by rewrite list_lookup_alter_ne by done.
Qed.

Lemma length_bupd i f bs : length (bupd i f bs) = length bs.
Proof. apply length_alter. Qed.
#[export] Hint Rewrite length_bupd : xv6_len.

Lemma nx_set_next bs i v j : (i < length bs)%nat ->
  nx (bupd i (set_next v) bs) j = if decide (i = j) then v else nx bs j.
Proof.
  intros. unfold nx. rewrite bget_at_bupd.
  repeat case_decide; destruct_and?; subst; tauto.
Qed.

Lemma px_set_prev bs i v j : (i < length bs)%nat ->
  px (bupd i (set_prev v) bs) j = if decide (i = j) then v else px bs j.
Proof.
  intros. unfold px. rewrite bget_at_bupd.
  repeat case_decide; destruct_and?; subst; tauto.
Qed.

Lemma nx_bupd bs i f j : (forall x, next (f x) = next x) -> nx (bupd i f bs) j = nx bs j.
Proof. intros Hf. unfold nx. rewrite bget_at_bupd. case_decide; [apply Hf|done]. Qed.

Lemma px_bupd bs i f j : (forall x, prev (f x) = prev x) -> px (bupd i f bs) j = px bs j.
Proof. intros Hf. unfold px. rewrite bget_at_bupd. case_decide; [apply Hf|done]. Qed.

(** Operations that leave the pointers alone keep the list. *)
Lemma dll_bupd bs i f l :
  (forall x, next (f x) = next x /\ prev (f x) = prev x) -> dll bs l -> dll (bupd i f bs) l.
Proof.
  intros Hf (Hlen & Hnd & Hin & HL). split_and!; [by rewrite length_bupd|done|done|].
  apply (linked_ext _ _ _ _ _ HL). intros a x y b _.
  split; [apply nx_bupd|apply px_bupd]; intros; apply Hf.
Qed.

(** Insertion of [b] after the head, and removal of [b], on the pointers. *)
Lemma linked_insert n p n' p' b l :
  linked n p (HEAD :: l ++ [HEAD]) -> b ∉ l -> b <> HEAD -> HEAD ∉ l -> NoDup l ->
  (forall j, n' j = if decide (j = HEAD) then b else if decide (j = b) then n HEAD else n j) ->
  (forall j, p' j = if decide (j = n HEAD) then b else if decide (j = b) then HEAD else p j) ->
  linked n' p' (HEAD :: b :: l ++ [HEAD]).
Proof.
  intros HL Hb Hbh Hh Hnd Hn Hp.
  assert (exists y t, l ++ [HEAD] = y :: t /\ n HEAD = y /\ linked n p (y :: t) /\ y <> b /\
    (forall z, z ∈ t -> z <> y /\ z <> b)) as (y & t & Hy & Hny & HL' & Hyb & Ht).
  { destruct l as [|y t].
    - exists HEAD, []. destruct HL as (? & _). set_solver.
    - exists y, (t ++ [HEAD]). destruct HL as (? & ? & ?). apply NoDup_cons in Hnd as [? ?].
      split_and!; try done; [set_solver|]. intros z. rewrite elem_of_app.
      set_solver. }
  rewrite Hy. split; [rewrite Hn; by rewrite decide_True|].
  split; [rewrite Hp, Hny, decide_False, decide_True by done; done|].
  split; [rewrite Hn, decide_False, decide_True by done; done|].
  split; [rewrite Hp, Hny, decide_True by done; done|].
  eapply linked_seg; [symmetry; exact Hy|exact HL'| |].
  - intros x Hx. rewrite Hn, !decide_False by set_solver. done.
  - intros x Hx. destruct (Ht x Hx). rewrite Hp, Hny, !decide_False by done. done.
Qed.

Lemma linked_unlink n p n' p' b a c :
  linked n p (HEAD :: a ++ b :: c ++ [HEAD]) -> NoDup (HEAD :: a ++ b :: c) ->
  (forall j, n' j = if decide (j = p b) then n b else n j) ->
  (forall j, p' j = if decide (j = n b) then p b else p j) ->
  linked n' p' (HEAD :: a ++ c ++ [HEAD]).
Proof.
  intros HL Hnd Hn Hp.
  destruct (exists_last (l := HEAD :: a)) as (A & P & HA); [done|].
  assert (exists N C, c ++ [HEAD] = N :: C) as (N & C & HC).
  { destruct c; simpl; eauto. }
  change (HEAD :: a ++ b :: c ++ [HEAD]) with ((HEAD :: a) ++ b :: c ++ [HEAD]) in HL.
  change (HEAD :: a ++ c ++ [HEAD]) with ((HEAD :: a) ++ c ++ [HEAD]).
  change (HEAD :: a ++ b :: c) with ((HEAD :: a) ++ b :: c) in Hnd.
  rewrite HA, HC, <- app_assoc in HL. rewrite HA, HC, <- app_assoc. simpl in HL |- *.
  apply linked_app in HL as [HL1 HL]. destruct HL as (HPb & HbP & HbN & HNb & HL2).
  assert (forall x, x ∈ A -> x <> P) as HAP.
  { intros x Hx ->. apply NoDup_app in Hnd as (Hnd & _ & _). rewrite HA in Hnd.
    apply NoDup_app in Hnd as (_ & Hnd & _). set_solver. }
  assert (NoDup (c ++ [HEAD])) as Hndc.
  { apply NoDup_app in Hnd as (_ & Hnd1 & Hnd2). apply NoDup_cons in Hnd2 as [_ Hnd2].
    apply NoDup_app. split; [done|]. split; [set_solver|apply NoDup_singleton]. }
  assert (forall x, x ∈ c -> x <> P) as HcP.
  { intros x Hx ->. apply NoDup_app in Hnd as (_ & Hnd & _). rewrite HA in Hnd. set_solver. }
  assert (forall y, y ∈ a -> y <> N) as HaN.
  { intros y Hy ->. assert (N ∈ c ++ [HEAD]) as HN by (rewrite HC; left).
    apply NoDup_app in Hnd as (Hnd1 & Hnd2 & _). apply NoDup_cons in Hnd1 as [Hnd1 _].
    apply elem_of_app in HN as [HN|HN%list_elem_of_singleton]; [|by rewrite HN in Hy].
    apply (Hnd2 N); by right. }
  rewrite HC in Hndc. apply NoDup_cons in Hndc as [HNC _].
  apply linked_app. split; [|split; [|split]].
  - rewrite <- HA in HL1 |- *. eapply linked_seg; [exact HA|exact HL1| |].
    + intros x Hx. rewrite Hn, decide_False; [done|]. rewrite HbP. auto.
    + intros y Hy. rewrite Hp, decide_False; [done|]. rewrite HbN. auto.
  - by rewrite Hn, HbP, decide_True.
  - by rewrite Hp, HbN, decide_True.
  - eapply linked_seg; [symmetry; exact HC|exact HL2| |].
    + intros x Hx. rewrite Hn, decide_False; [done|]. rewrite HbP. auto.
    + intros y Hy. rewrite Hp, decide_False; [done|]. rewrite HbN. set_solver.
Qed.

Lemma nx_ext bs i f j v : (i < length bs)%nat -> (forall x, next (f x) = v) ->
  nx (bupd i f bs) j = if decide (j = i) then v else nx bs j.
Proof.
  intros Hl Hf. unfold nx. rewrite bget_at_bupd. repeat case_decide; naive_solver.
Qed.

Lemma px_ext bs i f j v : (i < length bs)%nat -> (forall x, prev (f x) = v) ->
  px (bupd i f bs) j = if decide (j = i) then v else px bs j.
Proof.
  intros Hl Hf. unfold px. rewrite bget_at_bupd. repeat case_decide; naive_solver.
Qed.

Lemma linked_bound bs x l : linked (nx bs) (px bs) (HEAD :: l ++ [HEAD]) ->
  (forall i, i ∈ l -> (i < NBUF)%nat) -> x = nx bs HEAD \/ x = px bs HEAD -> (x < S NBUF)%nat.
Proof.
  intros HL Hb [->| ->].
  - destruct l as [|y l]; destruct HL as [-> _]; [unfold HEAD; lia|].
    specialize (Hb y ltac:(left)). lia.
  - apply linked_rev in HL. simpl in HL. rewrite rev_app_distr in HL. simpl in HL.
    destruct (rev l) as [|y t] eqn:E; destruct HL as [-> _]; [unfold HEAD; lia|].
    specialize (Hb y). rewrite (list_elem_of_In), in_rev, E in Hb.
    specialize (Hb ltac:(by left)). lia.
Qed.

Lemma binit_link_ok bs b l : length bs = S NBUF ->
  linked (nx bs) (px bs) (HEAD :: l ++ [HEAD]) ->
  (forall i, i ∈ l -> (i < NBUF)%nat) -> b ∉ l -> (b < NBUF)%nat -> NoDup l ->
  length (binit_link bs b) = S NBUF /\
  linked (nx (binit_link bs b)) (px (binit_link bs b)) (HEAD :: b :: l ++ [HEAD]).
Proof.
  intros Hlen HL Hlt Hb Hbn Hnd. unfold binit_link.
  split; [by rewrite !length_bupd|].
  assert (nx bs HEAD < S NBUF)%nat by (eapply linked_bound; eauto).
  set (f := fun x => _). set (bs1 := bupd b f bs).
  assert (next (bget_at bs1 HEAD) = nx bs HEAD) as Hn1.
  { unfold bs1. rewrite bget_at_bupd, decide_False; [done|]. unfold HEAD; lia. }
  rewrite Hn1. apply (linked_insert (nx bs) (px bs)); [done|done|unfold HEAD; lia| |done| |].
  - intros Hh. specialize (Hlt _ Hh). unfold HEAD in Hlt. lia.
  - intros j. rewrite (nx_ext _ _ _ _ b), nx_bupd by (unfold bs1; rewrite ?length_bupd; unfold HEAD; done || lia).
    unfold bs1. rewrite (nx_ext _ _ _ _ (nx bs HEAD)) by (done || lia). done.
  - intros j. rewrite px_bupd by done.
    rewrite (px_ext _ _ _ _ b) by (unfold bs1; rewrite ?length_bupd; done || lia).
    unfold bs1. rewrite (px_ext _ _ _ _ HEAD) by (done || lia). done.
Qed.

Lemma bscan_next test bs l p fuel :
  HEAD ∉ l -> linked (nx bs) (px bs) (p :: l ++ [HEAD]) -> (length l < fuel)%nat ->
  bscan next test fuel bs (nx bs p) = List.find (fun i => test (bget_at bs i)) l.
Proof.
  revert p fuel. induction l as [|i l IH]; intros p fuel Hh HL Hf.
  - destruct fuel; [simpl in Hf; lia|]. destruct HL as [-> _].
    cbn [bscan List.find]. by rewrite decide_True.
  - destruct fuel as [|fuel]; [simpl in Hf; lia|]. destruct HL as (-> & _ & HL).
    cbn [bscan List.find]. rewrite decide_False by set_solver.
    destruct (test (bget_at bs i)); [done|].
    apply (IH i fuel); [set_solver|done|simpl in Hf; lia].
Qed.

Lemma bscan_prev test bs l p fuel :
  HEAD ∉ l -> linked (px bs) (nx bs) (p :: l ++ [HEAD]) -> (length l < fuel)%nat ->
  bscan prev test fuel bs (px bs p) = List.find (fun i => test (bget_at bs i)) l.
Proof.
  revert p fuel. induction l as [|i l IH]; intros p fuel Hh HL Hf.
  - destruct fuel; [simpl in Hf; lia|]. destruct HL as [-> _].
    cbn [bscan List.find]. by rewrite decide_True.
  - destruct fuel as [|fuel]; [simpl in Hf; lia|]. destruct HL as (-> & _ & HL).
    cbn [bscan List.find]. rewrite decide_False by set_solver.
    destruct (test (bget_at bs i)); [done|].
    apply (IH i fuel); [set_solver|done|simpl in Hf; lia].
Qed.

(** [brelse] moves the released buffer to the front of the list and leaves
    the contents of every buffer alone. *)
Lemma brelse_move_dll bs a b c :
  dll bs (a ++ b :: c) -> dll (brelse_move bs b) (b :: a ++ c).
Proof.
  intros (Hlen & Hnd & Hin & HL).
  assert (Hb : (b < NBUF)%nat) by (apply Hin; set_solver).
  assert (Hh : HEAD ∉ a ++ b :: c) by (rewrite Hin; unfold HEAD; lia).
  assert (Hnd' : NoDup (b :: a ++ c)).
  { eapply NoDup_Permutation_proper; [|exact Hnd]. by rewrite Permutation_middle. }
  assert (Hbound : (nx bs b < S NBUF)%nat /\ (px bs b < S NBUF)%nat).
  { assert (linked (nx bs) (px bs) ((HEAD :: a) ++ b :: c ++ [HEAD])) as HL0
      by (by rewrite <- app_assoc in HL). clear HL. rename HL0 into HL.
    destruct (exists_last (l := HEAD :: a)) as (A & P & HA); [done|].
    rewrite HA, <- app_assoc in HL. apply linked_app in HL as [_ (_ & -> & HL)].
    assert (P ∈ HEAD :: a) as HP by (rewrite HA; set_solver).
    assert (nx bs b ∈ c ++ [HEAD]) as HN.
    { destruct c; destruct HL as [-> _]; set_solver. }
    assert (forall x, x ∈ HEAD :: a ++ b :: c -> (x < S NBUF)%nat) as Hx.
    { intros x [->|Hx]%elem_of_cons; [unfold HEAD; lia|]. apply Hin in Hx. lia. }
    split; apply Hx; set_solver. }
  destruct Hbound as [HN HP].
  unfold brelse_move. fold (nx bs b) (px bs b).
  set (bs1 := bupd (px bs b) (set_next (nx bs b)) (bupd (nx bs b) (set_prev (px bs b)) bs)).
  assert (Hl1 : length bs1 = S NBUF) by (unfold bs1; by rewrite !length_bupd).
  assert (HL1 : linked (nx bs1) (px bs1) (HEAD :: (a ++ c) ++ [HEAD])).
  { rewrite <- app_assoc. apply (linked_unlink (nx bs) (px bs) _ _ b).
    - by rewrite <- app_assoc in HL.
    - by apply NoDup_cons.
    - intros j. unfold bs1. rewrite (nx_ext _ _ _ _ (nx bs b)) by (rewrite ?length_bupd; done || lia).
      by rewrite nx_bupd.
    - intros j. unfold bs1. rewrite px_bupd by done.
      by rewrite (px_ext _ _ _ _ (px bs b)) by (done || lia). }
  fold (nx bs1 HEAD).
  set (bs2 := bupd b (set_prev HEAD) (bupd b (set_next (nx bs1 HEAD)) bs1)).
  assert (nx bs1 HEAD < S NBUF)%nat as HN1.
  { eapply linked_bound; [exact HL1| |by left]. intros i Hi. apply Hin. set_solver. }
  assert (next (bget_at bs2 HEAD) = nx bs1 HEAD) as ->.
  { fold (nx bs2 HEAD). unfold bs2. rewrite nx_bupd by done.
    rewrite (nx_ext _ _ _ _ (nx bs1 HEAD)), decide_False; unfold HEAD in *; done || lia. }
  split_and!; [unfold bs2; by rewrite !length_bupd|done|intros i; rewrite <- Hin; set_solver|].
  apply (linked_insert (nx bs1) (px bs1)); try done.
  - by apply NoDup_cons in Hnd' as [? ?].
  - unfold HEAD; lia.
  - set_solver.
  - by apply NoDup_cons in Hnd' as [? ?].
  - intros j. rewrite (nx_ext _ _ _ _ b), nx_bupd by (unfold bs2; rewrite ?length_bupd; unfold HEAD; done || lia).
    unfold bs2. rewrite nx_bupd by done. by rewrite (nx_ext _ _ _ _ (nx bs1 HEAD)) by (done || lia).
  - intros j. rewrite px_bupd by done.
    rewrite (px_ext _ _ _ _ b) by (unfold bs2; rewrite ?length_bupd; done || lia).
    unfold bs2. rewrite (px_ext _ _ _ _ HEAD) by (rewrite ?length_bupd; done || lia).
    by rewrite px_bupd.
Qed.

Lemma binit_dll bs : length bs = S NBUF -> dll (binit bs) (rev (seq 0 NBUF)).
Proof.
  intros Hlen. unfold binit. set (bs0 := bupd HEAD _ bs).
  assert (Hk : forall k, (k <= NBUF)%nat ->
    let bs' := fold_left binit_link (seq 0 k) bs0 in
    length bs' = S NBUF /\ linked (nx bs') (px bs') (HEAD :: rev (seq 0 k) ++ [HEAD])).
  { induction k as [|k IH]; intros Hk; cbv zeta.
    - cbn [seq fold_left rev app]. unfold bs0. rewrite length_bupd. split; [done|].
      split; [|split; [|done]].
      + rewrite (nx_ext _ _ _ _ HEAD) by (unfold HEAD; done || lia). by rewrite decide_True.
      + rewrite (px_ext _ _ _ _ HEAD) by (unfold HEAD; done || lia). by rewrite decide_True.
    - rewrite seq_S, fold_left_app, rev_app_distr. cbn [fold_left rev app Nat.add].
      destruct (IH ltac:(lia)) as [IH1 IH2].
      apply binit_link_ok; try done.
      + intros i. rewrite list_elem_of_In, <- in_rev, in_seq. lia.
      + rewrite list_elem_of_In, <- in_rev, in_seq. lia.
      + apply NoDup_ListNoDup, NoDup_rev, seq_NoDup. }
  destruct (Hk NBUF ltac:(lia)) as [H1 H2]. split_and!; try done.
  - apply NoDup_ListNoDup, NoDup_rev, seq_NoDup.
  - intros i. rewrite list_elem_of_In, <- in_rev, in_seq. lia.
Qed.

(** ** The invariant of the cache *)

Section invariant.
Context {D : Type} `{DriverOk D}.
Implicit Types (s : bio D) (d : D).

Definition key (b : buf) : Z * Z := (dev b, sector b).

Definition buf_ok (d : D) (b : buf) : Prop :=
  if decide (dev b = NODEV)
  then busy b = false /\ dirty b = false /\ valid b = false
  else valid b = true /\ length (data b) = BSIZE /\ is_Some (image d (dev b) (sector b)) /\
       (dirty b = false -> image d (dev b) (sector b) = Some (data b)).

Record binv s : Prop := {
  bi_dll : exists l, dll (bufs s) l;
  bi_drv : drv_wf (drv s);
  bi_ok i : (i < NBUF)%nat -> buf_ok (drv s) (thebuf s i);
  bi_uniq i j : (i < NBUF)%nat -> (j < NBUF)%nat -> dev (thebuf s i) <> NODEV ->
    key (thebuf s i) = key (thebuf s j) -> i = j
}.

(** ** Specification of the cache

    For its clients the cache is a map from sectors to contents, the set of
    sectors whose buffer is locked and the set of sectors whose buffer is
    dirty.  The order of the list, which buffer holds which sector and what
    is cached do not matter, except that locked and dirty sectors use up the
    [NBUF] buffers. *)

Record cache : Type := Cache {
  blk : gmap (Z * Z) (list Z);
  held : gset (Z * Z);
  pin : gset (Z * Z)
}.

Definition spec_bread (dv sec : Z) : M cache (list Z) := fun a =>
  let k := (u32 dv, u32 sec) in
  if decide (k ∈ held a) then Sleep (WBuf 0) a
  else if decide ((k ∉ pin a) /\ (NBUF <= size (held a ∪ pin a))%nat)
  then Panic "bget: no buffers"
  else match blk a !! k with
       | Some x => Ok x (Cache (blk a) ({[k]} ∪ held a) (pin a))
       | None => Panic "iderw: sector out of range"
       end.

Definition spec_brelse (k : Z * Z) : M cache unit := fun a =>
  if decide (k ∈ held a) then Ok tt (Cache (blk a) (held a ∖ {[k]}) (pin a))
  else Panic "brelse".

(** The contents of a locked buffer are replaced and the buffer made dirty. *)
Definition spec_dirty (k : Z * Z) (x : list Z) (a : cache) : cache :=
  Cache (<[k := x]> (blk a)) (held a) ({[k]} ∪ pin a).

Definition spec_bwrite (k : Z * Z) : M cache unit := fun a =>
  if decide (k ∈ held a) then Ok tt (Cache (blk a) (held a) (pin a ∖ {[k]}))
  else Panic "bwrite".

Record crep s (a : cache) : Prop := {
  cr_inv : binv s;
  cr_cached i : (i < NBUF)%nat -> dev (thebuf s i) <> NODEV ->
    blk a !! key (thebuf s i) = Some (data (thebuf s i));
  cr_disk k : (forall i, (i < NBUF)%nat -> dev (thebuf s i) <> NODEV -> key (thebuf s i) <> k) ->
    blk a !! k = image (drv s) k.1 k.2;
  cr_held k : k ∈ held a <-> exists i, (i < NBUF)%nat /\ key (thebuf s i) = k /\ busy (thebuf s i) = true;
  cr_pin k : k ∈ pin a <-> exists i, (i < NBUF)%nat /\ key (thebuf s i) = k /\ dirty (thebuf s i) = true
}.

Lemma dll_head_next s l : dll (bufs s) l ->
  (forall test, bscan next test (S NBUF) (bufs s) (next (thebuf s HEAD)) =
    List.find (fun i => test (thebuf s i)) l) /\
  (forall test, bscan prev test (S NBUF) (bufs s) (prev (thebuf s HEAD)) =
    List.find (fun i => test (thebuf s i)) (rev l)).
Proof.
  intros (Hlen & Hnd & Hin & HL).
  assert (length l <= NBUF)%nat as Hll.
  { replace NBUF with (length (seq 0 NBUF)) by apply length_seq.
    apply submseteq_length, NoDup_submseteq; [done|]. intros i Hi%Hin.
    rewrite list_elem_of_In, in_seq. lia. }
  assert (HEAD ∉ l) as Hh by (rewrite Hin; unfold HEAD; lia).
  split; intros test.
  - apply (bscan_next test _ l HEAD); [done|done|lia].
  - apply (bscan_prev test _ (rev l) HEAD).
    + by rewrite list_elem_of_In, <- in_rev, <- list_elem_of_In.
    + apply linked_rev in HL. simpl in HL. by rewrite rev_app_distr in HL.
    + rewrite length_rev. lia.
Qed.

Lemma find_index (l : list nat) (test : nat -> bool) :
  (forall i, i ∈ l <-> (i < NBUF)%nat) ->
  (exists i, List.find test l = Some i /\ (i < NBUF)%nat /\ test i = true) \/
  (List.find test l = None /\ forall i, (i < NBUF)%nat -> test i = false).
Proof.
  intros Hin. destruct (List.find test l) as [i|] eqn:E.
  - left. apply find_some in E as [Hi Ht]. exists i. split; [done|].
    split; [|done]. by apply Hin, list_elem_of_In.
  - right. split; [done|]. intros i Hi. apply (find_none _ _ E).
    by apply list_elem_of_In, Hin.
Qed.

Lemma cached_key dv sec b : cached dv sec b = true <-> key b = (dv, sec).
Proof.
  unfold cached, key. rewrite andb_true_iff, !Z.eqb_eq. split; [intros [-> ->]; done|].
  by intros [= -> ->].
Qed.

(** *** Lookups in the cache *)

Lemma bget_hit s i dv sec : binv s -> (i < NBUF)%nat -> dv <> NODEV ->
  key (thebuf s i) = (dv, sec) ->
  bget dv sec s =
    if busy (thebuf s i) then Sleep (WBuf i) s
    else Ok i (set_bufs (bupd i (fun x => set_flags (fset (flags x) B_BUSY) x)) s).
Proof.
  intros Hinv Hi Hdv Hk. destruct (bi_dll _ Hinv) as [l Hl].
  destruct (dll_head_next _ _ Hl) as [Hn _]. unfold bget. rewrite Hn.
  destruct (find_index l (fun j => cached dv sec (thebuf s j))) as [(j & -> & Hj & Ht)|[_ Hf]].
  - apply Hl.
  - apply cached_key in Ht. assert (i = j) as <-; [|by destruct (busy _)].
    apply (bi_uniq _ Hinv); [done|done| |congruence]. intros E. apply Hdv.
    unfold key in Hk. congruence.
  - specialize (Hf i Hi). apply cached_key in Hk. congruence.
Qed.

Lemma bget_miss s dv sec : binv s ->
  (forall i, (i < NBUF)%nat -> key (thebuf s i) <> (dv, sec)) ->
  (exists i, (i < NBUF)%nat /\ evictable (thebuf s i) = true /\
    bget dv sec s = Ok i (set_bufs (bupd i (fun x => set_flags B_BUSY (set_key dv sec x))) s)) \/
  ((forall i, (i < NBUF)%nat -> evictable (thebuf s i) = false) /\
    bget dv sec s = Panic "bget: no buffers").
Proof.
  intros Hinv Hk. destruct (bi_dll _ Hinv) as [l Hl].
  destruct (dll_head_next _ _ Hl) as [Hn Hp]. unfold bget. rewrite Hn, Hp.
  destruct (find_index l (fun j => cached dv sec (thebuf s j))) as [(j & _ & Hj & Ht)|[-> _]].
  { apply Hl. }
  { apply cached_key in Ht. by destruct (Hk j Hj). }
  destruct (find_index (rev l) (fun j => evictable (thebuf s j))) as [(j & -> & Hj & Ht)|[-> Hf]].
  { intros i. rewrite list_elem_of_In, <- in_rev, <- list_elem_of_In. apply Hl. }
  - left. eauto.
  - right. eauto.
Qed.

(** *** Updates of one buffer *)

Lemma thebuf_upd s i f d j : (i < NBUF)%nat -> binv s ->
  thebuf (Bio (bupd i f (bufs s)) d) j =
    if decide (i = j) then f (thebuf s j) else thebuf s j.
Proof.
  intros Hi Hinv. destruct (bi_dll _ Hinv) as (l & Hlen & _).
  unfold thebuf; simpl. rewrite bget_at_bupd.
  repeat case_decide; destruct_and?; subst; try done. exfalso. lia.
Qed.

Lemma binv_upd s i f d : binv s -> (i < NBUF)%nat ->
  (forall x, next (f x) = next x /\ prev (f x) = prev x) -> drv_wf d ->
  buf_ok d (f (thebuf s i)) ->
  (forall j, (j < NBUF)%nat -> j <> i -> buf_ok d (thebuf s j)) ->
  (forall j, (j < NBUF)%nat -> j <> i -> dev (f (thebuf s i)) <> NODEV ->
    key (thebuf s j) <> key (f (thebuf s i))) ->
  binv (Bio (bupd i f (bufs s)) d).
Proof.
  intros Hinv Hi Hf Hd Hok Hoth Huniq. split.
  - destruct (bi_dll _ Hinv) as [l Hl]. exists l. by apply dll_bupd.
  - done.
  - intros j Hj. rewrite thebuf_upd by done. case_decide; subst; auto.
  - intros j1 j2 H1 H2. rewrite !thebuf_upd by done.
    repeat case_decide; subst; try done.
    + intros Hne He. destruct (Huniq j2); auto.
    + intros Hne He. destruct (Huniq j1); auto. unfold key in He. injection He as He _. congruence.
    + by apply (bi_uniq _ Hinv).
Qed.

(** *** Counting locked and dirty buffers *)

Definition inuse s : list nat := filter (fun i => evictable (thebuf s i) = false) (seq 0 NBUF).

Lemma elem_of_inuse s i : i ∈ inuse s <-> (i < NBUF)%nat /\ evictable (thebuf s i) = false.
Proof.
  unfold inuse. rewrite list_elem_of_filter, list_elem_of_In, in_seq. split; intros; split; try tauto; lia.
Qed.

Lemma evictable_false b : evictable b = false <-> busy b = true \/ dirty b = true.
Proof. unfold evictable. destruct (busy b), (dirty b); simpl; intuition congruence. Qed.

Lemma inuse_dev s i : binv s -> (i < NBUF)%nat -> evictable (thebuf s i) = false ->
  dev (thebuf s i) <> NODEV.
Proof.
  intros Hinv Hi He%evictable_false Hd. pose proof (bi_ok _ Hinv i Hi) as Hok.
  unfold buf_ok in Hok. rewrite decide_True in Hok by done. intuition congruence.
Qed.

Lemma inuse_size s a : crep s a -> size (held a ∪ pin a) = length (inuse s).
Proof.
  intros Hr. pose proof (cr_inv _ _ Hr) as Hinv.
  assert (held a ∪ pin a = list_to_set (key ∘ thebuf s <$> inuse s)) as ->.
  { apply set_eq. intros k. rewrite elem_of_union, elem_of_list_to_set, list_elem_of_fmap.
    rewrite (cr_held _ _ Hr), (cr_pin _ _ Hr). setoid_rewrite elem_of_inuse.
    setoid_rewrite evictable_false. simpl. naive_solver. }
  rewrite size_list_to_set; [by rewrite length_fmap|].
  apply NoDup_fmap_2_strong.
  - intros i j [Hi Hei]%elem_of_inuse [Hj Hej]%elem_of_inuse He.
    apply (bi_uniq _ Hinv); [done|done|by apply inuse_dev|done].
  - apply NoDup_filter, NoDup_ListNoDup, seq_NoDup.
Qed.

Lemma NoDup_inuse s : NoDup (inuse s).
Proof. apply NoDup_filter, NoDup_ListNoDup, seq_NoDup. Qed.

Lemma inuse_full s : (NBUF <= length (inuse s))%nat <->
  forall i, (i < NBUF)%nat -> evictable (thebuf s i) = false.
Proof.
  split.
  - intros Hle i Hi. apply elem_of_inuse.
    assert (inuse s ≡ₚ seq 0 NBUF) as ->.
    { apply submseteq_length_Permutation; [|by rewrite length_seq].
      apply NoDup_submseteq; [apply NoDup_inuse|]. intros j [Hj _]%elem_of_inuse.
      rewrite list_elem_of_In, in_seq. lia. }
    rewrite list_elem_of_In, in_seq. lia.
  - intros Hall. replace NBUF with (length (seq 0 NBUF)) by apply length_seq.
    apply submseteq_length, NoDup_submseteq; [apply NoDup_ListNoDup, seq_NoDup|].
    intros i Hi. rewrite list_elem_of_In, in_seq in Hi. apply elem_of_inuse.
    split; [lia|]. apply Hall. lia.
Qed.

(** *** Refinement

    What an operation on buffer [i] does to the cache's meaning: the buffer
    ends up with key [key b'], and when it changes key the old contents were
    clean and unlocked. *)
Lemma crep_upd s a a' i f d :
  let b := thebuf s i in let b' := f b in
  crep s a -> (i < NBUF)%nat ->
  (forall x, next (f x) = next x /\ prev (f x) = prev x) -> drv_wf d ->
  dev b' <> NODEV -> buf_ok d b' ->
  (forall j, (j < NBUF)%nat -> j <> i -> key (thebuf s j) <> key b') ->
  (key b = key b' \/ evictable b = true) ->
  (forall dv sec, (dv, sec) <> key b' -> image d dv sec = image (drv s) dv sec) ->
  (forall k, blk a' !! k = if decide (k = key b') then Some (data b') else blk a !! k) ->
  (forall k, k ∈ held a' <-> if decide (k = key b') then busy b' = true else k ∈ held a) ->
  (forall k, k ∈ pin a' <-> if decide (k = key b') then dirty b' = true else k ∈ pin a) ->
  crep (Bio (bupd i f (bufs s)) d) a'.
Proof.
  intros b b' Hr Hi Hf Hd Hdev Hok Hkey Hev Himg Hblk Hheld Hpin.
  pose proof (cr_inv _ _ Hr) as Hinv.
  assert (Hupd : forall j, thebuf (Bio (bupd i f (bufs s)) d) j =
    if decide (i = j) then b' else thebuf s j).
  { intros j. rewrite thebuf_upd by done. by case_decide; subst. }
  assert (Hexists : forall P : buf -> Prop, forall k,
    (evictable b = true -> ~ P b) ->
    (exists j, (j < NBUF)%nat /\ key (thebuf s j) = k /\ P (thebuf s j)) -> k <> key b' ->
    exists j, (j < NBUF)%nat /\ key (thebuf (Bio (bupd i f (bufs s)) d) j) = k /\
      P (thebuf (Bio (bupd i f (bufs s)) d) j)).
  { intros P k HP (j & Hj & Hk & Hp) Hne. exists j. split; [done|]. rewrite Hupd.
    case_decide as Hij; [|done]. subst j. exfalso. destruct Hev as [Hev|Hev].
    - apply Hne. rewrite <- Hev. done.
    - by apply HP. }
  assert (Hback : forall P : buf -> Prop, forall k,
    (exists j, (j < NBUF)%nat /\ key (thebuf (Bio (bupd i f (bufs s)) d) j) = k /\
      P (thebuf (Bio (bupd i f (bufs s)) d) j)) ->
    if decide (k = key b') then P b'
    else exists j, (j < NBUF)%nat /\ key (thebuf s j) = k /\ P (thebuf s j)).
  { intros P k (j & Hj & Hk & Hp). rewrite Hupd in Hk, Hp.
    destruct (decide (i = j)) as [->|Hij].
    - by rewrite decide_True.
    - rewrite decide_False; [eauto|]. intros ->. by destruct (Hkey j). }
  split.
  - apply binv_upd; try done; intros j Hj Hji; [|by intros _; apply Hkey].
    pose proof (bi_ok _ Hinv j Hj) as Hokj. unfold buf_ok in *. case_decide; [done|].
    rewrite !Himg by (by apply Hkey). done.
  - intros j Hj. rewrite Hupd, Hblk. case_decide; intros Hdv.
    + by rewrite decide_True.
    + rewrite decide_False by auto. by apply (cr_cached _ _ Hr).
  - intros k Hk. rewrite Hblk.
    assert (k <> key b') as Hkb.
    { intros ->. apply (Hk i Hi); by rewrite Hupd, decide_True. }
    rewrite decide_False by done. rewrite Himg by (by destruct k).
    destruct (decide (k = key b /\ dev b <> NODEV)) as [[-> Hnd]|Hkb0].
    + destruct Hev as [Hev|Hev]; [by destruct Hkb|].
      pose proof (cr_cached _ _ Hr i Hi Hnd) as Hc. fold b in Hc. rewrite Hc.
      pose proof (bi_ok _ Hinv i Hi) as Hoki.
      unfold buf_ok in Hoki. fold b in Hoki. rewrite decide_False in Hoki by done.
      destruct Hoki as (_ & _ & _ & Hoki). symmetry. apply Hoki.
      unfold evictable in Hev. by bool_prop.
    + apply (cr_disk _ _ Hr). intros j Hj Hnd He. destruct (decide (i = j)) as [<-|Hij].
      * by apply Hkb0.
      * apply (Hk j Hj); by rewrite Hupd, decide_False.
  - intros k. rewrite Hheld. split.
    + case_decide; [intros Hb; exists i; subst; by rewrite Hupd, decide_True|].
      intros Hk%(cr_held _ _ Hr). apply (Hexists (fun x => busy x = true)); [|done|done].
      intros Hev1 Hb. unfold evictable in Hev1. bool_prop. congruence.
    + intros Hex%(Hback (fun x => busy x = true)). case_decide; [done|]. by apply (cr_held _ _ Hr).
  - intros k. rewrite Hpin. split.
    + case_decide; [intros Hb; exists i; subst; by rewrite Hupd, decide_True|].
      intros Hk%(cr_pin _ _ Hr). apply (Hexists (fun x => dirty x = true)); [|done|done].
      intros Hev1 Hb. unfold evictable in Hev1. bool_prop. congruence.
    + intros Hex%(Hback (fun x => dirty x = true)). case_decide; [done|]. by apply (cr_pin _ _ Hr).
Qed.

Lemma lookup_cases s dv sec :
  (exists i, (i < NBUF)%nat /\ key (thebuf s i) = (dv, sec)) \/
  (forall i, (i < NBUF)%nat -> key (thebuf s i) <> (dv, sec)).
Proof.
  destruct (find_index (seq 0 NBUF) (fun j => cached dv sec (thebuf s j)))
    as [(i & _ & Hi & Hk)|[_ Hn]].
  - intros i. rewrite list_elem_of_In, in_seq. lia.
  - left. exists i. by rewrite <- cached_key.
  - right. intros i Hi Hk%cached_key. specialize (Hn i Hi). congruence.
Qed.

(** [iderw] returns a buffer for [i]; its pointers are those [i] has. *)
Lemma bupd_const i f b (g : buf -> buf) bs :
  f (bget_at bs i) = b -> bupd i (fun _ => b) (bupd i g bs) = bupd i f bs.
Proof.
  intros <-. apply list_eq. intros j. unfold bupd, bget_at.
  rewrite !list_lookup_alter. destruct (decide (i = j)) as [<-|]; [|done].
  rewrite decide_True by done. by destruct (bs !! i).
Qed.

Lemma key_set_flags fl b : key (set_flags fl b) = key b.
Proof. done. Qed.

Lemma buf_ok_used d b : dev b <> NODEV -> buf_ok d b ->
  valid b = true /\ length (data b) = BSIZE /\ is_Some (image d (dev b) (sector b)) /\
  (dirty b = false -> image d (dev b) (sector b) = Some (data b)).
Proof. intros Hd. unfold buf_ok. by rewrite decide_False. Qed.

Lemma buf_ok_busy d b : dev b <> NODEV -> buf_ok d b ->
  buf_ok d (set_flags (fset (flags b) B_BUSY) b).
Proof.
  intros Hd Hok. unfold buf_ok, valid, dirty in *; simpl.
  rewrite !decide_False in * by done. unfold B_BUSY, B_VALID, B_DIRTY in *. flg. done.
Qed.

(** How the driver's state changes: not at all or by one read, by one write. *)
Definition drv_reads (d d' : D) : Prop :=
  d' = d \/ exists b b', dirty b = false /\ iderw b d = Ok b' d' /\
    forall dv sec, image d' dv sec = image d dv sec.
Definition drv_writes (d d' : D) : Prop :=
  exists b b', dirty b = true /\ iderw b d = Ok b' d'.

Definition bread_ok dv sec s (r : res cache (list Z)) : Prop :=
  match r with
  | Ok x a' => exists i s', bread dv sec s = Ok i s' /\ crep s' a' /\ (i < NBUF)%nat /\
      key (thebuf s' i) = (u32 dv, u32 sec) /\ busy (thebuf s' i) = true /\
      data (thebuf s' i) = x /\ drv_reads (drv s) (drv s') /\
      forall j, j <> i -> thebuf s' j = thebuf s j
  | Panic _ => exists msg, bread dv sec s = Panic msg
  | Sleep _ _ => exists i, bread dv sec s = Sleep (WBuf i) s
  end.

Lemma bread_hit s a dv sec i : crep s a -> (i < NBUF)%nat ->
  key (thebuf s i) = (u32 dv, u32 sec) -> u32 dv <> NODEV ->
  bread_ok dv sec s (spec_bread dv sec a).
Proof.
  intros Hr Hi Hk Hnd. pose proof (cr_inv _ _ Hr) as Hinv.
  assert (Hdev : dev (thebuf s i) <> NODEV) by (unfold key in Hk; congruence).
  unfold spec_bread. set (k := (u32 dv, u32 sec)) in *.
  unfold bread_ok, bread, bind. rewrite (bget_hit s i) by done.
  destruct (busy (thebuf s i)) eqn:Hb.
  { rewrite decide_True by (apply (cr_held _ _ Hr); eauto). eauto. }
  rewrite decide_False.
  2: { intros (j & Hj & Hkj & Hbj)%(cr_held _ _ Hr). assert (i = j) as <-; [|congruence].
       apply (bi_uniq _ Hinv); congruence. }
  rewrite decide_False.
  2: { rewrite (inuse_size s a Hr), inuse_full. intros [Hp Hall].
       specialize (Hall i Hi). apply evictable_false in Hall as [?|?]; [congruence|].
       apply Hp, (cr_pin _ _ Hr). eauto. }
  pose proof (cr_cached _ _ Hr i Hi Hdev) as Hc. rewrite Hk in Hc. rewrite Hc.
  pose proof (bi_ok _ Hinv i Hi) as Hok.
  assert (Hv : valid (thebuf s i) = true) by (by apply (buf_ok_used (drv s))).
  set (s' := set_bufs _ s).
  assert (Hs' : thebuf s' i = set_flags (fset (flags (thebuf s i)) B_BUSY) (thebuf s i)).
  { unfold s', set_bufs. rewrite thebuf_upd, decide_True by done. done. }
  assert (Hbusy : busy (thebuf s' i) = true).
  { rewrite Hs'. unfold busy, B_BUSY; simpl. by flg. }
  assert (Hvalid : valid (thebuf s' i) = true).
  { rewrite Hs'. unfold valid, B_VALID, B_BUSY in *; simpl. flg. done. }
  cbn. rewrite Hvalid. cbn. exists i, s'.
  split; [done|]. rewrite Hs'. split_and!; try done; [|by rewrite <- Hs'|by left|].
  2: { intros j Hj. unfold s', set_bufs. by rewrite thebuf_upd, decide_False. }
  assert (Huniq : forall j, (j < NBUF)%nat -> key (thebuf s j) = k -> i = j).
  { intros j Hj He. apply (bi_uniq _ Hinv); congruence. }
  apply (crep_upd s a); try done; rewrite ?key_set_flags, ?Hk.
  - apply (bi_drv _ Hinv).
  - by apply buf_ok_busy.
  - intros j Hj Hji He. by destruct Hji; symmetry; apply Huniq.
  - by left.
  - intros k'. case_decide; [by subst|done].
  - intros k'. rewrite <- Hs', Hbusy. case_decide; set_solver.
  - intros k'. case_decide as Hkk; [|done]. subst k'. rewrite (cr_pin _ _ Hr).
    unfold dirty, B_DIRTY, B_BUSY; simpl. flg. split; [|by eauto].
    intros (j & Hj & Hkj & Hbj). by rewrite (Huniq j).
Qed.

Lemma buf_ok_read d b x : drv_wf d -> dev b <> NODEV ->
  image d (dev b) (sector b) = Some x -> dirty b = false ->
  buf_ok d (set_data x (set_flags (fset (flags b) B_VALID) b)).
Proof.
  intros Hwf Hd Hx Hdi. unfold buf_ok, valid, dirty in *; simpl.
  rewrite decide_False by done. unfold B_VALID, B_DIRTY in *. flg.
  split_and!; try done. by eapply image_length.
Qed.

Lemma bread_miss s a dv sec : crep s a ->
  (forall i, (i < NBUF)%nat -> key (thebuf s i) <> (u32 dv, u32 sec)) ->
  bread_ok dv sec s (spec_bread dv sec a).
Proof.
  intros Hr Hk. pose proof (cr_inv _ _ Hr) as Hinv.
  unfold spec_bread. set (k := (u32 dv, u32 sec)) in *.
  rewrite decide_False.
  2: { intros (j & Hj & Hkj & _)%(cr_held _ _ Hr). by apply (Hk j). }
  assert (k ∉ pin a) as Hpin.
  { intros (j & Hj & Hkj & _)%(cr_pin _ _ Hr). by apply (Hk j). }
  unfold bread_ok, bread, bind.
  destruct (bget_miss s (u32 dv) (u32 sec) Hinv Hk) as [(i & Hi & Hev & ->)|[Hfull ->]].
  2: { rewrite decide_True by (split; [done|]; rewrite (inuse_size s a Hr); by apply inuse_full).
       eauto. }
  rewrite decide_False.
  2: { rewrite (inuse_size s a Hr), inuse_full. intros [_ Hall]. specialize (Hall i Hi). congruence. }
  rewrite (cr_disk _ _ Hr) by auto. subst k. cbn [fst snd].
  set (b := set_flags B_BUSY (set_key (u32 dv) (u32 sec) (thebuf s i))).
  set (s1 := set_bufs _ s).
  assert (Hs1 : thebuf s1 i = b).
  { unfold s1, set_bufs. rewrite thebuf_upd, decide_True by done. done. }
  cbn. rewrite Hs1. change (valid b) with false. cbn. unfold rw.
  rewrite Hs1. change (drv s1) with (drv s).
  destruct (image (drv s) (u32 dv) (u32 sec)) as [x|] eqn:Himg.
  2: { destruct (iderw_nosector b (drv s)) as [msg ->]; [apply u32_range|done|]. eauto. }
  destruct (iderw_read b (drv s) x) as (d' & Hrd & Hwf' & Himg'); try done.
  { apply (bi_drv _ Hinv). }
  rewrite Hrd.
  assert (u32 dv <> NODEV) as Hnd.
  { intros E. rewrite E, image_nodev in Himg. done. }
  eexists i, _. split; [done|]. cbn [bufs s1 set_bufs].
  set (b' := set_data x (set_flags (fset (flags b) B_VALID) b)).
  rewrite (bupd_const i (fun x => set_data (data b')
    (set_flags (flags b') (set_key (u32 dv) (u32 sec) x))) b'), thebuf_upd, decide_True by done.
  split_and!; try done; [|right; by eexists b, b'|].
  2: { intros j Hj. by rewrite thebuf_upd, decide_False. }
  apply (crep_upd s a); try done; simpl.
  - apply (buf_ok_read d' b x); try done. by rewrite Himg'.
  - intros j Hj _. by apply Hk.
  - by right.
  - intros k'. change (key _) with (u32 dv, u32 sec). case_decide as Hkk; [|done].
    subst k'. rewrite (cr_disk _ _ Hr) by auto. done.
  - intros k'. change (key _) with (u32 dv, u32 sec). case_decide; set_solver.
  - intros k'. change (key _) with (u32 dv, u32 sec). case_decide; [by subst|done].
Qed.

(** A sector of no device can only match a buffer that was never used, and
    reading it panics. *)
Lemma bread_nodev s a dv sec i : crep s a -> (i < NBUF)%nat ->
  key (thebuf s i) = (u32 dv, u32 sec) -> u32 dv = NODEV ->
  bread_ok dv sec s (spec_bread dv sec a).
Proof.
  intros Hr Hi Hk Hnd. pose proof (cr_inv _ _ Hr) as Hinv.
  assert (Hunused : forall j, (j < NBUF)%nat -> key (thebuf s j) = (u32 dv, u32 sec) ->
    busy (thebuf s j) = false /\ valid (thebuf s j) = false).
  { intros j Hj Hkj. pose proof (bi_ok _ Hinv j Hj) as Hok. unfold buf_ok, key in *.
    rewrite decide_True in Hok by congruence. naive_solver. }
  unfold spec_bread. rewrite decide_False.
  2: { intros (j & Hj & Hkj & Hb)%(cr_held _ _ Hr). destruct (Hunused j); congruence. }
  rewrite (cr_disk _ _ Hr) by (intros j Hj Hd E; unfold key in E; congruence).
  cbn [fst snd]. rewrite Hnd, image_nodev.
  assert (exists msg, bread dv sec s = Panic msg) as Hp; [|by case_decide].
  destruct (bi_dll _ Hinv) as [l Hl]. destruct (dll_head_next _ _ Hl) as [Hn _].
  unfold bread, bind, bget. rewrite Hn.
  destruct (find_index l (fun j => cached (u32 dv) (u32 sec) (thebuf s j)))
    as [(j & -> & Hj & Ht)|[_ Hf]]; [apply Hl| |].
  2: { specialize (Hf i Hi). apply cached_key in Hk. congruence. }
  apply cached_key in Ht. destruct (Hunused j Hj Ht) as [-> Hv]. cbn [negb].
  set (s1 := set_bufs _ s).
  assert (Hs1 : thebuf s1 j = set_flags (fset (flags (thebuf s j)) B_BUSY) (thebuf s j)).
  { unfold s1, set_bufs. by rewrite thebuf_upd, decide_True. }
  cbn. unfold rw. rewrite Hs1. unfold valid, B_BUSY, B_VALID in *. simpl.
  flg. rewrite Hv. unfold key in Ht. injection Ht as Hd Hs. cbn.
  destruct (iderw_nosector (thebuf s1 j) (drv s1)) as [msg Hm].
  - rewrite Hs1. simpl. rewrite Hs. apply u32_range.
  - rewrite Hs1. simpl. by rewrite Hd, Hnd, image_nodev.
  - rewrite Hs1 in Hm. unfold rw. cbn in Hm. rewrite Hs1, Hm. eauto.
Qed.

Lemma bread_refines s a dv sec : crep s a -> bread_ok dv sec s (spec_bread dv sec a).
Proof.
  intros Hr. pose proof (cr_inv _ _ Hr) as Hinv.
  destruct (lookup_cases s (u32 dv) (u32 sec)) as [(i & Hi & Hk)|Hk]; [|by apply bread_miss].
  destruct (decide (u32 dv = NODEV)) as [Hnd|Hnd].
  - by apply (bread_nodev s a dv sec i).
  - by apply (bread_hit s a dv sec i).
Qed.

(** *** Release, write and modification of a locked buffer *)

Definition same_contents (b b' : buf) : Prop :=
  flags b' = flags b /\ dev b' = dev b /\ sector b' = sector b /\ data b' = data b.

#[local] Instance same_contents_preorder : PreOrder same_contents.
Proof. split; unfold same_contents; [done|]. intros b1 b2 b3; intuition congruence. Qed.

Lemma bupd_same_contents bs i f j : (forall x, same_contents x (f x)) ->
  same_contents (bget_at bs j) (bget_at (bupd i f bs) j).
Proof. intros Hf. rewrite bget_at_bupd. case_decide; [apply Hf|done]. Qed.

Lemma brelse_move_contents bs b j : same_contents (bget_at bs j) (bget_at (brelse_move bs b) j).
Proof.
  unfold brelse_move. cbv zeta.
  do 5 (etrans; [|apply bupd_same_contents; done]). by apply bupd_same_contents.
Qed.

Lemma crep_same_contents s s' a : crep s a -> drv s' = drv s ->
  (exists l, dll (bufs s') l) ->
  (forall i, (i < NBUF)%nat -> same_contents (thebuf s i) (thebuf s' i)) -> crep s' a.
Proof.
  intros Hr Hd Hl Hc. pose proof (cr_inv _ _ Hr) as Hinv.
  assert (Hk : forall i, (i < NBUF)%nat -> key (thebuf s' i) = key (thebuf s i) /\
    dev (thebuf s' i) = dev (thebuf s i) /\ data (thebuf s' i) = data (thebuf s i) /\
    busy (thebuf s' i) = busy (thebuf s i) /\ dirty (thebuf s' i) = dirty (thebuf s i) /\
    valid (thebuf s' i) = valid (thebuf s i) /\ sector (thebuf s' i) = sector (thebuf s i)).
  { intros i Hi. destruct (Hc i Hi) as (H1 & H2 & H3 & H4). unfold key, busy, dirty, valid.
    rewrite H1, H2, H3, H4. done. }
  split; [split|..].
  - done.
  - rewrite Hd. apply (bi_drv _ Hinv).
  - intros i Hi. pose proof (bi_ok _ Hinv i Hi) as Hok. destruct (Hk i Hi) as (?&E1&E2&E3&E4&E5&E6).
    unfold buf_ok in *. by rewrite Hd, E1, E2, E3, E4, E5, E6.
  - intros i j Hi Hj. destruct (Hk i Hi) as (->&->&_), (Hk j Hj) as (->&_).
    by apply (bi_uniq _ Hinv).
  - intros i Hi. destruct (Hk i Hi) as (->&->&->&_). by apply (cr_cached _ _ Hr).
  - intros k Hn. rewrite Hd. apply (cr_disk _ _ Hr). intros i Hi.
    destruct (Hk i Hi) as (<-&<-&_). auto.
  - intros k. rewrite (cr_held _ _ Hr). split; intros (i & Hi & Hx); exists i;
      destruct (Hk i Hi) as (E1&_&_&E2&_); rewrite ?E1, ?E2 in *; auto.
  - intros k. rewrite (cr_pin _ _ Hr). split; intros (i & Hi & Hx); exists i;
      destruct (Hk i Hi) as (E1&_&_&_&E2&_); rewrite ?E1, ?E2 in *; auto.
Qed.

(** A locked buffer is used, and no other buffer has its sector. *)
Lemma busy_used s a i : crep s a -> (i < NBUF)%nat -> busy (thebuf s i) = true ->
  dev (thebuf s i) <> NODEV /\ key (thebuf s i) ∈ held a /\
  forall j, (j < NBUF)%nat -> key (thebuf s j) = key (thebuf s i) -> j = i.
Proof.
  intros Hr Hi Hb. pose proof (cr_inv _ _ Hr) as Hinv.
  assert (dev (thebuf s i) <> NODEV) as Hd.
  { apply inuse_dev; [done|done|]. apply evictable_false. by left. }
  split_and!; [done|apply (cr_held _ _ Hr); eauto|].
  intros j Hj He. symmetry. by apply (bi_uniq _ Hinv).
Qed.

Lemma brelse_refines s a i : crep s a -> (i < NBUF)%nat -> busy (thebuf s i) = true ->
  exists s', brelse i s = Ok tt s' /\
    crep s' (Cache (blk a) (held a ∖ {[key (thebuf s i)]}) (pin a)) /\ drv s' = drv s.
Proof.
  intros Hr Hi Hb. pose proof (cr_inv _ _ Hr) as Hinv.
  unfold brelse, bind, gets, modify. rewrite Hb. simpl.
  eexists; split; [done|]. split; [|done].
  set (s1 := Bio (brelse_move (bufs s) i) (drv s)).
  assert (Hr1 : crep s1 a).
  { apply (crep_same_contents s); try done.
    - destruct (bi_dll _ Hinv) as [l Hl].
      destruct (list_elem_of_split l i) as (l1 & l2 & ->); [by apply Hl|].
      exists (i :: l1 ++ l2). by apply brelse_move_dll.
    - intros j _. apply brelse_move_contents. }
  assert (Hsame : same_contents (thebuf s i) (thebuf s1 i)) by apply brelse_move_contents.
  destruct Hsame as (E1 & E2 & E3 & E4).
  assert (Hk : key (thebuf s1 i) = key (thebuf s i)) by (unfold key; congruence).
  assert (Hb1 : busy (thebuf s1 i) = true) by (unfold busy in *; congruence).
  destruct (busy_used s1 a i Hr1 Hi Hb1) as (Hd & Hh & Hu).
  rewrite <- Hk. apply (crep_upd s1 a); try done; rewrite ?key_set_flags.
  - apply (bi_drv _ (cr_inv _ _ Hr1)).
  - pose proof (bi_ok _ (cr_inv _ _ Hr1) i Hi) as Hok. unfold buf_ok, valid, dirty in *; simpl.
    rewrite !decide_False in * by done. unfold B_BUSY, B_VALID, B_DIRTY in *. by flg.
  - intros j Hj Hji He. by apply Hji, Hu.
  - by left.
  - intros k. case_decide; [|done]. subst. by apply (cr_cached _ _ Hr1).
  - intros k. unfold busy, B_BUSY; simpl. flg. case_decide; set_solver.
  - intros k. unfold dirty, B_BUSY, B_DIRTY; simpl. flg. case_decide as Hkk; [|done].
    subst k. rewrite (cr_pin _ _ Hr1). split; [|by eauto].
    intros (j & Hj & Hkj & Hdj). by rewrite <- (Hu j).
Qed.

(** A client that has locked a buffer replaces its contents and marks it
    dirty (what [log_write]'s callers and [log_write] do together). *)
Lemma dirty_refines s a i x fl : crep s a -> (i < NBUF)%nat -> busy (thebuf s i) = true ->
  length x = BSIZE -> fl = fset (flags (thebuf s i)) B_DIRTY ->
  crep (set_bufs (bupd i (fun b => set_data x (set_flags fl b))) s)
       (spec_dirty (key (thebuf s i)) x a).
Proof.
  intros Hr Hi Hb Hx ->. pose proof (cr_inv _ _ Hr) as Hinv.
  destruct (busy_used s a i Hr Hi Hb) as (Hd & Hh & Hu).
  apply (crep_upd s a); try done; simpl; change (key (set_data _ (set_flags _ ?b))) with (key b).
  - apply (bi_drv _ Hinv).
  - pose proof (bi_ok _ Hinv i Hi) as Hok. unfold buf_ok, valid, dirty in *; simpl.
    rewrite !decide_False in * by done. unfold B_BUSY, B_VALID, B_DIRTY in *. flg.
    destruct Hok as (-> & _ & Hs & _). done.
  - intros j Hj Hji He. by apply Hji, Hu.
  - by left.
  - intros k. case_decide as E; [subst; by rewrite lookup_insert_eq|].
    by rewrite lookup_insert_ne.
  - intros k. unfold busy, B_BUSY, B_DIRTY in *; simpl. flg. rewrite Hb. case_decide; set_solver.
  - intros k. unfold dirty, B_DIRTY; simpl. flg. case_decide; set_solver.
Qed.

Lemma bwrite_refines s a i : crep s a -> (i < NBUF)%nat -> busy (thebuf s i) = true ->
  exists s', bwrite i s = Ok tt s' /\
    crep s' (Cache (blk a) (held a) (pin a ∖ {[key (thebuf s i)]})) /\
    (forall dv sec, image (drv s') dv sec =
      if decide ((dv, sec) = key (thebuf s i)) then Some (data (thebuf s i))
      else image (drv s) dv sec) /\
    (forall j, (j < NBUF)%nat -> key (thebuf s' j) = key (thebuf s j) /\
      data (thebuf s' j) = data (thebuf s j) /\ busy (thebuf s' j) = busy (thebuf s j)) /\
    drv_writes (drv s) (drv s').
Proof.
  intros Hr Hi Hb. pose proof (cr_inv _ _ Hr) as Hinv.
  destruct (busy_used s a i Hr Hi Hb) as (Hd & Hh & Hu).
  pose proof (bi_ok _ Hinv i Hi) as Hok. apply buf_ok_used in Hok as (Hv & Hl & Hs & Hc); [|done].
  set (b1 := set_flags (fset (flags (thebuf s i)) B_DIRTY) (thebuf s i)).
  unfold bwrite, bind, gets, modify. rewrite Hb. cbn [negb]. unfold rw.
  set (s1 := set_bufs _ s).
  assert (Hs1 : thebuf s1 i = b1).
  { unfold s1, set_bufs. rewrite thebuf_upd, decide_True by done. done. }
  rewrite Hs1. change (drv s1) with (drv s).
  assert (Hd1 : dirty b1 = true) by (unfold dirty, b1, B_DIRTY; simpl; by flg).
  destruct (iderw_write b1 (drv s)) as (d' & Hw & Hwf' & Himg); try done.
  { apply (bi_drv _ Hinv). }
  { unfold busy, B_BUSY, B_DIRTY in *; simpl. by flg. }
  rewrite Hw. set (b2 := set_flags _ b1). cbn [bufs s1 set_bufs].
  rewrite (bupd_const i (set_flags (flags b2)) b2) by done.
  assert (Himg' : forall dv sec, image d' dv sec = if decide ((dv, sec) = key (thebuf s i))
     then Some (data (thebuf s i)) else image (drv s) dv sec).
  { intros dv sec. rewrite Himg. apply decide_ext. unfold b1, key; simpl. naive_solver. }
  eexists; split; [done|]. split_and!; [|done| |by eexists b1, b2].
  - apply (crep_upd s a); try done; change (set_flags (flags b2) (thebuf s i)) with b2;
      change (key b2) with (key (thebuf s i)).
    + unfold buf_ok. rewrite decide_False by done. cbn [dev sector b2 b1 set_flags data].
      rewrite !Himg', !decide_True by done. split_and!; try done.
      unfold valid, b2, b1, B_VALID, B_DIRTY; simpl. by flg.
    + intros j Hj Hji He. by apply Hji, Hu.
    + by left.
    + intros dv sec Hk. by rewrite Himg', decide_False.
    + intros k. case_decide; [|done]. subst. by apply (cr_cached _ _ Hr).
    + intros k. unfold busy, b2, b1, B_BUSY, B_DIRTY, B_VALID in *; simpl. flg. rewrite Hb.
      case_decide; set_solver.
    + intros k. unfold dirty, b2, b1, B_DIRTY, B_VALID in *; simpl. flg. case_decide; set_solver.
  - intros j Hj. rewrite thebuf_upd by done. case_decide; [subst j|done].
    split_and!; try done. unfold busy, b2, b1, B_BUSY, B_DIRTY, B_VALID in *; simpl. by flg.
Qed.

(** The cache after boot: [binit] on the zeroed [bcache]. *)
Definition bcache0 : list buf := binit (replicate (S NBUF) buf0).

Lemma bcache0_unused i : (i < NBUF)%nat ->
  dev (bget_at bcache0 i) = NODEV /\ flags (bget_at bcache0 i) = 0.
Proof.
  intros Hi. unfold NBUF in Hi.
  do 10 (destruct i as [|i]; [by split; vm_compute|]). lia.
Qed.

Lemma unused_crep bs d img : (exists l, dll bs l) -> drv_wf d ->
  (forall i, (i < NBUF)%nat -> dev (bget_at bs i) = NODEV /\ flags (bget_at bs i) = 0) ->
  (forall k, img !! k = image d k.1 k.2) -> crep (Bio bs d) (Cache img ∅ ∅).
Proof.
  intros Hl Hwf Hun Himg. split; [split|..]; cbn [bufs drv blk held pin]; unfold thebuf; cbn [bufs].
  - done.
  - done.
  - intros i Hi. destruct (Hun i Hi) as [Hd Hf]. unfold buf_ok.
    rewrite decide_True by done. unfold busy, dirty, valid. by rewrite Hf.
  - intros i j Hi Hj Hd. by destruct (Hun i Hi) as [Hd' _].
  - intros i Hi Hd. by destruct (Hun i Hi) as [Hd' _].
  - intros k _. apply Himg.
  - intros k. split; [set_solver|]. intros (i & Hi & _ & Hb).
    destruct (Hun i Hi) as [_ Hf]. unfold busy in Hb. by rewrite Hf in Hb.
  - intros k. split; [set_solver|]. intros (i & Hi & _ & Hb).
    destruct (Hun i Hi) as [_ Hf]. unfold dirty in Hb. by rewrite Hf in Hb.
Qed.

Lemma binit_crep d img : drv_wf d ->
  (forall k, img !! k = image d k.1 k.2) -> crep (Bio bcache0 d) (Cache img ∅ ∅).
Proof.
  intros Hwf Himg. apply unused_crep; [|exact Hwf|apply bcache0_unused|exact Himg].
  eexists. by apply (binit_dll (replicate (S NBUF) buf0)).
Qed.

End invariant.

(** ** The promises of the buffer cache *)

(** C1. [bread] implements its specification on the abstract cache: it returns
    a locked buffer with the contents of the sector whenever the sector is not
    locked and a buffer can be had, sleeps exactly when the sector is locked,
    and panics exactly when every buffer is locked or dirty or the sector does
    not exist; no other buffer changes. *)
Theorem bread_spec {D} `{DriverOk D} (s : bio D) (a : cache) (dv sec : Z) :
  crep s a -> bread_ok dv sec s (spec_bread dv sec a).
Proof. apply bread_refines. Qed.

(** C2. [brelse] and [bwrite] of a locked buffer implement their
    specifications: [brelse] unlocks the sector, leaves the list of buffers
    well formed and does not touch the disk; [bwrite] makes the sector clean
    and changes exactly that sector of the disk, to the buffer's contents. *)
Theorem brelse_bwrite_spec {D} `{DriverOk D} (s : bio D) (a : cache) (i : nat) :
  crep s a -> (i < NBUF)%nat -> busy (thebuf s i) = true ->
  (exists s' a', brelse i s = Ok tt s' /\ spec_brelse (key (thebuf s i)) a = Ok tt a' /\
     crep s' a' /\ drv s' = drv s) /\
  (exists s' a', bwrite i s = Ok tt s' /\ spec_bwrite (key (thebuf s i)) a = Ok tt a' /\
     crep s' a' /\ forall dv sec, image (drv s') dv sec =
       if decide ((dv, sec) = key (thebuf s i)) then Some (data (thebuf s i))
       else image (drv s) dv sec).
Proof.
  intros Hr Hi Hb. destruct (busy_used s a i Hr Hi Hb) as (_ & Hh & _). split.
  - destruct (brelse_refines s a i Hr Hi Hb) as (s' & E & Hr' & Hd).
    exists s'. eexists. split; [exact E|]. split; [|split; [exact Hr'|done]].
    unfold spec_brelse. by rewrite decide_True.
  - destruct (bwrite_refines s a i Hr Hi Hb) as (s' & E & Hr' & Himg & _).
    exists s'. eexists. split; [exact E|]. split; [|split; [exact Hr'|done]].
    unfold spec_bwrite. by rewrite decide_True.
Qed.

(** A disk of two sectors on which the promises are exercised. *)
Definition demo_disk : Memide.disk := Memide.ideinit (replicate 1024 7).
Definition demo_bio : bio Memide.disk := Bio bcache0 demo_disk.

Lemma demo_wf : drv_wf demo_disk.
Proof. apply Memide.ideinit_wf. rewrite length_replicate. lia. Qed.

Lemma demo_crep : exists a, crep demo_bio a /\ held a = ∅ /\ pin a = ∅ /\
  is_Some (blk a !! (1, 1)).
Proof.
  destruct (image_map demo_disk) as [img Himg]. exists (Cache img ∅ ∅).
  split_and!; [|done..|cbn [blk]; rewrite Himg; by eexists].
  apply binit_crep; [apply demo_wf|done].
Qed.

Lemma demo_bread : exists i s a, bread 1 1 demo_bio = Ok i s /\ crep s a /\ (i < NBUF)%nat /\
  busy (thebuf s i) = true.
Proof.
  destruct demo_crep as (a & Hr & Hh & Hp & x & Hx).
  pose proof (bread_refines demo_bio a 1 1 Hr) as Hb. unfold bread_ok, spec_bread in Hb.
  rewrite !u32_id in Hb by lia. rewrite decide_False in Hb by (by rewrite Hh).
  rewrite decide_False in Hb by (rewrite Hh, Hp, (left_id_L ∅ (∪)), size_empty; unfold NBUF; lia).
  rewrite Hx in Hb. destruct Hb as (i & s' & E & Hr' & Hi & _ & Hbu & _).
  exists i, s'. eexists. split; [exact E|]. split; [exact Hr'|]. split; [exact Hi|exact Hbu].
Qed.

Lemma bread_spec_witness : exists a, crep demo_bio a /\
  bread_ok 1 1 demo_bio (spec_bread 1 1 a).
Proof.
  destruct demo_crep as (a & Hr & _). exists a. split; [exact Hr|].
  exact (bread_spec demo_bio a 1 1 Hr).
Defined.

Lemma brelse_bwrite_spec_witness : exists i s s' s'', bread 1 1 demo_bio = Ok i s /\
  brelse i s = Ok tt s' /\ bwrite i s = Ok tt s''.
Proof.
  destruct demo_bread as (i & s & a & E & Hr & Hi & Hb).
  destruct (brelse_bwrite_spec s a i Hr Hi Hb) as [(s' & _ & E' & _) (s'' & _ & E'' & _)].
  exists i, s, s', s''. split; [exact E|]. split; [exact E'|exact E''].
Defined.

(** Proofs use [bcache0] through [binit_crep]. *)
#[global] Opaque bcache0.
