(* ===== verification/Log.v ===== *)
(** * The log (log.c)

    System calls that write the file system are bracketed by [begin_trans]
    and [commit_trans]; [log_write] records the sectors they change.  The
    functions of log.c run on the buffer cache of Bio.v; a crash keeps the
    disk and loses the cache and the in-memory log. *)

From stdpp Require Import base numbers list gmap strings.
From Stdlib Require Import ZArith Lia.
From S2P Require Import Prelude Disk Bio.

Local Open Scope Z_scope.
Local Open Scope kernel_scope.

Definition LOGSIZE : Z := 10.
Definition ROOTDEV : Z := 1.

(** [struct logheader]: [lh_sector] is the array [int sector[LOGSIZE]]. *)
Record logheader : Type := LogHeader { lh_n : Z; lh_sector : list Z }.

(** [struct log], less its spin lock. *)
Record log : Type := Log {
  log_start : Z;
  log_size : Z;
  log_busy : bool;
  log_dev : Z;
  lh : logheader
}.

Definition set_lh (h : logheader) (l : log) : log :=
  Log (log_start l) (log_size l) (log_busy l) (log_dev l) h.
Definition set_busy (b : bool) (l : log) : log :=
  Log (log_start l) (log_size l) b (log_dev l) (lh l).

(** [struct superblock] (fs.h), read from block 1. *)
Record superblock : Type := SuperBlock {
  sb_size : Z; sb_nblocks : Z; sb_ninodes : Z; sb_nlog : Z
}.

Definition dec_superblock (d : list Z) : superblock :=
  SuperBlock (get_le 4 0 d) (get_le 4 4 d) (get_le 4 8 d) (get_le 4 12 d).

(** The fields of a log header in its block: [n], then [sector[i]]. *)
Definition hb_sector (i : nat) : nat := (4 + 4 * i)%nat.

Section logging.
Context {D : Type} `{Driver D}.

(** The storage state: the buffer cache with its disk, and the log. *)
Record store : Type := Store { bc : bio D; lg : log }.

Definition with_bc {A} (m : M (bio D) A) : M store A :=
  zoom bc (fun b s => Store b (lg s)) m.
Definition with_lg (f : log -> log) : M store unit :=
  modify (fun s => Store (bc s) (f (lg s))).
Definition bufdata (b : nat) : M store (list Z) := gets (fun s => data (thebuf (bc s) b)).
Definition setdata (b : nat) (x : list Z) : M store unit :=
  with_bc (modify (set_bufs (bupd b (set_data x)))).

Definition readsb (dv : Z) : M store superblock :=
  let* bp := with_bc (bread dv 1) in
  let* d := bufdata bp in
  with_bc (brelse bp) ;;;
  ret (dec_superblock d).

(** The body of the loop of [install_trans] for [tail], then the loop. *)
Definition install_one (tail : nat) : M store unit :=
  let* l := gets lg in
  let* lbuf := with_bc (bread (log_dev l) (log_start l + Z.of_nat tail + 1)) in
  let* dbuf := with_bc (bread (log_dev l) (aget 0 (lh_sector (lh l)) (Z.of_nat tail))) in
  let* d := bufdata dbuf in
  setdata lbuf d ;;;
  with_bc (bwrite lbuf) ;;;
  with_bc (bwrite dbuf) ;;;
  with_bc (brelse lbuf) ;;;
  with_bc (brelse dbuf).

Fixpoint install_loop (tails : list nat) : M store unit :=
  match tails with
  | [] => ret tt
  | tail :: rest => install_one tail ;;; install_loop rest
  end.

Definition install_trans : M store unit :=
  let* l := gets lg in
  install_loop (seq 0 (Z.to_nat (lh_n (lh l)))).

(** The copy loop of [read_head]: an [int] per logged sector. *)
Definition head_sectors (n : Z) (d : list Z) (old : list Z) : list Z :=
  fold_left (fun acc i => aset acc (Z.of_nat i) (s32 (get_le 4 (hb_sector i) d)))
    (seq 0 (Z.to_nat n)) old.

Definition read_head : M store unit :=
  let* l := gets lg in
  let* b := with_bc (bread (log_dev l) (log_start l)) in
  let* d := bufdata b in
  let n := s32 (get_le 4 0 d) in
  with_lg (set_lh (LogHeader n (head_sectors n d (lh_sector (lh l))))) ;;;
  with_bc (brelse b).

(** The header block [write_head] builds in the buffer. *)
Definition head_block (h : logheader) (d : list Z) : list Z :=
  fold_left (fun acc i => put_le 4 (hb_sector i) (aget 0 (lh_sector h) (Z.of_nat i)) acc)
    (seq 0 (Z.to_nat (lh_n h))) (put_le 4 0 (lh_n h) d).

Definition write_head : M store unit :=
  let* l := gets lg in
  let* b := with_bc (bread (log_dev l) (log_start l)) in
  let* d := bufdata b in
  setdata b (head_block (lh l) d) ;;;
  with_bc (bwrite b) ;;;
  with_bc (brelse b).

Definition clear_lh (l : log) : log := set_lh (LogHeader 0 (lh_sector (lh l))) l.

Definition recover_from_log : M store unit :=
  read_head ;;;
  install_trans ;;;
  with_lg clear_lh ;;;
  write_head.

Definition initlog : M store unit :=
  let* sb := readsb ROOTDEV in
  with_lg (fun l => Log (s32 (u32 (sb_size sb - sb_nlog sb))) (s32 (sb_nlog sb))
                        (log_busy l) ROOTDEV (lh l)) ;;;
  recover_from_log.

Definition begin_trans : M store unit :=
  let* l := gets lg in
  if log_busy l then sleep WLog else with_lg (set_busy true).

Definition commit_trans : M store unit :=
  let* l := gets lg in
  (if 0 <? lh_n (lh l) then
     write_head ;;;
     install_trans ;;;
     with_lg clear_lh ;;;
     write_head
   else ret tt) ;;;
  with_lg (set_busy false).

(** The index [log_write] records the sector at: the entry that already
    holds it, or the first free one. *)
Fixpoint log_slot (sectors : list Z) (n : nat) (i : nat) (sec : Z) : nat :=
  match n with
  | O => i
  | S n' =>
      if aget 0 sectors (Z.of_nat i) =? s32 sec then i
      else log_slot sectors n' (S i) sec
  end.

Definition log_enter (sec : Z) (l : log) : log :=
  let n := lh_n (lh l) in
  let i := log_slot (lh_sector (lh l)) (Z.to_nat n) 0 sec in
  set_lh (LogHeader (if Z.of_nat i =? n then n + 1 else n)
                    (aset (lh_sector (lh l)) (Z.of_nat i) (s32 sec))) l.

Definition log_write (b : nat) : M store unit :=
  let* l := gets lg in
  let n := lh_n (lh l) in
  if (LOGSIZE <=? n) || (log_size l - 1 <=? n) then panic "too big a transaction"
  else if negb (log_busy l) then panic "write outside of trans"
  else
    let* x := gets (fun s => thebuf (bc s) b) in
    with_lg (log_enter (sector x)) ;;;
    with_bc (modify (set_bufs (bupd b (fun x => set_flags (fset (flags x) B_DIRTY) x)))).

End logging.
Arguments store D : clear implicits.
Arguments Store {D} bc lg.

(** ** Facts on the cache used by the log *)

Section facts.
Context {D : Type} `{DriverOk D}.
Implicit Types (s : bio D) (a : cache).

Lemma crep_blk_length s a k x : crep s a -> blk a !! k = Some x -> length x = BSIZE.
Proof.
  intros Hr Hk. pose proof (cr_inv _ _ Hr) as Hinv.
  destruct (decide (k.1 = NODEV)) as [Hnd|Hnd].
  { rewrite (cr_disk _ _ Hr) in Hk; [by rewrite Hnd, image_nodev in Hk|].
    intros i Hi Hd <-. by apply Hd. }
  destruct (lookup_cases s k.1 k.2) as [(i & Hi & Hki)|Hno].
  - assert (dev (thebuf s i) <> NODEV) as Hd by (unfold key in Hki; congruence).
    pose proof (cr_cached _ _ Hr i Hi Hd) as Hc. rewrite Hki in Hc.
    destruct k as [dv sec]. simpl in Hc. rewrite Hk in Hc. injection Hc as ->.
    pose proof (bi_ok _ Hinv i Hi) as Hok. by apply buf_ok_used in Hok as (_ & ? & _).
  - rewrite (cr_disk _ _ Hr) in Hk; [by eapply image_length; [apply (bi_drv _ Hinv)|]|].
    intros i Hi _ Hki. apply (Hno i Hi). by rewrite Hki; destruct k.
Qed.

(** A sector that is not dirty in the cache is as it is on the disk. *)
Lemma crep_clean s a k : crep s a -> k ∉ pin a -> blk a !! k = image (drv s) k.1 k.2.
Proof.
  intros Hr Hk. pose proof (cr_inv _ _ Hr) as Hinv.
  destruct (lookup_cases s k.1 k.2) as [(i & Hi & Hki)|Hno].
  - assert (key (thebuf s i) = k) as Hki' by (by rewrite Hki; destruct k).
    destruct (decide (dev (thebuf s i) = NODEV)) as [Hd|Hd].
    { apply (cr_disk _ _ Hr). intros j Hj Hdj Hkj. unfold key in *. congruence. }
    rewrite <- Hki'. rewrite (cr_cached _ _ Hr i Hi Hd).
    pose proof (bi_ok _ Hinv i Hi) as Hok. apply buf_ok_used in Hok as (_ & _ & _ & Hc); [|done].
    symmetry. apply Hc. apply not_true_iff_false. intros Hdi. apply Hk.
    apply (cr_pin _ _ Hr). eauto.
  - apply (cr_disk _ _ Hr). intros i Hi _ Hki. apply (Hno i Hi). by rewrite Hki; destruct k.
Qed.

(** Replace the contents of a locked buffer and write it through. *)
Lemma write_back s a i x : crep s a -> (i < NBUF)%nat -> busy (thebuf s i) = true ->
  length x = BSIZE ->
  exists s', bwrite i (set_bufs (bupd i (set_data x)) s) = Ok tt s' /\
    crep s' (Cache (<[key (thebuf s i) := x]> (blk a)) (held a) (pin a ∖ {[key (thebuf s i)]})) /\
    (forall dv sec, image (drv s') dv sec =
      if decide ((dv, sec) = key (thebuf s i)) then Some x else image (drv s) dv sec) /\
    (forall j, (j < NBUF)%nat -> key (thebuf s' j) = key (thebuf s j) /\
      data (thebuf s' j) = (if decide (i = j) then x else data (thebuf s j)) /\
      busy (thebuf s' j) = busy (thebuf s j)) /\
    drv_writes (drv s) (drv s').
Proof.
  intros Hr Hi Hb Hx. pose proof (cr_inv _ _ Hr) as Hinv.
  set (fl := fset (flags (thebuf s i)) B_DIRTY).
  pose proof (dirty_refines s a i x fl Hr Hi Hb Hx eq_refl) as Hr1.
  set (s1 := set_bufs (bupd i (fun b => set_data x (set_flags fl b))) s) in *.
  assert (Hs1 : forall j, thebuf s1 j = if decide (i = j) then set_data x (set_flags fl (thebuf s j))
    else thebuf s j).
  { intros j. unfold s1, set_bufs. by rewrite thebuf_upd. }
  assert (Hb1 : busy (thebuf s1 i) = true).
  { rewrite Hs1, decide_True by done. unfold busy, fl, B_BUSY, B_DIRTY in *; simpl. by flg. }
  assert (Hk1 : key (thebuf s1 i) = key (thebuf s i)) by (by rewrite Hs1, decide_True).
  assert (Hx1 : data (thebuf s1 i) = x) by (by rewrite Hs1, decide_True).
  destruct (bwrite_refines s1 _ i Hr1 Hi Hb1) as (s' & Hw & Hr' & Himg & Hsame & Hdw).
  exists s'. split_and!.
  - rewrite <- Hw. unfold bwrite, bind, gets, modify.
    assert (Hb2 : busy (thebuf (set_bufs (bupd i (set_data x)) s) i) = true).
    { unfold set_bufs. by rewrite thebuf_upd, decide_True. }
    rewrite Hb1, Hb2. cbn [negb]. f_equal. unfold s1, set_bufs; simpl. f_equal.
    apply list_eq. intros j. unfold bupd. rewrite !list_lookup_alter.
    destruct (decide (i = j)) as [<-|]; [|done]. rewrite !decide_True by done.
    destruct (bufs s !! i) as [b|] eqn:Eb; [|done]. simpl. f_equal.
    unfold set_data, set_flags, fl, fset, thebuf, bget_at. rewrite Eb. simpl.
    f_equal. by rewrite <- Z.lor_assoc, Z.lor_diag.
  - eapply eq_rect; [exact Hr'|]. unfold spec_dirty; simpl. rewrite Hk1. f_equal. set_solver.
  - intros dv sec. by rewrite Himg, Hk1, Hx1.
  - intros j Hj. destruct (Hsame j Hj) as (-> & -> & ->). rewrite !Hs1.
    destruct (decide (i = j)) as [<-|]; [|done]. split_and!; try done.
    rewrite Hs1, decide_True in Hb1 by done. by rewrite Hb1, Hb.
  - done.
Qed.

End facts.

(** ** Where the log is, and what a crash can see *)

(** The sectors of the log: its header at [log_start], then its blocks. *)
Definition inlog (l : log) (k : Z * Z) : Prop :=
  k.1 = log_dev l /\ log_start l <= k.2 < log_start l + log_size l.

#[export] Instance inlog_dec l k : Decision (inlog l k).
Proof. unfold inlog. apply _. Defined.

Record geometry (l : log) (img : gmap (Z * Z) (list Z)) : Prop := {
  g_dev : 0 <= log_dev l < 2 ^ 32;
  g_start : 0 <= log_start l;
  g_size : 1 <= log_size l;
  g_end : log_start l + log_size l < 2 ^ 31;
  g_blocks k : inlog l k -> is_Some (img !! k)
}.

(** The [i]-th logged sector, and well-formed logged sectors: on the disk and
    outside the log. *)
Definition lsec (l : log) (i : nat) : Z * Z :=
  (log_dev l, aget 0 (lh_sector (lh l)) (Z.of_nat i)).

Definition sector_ok (l : log) (img : gmap (Z * Z) (list Z)) (k : Z * Z) : Prop :=
  0 <= k.2 < 2 ^ 31 /\ ~ inlog l k /\ is_Some (img !! k).

Record header_ok (l : log) (img : gmap (Z * Z) (list Z)) : Prop := {
  h_n : 0 <= lh_n (lh l) <= LOGSIZE;
  h_room : lh_n (lh l) <= log_size l - 1;
  h_len : length (lh_sector (lh l)) = Z.to_nat LOGSIZE;
  h_sec i : (Z.of_nat i < lh_n (lh l)) -> sector_ok l img (lsec l i)
}.

Definition lkeys (l : log) (n : nat) : list (Z * Z) := lsec l <$> seq 0 n.

Section crash.
Context {D : Type} `{DriverOk D}.
Implicit Types (s : store (Traced.t D)) (a : cache).

Definition diskof s : D := Traced.now (drv (bc s)).

(** [crashes P s s']: every disk that a crash can leave between [s] and [s']
    satisfies [P]. *)
Definition crashes (P : D -> Prop) s s' : Prop :=
  exists h, Traced.hist (drv (bc s')) = h ++ Traced.hist (drv (bc s)) /\ Forall P h.

Lemma crashes_refl P s s' : drv (bc s') = drv (bc s) -> crashes P s s'.
Proof. intros E. exists []. rewrite E. by split. Qed.

Lemma crashes_trans P s1 s2 s3 : crashes P s1 s2 -> crashes P s2 s3 -> crashes P s1 s3.
Proof.
  intros (h1 & E1 & F1) (h2 & E2 & F2). exists (h2 ++ h1). split.
  - by rewrite E2, E1, app_assoc.
  - by apply Forall_app.
Qed.

Lemma crashes_mono (P Q : D -> Prop) s s' :
  (forall d, P d -> Q d) -> crashes P s s' -> crashes Q s s'.
Proof. intros HPQ (h & E & F). exists h. split; [done|]. by eapply Forall_impl. Qed.

(** The two ways the cache drives the disk. *)
Lemma reads_crashes (P : D -> Prop) s s' : drv_reads (drv (bc s)) (drv (bc s')) ->
  (forall d, (forall dv sec, image d dv sec = image (diskof s) dv sec) -> P d) ->
  crashes P s s'.
Proof.
  intros [E|(b & b' & _ & Hio & Himg)] HP; [by apply crashes_refl|].
  cbn in Hio. unfold Traced.iderw in Hio.
  destruct (iderw b (Traced.now (drv (bc s)))) as [b1 d1| |] eqn:E1; try done.
  injection Hio as _ Hd. exists [d1]. rewrite <- Hd. split; [done|].
  repeat constructor. apply HP. intros dv sec. specialize (Himg dv sec).
  rewrite <- Hd in Himg. apply Himg.
Qed.

Lemma writes_crashes (P : D -> Prop) s s' : drv_writes (drv (bc s)) (drv (bc s')) ->
  P (diskof s') -> crashes P s s'.
Proof.
  intros (b & b' & _ & Hio) HP. cbn in Hio. unfold Traced.iderw in Hio.
  destruct (iderw b (Traced.now (drv (bc s)))) as [b1 d1| |] eqn:E1; try done.
  injection Hio as _ Hd. exists [d1]. unfold diskof in HP. rewrite <- Hd in *.
  split; [done|]. by repeat constructor.
Qed.

(** ** The steps of the log on the cache *)

Definition img_upd (f : Z -> Z -> option (list Z)) (k : Z * Z) (x : list Z) (dv sec : Z) :=
  if decide ((dv, sec) = k) then Some x else f dv sec.

(** [bread] of a sector that is not locked, when a buffer is available. *)
Lemma bread_step s a dv sec x : crep (bc s) a -> 0 <= dv < 2 ^ 32 -> 0 <= sec < 2 ^ 32 ->
  (dv, sec) ∉ held a -> ((dv, sec) ∈ pin a \/ (base.size (held a ∪ pin a) < NBUF)%nat) ->
  blk a !! (dv, sec) = Some x ->
  exists i s', with_bc (bread dv sec) s = Ok i s' /\ lg s' = lg s /\
    crep (bc s') (Cache (blk a) ({[(dv, sec)]} ∪ held a) (pin a)) /\ (i < NBUF)%nat /\
    key (thebuf (bc s') i) = (dv, sec) /\ busy (thebuf (bc s') i) = true /\
    data (thebuf (bc s') i) = x /\
    (forall dv sec, image (diskof s') dv sec = image (diskof s) dv sec) /\
    drv_reads (drv (bc s)) (drv (bc s')) /\
    forall j, j <> i -> thebuf (bc s') j = thebuf (bc s) j.
Proof.
  intros Hr Hdv Hsec Hh Hroom Hx.
  pose proof (bread_refines (bc s) a dv sec Hr) as Hb.
  unfold bread_ok, spec_bread in Hb. rewrite !u32_id in Hb by done.
  rewrite decide_False in Hb by done. rewrite decide_False in Hb by (intros [? ?]; naive_solver lia).
  rewrite Hx in Hb. destruct Hb as (i & b' & E & Hr' & Hi & Hk & Hbu & Hd & Hdr & Hf).
  exists i, (Store b' (lg s)). unfold with_bc, zoom. rewrite E.
  split_and!; try done. intros dv' sec'. unfold diskof; simpl.
  destruct Hdr as [->|(? & ? & _ & _ & Himg)]; [done|]. apply Himg.
Qed.

Lemma crep_eq (b : bio (Traced.t D)) a a' : crep b a -> blk a = blk a' -> held a = held a' ->
  pin a = pin a' -> crep b a'.
Proof. destruct a, a'; simpl. by intros ? -> -> ->. Qed.

Lemma brelse_step s a i : crep (bc s) a -> (i < NBUF)%nat -> busy (thebuf (bc s) i) = true ->
  exists s', with_bc (brelse i) s = Ok tt s' /\ lg s' = lg s /\
    crep (bc s') (Cache (blk a) (held a ∖ {[key (thebuf (bc s) i)]}) (pin a)) /\
    drv (bc s') = drv (bc s) /\
    forall j, (j < NBUF)%nat -> j <> i -> busy (thebuf (bc s') j) = busy (thebuf (bc s) j) /\
      key (thebuf (bc s') j) = key (thebuf (bc s) j) /\
      data (thebuf (bc s') j) = data (thebuf (bc s) j).
Proof.
  intros Hr Hi Hb. destruct (brelse_refines (bc s) a i Hr Hi Hb) as (b' & E & Hr' & Hd).
  exists (Store b' (lg s)). unfold with_bc, zoom. rewrite E. split_and!; try done.
  unfold brelse, bind, gets, modify in E. rewrite Hb in E. injection E as <-.
  intros j Hj Hji. unfold thebuf, set_bufs; simpl. rewrite bget_at_bupd, decide_False by naive_solver.
  destruct (brelse_move_contents (bufs (bc s)) i j) as (E1 & E2 & E3 & E4).
  unfold busy, key. by rewrite E1, E2, E3, E4.
Qed.

(** Replace a locked buffer's contents and write it through. *)
Lemma write_step s a i x : crep (bc s) a -> (i < NBUF)%nat -> busy (thebuf (bc s) i) = true ->
  length x = BSIZE ->
  exists s', (setdata i x ;;; with_bc (bwrite i)) s = Ok tt s' /\ lg s' = lg s /\
    crep (bc s') (Cache (<[key (thebuf (bc s) i) := x]> (blk a)) (held a)
                        (pin a ∖ {[key (thebuf (bc s) i)]})) /\
    (forall dv sec, image (diskof s') dv sec =
      img_upd (image (diskof s)) (key (thebuf (bc s) i)) x dv sec) /\
    (forall j, (j < NBUF)%nat -> key (thebuf (bc s') j) = key (thebuf (bc s) j) /\
      data (thebuf (bc s') j) = (if decide (i = j) then x else data (thebuf (bc s) j)) /\
      busy (thebuf (bc s') j) = busy (thebuf (bc s) j)) /\
    drv_writes (drv (bc s)) (drv (bc s')).
Proof.
  intros Hr Hi Hb Hx. destruct (write_back (bc s) a i x Hr Hi Hb Hx) as (b' & E & Hr' & Himg & Hs & Hw).
  exists (Store b' (lg s)). unfold bind, setdata, with_bc, zoom, modify. cbn [bc lg].
  rewrite E. split_and!; try done.
Qed.

Lemma bwrite_step s a i : crep (bc s) a -> (i < NBUF)%nat -> busy (thebuf (bc s) i) = true ->
  exists s', with_bc (bwrite i) s = Ok tt s' /\ lg s' = lg s /\
    crep (bc s') (Cache (blk a) (held a) (pin a ∖ {[key (thebuf (bc s) i)]})) /\
    (forall dv sec, image (diskof s') dv sec =
      img_upd (image (diskof s)) (key (thebuf (bc s) i)) (data (thebuf (bc s) i)) dv sec) /\
    (forall j, (j < NBUF)%nat -> key (thebuf (bc s') j) = key (thebuf (bc s) j) /\
      data (thebuf (bc s') j) = data (thebuf (bc s) j) /\
      busy (thebuf (bc s') j) = busy (thebuf (bc s) j)) /\
    drv_writes (drv (bc s)) (drv (bc s')).
Proof.
  intros Hr Hi Hb. destruct (bwrite_refines (bc s) a i Hr Hi Hb) as (b' & E & Hr' & Himg & Hs & Hw).
  exists (Store b' (lg s)). unfold with_bc, zoom. rewrite E. split_and!; try done.
Qed.

End crash.

(** ** The header block *)

Lemma head_block_fold h d m : (m <= 100)%nat -> length d = BSIZE ->
  let b := fold_left (fun acc i => put_le 4 (hb_sector i) (aget 0 (lh_sector h) (Z.of_nat i)) acc)
             (seq 0 m) d in
  length b = BSIZE /\ get_le 4 0 b = get_le 4 0 d /\
  forall i, (i < m)%nat -> get_le 4 (hb_sector i) b = u32 (aget 0 (lh_sector h) (Z.of_nat i)).
Proof.
  intros Hm Hd. cbv zeta. unfold BSIZE in *. induction m as [|m IH].
  { split_and!; [done|done|lia]. }
  rewrite seq_S, fold_left_app. cbn [fold_left Nat.add].
  destruct (IH ltac:(lia)) as (Hl & H0 & Hi). unfold hb_sector in *.
  split_and!.
  - rewrite length_put_le by lia. done.
  - by rewrite get_put_le_disj by lia.
  - intros i Hm'. destruct (decide (i = m)) as [->|].
    + by rewrite get_put_le by lia.
    + rewrite get_put_le_disj by lia. apply Hi. lia.
Qed.

Lemma head_block_ok h d : 0 <= lh_n h <= LOGSIZE -> length d = BSIZE ->
  length (head_block h d) = BSIZE /\ s32 (get_le 4 0 (head_block h d)) = lh_n h /\
  forall i, Z.of_nat i < lh_n h ->
    get_le 4 (hb_sector i) (head_block h d) = u32 (aget 0 (lh_sector h) (Z.of_nat i)).
Proof.
  unfold LOGSIZE. intros Hn Hd. unfold head_block.
  destruct (head_block_fold h (put_le 4 0 (lh_n h) d) (Z.to_nat (lh_n h))) as (Hl & H0 & Hi).
  - lia.
  - rewrite length_put_le; [done|]. unfold BSIZE in Hd. lia.
  - split_and!; [done| |intros i Hi'; apply Hi; lia].
    rewrite H0, get_put_le by (unfold BSIZE in Hd; lia).
    change (256 ^ Z.of_nat 4) with (2 ^ 32). fold (u32 (lh_n h)).
    rewrite s32_u32. apply s32_id. lia.
Qed.

Section commit.
Context {D : Type} `{DriverOk D}.
Implicit Types (s : store (Traced.t D)) (a : cache).

Definition hkey (l : log) : Z * Z := (log_dev l, log_start l).
Definition same_disk (d d' : D) : Prop := forall dv sec, image d dv sec = image d' dv sec.

Lemma hkey_inlog l img : geometry l img -> inlog l (hkey l).
Proof. intros Hg. pose proof (g_size _ _ Hg). split; simpl; [done|lia]. Qed.

Lemma write_head_ok s a x : let l := lg s in
  crep (bc s) a -> held a = ∅ -> (size (pin a) < NBUF)%nat -> geometry l (blk a) ->
  0 <= lh_n (lh l) <= LOGSIZE -> hkey l ∉ pin a -> blk a !! hkey l = Some x ->
  exists s', write_head s = Ok tt s' /\ lg s' = l /\
    crep (bc s') (Cache (<[hkey l := head_block (lh l) x]> (blk a)) ∅ (pin a)) /\
    (forall dv sec, image (diskof s') dv sec =
      img_upd (image (diskof s)) (hkey l) (head_block (lh l) x) dv sec) /\
    crashes (fun d => same_disk d (diskof s) \/ same_disk d (diskof s')) s s'.
Proof.
  intros l Hr Hh Hp Hg Hn Hk Hx.
  pose proof (g_dev _ _ Hg). pose proof (g_start _ _ Hg). pose proof (g_end _ _ Hg).
  pose proof (g_size _ _ Hg).
  assert (length x = BSIZE) as Hlx by (by apply (crep_blk_length (bc s) a (hkey l))).
  destruct (head_block_ok (lh l) x Hn Hlx) as (Hlb & _).
  destruct (bread_step s a (log_dev l) (log_start l) x Hr) as
    (i & s1 & E1 & Hl1 & Hr1 & Hi & Hk1 & Hb1 & Hd1 & Hi1 & Hd1' & _); try done; [lia| | |].
  { by rewrite Hh. }
  { right. by rewrite Hh, (left_id_L ∅ (∪)). }
  destruct (write_step s1 _ i (head_block (lh l) x) Hr1 Hi Hb1 Hlb) as
    (s2 & E2 & Hl2 & Hr2 & Hi2 & Hs2 & Hw2).
  destruct (Hs2 i Hi) as (Hk2 & _ & Hb2). rewrite Hb1 in Hb2. rewrite Hk1 in *.
  destruct (brelse_step s2 _ i Hr2 Hi Hb2) as (s3 & E3 & Hl3 & Hr3 & Hd3 & _).
  exists s3. split_and!.
  - unfold write_head. unfold bind at 1. cbn [gets]. fold l. unfold bind at 1. rewrite E1.
    unfold bind at 1. unfold bufdata at 1, gets at 1. rewrite Hd1.
    unfold bind in E2 |- *. destruct (setdata i (head_block (lh l) x) s1); try done.
    by rewrite E2.
  - unfold l. congruence.
  - eapply crep_eq; [exact Hr3| |..]; simpl; [done| |set_solver].
    rewrite Hk2, Hh. set_solver.
  - intros dv sec. unfold diskof at 1. rewrite Hd3. fold (diskof s2).
    rewrite Hi2. unfold img_upd, hkey. case_decide; [done|]. apply Hi1.
  - eapply crashes_trans; [|eapply crashes_trans; [|by apply crashes_refl]].
    + eapply reads_crashes; [exact Hd1'|]. intros d Hd. by left.
    + eapply writes_crashes; [done|]. right. intros dv sec. unfold diskof. by rewrite Hd3.
Qed.

(** Disks that agree on the log header and on everything outside the log. *)
Definition near (l : log) (d d' : D) : Prop :=
  forall k, k = hkey l \/ ~ inlog l k -> image d k.1 k.2 = image d' k.1 k.2.

Definition lblock (l : log) (t : nat) : Z * Z := (log_dev l, log_start l + Z.of_nat t + 1).

Lemma near_upd l (d d' : D) k x : inlog l k -> k <> hkey l ->
  (forall dv sec, image d dv sec = img_upd (image d') k x dv sec) -> near l d d'.
Proof.
  intros Hk Hne Hd k' Hk'. rewrite Hd. unfold img_upd. rewrite decide_False; [done|].
  destruct k'; simpl. intros <-. naive_solver.
Qed.

Lemma install_one_ok s a t x : let l := lg s in
  crep (bc s) a -> held a = ∅ -> (size (pin a) < NBUF)%nat -> geometry l (blk a) ->
  inlog l (lblock l t) -> lblock l t ∉ pin a -> sector_ok l (blk a) (lsec l t) ->
  (lsec l t ∈ pin a \/ (size (pin a) + 1 < NBUF)%nat) -> blk a !! lsec l t = Some x ->
  exists s', install_one t s = Ok tt s' /\ lg s' = l /\
    crep (bc s') (Cache (<[lblock l t := x]> (blk a)) ∅ (pin a ∖ {[lsec l t]})) /\
    (forall dv sec, image (diskof s') dv sec =
      img_upd (img_upd (image (diskof s)) (lblock l t) x) (lsec l t) x dv sec) /\
    crashes (fun d => near l d (diskof s) \/ near l d (diskof s')) s s'.
Proof.
  intros l Hr Hh Hp Hg Hkl Hklp (Hs1 & Hs2 & Hs3) Hroom Hx.
  pose proof (g_dev _ _ Hg). pose proof (g_end _ _ Hg). pose proof (g_start _ _ Hg).
  destruct (g_blocks _ _ Hg _ Hkl) as [xl Hxl].
  assert (length x = BSIZE) as Hlx by (by apply (crep_blk_length (bc s) a (lsec l t))).
  assert (lblock l t <> lsec l t) as Hne by (intros E; rewrite E in Hkl; done).
  assert (lblock l t <> hkey l) as Hneh by (unfold lblock, hkey; intros [=]; lia).
  destruct (bread_step s a (log_dev l) (log_start l + Z.of_nat t + 1) xl Hr) as
    (i & s1 & E1 & Hl1 & Hr1 & Hi & Hk1 & Hb1 & Hd1 & Hi1 & Hd1' & _); try done.
  { destruct Hkl; simpl in *; lia. }
  { by rewrite Hh. }
  { right. by rewrite Hh, (left_id_L ∅ (∪)). }
  destruct (bread_step s1 _ (log_dev l) (aget 0 (lh_sector (lh l)) (Z.of_nat t)) x Hr1) as
    (j & s2 & E2 & Hl2 & Hr2 & Hj & Hk2 & Hb2 & Hd2 & Hi2 & Hd2' & Hf2); simpl; try done.
  { simpl in Hs1. lia. }
  { rewrite Hh. fold (lblock l t) (lsec l t). set_solver. }
  { fold (lblock l t) (lsec l t). destruct Hroom as [?|Hroom]; [by left|right].
    rewrite Hh, (right_id_L ∅ (∪)), size_union by set_solver. rewrite size_singleton. lia. }
  fold (lblock l t) in *. fold (lsec l t) in *.
  assert (Hij : i <> j).
  { intros Hij. destruct (proj1 (cr_held _ _ Hr2 (lblock l t)) ltac:(set_solver)) as (m & Hm & Hkm & _).
    assert (m <> j) as Hmj by congruence. rewrite Hf2 in Hkm by done.
    destruct (busy_used _ _ i Hr1 Hi Hb1) as (_ & _ & Hu). apply Hmj. rewrite <- Hij.
    apply Hu; congruence. }
  rewrite <- Hf2 in Hk1, Hb1 by done.
  destruct (write_step s2 _ i x Hr2 Hi Hb1 Hlx) as (s3 & E3 & Hl3 & Hr3 & Hi3 & Hs3' & Hw3).
  rewrite Hk1 in *. destruct (Hs3' j Hj) as (Hk3 & Hd3 & Hb3).
  rewrite decide_False in Hd3 by done. rewrite Hb2 in Hb3. rewrite Hk2 in Hk3. rewrite Hd2 in Hd3.
  destruct (bwrite_step s3 _ j Hr3 Hj Hb3) as (s4 & E4 & Hl4 & Hr4 & Hi4 & Hs4 & Hw4).
  rewrite Hk3, Hd3 in *.
  destruct (Hs3' i Hi) as (Hk3i & _ & Hb3i), (Hs4 i Hi) as (Hk4 & _ & Hb4).
  rewrite Hb3i, Hb1 in Hb4. rewrite Hk3i, Hk1 in Hk4.
  destruct (brelse_step s4 _ i Hr4 Hi Hb4) as (s5 & E5 & Hl5 & Hr5 & Hd5 & Hf5).
  destruct (Hs4 j Hj) as (Hk4j & _ & Hb4j), (Hf5 j Hj) as (Hb5 & Hk5 & _); [done|].
  rewrite Hb4j, Hb3 in Hb5. rewrite Hk4j, Hk3 in Hk5.
  destruct (brelse_step s5 _ j Hr5 Hj Hb5) as (s6 & E6 & Hl6 & Hr6 & Hd6 & _).
  exists s6. split_and!.
  - unfold install_one. unfold bind at 1. cbn [gets]. fold l. unfold bind at 1. rewrite E1.
    unfold bind at 1. rewrite E2. unfold bind at 1. unfold bufdata at 1, gets at 1. rewrite Hd2.
    unfold bind in E3 |- *. destruct (setdata i x s2); try done. by rewrite E3, E4, E5, E6.
  - unfold l. congruence.
  - eapply crep_eq; [exact Hr6| |..]; simpl; [done| |set_solver].
    rewrite Hk4, Hk5, Hh. set_solver.
  - intros dv sec. unfold diskof at 1. rewrite Hd6, Hd5. fold (diskof s4).
    rewrite Hi4. unfold img_upd. case_decide; [done|]. rewrite Hi3. unfold img_upd.
    case_decide; [done|]. by rewrite Hi2, Hi1.
  - assert (Hn3 : near l (diskof s3) (diskof s)).
    { apply (near_upd l _ _ (lblock l t) x); try done. intros dv sec. rewrite Hi3.
      unfold img_upd. case_decide; [done|]. by rewrite Hi2, Hi1. }
    apply (crashes_trans _ s s1); [|apply (crashes_trans _ s1 s2);
      [|apply (crashes_trans _ s2 s3); [|apply (crashes_trans _ s3 s4)]]].
    + apply reads_crashes; [done|]. intros d Hd. left. intros k _. apply Hd.
    + apply reads_crashes; [done|]. intros d Hd. left. intros k _. by rewrite Hd, Hi1.
    + apply writes_crashes; [done|]. by left.
    + apply writes_crashes; [done|]. right. intros k _. unfold diskof. by rewrite Hd6, Hd5.
    + apply crashes_refl. by rewrite Hd6, Hd5.
Qed.

(** [d] is [d0] with the logged sectors [ts] installed from [img]. *)
Definition installed (l : log) (img : gmap (Z * Z) (list Z)) (ts : list nat) (d0 d : D) : Prop :=
  forall k, k = hkey l \/ ~ inlog l k ->
    image d k.1 k.2 = if decide (k ∈ lsec l <$> ts) then img !! k else image d0 k.1 k.2.

Lemma lblock_hkey l t : lblock l t <> hkey l.
Proof. unfold lblock, hkey. intros [=]. lia. Qed.

Lemma installed_cons l img img' t ts x d0 d1 d :
  inlog l (lblock l t) -> ~ inlog l (lsec l t) -> img !! lsec l t = Some x ->
  img' = <[lblock l t := x]> img ->
  (forall dv sec, image d1 dv sec =
    img_upd (img_upd (image d0) (lblock l t) x) (lsec l t) x dv sec) ->
  installed l img' ts d1 d -> installed l img (t :: ts) d0 d.
Proof.
  intros Hb Hs Hx -> Hd1 Hd k Hk. rewrite (Hd k Hk).
  assert (lblock l t <> k) as Hbk.
  { intros <-. destruct Hk as [Hk|Hk]; [by apply lblock_hkey in Hk|done]. }
  rewrite lookup_insert_ne by done. rewrite fmap_cons.
  destruct (decide (k ∈ lsec l <$> ts)) as [Hin|Hin].
  - rewrite decide_True by set_solver. done.
  - rewrite Hd1. unfold img_upd. destruct k as [dv sec]; simpl.
    destruct (decide ((dv, sec) = lsec l t)) as [E|E].
    + rewrite decide_True by (rewrite E; left). by rewrite E.
    + rewrite decide_False by auto. by rewrite decide_False by set_solver.
Qed.

Lemma installed_near l img d0 d : near l d d0 -> installed l img [] d0 d.
Proof. intros Hn k Hk. rewrite decide_False by apply not_elem_of_nil. by apply Hn. Qed.

Record installable (l : log) a (t : nat) : Prop := {
  in_block : inlog l (lblock l t);
  in_sector : sector_ok l (blk a) (lsec l t);
  in_room : lsec l t ∈ pin a \/ (size (pin a) + 1 < NBUF)%nat
}.

Lemma installable_next l a t t' x : installable l a t -> installable l a t' ->
  (size (pin a) < NBUF)%nat ->
  installable l (Cache (<[lblock l t := x]> (blk a)) ∅ (pin a ∖ {[lsec l t]})) t'.
Proof.
  intros [B1 S1 R1] [B2 (S2a & S2b & S2c) R2] Hp. split; simpl; [done| |].
  - split; [done|]. split; [done|]. rewrite lookup_insert_is_Some.
    destruct (decide (lblock l t = lsec l t')); auto.
  - right. destruct (decide (lsec l t ∈ pin a)) as [Hin|Hin].
    + rewrite size_difference by set_solver. rewrite size_singleton.
      assert (size (pin a) <> 0)%nat; [|lia]. intros E%size_empty_inv. set_solver.
    + rewrite difference_disjoint_L by set_solver. naive_solver.
Qed.

Lemma install_loop_ok l tails s a : lg s = l ->
  crep (bc s) a -> held a = ∅ -> (size (pin a) < NBUF)%nat -> geometry l (blk a) ->
  (forall k, k ∈ pin a -> ~ inlog l k) -> (forall t, t ∈ tails -> installable l a t) ->
  exists s' a', install_loop tails s = Ok tt s' /\ lg s' = l /\
    crep (bc s') a' /\ held a' = ∅ /\ pin a' = pin a ∖ list_to_set (lsec l <$> tails) /\
    (forall k, k = hkey l \/ ~ inlog l k -> blk a' !! k = blk a !! k) /\
    geometry l (blk a') /\
    installed l (blk a) tails (diskof s) (diskof s') /\
    crashes (fun d => exists m, (m <= length tails)%nat /\
      installed l (blk a) (take m tails) (diskof s) d) s s'.
Proof.
  revert s a. induction tails as [|t tails IH]; intros s a Hl Hr Hh Hp Hg Hpl Ht.
  - exists s, a. split_and!; try done.
    + set_solver.
    + by apply crashes_refl.
  - destruct (Ht t) as [B1 S1 R1]; [left|]. destruct S1 as (S1a & S1b & [x Hx]).
    pose proof (install_one_ok s a t x) as H1. cbv zeta in H1. rewrite Hl in H1.
    destruct H1 as (s1 & E1 & Hl1 & Hr1 & Hi1 & Hc1); try done.
    { intros Hin. by apply (Hpl _ Hin). }
    set (a1 := Cache _ _ _) in Hr1.
    assert (Hp1 : (size (pin a1) <= size (pin a))%nat) by (apply subseteq_size; simpl; set_solver).
    assert (Hg1 : geometry l (blk a1)).
    { destruct Hg. split; try done. intros k Hk. simpl. rewrite lookup_insert_is_Some.
      destruct (decide (lblock l t = k)); auto. }
    destruct (IH s1 a1) as (s2 & a2 & E2 & Hl2 & Hr2 & Hh2 & Hp2 & Hb2 & Hg2 & Hin2 & Hc2);
      try done.
    { lia. }
    { intros k Hk. apply Hpl. simpl in Hk. set_solver. }
    { intros t' Ht'. apply installable_next; [|apply Ht; by right|done].
      split; [done| |done]. split; [done|]. split; [done|]. by eexists. }
    exists s2, a2. split_and!; try done.
    + simpl. unfold bind. by rewrite E1, E2.
    + rewrite Hp2. simpl. set_solver.
    + intros k Hk. rewrite Hb2 by done. simpl. apply lookup_insert_ne.
      intros <-. destruct Hk as [Hk|Hk]; [by apply lblock_hkey in Hk|done].
    + by apply (installed_cons l (blk a) (blk a1) t tails x _ (diskof s1)).
    + apply (crashes_trans _ s s1).
      * eapply crashes_mono; [|exact Hc1]. intros d [Hd|Hd].
        -- exists 0%nat. split; [lia|]. by apply installed_near.
        -- exists 1%nat. split; [simpl; lia|]. cbn [take].
           apply (installed_cons l (blk a) (blk a1) t [] x _ (diskof s1)); try done.
      * eapply crashes_mono; [|exact Hc2]. intros d (m & Hm & Hd). exists (S m).
        split; [simpl; lia|]. cbn [take].
        by apply (installed_cons l (blk a) (blk a1) t (take m tails) x _ (diskof s1)).
Qed.

(** The state in which [commit_trans] runs: the dirty buffers are those of
    the logged sectors, and no buffer is locked. *)
Record logged s a : Prop := {
  lo_rep : crep (bc s) a;
  lo_held : held a = ∅;
  lo_geo : geometry (lg s) (blk a);
  lo_hdr : header_ok (lg s) (blk a);
  lo_pin : pin a = list_to_set (lkeys (lg s) (Z.to_nat (lh_n (lh (lg s)))));
  lo_few : (size (pin a) < NBUF)%nat
}.

Lemma lkeys_elem l n k : k ∈ lkeys l n <-> exists i, (i < n)%nat /\ k = lsec l i.
Proof.
  unfold lkeys. rewrite list_elem_of_fmap. setoid_rewrite elem_of_seq. naive_solver lia.
Qed.

Lemma logged_outside s a k : logged s a -> k ∈ pin a -> ~ inlog (lg s) k.
Proof.
  intros HL Hk. rewrite (lo_pin _ _ HL), elem_of_list_to_set, lkeys_elem in Hk.
  destruct Hk as (i & Hi & ->). pose proof (h_n _ _ (lo_hdr _ _ HL)).
  apply (h_sec _ _ (lo_hdr _ _ HL)). lia.
Qed.

Lemma logged_installable s a t x : logged s a -> t ∈ seq 0 (Z.to_nat (lh_n (lh (lg s)))) ->
  installable (lg s) (Cache (<[hkey (lg s) := x]> (blk a)) ∅ (pin a)) t.
Proof.
  intros HL Ht%elem_of_seq. destruct HL as [Hr Hh Hg Hd Hp Hf]. pose proof (h_n _ _ Hd).
  pose proof (h_room _ _ Hd). pose proof (g_size _ _ Hg).
  destruct (h_sec _ _ Hd t) as (S1 & S2 & S3); [lia|]. split; simpl.
  - unfold lblock. split; simpl; lia.
  - split; [done|]. split; [done|]. rewrite lookup_insert_is_Some.
    destruct (decide (hkey (lg s) = lsec (lg s) t)); auto.
  - left. rewrite Hp, elem_of_list_to_set, lkeys_elem. exists t. split; [lia|done].
Qed.

(** What the header block on a disk says: no transaction, or the one in
    memory. *)
Definition head_disk (l : log) (d : D) : Prop := exists x, image d (log_dev l) (log_start l) = Some x /\
  (s32 (get_le 4 0 x) = 0 \/
   s32 (get_le 4 0 x) = lh_n (lh l) /\ forall i, Z.of_nat i < lh_n (lh l) ->
     s32 (get_le 4 (hb_sector i) x) = aget 0 (lh_sector (lh l)) (Z.of_nat i)).

(** [d] is [d0] with the first [m] logged sectors replaced by their contents
    in the cache. *)
Definition prefix_of (l : log) (img : gmap (Z * Z) (list Z)) (m : nat) (d0 d : D) : Prop :=
  forall k, ~ inlog l k ->
    image d k.1 k.2 = if decide (k ∈ lkeys l m) then img !! k else image d0 k.1 k.2.

(** The disks a crash of [commit_trans] can leave. *)
Definition torn (l : log) (img : gmap (Z * Z) (list Z)) (d0 d : D) : Prop :=
  (exists m, (m <= Z.to_nat (lh_n (lh l)))%nat /\ prefix_of l img m d0 d) /\ head_disk l d.

Lemma head_block_disk l d x : length x = BSIZE ->
  0 <= lh_n (lh l) <= LOGSIZE ->
  (forall i, Z.of_nat i < lh_n (lh l) -> 0 <= aget 0 (lh_sector (lh l)) (Z.of_nat i) < 2 ^ 31) ->
  image d (log_dev l) (log_start l) = Some (head_block (lh l) x) -> head_disk l d.
Proof.
  intros Hx Hn Hs Hd. destruct (head_block_ok (lh l) x Hn Hx) as (_ & H1 & H2).
  eexists. split; [done|]. right. split; [done|]. intros i Hi. rewrite H2 by done.
  rewrite s32_u32. apply s32_id. pose proof (Hs i Hi). lia.
Qed.

Lemma prefix_same l img (d0 d : D) : same_disk d d0 -> prefix_of l img 0 d0 d.
Proof. intros Hd k Hk. unfold lkeys. simpl. apply Hd. Qed.

Lemma installed_prefix l img img' n m (d0 d1 d : D) : (m <= n)%nat ->
  (forall k, ~ inlog l k -> img' !! k = img !! k) ->
  (forall k, ~ inlog l k -> image d1 k.1 k.2 = image d0 k.1 k.2) ->
  installed l img' (take m (seq 0 n)) d1 d -> prefix_of l img m d0 d.
Proof.
  intros Hm Himg Hd1 Hd k Hk. rewrite (Hd k) by auto. rewrite take_seq, Nat.min_l by done.
  unfold lkeys. by rewrite Himg, Hd1.
Qed.

Lemma geometry_same l l' img img' : log_dev l' = log_dev l -> log_start l' = log_start l ->
  log_size l' = log_size l -> (forall k, is_Some (img !! k) -> is_Some (img' !! k)) ->
  geometry l img -> geometry l' img'.
Proof.
  intros E1 E2 E3 Hi [G1 G2 G3 G4 G5]. split; rewrite ?E1, ?E2, ?E3; try done.
  intros k Hk. apply Hi, G5. unfold inlog in *. by rewrite E1, E2, E3 in Hk.
Qed.

Lemma insert_some (img : gmap (Z * Z) (list Z)) k x k' :
  is_Some (img !! k') -> is_Some (<[k := x]> img !! k').
Proof. intros. rewrite lookup_insert_is_Some. destruct (decide (k = k')); auto. Qed.

Lemma hkey_outside l img k : geometry l img -> ~ inlog l k -> k <> hkey l.
Proof. intros Hg Hk ->. by eapply Hk, hkey_inlog. Qed.

Lemma logged_hkey s a : logged s a -> hkey (lg s) ∉ pin a.
Proof.
  intros HL Hin. apply (logged_outside _ _ _ HL) in Hin.
  by eapply Hin, hkey_inlog, lo_geo.
Qed.

Lemma installed_head l img img0 m (d0 d : D) : geometry l img0 -> header_ok l img0 ->
  head_disk l d0 ->
  installed l img (take m (seq 0 (Z.to_nat (lh_n (lh l))))) d0 d -> head_disk l d.
Proof.
  intros Hg Hd (y & Hy & Hy') Hm. exists y. split; [|done]. rewrite <- Hy.
  pose proof (Hm (hkey l) (or_introl eq_refl)) as E. cbn [hkey fst snd] in E. rewrite E.
  rewrite decide_False; [done|]. rewrite take_seq. intros (i & Hi & Ei)%lkeys_elem.
  destruct (h_sec _ _ Hd i) as (_ & Hs & _); [lia|].
  apply Hs. rewrite <- Ei. by eapply hkey_inlog.
Qed.

(** The header block says that there is no transaction. *)
Definition idle (l : log) (img : gmap (Z * Z) (list Z)) : Prop :=
  exists x, img !! hkey l = Some x /\ s32 (get_le 4 0 x) = 0.

(** The state after the sequence write header, install: every logged sector
    is on the disk, the header still names the transaction. *)
Lemma commit_install s a : let l := lg s in logged s a -> idle l (blk a) ->
  exists s' a', (write_head ;;; install_trans) s = Ok tt s' /\ lg s' = l /\
    crep (bc s') a' /\ held a' = ∅ /\ pin a' = ∅ /\ geometry l (blk a') /\
    (forall k, ~ inlog l k -> blk a' !! k = blk a !! k) /\
    prefix_of l (blk a) (Z.to_nat (lh_n (lh l))) (diskof s) (diskof s') /\
    head_disk l (diskof s') /\ crashes (torn l (blk a) (diskof s)) s s'.
Proof.
  intros l HL (x & Hx & Hx0). pose proof HL as [Hr Hh Hg Hd Hp Hf]. fold l in Hg, Hd, Hp.
  pose proof (h_n _ _ Hd) as Hn. set (n := Z.to_nat (lh_n (lh l))) in *.
  pose proof (fun k => hkey_outside l (blk a) k Hg) as Hkl.
  pose proof (logged_hkey s a HL) as Hhp. fold l in Hhp.
  assert (Hlx : length x = BSIZE) by (by apply (crep_blk_length (bc s) a (hkey l))).
  destruct (write_head_ok s a x) as (s1 & E1 & Hl1 & Hr1 & Hi1 & Hc1); try done.
  fold l in Hl1, Hr1, Hi1, Hc1. set (a1 := Cache _ _ _) in Hr1.
  assert (Hg1 : geometry l (blk a1)).
  { eapply geometry_same; [done..| |exact Hg]. intros k. apply insert_some. }
  destruct (install_loop_ok l (seq 0 n) s1 a1) as
    (s2 & a2 & E2 & Hl2 & Hr2 & Hh2 & Hp2 & Hb2 & Hg2 & Hin2 & Hc2); try done.
  { intros k Hk. by apply (logged_outside s a). }
  { intros t Ht. by apply logged_installable. }
  assert (Hd1 : forall k, ~ inlog l k -> image (diskof s1) k.1 k.2 = image (diskof s) k.1 k.2).
  { intros [dv sec] Hk. rewrite Hi1. unfold img_upd. rewrite decide_False; [done|]. by apply Hkl. }
  assert (Hb1 : forall k, ~ inlog l k -> blk a1 !! k = blk a !! k).
  { intros k Hk. apply lookup_insert_ne. intros E. by eapply Hkl. }
  assert (Hh1 : head_disk l (diskof s1)).
  { apply (head_block_disk l _ x); try done; [intros i Hi; by destruct (h_sec _ _ Hd i Hi)|].
    rewrite Hi1. unfold img_upd. by rewrite decide_True. }
  exists s2, a2. split_and!; try done.
  - unfold bind, install_trans, gets. rewrite E1. unfold bind. by rewrite Hl1.
  - rewrite Hp2. simpl. unfold lkeys in Hp. rewrite <- Hp. apply difference_diag_L.
  - intros k Hk. rewrite Hb2 by auto. by apply Hb1.
  - eapply (installed_prefix l _ (blk a1) n); try done. by rewrite take_ge by (by rewrite length_seq).
  - apply (installed_head l (blk a1) (blk a) n (diskof s1)); try done.
    by rewrite take_ge by (by rewrite length_seq).
  - apply (crashes_trans _ s s1).
    + eapply crashes_mono; [|exact Hc1]. intros d [Hs|Hs]; (split; [exists 0%nat; split; [lia|]|]).
      * by apply prefix_same.
      * exists x. rewrite Hs. split; [|by left]. rewrite <- Hx. symmetry.
        apply (crep_clean _ _ _ Hr Hhp).
      * intros k Hk. rewrite Hs. unfold lkeys; simpl. by apply Hd1.
      * destruct Hh1 as (y & Hy & Hy'). exists y. by rewrite Hs.
    + eapply crashes_mono; [|exact Hc2]. intros d (m & Hm & Hdm). rewrite length_seq in Hm.
      split; [|by eapply (installed_head l (blk a1) (blk a) m (diskof s1))]. exists m. split; [done|].
      by eapply (installed_prefix l _ (blk a1) n).
Qed.

Lemma clear_ok s a : let l := lg s in
  crep (bc s) a -> held a = ∅ -> pin a = ∅ -> geometry l (blk a) ->
  exists s' a', (with_lg clear_lh ;;; write_head) s = Ok tt s' /\ lg s' = clear_lh l /\
    crep (bc s') a' /\ held a' = ∅ /\ pin a' = ∅ /\ geometry l (blk a') /\ idle l (blk a') /\
    (forall k, k <> hkey l -> blk a' !! k = blk a !! k /\
      image (diskof s') k.1 k.2 = image (diskof s) k.1 k.2) /\
    crashes (fun d => same_disk d (diskof s) \/ same_disk d (diskof s')) s s'.
Proof.
  intros l Hr Hh Hp Hg. set (s1 := Store (bc s) (clear_lh l)).
  destruct (g_blocks _ _ Hg (hkey l)) as [x Hx]; [by eapply hkey_inlog|].
  assert (Hlx : length x = BSIZE) by (by apply (crep_blk_length (bc s) a (hkey l))).
  destruct (write_head_ok s1 a x) as (s2 & E & Hl2 & Hr2 & Hi2 & Hc2); try done.
  { rewrite Hp, size_empty. unfold NBUF. lia. }
  { by eapply geometry_same; [..|exact Hg]. }
  { by rewrite Hp. }
  exists s2. eexists. split_and!; [exact E|done|exact Hr2|done|done| | | |done].
  - eapply geometry_same; [done..| |exact Hg]. intros k. apply insert_some.
  - eexists. cbn [blk]. split; [apply lookup_insert_eq|].
    apply (head_block_ok (lh (clear_lh l)) x); [|done]. simpl. unfold LOGSIZE. lia.
  - intros k Hk. split; [by apply lookup_insert_ne|]. rewrite Hi2. unfold img_upd.
    rewrite decide_False; [done|]. by destruct k.
Qed.

(** [commit_trans] returns, every logged sector is then on the disk with the
    contents it has in the cache, and every disk a crash can leave before that
    has a prefix of the logged sectors installed. *)
Lemma commit_ok s a : let l := lg s in logged s a -> idle l (blk a) ->
  exists s' a', commit_trans s = Ok tt s' /\ lg s' = set_busy false (clear_lh l) /\
    crep (bc s') a' /\ held a' = ∅ /\ pin a' = ∅ /\ geometry l (blk a') /\ idle l (blk a') /\
    (forall k, ~ inlog l k -> blk a' !! k = blk a !! k /\
      image (diskof s') k.1 k.2 = blk a !! k) /\
    crashes (torn l (blk a) (diskof s)) s s'.
Proof.
  intros l HL Hid. pose proof HL as [Hr Hh Hg Hd Hp Hf]. fold l in Hg, Hd, Hp.
  pose proof (h_n _ _ Hd) as Hn. unfold commit_trans, bind at 1. cbn [gets]. fold l.
  destruct (Z.ltb_spec 0 (lh_n (lh l))) as [Hpos|Hz].
  - destruct (commit_install s a HL Hid) as
      (s1 & a1 & E1 & Hl1 & Hr1 & Hh1 & Hp1 & Hg1 & Hb1 & Hpre & Hhd & Hc1).
    destruct (clear_ok s1 a1) as (s2 & a2 & E2 & Hl2 & Hr2 & Hh2 & Hp2 & Hg2 & Hid2 & Hk2 & Hc2);
      rewrite ?Hl1; try done.
    rewrite Hl1 in Hg2, Hid2, Hk2, Hl2. fold l in Hg2, Hid2, Hk2, Hl2.
    exists (Store (bc s2) (set_busy false (clear_lh l))), a2. split_and!; try done.
    + unfold bind in E1, E2 |- *. destruct (write_head s) as [[] s0| |]; try done. rewrite E1.
      destruct (with_lg clear_lh s1) as [[] s1'| |]; try done. rewrite E2.
      unfold with_lg, modify. by rewrite Hl2.
    + intros k Hk. destruct (Hk2 k (hkey_outside _ _ _ Hg Hk)) as [-> Ei]. split; [by apply Hb1|].
      unfold diskof at 1; simpl. fold (diskof s2). rewrite Ei, Hpre by done.
      case_decide as Hin; [done|]. symmetry. apply (crep_clean _ _ _ Hr).
      rewrite Hp, elem_of_list_to_set. done.
    + apply (crashes_trans _ s s1); [done|]. eapply crashes_mono; [|exact Hc2].
      intros d Hsd. split; [exists (Z.to_nat (lh_n (lh l))); split; [done|]|].
      * intros k Hk. rewrite <- Hpre by done. destruct Hsd as [->| ->]; [done|].
        by apply Hk2, (hkey_outside _ _ _ Hg).
      * destruct Hsd as [Hs|Hs]; [destruct Hhd as (y & Hy & Hy'); exists y; by rewrite Hs|].
        destruct Hid2 as (y & Hy & Hy0). exists y. rewrite Hs. split; [|by left].
        rewrite <- Hy. symmetry. apply (crep_clean _ _ (hkey l) Hr2). by rewrite Hp2.
  - assert (Hn0 : lh_n (lh l) = 0) by lia. rewrite Hn0 in Hp. cbn in Hp.
    exists (Store (bc s) (set_busy false l)), a. split_and!; try done.
    + unfold clear_lh, set_lh, set_busy; simpl. fold l. do 2 f_equal.
      destruct l as [? ? ? ? [n sec]]; simpl in *. by subst.
    + intros k Hk. split; [done|]. symmetry. apply (crep_clean _ _ _ Hr). by rewrite Hp.
    + by apply crashes_refl.
Qed.

(** ** Recovery *)

Lemma head_sectors_ok n d old : (n <= length old)%nat ->
  let h := fold_left (fun acc i => aset acc (Z.of_nat i) (s32 (get_le 4 (hb_sector i) d)))
             (seq 0 n) old in
  length h = length old /\
  forall i, (i < n)%nat -> aget 0 h (Z.of_nat i) = s32 (get_le 4 (hb_sector i) d).
Proof.
  cbv zeta. induction n as [|n IH]; intros Hn; [split; [done|lia]|].
  rewrite seq_S, fold_left_app. cbn [fold_left Nat.add]. destruct IH as [Hl Hi]; [lia|].
  split; [by rewrite length_aset|]. intros i Hin. destruct (decide (i = n)) as [->|].
  - apply aget_aset_eq. lia.
  - rewrite aget_aset_ne by lia. apply Hi. lia.
Qed.

(** The log in memory once [read_head] has read the header block [x]. *)
Definition with_head (x : list Z) (l : log) : log :=
  set_lh (LogHeader (s32 (get_le 4 0 x)) (head_sectors (s32 (get_le 4 0 x)) x (lh_sector (lh l)))) l.

Lemma read_head_ok s a x : let l := lg s in
  crep (bc s) a -> held a = ∅ -> pin a = ∅ -> geometry l (blk a) -> blk a !! hkey l = Some x ->
  exists s', read_head s = Ok tt s' /\ lg s' = with_head x l /\ crep (bc s') a /\
    same_disk (diskof s') (diskof s) /\ crashes (fun d => same_disk d (diskof s)) s s'.
Proof.
  intros l Hr Hh Hp Hg Hx.
  pose proof (g_dev _ _ Hg). pose proof (g_start _ _ Hg). pose proof (g_end _ _ Hg).
  pose proof (g_size _ _ Hg).
  destruct (bread_step s a (log_dev l) (log_start l) x Hr) as
    (i & s1 & E1 & Hl1 & Hr1 & Hi & Hk1 & Hb1 & Hd1 & Hi1 & Hd1' & _); try done; [lia| | |].
  { by rewrite Hh. }
  { right. rewrite Hh, Hp, (left_id_L ∅ (∪)), size_empty. unfold NBUF. lia. }
  set (s1' := Store (bc s1) (with_head x l)).
  destruct (brelse_step s1' _ i Hr1 Hi Hb1) as (s2 & E2 & Hl2 & Hr2 & Hd2 & _).
  exists s2. split_and!.
  - unfold read_head. unfold bind at 1. cbn [gets]. fold l. unfold bind at 1. rewrite E1.
    unfold bind at 1. unfold bufdata at 1, gets at 1. rewrite Hd1.
    unfold bind at 1. unfold with_lg, modify. rewrite Hl1. done.
  - done.
  - eapply crep_eq; [exact Hr2| |..]; simpl; [done| |done]. rewrite Hk1, Hh. set_solver.
  - intros dv sec. unfold diskof at 1. rewrite Hd2. apply Hi1.
  - apply (crashes_trans _ s s1); [by apply reads_crashes|]. by apply crashes_refl.
Qed.

(** Installing clean sectors changes nothing outside the log. *)
Lemma installed_clean l img ts (d0 d : D) : (forall k, ~ inlog l k -> img !! k = image d0 k.1 k.2) ->
  installed l img ts d0 d -> forall k, ~ inlog l k -> image d k.1 k.2 = image d0 k.1 k.2.
Proof. intros Hc Hd k Hk. rewrite (Hd k) by auto. case_decide; auto. Qed.

(** Recovery returns, leaves every sector outside the log as it found it and
    leaves a header that says there is no transaction. *)
Lemma recover_ok s a x : let l := lg s in
  crep (bc s) a -> held a = ∅ -> pin a = ∅ -> geometry l (blk a) -> blk a !! hkey l = Some x ->
  header_ok (with_head x l) (blk a) ->
  exists s' a', recover_from_log s = Ok tt s' /\ lg s' = clear_lh (with_head x l) /\
    crep (bc s') a' /\ held a' = ∅ /\ pin a' = ∅ /\ geometry l (blk a') /\ idle l (blk a') /\
    (forall k, ~ inlog l k -> blk a' !! k = blk a !! k /\
      image (diskof s') k.1 k.2 = image (diskof s) k.1 k.2) /\
    crashes (fun d => forall k, ~ inlog l k -> image d k.1 k.2 = image (diskof s) k.1 k.2) s s'.
Proof.
  intros l Hr Hh Hp Hg Hx Hd. pose proof (h_n _ _ Hd) as Hn. pose proof (h_room _ _ Hd) as Hm.
  assert (Hf : (size (pin a) + 1 < NBUF)%nat).
  { rewrite Hp, size_empty. unfold NBUF. lia. }
  destruct (read_head_ok s a x) as (s1 & E1 & Hl1 & Hr1 & Hsd & Hc1); try done. fold l in Hl1, Hc1.
  set (n := Z.to_nat (lh_n (lh (with_head x l)))).
  assert (Hg1 : geometry (with_head x l) (blk a)) by (by eapply geometry_same; [..|exact Hg]).
  destruct (install_loop_ok (with_head x l) (seq 0 n) s1 a) as
    (s2 & a2 & E2 & Hl2 & Hr2 & Hh2 & Hp2 & Hb2 & Hg2 & Hin2 & Hc2); try done.
  { lia. }
  { by rewrite Hp. }
  { intros t Ht%elem_of_seq. split; [|apply (h_sec _ _ Hd); lia|by right].
    unfold lblock. split; simpl in *; lia. }
  assert (Hcl : forall k, ~ inlog l k -> blk a !! k = image (diskof s1) k.1 k.2).
  { intros k _. apply (crep_clean _ _ _ Hr1). by rewrite Hp. }
  rewrite Hp in Hp2. assert (pin a2 = ∅) as Hp2' by (rewrite Hp2; set_solver).
  destruct (clear_ok s2 a2) as (s3 & a3 & E3 & Hl3 & Hr3 & Hh3 & Hp3 & Hg3 & Hid3 & Hk3 & Hc3);
    rewrite ?Hl2; try done.
  rewrite Hl2 in *.
  pose proof (installed_clean (with_head x l) (blk a) (seq 0 n) (diskof s1) _ Hcl Hin2) as Hd2.
  assert (Hd3 : forall k, ~ inlog l k -> image (diskof s3) k.1 k.2 = image (diskof s) k.1 k.2).
  { intros k Hk. destruct (Hk3 k (hkey_outside _ _ _ Hg Hk)) as [_ ->]. by rewrite Hd2, Hsd. }
  exists s3, a3. split_and!; try done.
  - unfold recover_from_log, bind in *. rewrite E1. unfold install_trans, bind, gets.
    rewrite Hl1. fold n. by rewrite E2.
  - by eapply geometry_same; [..|exact Hg3].
  - intros k Hk. split; [|by apply Hd3].
    destruct (Hk3 k (hkey_outside _ _ _ Hg Hk)) as [-> _]. by apply Hb2; right.
  - apply (crashes_trans _ s s1); [|apply (crashes_trans _ s1 s2)].
    + eapply crashes_mono; [|exact Hc1]. intros d Hs k _. apply Hs.
    + eapply crashes_mono; [|exact Hc2]. intros d (m & _ & Hdm) k Hk.
      rewrite <- Hsd. by apply (installed_clean (with_head x l) (blk a) (take m (seq 0 n))).
    + eapply crashes_mono; [|exact Hc3]. intros d [Hs|Hs] k Hk; rewrite Hs; [|by apply Hd3].
      by rewrite Hd2, Hsd.
Qed.

(** The state in which the kernel starts on a disk. *)
Definition log0 : log := Log 0 0 false 0 (LogHeader 0 (replicate (Z.to_nat LOGSIZE) 0)).
Definition boot (d : D) : store (Traced.t D) := Store (Bio bcache0 (Traced.Traced d [])) log0.

(** The log [initlog] finds with the superblock [y]. *)
Definition sb_log (y : list Z) (l : log) : log :=
  let sb := dec_superblock y in
  Log (s32 (u32 (sb_size sb - sb_nlog sb))) (s32 (sb_nlog sb)) (log_busy l) ROOTDEV (lh l).

Lemma readsb_ok s a y : crep (bc s) a -> held a = ∅ -> pin a = ∅ ->
  blk a !! (ROOTDEV, 1) = Some y ->
  exists s', readsb ROOTDEV s = Ok (dec_superblock y) s' /\ lg s' = lg s /\ crep (bc s') a /\
    same_disk (diskof s') (diskof s) /\ crashes (fun d => same_disk d (diskof s)) s s'.
Proof.
  intros Hr Hh Hp Hy.
  destruct (bread_step s a ROOTDEV 1 y Hr) as
    (i & s1 & E1 & Hl1 & Hr1 & Hi & Hk1 & Hb1 & Hd1 & Hi1 & Hd1' & _); try done.
  { by rewrite Hh. }
  { right. rewrite Hh, Hp, (left_id_L ∅ (∪)), size_empty. unfold NBUF. lia. }
  destruct (brelse_step s1 _ i Hr1 Hi Hb1) as (s2 & E2 & Hl2 & Hr2 & Hd2 & _).
  exists s2. split_and!.
  - unfold readsb. unfold bind at 1. rewrite E1. unfold bind at 1, bufdata at 1, gets at 1.
    rewrite Hd1. unfold bind. by rewrite E2.
  - congruence.
  - eapply crep_eq; [exact Hr2| |..]; simpl; [done| |done]. rewrite Hk1, Hh. set_solver.
  - intros dv sec. unfold diskof at 1. rewrite Hd2. apply Hi1.
  - apply (crashes_trans _ s s1); [by apply reads_crashes|]. by apply crashes_refl.
Qed.

Lemma initlog_ok s img x y : let l := sb_log y (lg s) in crep (bc s) (Cache img ∅ ∅) ->
  img !! (ROOTDEV, 1) = Some y ->
  geometry l img -> img !! hkey l = Some x -> header_ok (with_head x l) img ->
  exists s' a', initlog s = Ok tt s' /\ lg s' = clear_lh (with_head x l) /\
    crep (bc s') a' /\ held a' = ∅ /\ pin a' = ∅ /\ geometry l (blk a') /\ idle l (blk a') /\
    (forall k, ~ inlog l k -> blk a' !! k = img !! k /\
      image (diskof s') k.1 k.2 = image (diskof s) k.1 k.2) /\
    crashes (fun d => forall k, ~ inlog l k -> image d k.1 k.2 = image (diskof s) k.1 k.2) s s'.
Proof.
  intros l Hr Hy Hg Hx Hd.
  destruct (readsb_ok s (Cache img ∅ ∅) y) as (s1 & E1 & Hl1 & Hr1 & Hd1 & Hc1); try done.
  set (s2 := Store (bc s1) l).
  destruct (recover_ok s2 (Cache img ∅ ∅) x) as
    (s3 & a3 & E3 & Hl3 & Hr3 & Hh3 & Hp3 & Hg3 & Hid3 & Hk3 & Hc3); try done.
  change (diskof s2) with (diskof s1) in *.
  exists s3, a3. split_and!; try done.
  - unfold initlog, bind in *. rewrite E1. unfold with_lg, modify. by rewrite Hl1.
  - intros k Hk. rewrite <- Hd1. by apply Hk3.
  - apply (crashes_trans _ s s1).
    + eapply crashes_mono; [|exact Hc1]. intros d' Hs k _. apply Hs.
    + eapply (crashes_mono _ _ s2); [|exact Hc3]. intros d' Hs k Hk. by rewrite <- Hd1, Hs.
Qed.

(** The kernel starts on the disk [d]: [initlog] returns and leaves a disk
    that satisfies [P]. *)
Definition recovers (d : D) (P : D -> Prop) : Prop :=
  exists s', initlog (boot d) = Ok tt s' /\ P (diskof s').

Lemma boot_recovers d img x y : let l := sb_log y log0 in drv_wf d ->
  (forall k, img !! k = image d k.1 k.2) -> img !! (ROOTDEV, 1) = Some y ->
  geometry l img -> img !! hkey l = Some x -> header_ok (with_head x l) img ->
  recovers d (fun d' => forall k, ~ inlog l k -> image d' k.1 k.2 = image d k.1 k.2).
Proof.
  intros l Hwf Himg Hy Hg Hx Hd.
  assert (Hr : crep (bc (boot d)) (Cache img ∅ ∅)).
  { apply binit_crep; [|exact Himg]. split; [exact Hwf|]. constructor. }
  destruct (initlog_ok (boot d) img x y Hr Hy Hg Hx Hd) as
    (s' & a' & E & _ & _ & _ & _ & _ & _ & Hk & _).
  exists s'. split; [exact E|]. intros k Hi. apply (Hk k Hi).
Qed.

(** The disks of a history are well formed and have the sectors of the last. *)
Lemma crashes_wf P s s' a : crep (bc s') a -> crashes P s s' ->
  crashes (fun d => P d /\ drv_wf d /\
    forall dv sec, is_Some (image d dv sec) <-> is_Some (image (diskof s') dv sec)) s s'.
Proof.
  intros Hr (h & E & HP). exists h. split; [done|].
  destruct (bi_drv _ (cr_inv _ _ Hr)) as [_ Hlike]. rewrite E, Forall_app in Hlike.
  destruct Hlike as [Hlike _]. apply Forall_and. split; [done|].
  eapply Forall_impl; [exact Hlike|]. done.
Qed.

(** The header recovery reads from a disk a crash of [commit_trans] left. *)
Lemma torn_header l l0 img img0 (d : D) x : header_ok l img0 ->
  (forall k, is_Some (img0 !! k) -> is_Some (img !! k)) ->
  log_dev l0 = log_dev l -> log_start l0 = log_start l -> log_size l0 = log_size l ->
  1 <= log_size l ->
  length (lh_sector (lh l0)) = Z.to_nat LOGSIZE ->
  head_disk l d -> image d (log_dev l) (log_start l) = Some x ->
  header_ok (with_head x l0) img.
Proof.
  intros [H1 H2 H3 H4] Hdom E1 E2 E3 Hsz Hlen (x' & Hx' & Hh) Hx.
  assert (x' = x) as -> by congruence.
  set (n := s32 (get_le 4 0 x)) in *.
  assert (Hn : 0 <= n <= lh_n (lh l)) by (destruct Hh as [-> | [-> _]]; lia).
  destruct (head_sectors_ok (Z.to_nat n) x (lh_sector (lh l0))) as [Hl Hi]; [lia|].
  split; simpl; fold n; [lia|lia|unfold head_sectors; by rewrite Hl|].
  intros i Hin. assert (Hs : lsec (with_head x l0) i = lsec l i).
  { unfold lsec, with_head; simpl. fold n. unfold head_sectors. rewrite Hi by lia. rewrite E1.
    f_equal. destruct Hh as [Hz|[Hz Hh]]; [lia|]. apply Hh. lia. }
  rewrite Hs. destruct (H4 i) as (S1 & S2 & S3); [lia|].
  split; [done|]. split; [|by apply Hdom]. unfold inlog, with_head in *; simpl in *.
  by rewrite E1, E2, E3.
Qed.

(** A crash of [commit_trans] followed by [initlog]. *)
Lemma commit_crash s a y : logged s a -> idle (lg s) (blk a) ->
  blk a !! (ROOTDEV, 1) = Some y -> ~ (ROOTDEV, 1) ∈ pin a -> ~ inlog (lg s) (ROOTDEV, 1) ->
  lg s = Log (log_start (sb_log y log0)) (log_size (sb_log y log0)) (log_busy (lg s)) ROOTDEV
             (lh (lg s)) ->
  exists s', commit_trans s = Ok tt s' /\
    crashes (fun d => exists m, (m <= Z.to_nat (lh_n (lh (lg s))))%nat /\
      recovers d (prefix_of (lg s) (blk a) m (diskof s))) s s'.
Proof.
  intros HL Hid Hy Hyp Hyl Hl. pose proof HL as [Hr Hh Hg Hd Hp Hf].
  destruct (commit_ok s a HL Hid) as (s1 & a1 & E1 & Hl1 & Hr1 & Hh1 & Hp1 & Hg1 & _ & Hk1 & Hc1).
  exists s1. split; [done|]. pose proof (crashes_wf _ _ _ _ Hr1 Hc1) as Hc.
  eapply crashes_mono; [|exact Hc].
  intros d (((m & Hm & Hpre) & Hhd) & Hwf & Hdom). destruct (image_map d) as [img Himg].
  set (l := sb_log y log0).
  assert (Hsame : log_dev l = log_dev (lg s) /\ log_start l = log_start (lg s) /\
    log_size l = log_size (lg s)) by (rewrite Hl; done).
  destruct Hsame as (S1 & S2 & S3). destruct Hhd as (x & Hx & Hx').
  assert (Hin : forall k, inlog l k <-> inlog (lg s) k).
  { intros k. unfold inlog. by rewrite S1, S2, S3. }
  assert (Hdom1 : forall k, is_Some (blk a1 !! k) -> is_Some (img !! k)).
  { intros k Hk. rewrite Himg, Hdom. change (is_Some (image (drv (bc s1)) k.1 k.2)).
    rewrite <- (crep_clean _ _ k Hr1); [done|]. by rewrite Hp1. }
  exists m. split; [done|].
  cut (recovers d (fun d' => forall k, ~ inlog l k -> image d' k.1 k.2 = image d k.1 k.2)).
  { intros (s2 & E2 & Hk2). exists s2. split; [exact E2|]. intros k Hk. rewrite <- (Hpre k Hk).
    apply Hk2. intros Hi. apply Hk, Hin, Hi. }
  apply (boot_recovers d img x y); try done.
  - rewrite Himg, (Hpre (ROOTDEV, 1) Hyl). case_decide as Hi; [done|].
    rewrite <- Hy. symmetry. apply (crep_clean _ _ (ROOTDEV, 1) Hr Hyp).
  - by eapply geometry_same; [..|exact Hg1].
  - rewrite Himg. change (image d (log_dev l) (log_start l) = Some x). by rewrite S1, S2.
  - fold l. eapply (torn_header (lg s) l img (blk a) d x); try done.
    + intros k Hk. destruct (decide (inlog (lg s) k)) as [Hi|Hi].
      * by apply Hdom1, (g_blocks _ _ Hg1).
      * apply Hdom1. by destruct (Hk1 k Hi) as [-> _].
    + apply (g_size _ _ Hg).
    + by exists x.
Qed.

End commit.

(** ** Recording the sectors of a transaction *)

Lemma log_slot_spec secs n i sec : let j := log_slot secs n i sec in
  (i <= j <= i + n)%nat /\
  (forall m, (i <= m < j)%nat -> aget 0 secs (Z.of_nat m) <> s32 sec) /\
  ((j < i + n)%nat -> aget 0 secs (Z.of_nat j) = s32 sec).
Proof.
  cbv zeta. revert i. induction n as [|n IH]; intros i; simpl.
  { split_and!; [lia..|lia]. }
  destruct (Z.eqb_spec (aget 0 secs (Z.of_nat i)) (s32 sec)) as [E|E].
  { split_and!; [lia..|done]. }
  destruct (IH (S i)) as (H1 & H2 & H3). split_and!; [lia|lia| |intros; apply H3; lia].
  intros m Hm. destruct (decide (m = i)) as [->|]; [done|]. apply H2. lia.
Qed.

(** [log_enter] adds the sector to the logged ones, once. *)
Lemma log_enter_spec l sec : 0 <= lh_n (lh l) < LOGSIZE ->
  length (lh_sector (lh l)) = Z.to_nat LOGSIZE -> 0 <= sec < 2 ^ 31 ->
  let l' := log_enter sec l in let n := Z.to_nat (lh_n (lh l)) in
  length (lh_sector (lh l')) = Z.to_nat LOGSIZE /\
  (((log_dev l, sec) ∈ lkeys l n /\ lh_n (lh l') = lh_n (lh l) /\ lkeys l' n = lkeys l n) \/
   (~ (log_dev l, sec) ∈ lkeys l n /\ lh_n (lh l') = lh_n (lh l) + 1 /\
    lkeys l' (S n) = lkeys l n ++ [(log_dev l, sec)])).
Proof.
  intros Hn Hl Hs l' n. unfold LOGSIZE in *.
  destruct (log_slot_spec (lh_sector (lh l)) n 0 sec) as (H1 & H2 & H3).
  unfold l', log_enter. fold n. set (j := log_slot _ n 0 sec) in *. cbn [Nat.add] in *.
  rewrite s32_id in * by lia. cbn [set_lh lh lh_n lh_sector].
  split; [by rewrite length_aset|].
  assert (Hk : forall m, (m <= n)%nat -> lsec (set_lh (LogHeader 0 (aset (lh_sector (lh l)) (Z.of_nat j) sec)) l) m
    = if decide (m = j) then (log_dev l, sec) else lsec l m).
  { intros m Hm. unfold lsec; simpl. case_decide as E; [subst m; by rewrite aget_aset_eq by lia|].
    by rewrite aget_aset_ne by lia. }
  destruct (Z.eqb_spec (Z.of_nat j) (lh_n (lh l))) as [E|E].
  - right. split_and!; [|done|].
    + rewrite lkeys_elem. intros (i & Hi & [= Ei]). apply (H2 i); [lia|done].
    + unfold lkeys. rewrite seq_S, fmap_app. simpl. f_equal.
      * apply list_fmap_ext. intros i m Hm%lookup_seq. transitivity (lsec l m); [|done].
        etransitivity; [apply Hk; lia|]. by rewrite decide_False by lia.
      * f_equal. etransitivity; [apply Hk; lia|]. by rewrite decide_True by lia.
  - left. split_and!; [|done|].
    + rewrite lkeys_elem. exists j. split; [lia|]. unfold lsec. by rewrite H3 by lia.
    + unfold lkeys. apply list_fmap_ext. intros i m Hm%lookup_seq.
      etransitivity; [apply Hk; lia|]. case_decide as Em; [|done]. subst m.
      unfold lsec. by rewrite H3 by lia.
Qed.

(** The invariant of a transaction: what [log_write] has recorded. *)
Record txn (l : log) (a : cache) : Prop := {
  tx_geo : geometry l (blk a);
  tx_hdr : header_ok l (blk a);
  tx_nodup : NoDup (lkeys l (Z.to_nat (lh_n (lh l))));
  tx_pin : pin a = list_to_set (lkeys l (Z.to_nat (lh_n (lh l))))
}.

Lemma txn_size l a : txn l a -> size (pin a) = Z.to_nat (lh_n (lh l)).
Proof.
  intros [_ _ Hnd ->]. rewrite size_list_to_set by done. unfold lkeys.
  by rewrite length_fmap, length_seq.
Qed.

Lemma log_enter_header l sec img : header_ok l img -> lh_n (lh l) < LOGSIZE ->
  lh_n (lh l) < log_size l - 1 -> sector_ok l img (log_dev l, sec) ->
  header_ok (log_enter sec l) img.
Proof.
  intros [H1 H2 H3 H4] Hn1 Hn2 Hs. pose proof Hs as (Hs1 & _). simpl in Hs1.
  destruct (log_enter_spec l sec) as (Hl & Hc); [lia|done..|].
  set (n := Z.to_nat (lh_n (lh l))) in *.
  split; [|change (log_size (log_enter sec l)) with (log_size l)|done|].
  1,2: destruct Hc as [(_ & -> & _)|(_ & -> & _)]; lia.
  intros i Hi. cut (sector_ok l img (lsec (log_enter sec l) i)); [done|].
  assert (Hin : lsec (log_enter sec l) i = (log_dev l, sec) \/ lsec (log_enter sec l) i ∈ lkeys l n).
  { destruct Hc as [(_ & E & Hk)|(_ & E & Hk)].
    - right. rewrite <- Hk, lkeys_elem. exists i. split; [lia|done].
    - assert (lsec (log_enter sec l) i ∈ lkeys (log_enter sec l) (S n)) as Hi'.
      { rewrite lkeys_elem. exists i. split; [lia|done]. }
      rewrite Hk in Hi'. apply elem_of_app in Hi' as [?|?%list_elem_of_singleton]; auto. }
  destruct Hin as [->|(j & Hj & ->)%lkeys_elem]; [done|]. apply H4. lia.
Qed.

Lemma txn_enter l a sec x : txn l a -> lh_n (lh l) < LOGSIZE -> lh_n (lh l) < log_size l - 1 ->
  sector_ok l (blk a) (log_dev l, sec) ->
  txn (log_enter sec l) (spec_dirty (log_dev l, sec) x a).
Proof.
  intros [Hg Hd Hnd Hp] Hn1 Hn2 Hs. pose proof Hs as (Hs1 & _). simpl in Hs1.
  destruct (log_enter_spec l sec) as (Hl & Hc); [|apply (h_len _ _ Hd)|done|].
  { pose proof (h_n _ _ Hd). lia. }
  assert (Hd' : forall k, is_Some (blk a !! k) -> is_Some (blk (spec_dirty (log_dev l, sec) x a) !! k)).
  { intros k. apply insert_some. }
  split; cbn [spec_dirty pin].
  - by eapply geometry_same; [..|exact Hg].
  - destruct (log_enter_header l sec (blk a)) as [H1 H2 H3 H4]; try done. split; try done.
    intros i Hi. destruct (H4 i Hi) as (? & ? & ?). split; [done|]. split; [done|]. by apply Hd'.
  - pose proof (h_n _ _ Hd). destruct Hc as [(_ & E & Hk)|(Hni & E & Hk)].
    + by rewrite E, Hk.
    + rewrite E, Z2Nat.inj_add, Nat.add_1_r, Hk by lia. apply NoDup_app.
      split_and!; [done| |apply NoDup_singleton].
      intros k Hk1 ->%list_elem_of_singleton. done.
  - rewrite Hp. pose proof (h_n _ _ Hd). destruct Hc as [(Hin & E & Hk)|(Hni & E & Hk)].
    + rewrite E, Hk. apply set_eq. intros k. rewrite elem_of_union, elem_of_singleton.
      rewrite elem_of_list_to_set. naive_solver.
    + rewrite E, Z2Nat.inj_add, Nat.add_1_r, Hk by lia.
      rewrite list_to_set_app_L. simpl. set_solver.
Qed.


Section logwrite.
Context {D : Type} `{DriverOk D}.
Implicit Types (s : store D) (a : cache).

(** A locked buffer is given new contents and [log_write] records it. *)
Lemma log_write_ok s a i x : let l := lg s in let k := key (thebuf (bc s) i) in
  crep (bc s) a -> (i < NBUF)%nat -> busy (thebuf (bc s) i) = true -> length x = BSIZE ->
  log_busy l = true -> lh_n (lh l) < LOGSIZE -> lh_n (lh l) < log_size l - 1 ->
  exists s', (setdata i x ;;; log_write i) s = Ok tt s' /\ lg s' = log_enter k.2 l /\
    crep (bc s') (spec_dirty k x a) /\ drv (bc s') = drv (bc s) /\
    forall j, (j < NBUF)%nat -> key (thebuf (bc s') j) = key (thebuf (bc s) j) /\
      busy (thebuf (bc s') j) = busy (thebuf (bc s) j).
Proof.
  intros l k Hr Hi Hb Hx Hbu Hn1 Hn2. pose proof (cr_inv _ _ Hr) as Hinv.
  pose proof (dirty_refines (bc s) a i x _ Hr Hi Hb Hx eq_refl) as Hr1.
  set (fl := fset _ _) in Hr1.
  set (b1 := set_bufs (bupd i (fun b => set_data x (set_flags fl b))) (bc s)) in Hr1.
  assert (Hth : forall j, thebuf b1 j =
    if decide (i = j) then set_data x (set_flags fl (thebuf (bc s) j)) else thebuf (bc s) j).
  { intros j. unfold b1, set_bufs. by rewrite thebuf_upd. }
  exists (Store b1 (log_enter k.2 l)). split_and!; [|done|done|done|].
  - unfold bind, setdata, with_bc, zoom, modify, log_write, gets. cbn [lg bc].
    unfold bind. cbn [lg bc]. fold l. rewrite Hbu.
    destruct (Z.leb_spec LOGSIZE (lh_n (lh l))); [lia|].
    destruct (Z.leb_spec (log_size l - 1) (lh_n (lh l))); [lia|]. cbn [orb negb].
    unfold with_lg, with_bc, zoom, modify. cbn [lg bc]. do 2 f_equal.
    + unfold b1, set_bufs; simpl. f_equal. apply list_eq. intros j. unfold bupd.
      rewrite !list_lookup_alter. destruct (decide (i = j)) as [<-|]; [|done].
      rewrite !decide_True by done. destruct (bufs (bc s) !! i) as [b|] eqn:Eb; [|done].
      simpl. f_equal. unfold fl, thebuf, bget_at. by rewrite Eb.
    + unfold thebuf, set_bufs, k; simpl. rewrite bget_at_bupd. by case_decide.
  - intros j Hj. simpl. rewrite Hth. case_decide as E; [subst j|done]. split; [done|].
    rewrite Hb. unfold busy, fl, B_BUSY, B_DIRTY in *; simpl. by flg.
Qed.

End logwrite.

(** A transaction with no locked buffer is ready to be committed. *)
Lemma txn_logged {D} `{DriverOk D} (s : store (Traced.t D)) a : crep (bc s) a -> held a = ∅ ->
  txn (lg s) a -> lh_n (lh (lg s)) < Z.of_nat NBUF -> logged s a.
Proof.
  intros Hr Hh Ht Hn. pose proof (txn_size _ _ Ht) as Hsz. destruct Ht as [Hg Hd Hnd Hp].
  pose proof (h_n _ _ Hd). split; try done. lia.
Qed.

(** ** A transaction of one sector

    The pattern of [bzero] and of the other writers of fs.c: read a sector,
    change it, log it and release it. *)

Definition put {D} `{Driver D} (dv sec : Z) (x : list Z) : M (store D) unit :=
  let* b := with_bc (bread dv sec) in
  setdata b x ;;;
  log_write b ;;;
  with_bc (brelse b).

Lemma put_ok {D} `{DriverOk D} (s : store (Traced.t D)) a sec x : let l := lg s in
  crep (bc s) a -> held a = ∅ -> txn l a -> log_busy l = true -> lh_n (lh l) < LOGSIZE ->
  lh_n (lh l) < log_size l - 1 -> lh_n (lh l) < Z.of_nat NBUF ->
  sector_ok l (blk a) (log_dev l, sec) -> length x = BSIZE ->
  exists s', put (log_dev l) sec x s = Ok tt s' /\ lg s' = log_enter sec l /\
    crep (bc s') (spec_dirty (log_dev l, sec) x a) /\
    txn (lg s') (spec_dirty (log_dev l, sec) x a).
Proof.
  intros l Hr Hh Ht Hbu Hn1 Hn2 Hn3 Hs Hx. pose proof (txn_size _ _ Ht) as Hsz.
  pose proof (h_n _ _ (tx_hdr _ _ Ht)). pose proof (g_dev _ _ (tx_geo _ _ Ht)).
  pose proof Hs as (Hs1 & _ & [y Hy]). simpl in Hs1.
  destruct (bread_step s a (log_dev l) sec y Hr) as
    (i & s1 & E1 & Hl1 & Hr1 & Hi & Hk1 & Hb1 & _); try done; [lia| | |].
  { by rewrite Hh. }
  { right. rewrite Hh, (left_id_L ∅ (∪)). lia. }
  destruct (log_write_ok s1 _ i x Hr1 Hi Hb1 Hx) as (s2 & E2 & Hl2 & Hr2 & _ & Hf2);
    rewrite ?Hl1; try done.
  destruct (Hf2 i Hi) as [Hk2 Hb2]. rewrite Hb1 in Hb2. rewrite Hk1 in *. rewrite Hl1 in Hl2.
  destruct (brelse_step s2 _ i Hr2 Hi Hb2) as (s3 & E3 & Hl3 & Hr3 & _).
  exists s3. split_and!.
  - unfold put. unfold bind at 1. rewrite E1. unfold bind in E2 |- *.
    destruct (setdata i x s1); try done. by rewrite E2, E3.
  - by rewrite Hl3, Hl2.
  - eapply crep_eq; [exact Hr3| |..]; simpl; [done| |done]. rewrite Hk2, Hh. set_solver.
  - rewrite Hl3, Hl2. by apply txn_enter.
Qed.

(** A disk of ten sectors, the last three of which are the log. *)
Module Example.
Definition fill (b : Z) : list Z := replicate BSIZE b.
Definition sb : list Z := put_le 4 12 3 (put_le 4 8 8 (put_le 4 4 3 (put_le 4 0 10 (fill 0)))).
Definition img : list Z :=
  fill 0 ++ sb ++ fill 0 ++ fill 0 ++ fill 4 ++ fill 5 ++ fill 0 ++ fill 0 ++ fill 0 ++ fill 0.
Definition disk0 : Memide.disk := Memide.ideinit img.

(** A transaction that writes the sectors 4 and 5. *)
Definition writer : M (store (Traced.t Memide.disk)) unit :=
  initlog ;;; begin_trans ;;; put 1 4 (fill 40) ;;; put 1 5 (fill 50).

Definition l0 : log := Log 7 3 true 1 (LogHeader 0 (replicate 10 0)).
Definition st0 : store (Traced.t Memide.disk) := Store (Bio bcache0 (Traced.Traced disk0 [])) l0.

Lemma disksize0 : Memide.disksize disk0 = 10.
Proof. by vm_compute. Qed.

Lemma sector0 (img1 : gmap (Z * Z) (list Z)) k : (forall k, img1 !! k = Memide.image disk0 k.1 k.2) ->
  k.1 = 1 -> 0 <= k.2 < 10 -> is_Some (img1 !! k).
Proof.
  intros Hi H1 H2. rewrite Hi. unfold Memide.image. rewrite disksize0, decide_True by done.
  by eexists.
Qed.

Lemma st0_txn : exists a, crep (bc st0) a /\ held a = ∅ /\ txn l0 a /\
  idle l0 (blk a) /\ blk a !! (1, 1) = Some sb /\
  forall k, k.1 = 1 -> 0 <= k.2 < 10 -> is_Some (blk a !! k).
Proof.
  destruct (image_map disk0) as [img1 Himg]. pose proof (fun k => sector0 img1 k Himg) as Hs.
  exists (Cache img1 ∅ ∅).
  split; [|split; [done|split; [|split; [|split; [|exact Hs]]]]]; cbn [blk].
  - apply binit_crep; [|exact Himg]. split; [|constructor]. apply Memide.ideinit_wf.
    vm_compute. done.
  - split; [|split|constructor|done]; cbn; unfold LOGSIZE; try lia; try done.
    split; cbn; try lia. intros k [H1 H2]. cbn in H1, H2. apply Hs; [done|lia].
  - exists (fill 0). split; [|by vm_compute]. rewrite Himg. vm_compute. done.
  - rewrite Himg. vm_compute. done.
Qed.

(** The state of [writer] before the commit. *)
Lemma ready : exists s a, logged s a /\ idle (lg s) (blk a) /\ lh_n (lh (lg s)) = 2 /\
  blk a !! (ROOTDEV, 1) = Some sb /\ ~ (ROOTDEV, 1) ∈ pin a /\ ~ inlog (lg s) (ROOTDEV, 1) /\
  lg s = Log (log_start (sb_log sb log0)) (log_size (sb_log sb log0)) (log_busy (lg s)) ROOTDEV
             (lh (lg s)).
Proof.
  destruct st0_txn as (a & Hr & Hh & Ht & Hid & Hsb & Hs).
  destruct (put_ok st0 a 4 (fill 40)) as (s1 & _ & Hl1 & Hr1 & Ht1); try done.
  { split; [done|]. split; [unfold inlog; cbn; lia|]. apply Hs; cbn; lia. }
  rewrite Hl1 in Ht1. destruct (put_ok s1 (spec_dirty (1, 4) (fill 40) a) 5 (fill 50)) as (s2 & _ & Hl2 & Hr2 & Ht2);
    rewrite ?Hl1; try done.
  { split; [done|]. split; [unfold inlog; cbn; lia|]. apply insert_some, Hs; cbn; lia. }
  rewrite Hl1 in Hl2. exists s2. eexists. split_and!; [eapply txn_logged; [exact Hr2|done|exact Ht2|]|..].
  all: rewrite ?Hl2, ?Hl1; try done.
  - destruct Hid as (x & Hx & Hx0). exists x. split; [|done]. cbn [spec_dirty blk].
    rewrite !lookup_insert_ne; [done| |]; unfold hkey; cbn; congruence.
  - cbn [spec_dirty blk]. by rewrite !lookup_insert_ne.
  - rewrite Hl1 in Ht2. rewrite (tx_pin _ _ Ht2), Hl2, elem_of_list_to_set.
    apply (bool_decide_unpack _). by vm_compute.
  - unfold inlog; cbn. unfold ROOTDEV. lia.
Qed.

(** The sectors a client cannot tell from those of an uninterrupted run. *)
Definition survives (d : Memide.disk) (x4 x5 : list Z) : Prop :=
  recovers d (fun d' => Memide.image d' 1 4 = Some x4 /\ Memide.image d' 1 5 = Some x5).

Definition history : list Memide.disk :=
  match (writer ;;; commit_trans) (boot disk0) with
  | Ok _ s => rev (Traced.hist (drv (bc s)))
  | _ => []
  end.

Definition check (d : Memide.disk) (x4 x5 : list Z) : bool :=
  match initlog (boot d) with
  | Ok _ s => bool_decide (Memide.image (diskof s) 1 4 = Some x4 /\
                           Memide.image (diskof s) 1 5 = Some x5)
  | _ => false
  end.

Lemma survives_check d x4 x5 : check d x4 x5 = true -> survives d x4 x5.
Proof.
  unfold check, survives, recovers. destruct (initlog (boot d)) as [[] s| |]; try done.
  intros Hc%bool_decide_eq_true_1. by exists s.
Qed.

(** A state in which [log_write] may be called: sector 4 is locked. *)
Lemma locked : exists i (s : store (Traced.t Memide.disk)) a, crep (bc s) a /\ txn (lg s) a /\ (i < NBUF)%nat /\
  busy (thebuf (bc s) i) = true /\ log_busy (lg s) = true /\ lh_n (lh (lg s)) < LOGSIZE /\
  lh_n (lh (lg s)) < log_size (lg s) - 1 /\ dev (thebuf (bc s) i) = log_dev (lg s) /\
  sector_ok (lg s) (blk a) (key (thebuf (bc s) i)).
Proof.
  destruct st0_txn as (a & Hr & Hh & Ht & _ & _ & Hs).
  destruct (Hs (1, 4)) as [x Hx]; [done..|].
  destruct (bread_step st0 a 1 4 x Hr) as (i & s1 & _ & Hl1 & Hr1 & Hi & Hk1 & Hb1 & _);
    try done; [by rewrite Hh| |].
  { right. rewrite Hh, (left_id_L ∅ (∪)), (txn_size _ _ Ht). cbn. unfold NBUF. lia. }
  exists i, s1. eexists. rewrite Hl1. split; [exact Hr1|]. rewrite Hk1.
  split_and!; try done.
  - destruct Ht as [T1 T2 T3 T4]. split; [exact T1|exact T2|exact T3|exact T4].
  - by injection Hk1.
  - split; [done|]. split; [|by eexists]. intros [_ Hin]. cbn in Hin. lia.
Qed.
End Example.

(** ** The promises of the log *)

Section promises.
Context {D : Type} `{DriverOk D}.
Implicit Types (s : store (Traced.t D)) (a : cache).

(** C3. [commit_trans] at the end of a transaction returns, and then every
    sector outside the log has on the disk the contents the transaction gave
    it in the cache, no buffer is dirty, the header on the disk is empty and
    another transaction may begin. *)
Theorem commit_durable s a : logged s a -> idle (lg s) (blk a) ->
  exists s' a', commit_trans s = Ok tt s' /\ crep (bc s') a' /\ held a' = ∅ /\ pin a' = ∅ /\
    idle (lg s') (blk a') /\ lh_n (lh (lg s')) = 0 /\ log_busy (lg s') = false /\
    forall k, ~ inlog (lg s) k ->
      image (diskof s') k.1 k.2 = blk a !! k /\ blk a' !! k = blk a !! k.
Proof.
  intros HL Hid. destruct (commit_ok s a HL Hid) as
    (s' & a' & E & Hl & Hr & Hh & Hp & _ & Hid' & Hk & _).
  exists s', a'. rewrite Hl. split_and!; try done.
  intros k Hk'. destruct (Hk k Hk') as [-> ->]. done.
Qed.

(** C4. A crash at any point of [commit_trans] followed by the recovery of
    [initlog] leaves the disk with the first [m] logged sectors replaced and
    the rest as before the transaction, for some [m] up to the number of
    logged sectors: recovery always returns and never makes things worse, but
    it does not complete the transaction either. *)
Theorem crash_leaves_prefix s a y : logged s a -> idle (lg s) (blk a) ->
  blk a !! (ROOTDEV, 1) = Some y -> ~ (ROOTDEV, 1) ∈ pin a -> ~ inlog (lg s) (ROOTDEV, 1) ->
  lg s = Log (log_start (sb_log y log0)) (log_size (sb_log y log0)) (log_busy (lg s)) ROOTDEV
             (lh (lg s)) ->
  exists s', commit_trans s = Ok tt s' /\
    crashes (fun d => exists m, (m <= Z.to_nat (lh_n (lh (lg s))))%nat /\
      recovers d (prefix_of (lg s) (blk a) m (diskof s))) s s'.
Proof. apply commit_crash. Qed.

(** C5. [log_write] in a transaction with room records the sector exactly
    once, keeps the invariant of the transaction (distinct logged sectors, on
    the disk and outside the log; the dirty buffers are those of the logged
    sectors) and does not touch the disk. *)
Theorem log_write_keeps_txn s a i x : crep (bc s) a -> txn (lg s) a -> (i < NBUF)%nat ->
  busy (thebuf (bc s) i) = true -> length x = BSIZE -> log_busy (lg s) = true ->
  lh_n (lh (lg s)) < LOGSIZE -> lh_n (lh (lg s)) < log_size (lg s) - 1 ->
  dev (thebuf (bc s) i) = log_dev (lg s) ->
  sector_ok (lg s) (blk a) (key (thebuf (bc s) i)) ->
  exists s' a', (setdata i x ;;; log_write i) s = Ok tt s' /\ crep (bc s') a' /\ txn (lg s') a' /\
    a' = spec_dirty (key (thebuf (bc s) i)) x a /\ drv (bc s') = drv (bc s).
Proof.
  intros Hr Ht Hi Hb Hx Hbu Hn1 Hn2 Hd Hs.
  destruct (log_write_ok s a i x Hr Hi Hb Hx Hbu Hn1 Hn2) as (s' & E & Hl & Hr' & Hd' & _).
  exists s'. eexists. split_and!; [exact E|exact Hr'| |done|done].
  rewrite Hl. unfold key in *. rewrite Hd in *. by apply txn_enter.
Qed.

(** The errors of [log_write]: when the log is full it panics even for a
    sector that the log has already, and outside of a transaction it panics;
    [begin_trans] sleeps while another transaction runs. *)
Theorem log_write_errors s i :
  ((LOGSIZE <= lh_n (lh (lg s)) \/ log_size (lg s) - 1 <= lh_n (lh (lg s))) ->
     log_write i s = Panic "too big a transaction") /\
  (lh_n (lh (lg s)) < LOGSIZE -> lh_n (lh (lg s)) < log_size (lg s) - 1 ->
     log_busy (lg s) = false -> log_write i s = Panic "write outside of trans") /\
  (log_busy (lg s) = true -> begin_trans s = Sleep WLog s).
Proof.
  unfold log_write, begin_trans, bind, gets. split_and!.
  - intros Hn. destruct (Z.leb_spec LOGSIZE (lh_n (lh (lg s)))); [done|].
    destruct (Z.leb_spec (log_size (lg s) - 1) (lh_n (lh (lg s)))); [done|lia].
  - intros H1 H2 Hb. destruct (Z.leb_spec LOGSIZE (lh_n (lh (lg s)))); [lia|].
    destruct (Z.leb_spec (log_size (lg s) - 1) (lh_n (lh (lg s)))); [lia|]. by rewrite Hb.
  - intros ->. done.
Qed.

End promises.

(** C6. The log does not make a transaction atomic: a crash of the commit of
    a transaction that writes the sectors 4 and 5 leaves, after recovery, the
    new contents of the first and the old contents of the second. *)
Theorem torn_transaction : exists d, d ∈ Example.history /\
  Example.survives d (Example.fill 40) (Example.fill 5).
Proof.
  exists (nth 9 Example.history Example.disk0). split.
  - apply list_elem_of_In, nth_In. vm_compute. lia.
  - apply Example.survives_check. by vm_compute.
Qed.

Lemma commit_durable_witness : exists (s : store (Traced.t Memide.disk)) a s', logged s a /\ idle (lg s) (blk a) /\
  lh_n (lh (lg s)) = 2 /\ commit_trans s = Ok tt s'.
Proof.
  destruct Example.ready as (s & a & HL & Hid & Hn & _).
  destruct (commit_durable s a HL Hid) as (s' & _ & E & _).
  exists s, a, s'. split; [exact HL|]. split; [exact Hid|]. split; [exact Hn|exact E].
Defined.

Lemma crash_leaves_prefix_witness : exists (s : store (Traced.t Memide.disk)) a s', lh_n (lh (lg s)) = 2 /\
  commit_trans s = Ok tt s' /\
  crashes (fun d => exists m, (m <= Z.to_nat (lh_n (lh (lg s))))%nat /\
      recovers d (prefix_of (lg s) (blk a) m (diskof s))) s s'.
Proof.
  destruct Example.ready as (s & a & HL & Hid & Hn & H1 & H2 & H3 & H4).
  destruct (crash_leaves_prefix s a Example.sb HL Hid H1 H2 H3 H4) as (s' & E & Hc).
  exists s, a, s'. split; [exact Hn|]. split; [exact E|exact Hc].
Defined.

Lemma log_write_keeps_txn_witness : exists (s : store (Traced.t Memide.disk)) i s',
  (setdata i (Example.fill 40) ;;; log_write i) s = Ok tt s' /\
  log_busy (lg s) = true.
Proof.
  destruct Example.locked as (i & s & a & Hr & Ht & Hi & Hb & Hbu & Hn1 & Hn2 & Hd & Hs).
  destruct (log_write_keeps_txn s a i (Example.fill 40) Hr Ht Hi Hb eq_refl Hbu Hn1 Hn2 Hd Hs)
    as (s' & _ & E & _).
  exists s, i, s'. split; [exact E|exact Hbu].
Defined.

Lemma log_write_errors_witness :
  log_write 0 (boot Example.disk0) = Panic "too big a transaction" /\
  log_write 0 (Store (bc Example.st0) (set_busy false Example.l0)) = Panic "write outside of trans" /\
  begin_trans Example.st0 = Sleep WLog Example.st0.
Proof.
  split; [|split].
  - apply (log_write_errors (boot Example.disk0) 0). right. cbn. lia.
  - apply (log_write_errors (Store (bc Example.st0) (set_busy false Example.l0)) 0);
      cbn; unfold LOGSIZE; lia || reflexivity.
  - apply (log_write_errors Example.st0 0). reflexivity.
Defined.
