(* ===== verification/Blk.v ===== *)
(** * Programs on the block layer

    The code above bio.c and log.c uses them through a few operations:
    [bread], a change of a locked buffer that is logged at once, [brelse],
    [begin_trans] and [commit_trans].  Such code is a tree of operations
    ([prog]); it is run on the buffer cache and the log of Bio.v and Log.v, or
    on an abstract block store, and one theorem relates the two runs for
    every program. *)

From stdpp Require Import base numbers list gmap strings.
From Stdlib Require Import ZArith Lia.
From S2P Require Import Prelude Disk Bio Log.

Local Open Scope Z_scope.
Local Open Scope kernel_scope.

(** ** Programs *)

Inductive op : Type :=
| OBread (dv sec : Z)               (** [bread]: the locked buffer's contents *)
| OLogw (dv sec : Z) (x : list Z)   (** new contents of a locked buffer, [log_write] *)
| OBrelse (dv sec : Z)
| OBegin
| OCommit.

Definition op_ret (o : op) : Type := match o with OBread _ _ => list Z | _ => unit end.

(** A program over a kernel state [K]. *)
Inductive prog (K A : Type) : Type :=
| Ret (a : A)
| Do (o : op) (k : op_ret o -> prog K A)
| Get (k : K -> prog K A)
| Put (s : K) (k : prog K A)
| PPanic (msg : string)
| PSleep (c : wchan).
Arguments Ret {K A} a.
Arguments Do {K A} o k.
Arguments Get {K A} k.
Arguments Put {K A} s k.
Arguments PPanic {K A} msg.
Arguments PSleep {K A} c.

Fixpoint pbind {K A B} (p : prog K A) (f : A -> prog K B) : prog K B :=
  match p with
  | Ret a => f a
  | Do o k => Do o (fun r => pbind (k r) f)
  | Get k => Get (fun s => pbind (k s) f)
  | Put s k => Put s (pbind k f)
  | PPanic msg => PPanic msg
  | PSleep c => PSleep c
  end.

Declare Scope prog_scope.
Delimit Scope prog_scope with prog.
Notation "'let!' x ':=' m 'in' k" := (pbind m (fun x => k))
  (at level 10, x pattern, m at level 100, k at level 200) : prog_scope.
Notation "m '>>>' k" := (pbind m (fun _ => k))
  (at level 100, k at level 200, right associativity) : prog_scope.

(** The operations as programs. *)
Definition bread {K} (dv sec : Z) : prog K (list Z) := Do (OBread (u32 dv) (u32 sec)) Ret.
Definition logw {K} (dv sec : Z) (x : list Z) : prog K unit := Do (OLogw (u32 dv) (u32 sec) x) Ret.
Definition brelse {K} (dv sec : Z) : prog K unit := Do (OBrelse (u32 dv) (u32 sec)) Ret.
Definition begin_trans {K} : prog K unit := Do OBegin Ret.
Definition commit_trans {K} : prog K unit := Do OCommit Ret.
Definition pget {K} : prog K K := Get Ret.
Definition pput {K} (s : K) : prog K unit := Put s (Ret tt).
Definition pmodify {K} (f : K -> K) : prog K unit := Get (fun s => Put (f s) (Ret tt)).

(** Running a program with a handler of the operations. *)
Fixpoint run {S K A} (h : forall o, M S (op_ret o)) (p : prog K A) (s : S * K) : res (S * K) A :=
  match p with
  | Ret a => Ok a s
  | Do o k =>
      match h o s.1 with
      | Ok r s' => run h (k r) (s', s.2)
      | Panic msg => Panic msg
      | Sleep c s' => Sleep c (s', s.2)
      end
  | Get k => run h (k s.2) s
  | Put k' p => run h p (s.1, k')
  | PPanic msg => Panic msg
  | PSleep c => Sleep c s
  end.

(** ** The concrete handler *)

Section concrete.
Context {D : Type} `{Driver D}.

(** The index of the locked buffer of a sector. *)
Definition locked_buf (b : bio D) (k : Z * Z) : option nat :=
  List.find (fun i => busy (thebuf b i) && bool_decide (key (thebuf b i) = k)) (seq 0 NBUF).

Definition with_buf {A} (k : Z * Z) (f : nat -> M (store D) A) : M (store D) A := fun s =>
  match locked_buf (bc s) k with
  | Some i => f i s
  | None => Panic "not locked"
  end.

Definition kernel_op (o : op) : M (store D) (op_ret o) :=
  match o with
  | OBread dv sec => let* i := with_bc (Bio.bread dv sec) in bufdata i
  | OLogw dv sec x => with_buf (dv, sec) (fun i => setdata i x ;;; log_write i)
  | OBrelse dv sec => with_buf (dv, sec) (fun i => with_bc (Bio.brelse i))
  | OBegin => Log.begin_trans
  | OCommit => Log.commit_trans
  end.

End concrete.

(** ** The abstract block store *)

(** The place of the log on the disk. *)
Record layout : Type := Layout { ldev : Z; lstart : Z; lsize : Z }.

Definition islog (L : layout) (k : Z * Z) : Prop :=
  k.1 = ldev L /\ lstart L <= k.2 < lstart L + lsize L.
#[export] Instance islog_dec L k : Decision (islog L k).
Proof. unfold islog. apply _. Defined.

(** Contents of the sectors, the locked sectors, the sectors logged so far and
    whether a transaction runs. *)
Record bstate : Type := BState {
  img : gmap (Z * Z) (list Z); locked : gset (Z * Z); dirties : gset (Z * Z); active : bool
}.

Definition stuck {S A} : M S A := panic "stuck".

Section abstract.
Context (L : layout).

Definition abs_bread (k : Z * Z) : M bstate (list Z) := fun b =>
  if decide (islog L k \/ ~ (0 <= k.1 < 2 ^ 32 /\ 0 <= k.2 < 2 ^ 32)) then stuck b
  else if decide (k ∈ locked b) then Sleep (WBuf 0) b
  else if decide (~ k ∈ dirties b /\ (NBUF <= size (locked b ∪ dirties b))%nat)
  then Panic "bget: no buffers"
  else match img b !! k with
       | Some x => Ok x (BState (img b) ({[k]} ∪ locked b) (dirties b) (active b))
       | None => Panic "iderw: sector out of range"
       end.

Definition abs_logw (k : Z * Z) (x : list Z) : M bstate unit := fun b =>
  if decide (k ∈ locked b /\ length x = BSIZE /\ k.1 = ldev L /\ 0 <= k.2 < 2 ^ 31) then
    let n := Z.of_nat (size (dirties b)) in
    if (LOGSIZE <=? n) || (lsize L - 1 <=? n) then Panic "too big a transaction"
    else if negb (active b) then Panic "write outside of trans"
    else Ok tt (BState (<[k := x]> (img b)) (locked b) ({[k]} ∪ dirties b) true)
  else stuck b.

Definition abs_brelse (k : Z * Z) : M bstate unit := fun b =>
  if decide (k ∈ locked b) then Ok tt (BState (img b) (locked b ∖ {[k]}) (dirties b) (active b))
  else stuck b.

Definition abs_begin : M bstate unit := fun b =>
  if active b then Sleep WLog b else Ok tt (BState (img b) (locked b) (dirties b) true).

Definition abs_commit : M bstate unit := fun b =>
  if decide (locked b = ∅ /\ (size (dirties b) < NBUF)%nat)
  then Ok tt (BState (img b) ∅ ∅ false) else stuck b.

Definition block_op (o : op) : M bstate (op_ret o) :=
  match o with
  | OBread dv sec => abs_bread (dv, sec)
  | OLogw dv sec x => abs_logw (dv, sec) x
  | OBrelse dv sec => abs_brelse (dv, sec)
  | OBegin => abs_begin
  | OCommit => abs_commit
  end.

End abstract.

(** ** The abstract store describes the buffer cache and the log *)

Section refinement.
Context {D : Type} `{DriverOk D} (L : layout).
Implicit Types (s : store (Traced.t D)) (b : bstate).

(** The kernel state [s] with the abstract cache [a] implements [b]. *)
Record brep_with (a : cache) s b : Prop := {
  br_rep : crep (bc s) a;
  br_txn : txn (lg s) a;
  br_idle : idle (lg s) (blk a);
  br_held : held a = locked b;
  br_pin : pin a = dirties b;
  br_img k : ~ islog L k -> blk a !! k = img b !! k;
  br_busy : log_busy (lg s) = active b;
  br_dev : log_dev (lg s) = ldev L;
  br_start : log_start (lg s) = lstart L;
  br_size : log_size (lg s) = lsize L;
  br_locked k : k ∈ locked b -> ~ islog L k /\ is_Some (img b !! k)
}.

Definition brep s b : Prop := exists a, brep_with a s b.

Lemma locked_buf_ok (c : bio (Traced.t D)) a k : crep c a -> k ∈ held a ->
  exists i, locked_buf c k = Some i /\ (i < NBUF)%nat /\ busy (thebuf c i) = true /\ key (thebuf c i) = k.
Proof.
  intros Hr Hk. apply (cr_held _ _ Hr) in Hk as (i & Hi & Hki & Hb).
  unfold locked_buf.
  destruct (List.find (fun i => busy (thebuf c i) && bool_decide (key (thebuf c i) = k)) (seq 0 NBUF))
    as [j|] eqn:E.
  - apply List.find_some in E as [Hj Hf]. apply in_seq in Hj.
    apply andb_true_iff in Hf as [Hf1 Hf2%bool_decide_eq_true]. exists j. split_and!; [done|lia|done|done].
  - exfalso. pose proof (List.find_none _ _ E i) as Hn. cbv beta in Hn.
    rewrite Hb, bool_decide_eq_true_2 in Hn by done.
    specialize (Hn ltac:(apply in_seq; lia)). done.
Qed.

Lemma inlog_islog s b a k : brep_with a s b -> inlog (lg s) k <-> islog L k.
Proof. intros Hb. unfold inlog, islog. by rewrite (br_dev _ _ _ Hb), (br_start _ _ _ Hb), (br_size _ _ _ Hb). Qed.

(** What the simulation promises of one operation. *)
Definition op_sim {A} (m : M (store (Traced.t D)) A) (r : res bstate A) s : Prop :=
  match r with
  | Ok x b' => exists s', m s = Ok x s' /\ brep s' b'
  | Panic msg => msg = "stuck"%string \/ exists msg', m s = Panic msg'
  | Sleep _ b' => exists c s', m s = Sleep c s' /\ brep s' b'
  end.

Lemma bread_sim s b dv sec : brep s b ->
  op_sim (kernel_op (OBread dv sec)) (block_op L (OBread dv sec) b) s.
Proof.
  intros (a & Hb). cbn [kernel_op block_op]. unfold abs_bread.
  destruct (decide _) as [Hd|Hd]; [by left|].
  assert (Hnl : ~ islog L (dv, sec)) by tauto.
  assert (0 <= dv < 2 ^ 32 /\ 0 <= sec < 2 ^ 32) as [Hdv Hsec].
  { destruct (decide (0 <= dv < 2 ^ 32 /\ 0 <= sec < 2 ^ 32)); tauto. }
  clear Hd. pose proof (bread_refines (bc s) a dv sec (br_rep _ _ _ Hb)) as Hr.
  unfold spec_bread in Hr. rewrite !u32_id in Hr by done.
  rewrite (br_held _ _ _ Hb), (br_pin _ _ _ Hb), (br_img _ _ _ Hb) in Hr by done.
  destruct (decide ((dv, sec) ∈ locked b)).
  { destruct Hr as [i Hr]. exists (WBuf i), s. split; [|by exists a].
    unfold bind, with_bc, zoom. rewrite Hr. by destruct s. }
  destruct (decide _).
  { right. destruct Hr as [msg Hr]. exists msg. unfold bind, with_bc, zoom. by rewrite Hr. }
  destruct (img b !! (dv, sec)) as [x|] eqn:Ex.
  - destruct Hr as (i & c' & E & Hr' & _ & _ & _ & Hx & _).
    exists (Store c' (lg s)). split.
    + unfold bind, with_bc, zoom. rewrite E. unfold bufdata, gets. cbn [bc]. by rewrite Hx.
    + eexists. destruct Hb as [B1 B2 B3 B4 B5 B6 B7 B8 B9 B10 B11].
      split; cbn [lg bc blk held pin locked dirties active img]; [exact Hr'|..]; try done.
      * destruct B2 as [T1 T2 T3 T4]. split; [exact T1|exact T2|exact T3|]. simpl. by rewrite <- B5.
      * intros k [->%elem_of_singleton|Hk]%elem_of_union; [|by apply B11].
        rewrite Ex. split; [done|by eexists].
  - right. destruct Hr as [msg Hr]. exists msg. unfold bind, with_bc, zoom. by rewrite Hr.
Qed.

Lemma brelse_sim s b dv sec : brep s b ->
  op_sim (kernel_op (OBrelse dv sec)) (block_op L (OBrelse dv sec) b) s.
Proof.
  intros (a & Hb). cbn [kernel_op block_op]. unfold abs_brelse.
  destruct (decide _) as [Hd|Hd]; [|by left]. rewrite <- (br_held _ _ _ Hb) in Hd.
  destruct (locked_buf_ok (bc s) a _ (br_rep _ _ _ Hb) Hd) as (i & E & Hi & Hbu & Hk).
  destruct (brelse_step s a i (br_rep _ _ _ Hb) Hi Hbu) as (s' & E' & Hl & Hr & _).
  exists s'. split; [unfold with_buf; by rewrite E|]. rewrite Hk in Hr. eexists.
  destruct Hb as [B1 B2 B3 B4 B5 B6 B7 B8 B9 B10 B11].
  split; rewrite ?Hl; cbn [blk held pin locked dirties active img]; [exact Hr|..]; try done.
  - destruct B2 as [T1 T2 T3 T4]. split; [exact T1|exact T2|exact T3|exact T4].
  - by rewrite B4.
  - intros k Hk'. apply B11. set_solver.
Qed.

Lemma begin_sim s b : brep s b -> op_sim (kernel_op OBegin) (block_op L OBegin b) s.
Proof.
  intros (a & Hb). cbn [kernel_op block_op]. unfold abs_begin, Log.begin_trans, op_sim, bind, gets.
  destruct Hb as [B1 B2 B3 B4 B5 B6 B7 B8 B9 B10 B11]. rewrite B7. destruct (active b) eqn:Ea.
  - exists WLog, s. split; [done|]. exists a. split; try done. by rewrite Ea.
  - eexists. split; [done|]. exists a. split; try done. destruct B2 as [[] [] T3 T4]. by split.
Qed.

Lemma commit_sim s b : brep s b -> op_sim (kernel_op OCommit) (block_op L OCommit b) s.
Proof.
  intros (a & Hb). cbn [kernel_op block_op]. unfold abs_commit.
  destruct (decide _) as [[Hd1 Hd2]|Hd]; [|by left].
  pose proof Hb as [B1 B2 B3 B4 B5 B6 B7 B8 B9 B10 B11].
  assert (HL : logged s a).
  { apply txn_logged; [done|by rewrite B4|done|]. rewrite <- B5, (txn_size _ _ B2) in Hd2.
    pose proof (h_n _ _ (tx_hdr _ _ B2)). lia. }
  destruct (commit_ok s a HL B3) as (s' & a' & E & Hl & Hr & Hh & Hp & Hg & Hid & Hk & _).
  exists s'. split; [done|]. exists a'. split; rewrite ?Hl; cbn; try done.
  - destruct B2 as [T1 T2 T3 T4]. split.
    + by eapply geometry_same; [..|exact Hg].
    + destruct T2 as [H1 H2 H3 H4]. pose proof (g_size _ _ T1).
      split; cbn; [unfold LOGSIZE; lia|lia|done|lia].
    + constructor.
    + rewrite Hp. done.
  - intros k Hkl. rewrite <- B6 by done. apply Hk. by rewrite (inlog_islog s b a k Hb).
Qed.

Lemma logw_sim s b dv sec x : brep s b ->
  op_sim (kernel_op (OLogw dv sec x)) (block_op L (OLogw dv sec x) b) s.
Proof.
  intros (a & Hb). cbn [kernel_op block_op]. unfold abs_logw.
  destruct (decide _) as [(Hd & Hx & Hdv & Hsec)|Hd]; [|by left]. cbn [fst snd] in *.
  pose proof Hb as [B1 B2 B3 B4 B5 B6 B7 B8 B9 B10 B11]. rewrite <- B4 in Hd.
  destruct (locked_buf_ok (bc s) a _ B1 Hd) as (i & E & Hi & Hbu & Hk).
  pose proof (txn_size _ _ B2) as Hsz. pose proof (h_n _ _ (tx_hdr _ _ B2)) as Hn.
  assert (Hn' : Z.of_nat (size (dirties b)) = lh_n (lh (lg s))) by (rewrite <- B5; lia).
  rewrite Hn', <- B10. unfold with_buf, op_sim. rewrite E.
  destruct (_ || _) eqn:Eo.
  { right. unfold bind, setdata, with_bc, zoom, modify, log_write, gets, bind. cbn [lg bc].
    rewrite Eo. eexists. done. }
  apply orb_false_iff in Eo as [En1 En2]. bool_prop. rewrite <- B7. destruct (log_busy (lg s)) eqn:Ebu.
  2: { right. unfold bind, setdata, with_bc, zoom, modify, log_write, gets, bind. cbn [lg bc].
       destruct (Z.leb_spec LOGSIZE (lh_n (lh (lg s)))); [lia|].
       destruct (Z.leb_spec (log_size (lg s) - 1) (lh_n (lh (lg s)))); [lia|].
       rewrite Ebu. by eexists. }
  cbn [negb]. destruct (log_write_ok s a i x B1 Hi Hbu Hx Ebu) as (s' & E' & Hl & Hr & _); try done.
  rewrite Hk in Hl, Hr. cbn [snd] in Hl. exists s'. split; [done|]. eexists.
  assert (Hblk : ~ inlog (lg s) (dv, sec) /\ is_Some (blk a !! (dv, sec))).
  { rewrite B4 in Hd. destruct (B11 _ Hd) as [Hnl Hs]. by rewrite (inlog_islog s b a _ Hb), B6. }
  destruct Hblk as [Hnl Hsome]. subst dv. rewrite <- B8 in *.
  split; rewrite ?Hl; cbn [spec_dirty blk held pin locked dirties active img]; [exact Hr|..]; try done.
  - by apply txn_enter.
  - destruct B3 as (y & Hy & Hy0). exists y. split; [|done]. unfold spec_dirty; cbn [blk].
    rewrite lookup_insert_ne; [done|]. intros He. apply Hnl. rewrite He.
    change (inlog (lg s) (hkey (lg s))). eapply hkey_inlog, (tx_geo _ _ B2).
  - simpl. by rewrite B5.
  - intros k Hkl. unfold spec_dirty; cbn [blk]. destruct (decide (k = (log_dev (lg s), sec))) as [->|Hne].
    + by rewrite !lookup_insert_eq.
    + rewrite !lookup_insert_ne by done. by apply B6.
  - intros k Hk'. destruct (B11 k Hk') as [? ?]. split; [done|]. by apply insert_some.
Qed.

(** One simulation for every program: when the abstract run returns, sleeps or
    panics, so does the run on the buffer cache and the log. *)
Lemma run_sim {K A} (p : prog K A) s b k : brep s b ->
  match run (block_op L) p (b, k) with
  | Ok a (b', k') => exists s', run kernel_op p (s, k) = Ok a (s', k') /\ brep s' b'
  | Panic msg => msg = "stuck"%string \/ exists msg', run kernel_op p (s, k) = Panic msg'
  | Sleep _ (b', k') => exists c s', run kernel_op p (s, k) = Sleep c (s', k') /\ brep s' b'
  end.
Proof.
  revert s b k. induction p as [a|o q IH|q IH|k' q IH|msg|c]; intros s b k Hb; cbn [run fst snd].
  - by exists s.
  - assert (Hop : op_sim (kernel_op o) (block_op L o b) s).
    { destruct o; [by apply bread_sim|by apply logw_sim|by apply brelse_sim|by apply begin_sim|
        by apply commit_sim]. }
    unfold op_sim in Hop. destruct (block_op L o b) as [r b'|msg|c b'].
    + destruct Hop as (s' & -> & Hb'). by apply IH.
    + destruct Hop as [->|(msg' & ->)]; [by left|right; by eexists].
    + destruct Hop as (c' & s' & -> & Hb'). by exists c', s'.
  - by apply IH.
  - by apply IH.
  - right. by exists msg.
  - by exists c, s.
Qed.

End refinement.

(** ** Reasoning on programs *)

Section wp.
Context (L : layout) {K : Type}.
Implicit Types (b : bstate) (k : K).

(** The program returns, in a state that satisfies the postcondition. *)
Definition wp {A} (p : prog K A) (Q : A -> bstate -> K -> Prop) (b : bstate) (k : K) : Prop :=
  match run (block_op L) p (b, k) with Ok a (b', k') => Q a b' k' | _ => False end.

Lemma run_pbind {S A B} (h : forall o, M S (op_ret o)) (p : prog K A) (f : A -> prog K B) s :
  run h (pbind p f) s =
    match run h p s with Ok a s' => run h (f a) s' | Panic m => Panic m | Sleep c s' => Sleep c s' end.
Proof.
  revert s. induction p as [a|o q IH|q IH|k' q IH|msg|c]; intros s; cbn [pbind run]; try done.
  - destruct (h o s.1) as [r s'|msg|c s']; [apply IH|done..].
Qed.

Lemma wp_ret {A} (a : A) (Q : A -> bstate -> K -> Prop) b k : Q a b k -> wp (Ret a) Q b k.
Proof. done. Qed.

Lemma wp_bind {A B} (p : prog K A) (f : A -> prog K B) Q b k :
  wp p (fun a => wp (f a) Q) b k -> wp (pbind p f) Q b k.
Proof. unfold wp. rewrite run_pbind. by destruct (run (block_op L) p (b, k)) as [a [b' k']| |]. Qed.

Lemma wp_mono {A} (p : prog K A) (Q Q' : A -> bstate -> K -> Prop) b k :
  wp p Q b k -> (forall a b' k', Q a b' k' -> Q' a b' k') -> wp p Q' b k.
Proof. unfold wp. destruct (run (block_op L) p (b, k)) as [a [b' k']| |]; eauto. Qed.

Lemma wp_run {A} (p : prog K A) (Q : A -> bstate -> K -> Prop) b k : wp p Q b k ->
  exists a b' k', run (block_op L) p (b, k) = Ok a (b', k') /\ Q a b' k'.
Proof.
  unfold wp. destruct (run (block_op L) p (b, k)) as [a [b' k']| |]; [|done..]. by exists a, b', k'.
Qed.

Lemma wp_pget (Q : K -> bstate -> K -> Prop) b k : Q k b k -> wp pget Q b k.
Proof. done. Qed.

Lemma wp_pput (k' : K) (Q : unit -> bstate -> K -> Prop) b k : Q tt b k' -> wp (pput k') Q b k.
Proof. done. Qed.

(** A sector the code may read: on the disk, outside the log. *)
Definition sector (b : bstate) (dv sec : Z) (x : list Z) : Prop :=
  0 <= dv < 2 ^ 32 /\ 0 <= sec < 2 ^ 32 /\ ~ islog L (dv, sec) /\ img b !! (dv, sec) = Some x.

Lemma wp_bread dv sec x (Q : list Z -> bstate -> K -> Prop) b k : sector b dv sec x ->
  ~ (dv, sec) ∈ locked b ->
  (dv, sec) ∈ dirties b \/ (size (locked b ∪ dirties b) < NBUF)%nat ->
  Q x (BState (img b) ({[(dv, sec)]} ∪ locked b) (dirties b) (active b)) k ->
  wp (bread dv sec) Q b k.
Proof.
  intros (Hdv & Hsec & Hl & Hx) Hlk Hroom HQ. unfold wp, bread. cbn [run block_op fst snd].
  rewrite !u32_id by done. unfold abs_bread.
  rewrite decide_False by (intros [?|Hn]; [done|by apply Hn]).
  rewrite decide_False by done. rewrite decide_False by (intros [? ?]; naive_solver lia).
  by rewrite Hx.
Qed.

Lemma wp_logw dv sec x (Q : unit -> bstate -> K -> Prop) b k : 0 <= dv < 2 ^ 32 ->
  (dv, sec) ∈ locked b -> length x = BSIZE -> dv = ldev L -> 0 <= sec < 2 ^ 31 ->
  active b = true -> Z.of_nat (size (dirties b)) < LOGSIZE ->
  Z.of_nat (size (dirties b)) < lsize L - 1 ->
  Q tt (BState (<[(dv, sec) := x]> (img b)) (locked b) ({[(dv, sec)]} ∪ dirties b) true) k ->
  wp (logw dv sec x) Q b k.
Proof.
  intros Hdv Hlk Hx Hd Hsec Ha Hn1 Hn2 HQ. unfold wp, logw. cbn [run block_op fst snd].
  rewrite !u32_id by lia. unfold abs_logw. rewrite decide_True by done. rewrite Ha.
  destruct (Z.leb_spec LOGSIZE (Z.of_nat (size (dirties b)))); [lia|].
  destruct (Z.leb_spec (lsize L - 1) (Z.of_nat (size (dirties b)))); [lia|]. done.
Qed.

Lemma wp_brelse dv sec (Q : unit -> bstate -> K -> Prop) b k : 0 <= dv < 2 ^ 32 ->
  0 <= sec < 2 ^ 32 -> (dv, sec) ∈ locked b ->
  Q tt (BState (img b) (locked b ∖ {[(dv, sec)]}) (dirties b) (active b)) k ->
  wp (brelse dv sec) Q b k.
Proof.
  intros Hdv Hsec Hlk HQ. unfold wp, brelse. cbn [run block_op fst snd].
  rewrite !u32_id by lia. unfold abs_brelse. by rewrite decide_True.
Qed.

Lemma wp_begin (Q : unit -> bstate -> K -> Prop) b k : active b = false ->
  Q tt (BState (img b) (locked b) (dirties b) true) k -> wp begin_trans Q b k.
Proof. intros Ha HQ. unfold wp, begin_trans. cbn [run block_op fst snd]. unfold abs_begin. by rewrite Ha. Qed.

Lemma wp_commit (Q : unit -> bstate -> K -> Prop) b k : locked b = ∅ -> (size (dirties b) < NBUF)%nat ->
  Q tt (BState (img b) ∅ ∅ false) k -> wp commit_trans Q b k.
Proof.
  intros Ha Hs HQ. unfold wp, commit_trans. cbn [run block_op fst snd]. unfold abs_commit.
  by rewrite decide_True.
Qed.

End wp.

(** ** The promise of the block layer *)

(** C8. Code above the buffer cache and the log can be understood on the
    abstract block store: for every program over the operations of bio.c and
    log.c and every kernel state that implements an abstract one, a run of the
    program on the buffers, the log and the disk returns the same result,
    sleeps or panics as the abstract run does, and leaves a state that
    implements the abstract one left.  (An abstract run is stuck when the
    program breaks the interface: it touches the log's sectors or a buffer it
    has not locked, or commits with a buffer locked.) *)
Theorem block_layer_sim {D} `{DriverOk D} L {K A} (p : prog K A) (s : store (Traced.t D)) b k :
  brep L s b ->
  match run (block_op L) p (b, k) with
  | Ok a (b', k') => exists s', run kernel_op p (s, k) = Ok a (s', k') /\ brep L s' b'
  | Panic msg => msg = "stuck"%string \/ exists msg', run kernel_op p (s, k) = Panic msg'
  | Sleep _ (b', k') => exists c s', run kernel_op p (s, k) = Sleep c (s', k') /\ brep L s' b'
  end.
Proof. apply run_sim. Qed.

(** The program of [Log.put] followed by the commit, on the example disk. *)
Local Open Scope prog_scope.
Definition demo_prog : prog unit unit :=
  let! _ := bread 1 4 in logw 1 4 (Example.fill 40) >>> brelse 1 4 >>> commit_trans.
Definition demo_layout : layout := Layout 1 7 3.

Lemma demo_brep : exists b, brep demo_layout Example.st0 b /\ locked b = ∅ /\ dirties b = ∅ /\
  active b = true /\ is_Some (img b !! (1, 4)).
Proof.
  destruct Example.st0_txn as (a & Hr & Hh & Ht & Hid & _ & Hs).
  exists (BState (filter (fun kv => ~ islog demo_layout kv.1) (blk a)) ∅ ∅ true).
  assert (Hf : forall k, ~ islog demo_layout k ->
    blk a !! k = (filter (fun kv => ~ islog demo_layout kv.1) (blk a) : gmap (Z * Z) (list Z)) !! k).
  { intros k Hk. apply option_eq. intros x. rewrite map_lookup_filter_Some. naive_solver. }
  split; [exists a; split; try done|split_and!; try done].
  - exact (tx_pin _ _ Ht).
  - cbn [img]. rewrite <- Hf; [apply Hs; simpl; lia|]. unfold islog; simpl. lia.
Qed.

Lemma block_layer_sim_witness : exists s', run kernel_op demo_prog (Example.st0, tt) = Ok tt (s', tt).
Proof.
  destruct demo_brep as (b & Hb & Hl & Hd & Ha & x & Hx).
  assert (Hw : wp demo_layout demo_prog (fun _ _ _ => True) b tt).
  { unfold demo_prog. apply wp_bind. apply (wp_bread _ 1 4 x).
    - split_and!; try lia; [|done]. unfold islog; simpl. lia.
    - rewrite Hl. set_solver.
    - right. rewrite Hl, Hd, (left_id_L ∅ (∪)), size_empty. unfold NBUF. lia.
    - apply wp_bind, wp_logw; cbn [locked dirties active]; rewrite ?Hd, ?size_empty;
        try (unfold LOGSIZE, demo_layout; cbn [lsize ldev]; lia); try done; [set_solver|].
      apply wp_bind, wp_brelse; cbn [locked]; [lia|lia|set_solver|].
      apply wp_commit; cbn [locked dirties]; [rewrite Hl; set_solver| |done].
      rewrite (right_id_L ∅ (∪)), size_singleton. unfold NBUF. lia. }
  apply wp_run in Hw as ([] & b' & [] & E & _).
  pose proof (block_layer_sim demo_layout demo_prog Example.st0 b tt Hb) as Hsim.
  rewrite E in Hsim. destruct Hsim as (s' & E' & _). exists s'. exact E'.
Defined.
