(* ===== verification/Kstring.v ===== *)
(** * Memory and strings (string.c, ulib.c, the string instructions of x86.h)

    The byte memory that the C library functions of the kernel and of the
    user programs work on, one definition per function, and what each of them
    computes.  Memory is a function from addresses to bytes; loops that run
    until a NUL byte take fuel, and the theorems show how much is enough. *)

From stdpp Require Import base numbers list gmap strings.
From Stdlib Require Import ZArith Lia.
From S2P Require Import Prelude.

Local Open Scope Z_scope.
Local Open Scope kernel_scope.

Definition mem : Type := Z -> Z.
Definition upd (m : mem) (a v : Z) : mem := fun x => if x =? a then u8 v else m x.
Definition mem_ok (m : mem) : Prop := forall a, 0 <= m a < 256.

(** ** The string instructions *)

Fixpoint stosb (m : mem) (dst c : Z) (n : nat) : mem :=
  match n with
  | O => m
  | S n' => stosb (upd m dst c) (dst + 1) c n'
  end.

Definition store4 (m : mem) (a w : Z) : mem :=
  upd (upd (upd (upd m a w) (a + 1) (Z.shiftr w 8)) (a + 2) (Z.shiftr w 16)) (a + 3) (Z.shiftr w 24).

Fixpoint stosl (m : mem) (dst w : Z) (n : nat) : mem :=
  match n with
  | O => m
  | S n' => stosl (store4 m dst w) (dst + 4) w n'
  end.

(** ** string.c *)

Definition memset (m : mem) (dst c n : Z) : mem :=
  if (Z.rem (s32 dst) 4 =? 0) && (n mod 4 =? 0) then
    let c := Z.land c 255 in
    stosl m dst (u32 (Z.lor (Z.lor (Z.lor (Z.shiftl c 24) (Z.shiftl c 16)) (Z.shiftl c 8)) c))
      (Z.to_nat (n / 4))
  else stosb m dst c (Z.to_nat n).

Fixpoint memcmp (m : mem) (s1 s2 : Z) (n : nat) : Z :=
  match n with
  | O => 0
  | S n' => if negb (m s1 =? m s2) then m s1 - m s2 else memcmp m (s1 + 1) (s2 + 1) n'
  end.

(** [while(n-- > 0) *d++ = *s++] and [while(n-- > 0) *--d = *--s]. *)
Fixpoint copy_up (m : mem) (d s : Z) (n : nat) : mem :=
  match n with
  | O => m
  | S n' => copy_up (upd m d (m s)) (d + 1) (s + 1) n'
  end.

Fixpoint copy_down (m : mem) (d s : Z) (n : nat) : mem :=
  match n with
  | O => m
  | S n' => copy_down (upd m (d - 1) (m (s - 1))) (d - 1) (s - 1) n'
  end.

Definition memmove (m : mem) (dst src n : Z) : mem :=
  if (src <? dst) && (dst <? src + n)
  then copy_down m (dst + n) (src + n) (Z.to_nat n)
  else copy_up m dst src (Z.to_nat n).

Definition memcpy (m : mem) (dst src n : Z) : mem := memmove m dst src n.

Fixpoint strncmp (m : mem) (p q : Z) (n : nat) : Z :=
  match n with
  | O => 0
  | S n' =>
      if negb (m p =? 0) && (m p =? m q) then strncmp m (p + 1) (q + 1) n'
      else m p - m q
  end.

(** [strncpy]: the copying loop hands over to the padding loop once the NUL
    byte has been copied; the padding loop then has [n'] bytes to fill. *)
Fixpoint strncpy (m : mem) (s t : Z) (n : nat) : mem :=
  match n with
  | O => m
  | S n' =>
      let m' := upd m s (m t) in
      if m t =? 0 then stosb m' (s + 1) 0 n'
      else strncpy m' (s + 1) (t + 1) n'
  end.

(** [safestrcpy]: [k] is the number of bytes the loop may still copy. *)
Fixpoint safestrcpy_loop (m : mem) (s t : Z) (k : nat) : mem * Z :=
  match k with
  | O => (m, s)
  | S k' =>
      let m' := upd m s (m t) in
      if m t =? 0 then (m', s + 1) else safestrcpy_loop m' (s + 1) (t + 1) k'
  end.

Definition safestrcpy (m : mem) (s t n : Z) : mem :=
  if n <=? 0 then m
  else let '(m', s') := safestrcpy_loop m s t (Z.to_nat (n - 1)) in upd m' s' 0.

(** [strlen], with fuel for the unbounded loop: [None] when it runs out. *)
Fixpoint strlen_from (fuel : nat) (m : mem) (s n : Z) : option Z :=
  match fuel with
  | O => None
  | S f => if m (s + n) =? 0 then Some n else strlen_from f m s (n + 1)
  end.

Definition strlen (fuel : nat) (m : mem) (s : Z) : option Z := strlen_from fuel m s 0.

(** ** ulib.c *)

Module Ulib.

Fixpoint strcpy (fuel : nat) (m : mem) (s t : Z) : option mem :=
  match fuel with
  | O => None
  | S f =>
      let m' := upd m s (m t) in
      if m t =? 0 then Some m' else strcpy f m' (s + 1) (t + 1)
  end.

Fixpoint strcmp (fuel : nat) (m : mem) (p q : Z) : option Z :=
  match fuel with
  | O => None
  | S f =>
      if negb (m p =? 0) && (m p =? m q) then strcmp f m (p + 1) (q + 1)
      else Some (m p - m q)
  end.

Definition strlen (fuel : nat) (m : mem) (s : Z) : option Z := strlen_from fuel m s 0.

Definition memset (m : mem) (dst c n : Z) : mem := stosb m dst c (Z.to_nat n).

(** The result is the address found, or 0. *)
Fixpoint strchr (fuel : nat) (m : mem) (s c : Z) : option Z :=
  match fuel with
  | O => None
  | S f =>
      if m s =? 0 then Some 0
      else if m s =? u8 c then Some s
      else strchr f m (s + 1) c
  end.

(** [gets]: [input] is what successive [read(0, &c, 1)] calls deliver. *)
Fixpoint gets_loop (k : nat) (m : mem) (buf i : Z) (input : list Z) : mem * Z * list Z :=
  match k, input with
  | S k', c :: rest =>
      let m' := upd m (buf + i) c in
      if (u8 c =? 10) || (u8 c =? 13) then (m', i + 1, rest)
      else gets_loop k' m' buf (i + 1) rest
  | _, _ => (m, i, input)
  end.

Definition gets (m : mem) (buf max : Z) (input : list Z) : mem * list Z :=
  let '(m', i, rest) := gets_loop (Z.to_nat (max - 1)) m buf 0 input in
  (upd m' (buf + i) 0, rest).

(** [atoi]: [n*10 + *s++ - '0'] at the width of [int].  [char] is signed, but
    only the digits pass the test. *)
Definition isdigit (c : Z) : bool := (48 <=? c) && (c <=? 57).

Fixpoint atoi_from (fuel : nat) (m : mem) (s n : Z) : option Z :=
  match fuel with
  | O => None
  | S f => if isdigit (m s) then atoi_from f m (s + 1) (s32 (n * 10 + m s - 48)) else Some n
  end.

Definition atoi (fuel : nat) (m : mem) (s : Z) : option Z := atoi_from fuel m s 0.

Definition memmove (m : mem) (dst src n : Z) : mem := copy_up m dst src (Z.to_nat n).

End Ulib.

(** ** Strings in memory *)

(** The bytes [l] lie at [a]. *)
Definition bytes_at (m : mem) (a : Z) (l : list Z) : Prop :=
  forall i x, l !! i = Some x -> m (a + Z.of_nat i) = x.

(** The C string [l] lies at [a]. *)
Definition cstr (m : mem) (a : Z) (l : list Z) : Prop :=
  bytes_at m a (l ++ [0]) /\ Forall (fun x => 0 < x < 256) l.

Lemma bytes_at_nil m a : bytes_at m a [].
Proof. intros i x. by rewrite lookup_nil. Qed.

Lemma bytes_at_cons m a x l : bytes_at m a (x :: l) <-> m a = x /\ bytes_at m (a + 1) l.
Proof.
  unfold bytes_at. split.
  - intros H. split; [by rewrite <- (H 0%nat x), Z.add_0_r|].
    intros i y Hy. rewrite <- (H (S i) y Hy). f_equal. lia.
  - intros [H0 H] [|i] y Hy; simpl in Hy.
    + injection Hy as <-. by rewrite Z.add_0_r.
    + rewrite <- (H i y Hy). f_equal. lia.
Qed.

Lemma cstr_nil m a : cstr m a [] <-> m a = 0.
Proof.
  unfold cstr. cbn [app]. rewrite bytes_at_cons. split; [by intros [[? _] _]|].
  intros H. split; [split; [done|apply bytes_at_nil]|constructor].
Qed.

Lemma cstr_cons m a x l : cstr m a (x :: l) <-> m a = x /\ 0 < x < 256 /\ cstr m (a + 1) l.
Proof.
  unfold cstr. cbn [app]. rewrite bytes_at_cons, Forall_cons. tauto.
Qed.

Lemma upd_eq m a v : upd m a v a = u8 v.
Proof. unfold upd. by rewrite Z.eqb_refl. Qed.

Lemma upd_ne m a v x : x <> a -> upd m a v x = m x.
Proof. intros. unfold upd. by destruct (Z.eqb_spec x a). Qed.

Lemma upd_ok m a v : mem_ok m -> mem_ok (upd m a v).
Proof. intros Hm x. unfold upd. destruct (x =? a); [apply u8_range|apply Hm]. Qed.

(** A byte outside the written range survives. *)
Lemma bytes_at_ext m m' a l : bytes_at m a l ->
  (forall x, a <= x < a + Z.of_nat (length l) -> m' x = m x) -> bytes_at m' a l.
Proof.
  intros H He i x Hi. pose proof (lookup_lt_Some _ _ _ Hi). rewrite He by lia. by apply H.
Qed.

Lemma cstr_ext m m' a l : cstr m a l ->
  (forall x, a <= x < a + Z.of_nat (length l) + 1 -> m' x = m x) -> cstr m' a l.
Proof.
  intros [H Hl] He. split; [|done]. eapply bytes_at_ext; [done|].
  intros x. rewrite length_app. simpl. intros. apply He. lia.
Qed.

(** ** What the functions compute *)

Lemma stosb_spec m dst c n x :
  stosb m dst c n x = if decide (dst <= x < dst + Z.of_nat n) then u8 c else m x.
Proof.
  revert m dst. induction n as [|n IH]; intros m dst; cbn [stosb].
  { rewrite decide_False; [done|lia]. }
  rewrite IH. destruct (decide (x = dst)) as [->|Hx].
  - rewrite decide_False, decide_True by lia. apply upd_eq.
  - rewrite upd_ne by done. repeat case_decide; lia || done.
Qed.

(** The word [memset] stores has the byte [c] four times. *)
Lemma memset_word c i : 0 <= c < 256 -> 0 <= i < 4 ->
  u8 (Z.shiftr (u32 (Z.lor (Z.lor (Z.lor (Z.shiftl c 24) (Z.shiftl c 16)) (Z.shiftl c 8)) c)) (8 * i)) = c.
Proof.
  intros Hc Hi. set (f := fun c i => u8 (Z.shiftr (u32 (Z.lor (Z.lor (Z.lor (Z.shiftl c 24)
    (Z.shiftl c 16)) (Z.shiftl c 8)) c)) (8 * i)) =? c).
  assert (Hall : forallb (fun c => forallb (f c) (seqZ 0 4)) (seqZ 0 256) = true) by (by vm_compute).
  rewrite forallb_forall in Hall. specialize (Hall c). rewrite forallb_forall in Hall.
  apply Z.eqb_eq, (Hall ltac:(apply list_elem_of_In, elem_of_seqZ; lia) i).
  apply list_elem_of_In, elem_of_seqZ. lia.
Qed.

Lemma store4_spec m a w c x : (forall i, 0 <= i < 4 -> u8 (Z.shiftr w (8 * i)) = c) ->
  store4 m a w x = if decide (a <= x < a + 4) then c else m x.
Proof.
  intros Hw. unfold store4.
  pose proof (Hw 0 ltac:(lia)) as H0. pose proof (Hw 1 ltac:(lia)) as H1.
  pose proof (Hw 2 ltac:(lia)) as H2. pose proof (Hw 3 ltac:(lia)) as H3.
  rewrite Z.shiftr_0_r in H0. change (8 * 1) with 8 in H1. change (8 * 2) with 16 in H2.
  change (8 * 3) with 24 in H3.
  destruct (decide (x = a + 3)) as [->|]; [rewrite upd_eq, decide_True by lia; done|].
  rewrite upd_ne by done.
  destruct (decide (x = a + 2)) as [->|]; [rewrite upd_eq, decide_True by lia; done|].
  rewrite upd_ne by done.
  destruct (decide (x = a + 1)) as [->|]; [rewrite upd_eq, decide_True by lia; done|].
  rewrite upd_ne by done.
  destruct (decide (x = a)) as [->|]; [rewrite upd_eq, decide_True by lia; done|].
  rewrite upd_ne by done. by rewrite decide_False by lia.
Qed.

Lemma stosl_spec m dst w c n x : (forall i, 0 <= i < 4 -> u8 (Z.shiftr w (8 * i)) = c) ->
  stosl m dst w n x = if decide (dst <= x < dst + 4 * Z.of_nat n) then c else m x.
Proof.
  intros Hw. revert m dst. induction n as [|n IH]; intros m dst; cbn [stosl].
  { rewrite decide_False; [done|lia]. }
  rewrite IH. rewrite (store4_spec _ _ _ c) by done. repeat case_decide; lia || done.
Qed.

(** The word-wise fast path of [memset] computes what the byte loop does. *)
Lemma memset_spec m dst c n x : 0 <= n ->
  memset m dst c n x = if decide (dst <= x < dst + n) then u8 c else m x.
Proof.
  intros Hn. unfold memset. destruct (_ && _) eqn:E.
  - apply andb_true_iff in E as [_ E]. apply Z.eqb_eq in E.
    assert (Hc : Z.land c 255 = u8 c) by (apply (Z.land_ones c 8); lia). rewrite Hc.
    rewrite (stosl_spec _ _ _ (u8 c)) by (intros; apply memset_word; [apply u8_range|lia]).
    assert (4 * Z.of_nat (Z.to_nat (n / 4)) = n) as -> by divlia. done.
  - rewrite stosb_spec, Z2Nat.id by done. done.
Qed.

Lemma copy_up_spec m d s n x : mem_ok m -> ~ (s < d < s + Z.of_nat n) ->
  copy_up m d s n x = if decide (d <= x < d + Z.of_nat n) then m (x - d + s) else m x.
Proof.
  revert m d s. induction n as [|n IH]; intros m d s Hm Hov; cbn [copy_up].
  { rewrite decide_False; [done|lia]. }
  rewrite IH by (apply upd_ok; done) || lia.
  destruct (decide (x = d)) as [->|Hx].
  - rewrite decide_False, decide_True by lia. rewrite upd_eq, u8_id by apply Hm. f_equal; lia.
  - rewrite (upd_ne _ _ _ x) by done. repeat case_decide; try lia; try done.
    rewrite upd_ne by lia. f_equal. lia.
Qed.

Lemma copy_down_spec m d s n x : mem_ok m -> s <= d ->
  copy_down m d s n x = if decide (d - Z.of_nat n <= x < d) then m (x - d + s) else m x.
Proof.
  revert m d s. induction n as [|n IH]; intros m d s Hm Hov; cbn [copy_down].
  { rewrite decide_False; [done|lia]. }
  rewrite IH by (apply upd_ok; done) || lia.
  destruct (decide (x = d - 1)) as [->|Hx].
  - rewrite decide_False, decide_True by lia. rewrite upd_eq, u8_id by apply Hm. f_equal; lia.
  - rewrite (upd_ne _ _ _ x) by done. repeat case_decide; try lia; try done.
    rewrite upd_ne by lia. f_equal. lia.
Qed.

(** [memmove] copies as if through a temporary array, however the two ranges
    overlap. *)
Lemma memmove_ok m dst src n x : mem_ok m -> 0 <= n ->
  memmove m dst src n x = if decide (dst <= x < dst + n) then m (x - dst + src) else m x.
Proof.
  intros Hm Hn. unfold memmove. destruct (_ && _) eqn:E.
  - bool_prop. rewrite copy_down_spec by (done || lia).
    repeat case_decide; try lia; try done. f_equal. lia.
  - assert (~ (src < dst < src + n)) by (apply andb_false_iff in E as [E|E]; bool_prop; lia).
    rewrite copy_up_spec, Z2Nat.id by (done || lia). done.
Qed.

Lemma memcmp_ok m s1 s2 n : mem_ok m ->
  (memcmp m s1 s2 n = 0 <-> forall i, 0 <= i < Z.of_nat n -> m (s1 + i) = m (s2 + i)) /\
  (memcmp m s1 s2 n <> 0 -> exists i, 0 <= i < Z.of_nat n /\
     (forall j, 0 <= j < i -> m (s1 + j) = m (s2 + j)) /\
     memcmp m s1 s2 n = m (s1 + i) - m (s2 + i)).
Proof.
  intros Hm. revert s1 s2. induction n as [|n IH]; intros s1 s2; cbn [memcmp].
  { split; [|done]. split; [lia|done]. }
  destruct (Z.eqb_spec (m s1) (m s2)) as [E|E]; cbn [negb].
  - destruct (IH (s1 + 1) (s2 + 1)) as [IH1 IH2]. split.
    + rewrite IH1. split; intros H i Hi.
      * destruct (decide (i = 0)) as [->|]; [by rewrite !Z.add_0_r|].
        rewrite <- (Z.sub_add 1 i), (Z.add_comm _ 1), !Z.add_assoc. apply H. lia.
      * rewrite <- !Z.add_assoc. apply H. lia.
    + intros H. destruct (IH2 H) as (i & Hi & Hj & ->). exists (1 + i).
      rewrite !Z.add_assoc. split_and!; [lia|lia| |done].
      intros j Hj'. destruct (decide (j = 0)) as [->|]; [by rewrite !Z.add_0_r|].
      rewrite <- (Z.sub_add 1 j), (Z.add_comm _ 1), !Z.add_assoc. apply Hj. lia.
  - split.
    + split; [lia|]. intros H. specialize (H 0). rewrite !Z.add_0_r in H. lia.
    + intros _. exists 0. rewrite !Z.add_0_r. split_and!; [lia..|done].
Qed.

Lemma strlen_from_ok fuel m s n l : cstr m (s + n) l -> (length l < fuel)%nat ->
  strlen_from fuel m s n = Some (n + Z.of_nat (length l)).
Proof.
  revert n l. induction fuel as [|f IH]; intros n l Hc Hf; [lia|]. cbn [strlen_from].
  destruct l as [|x l].
  - apply cstr_nil in Hc. rewrite Hc. simpl. f_equal. lia.
  - apply cstr_cons in Hc as (Hx & Hr & Hc). rewrite Hx.
    destruct (Z.eqb_spec x 0); [lia|]. rewrite <- Z.add_assoc in Hc.
    rewrite (IH _ l) by (done || (simpl in Hf; lia)). f_equal. simpl. lia.
Qed.

Lemma strlen_ok fuel m s l : cstr m s l -> (length l < fuel)%nat ->
  strlen fuel m s = Some (Z.of_nat (length l)).
Proof. intros. unfold strlen. rewrite (strlen_from_ok _ _ _ _ l); [done|by rewrite Z.add_0_r|done]. Qed.

(** Lexicographic difference of two C strings, the NUL bytes included. *)
Fixpoint strdiff (l1 l2 : list Z) : Z :=
  match l1, l2 with
  | [], [] => 0
  | [], y :: _ => 0 - y
  | x :: _, [] => x
  | x :: l1', y :: l2' => if x =? y then strdiff l1' l2' else x - y
  end.

Lemma strdiff_zero l1 l2 : Forall (fun x => 0 < x < 256) l1 -> Forall (fun x => 0 < x < 256) l2 ->
  strdiff l1 l2 = 0 <-> l1 = l2.
Proof.
  intros H1. revert l2. induction H1 as [|x l1 Hx H1 IH]; intros l2 H2; destruct H2 as [|y l2 Hy H2]; simpl.
  - done.
  - split; [lia|done].
  - split; [lia|done].
  - destruct (Z.eqb_spec x y) as [->|].
    + rewrite IH by done. split; [by intros ->|by intros [= ->]].
    + split; [lia|]. intros [= -> ->]. done.
Qed.

Lemma strcmp_ok fuel m p q l1 l2 : cstr m p l1 -> cstr m q l2 -> (length l1 < fuel)%nat ->
  Ulib.strcmp fuel m p q = Some (strdiff l1 l2).
Proof.
  revert p q l1 l2. induction fuel as [|f IH]; intros p q l1 l2 H1 H2 Hf; [lia|]. cbn [Ulib.strcmp].
  destruct l1 as [|x l1].
  - apply cstr_nil in H1. rewrite H1. simpl. destruct l2 as [|y l2].
    + apply cstr_nil in H2. by rewrite H2.
    + by apply cstr_cons in H2 as (-> & _).
  - apply cstr_cons in H1 as (-> & Hx & H1). destruct (Z.eqb_spec x 0); [lia|]. cbn [negb andb].
    destruct l2 as [|y l2].
    + apply cstr_nil in H2. rewrite H2. destruct (Z.eqb_spec x 0); [lia|]. simpl. f_equal. lia.
    + apply cstr_cons in H2 as (-> & Hy & H2). simpl. destruct (Z.eqb_spec x y); [|done].
      apply IH; try done. simpl in Hf. lia.
Qed.

Lemma strncmp_ok n m p q l1 l2 : cstr m p l1 -> cstr m q l2 ->
  strncmp m p q n = strdiff (take n l1) (take n l2).
Proof.
  revert p q l1 l2. induction n as [|n IH]; intros p q l1 l2 H1 H2; [done|]. cbn [strncmp].
  destruct l1 as [|x l1].
  - apply cstr_nil in H1. rewrite H1. simpl. destruct l2 as [|y l2].
    + apply cstr_nil in H2. by rewrite H2.
    + by apply cstr_cons in H2 as (-> & _).
  - apply cstr_cons in H1 as (-> & Hx & H1). destruct (Z.eqb_spec x 0); [lia|]. cbn [negb andb].
    destruct l2 as [|y l2].
    + apply cstr_nil in H2. rewrite H2. destruct (Z.eqb_spec x 0); [lia|]. simpl. lia.
    + apply cstr_cons in H2 as (-> & Hy & H2). simpl. destruct (Z.eqb_spec x y); [|done]. by apply IH.
Qed.

(** The bytes [strncpy] leaves in its [n]-byte field. *)
Definition field (n : nat) (l : list Z) (i : Z) : Z := default 0 (take n l !! Z.to_nat i).

Lemma strncpy_ok n m s t l x : cstr m t l ->
  s + Z.of_nat n <= t \/ t + Z.of_nat (length l) + 1 <= s ->
  strncpy m s t n x = if decide (s <= x < s + Z.of_nat n) then field n l (x - s) else m x.
Proof.
  revert m s t l. induction n as [|n IH]; intros m s t l Hc Hd; cbn [strncpy].
  { rewrite decide_False; [done|lia]. }
  destruct l as [|y l].
  - apply cstr_nil in Hc. rewrite Hc. cbn [Z.eqb]. rewrite stosb_spec. unfold field.
    rewrite take_nil, lookup_nil. destruct (decide (x = s)) as [->|Hx].
    + by rewrite decide_False, decide_True, upd_eq by lia.
    + rewrite upd_ne by done. repeat case_decide; lia || done.
  - pose proof Hc as Hc0. apply cstr_cons in Hc as (Ht & Hy & Hc). rewrite Ht.
    destruct (Z.eqb_spec y 0); [lia|]. simpl in Hd.
    assert (Hc' : cstr (upd m s y) (t + 1) l).
    { eapply cstr_ext; [exact Hc|]. intros z Hz. apply upd_ne. lia. }
    rewrite (IH _ _ _ l Hc') by lia.
    destruct (decide (x = s)) as [->|Hx].
    + rewrite decide_False, decide_True, upd_eq, u8_id by lia. unfold field.
      by rewrite Z.sub_diag.
    + rewrite upd_ne by done. repeat case_decide; try lia. unfold field.
      replace (Z.to_nat (x - s)) with (S (Z.to_nat (x - (s + 1)))) by lia. done.
Qed.

Lemma safestrcpy_loop_ok k m s t l : cstr m t l ->
  s + Z.of_nat k <= t \/ t + Z.of_nat (length l) + 1 <= s ->
  let '(m', s') := safestrcpy_loop m s t k in
  bytes_at m' s (take k l) /\ (forall x, ~ (s <= x < s') -> m' x = m x) /\
  s' <= s + Z.of_nat k /\
  (s' = s + Z.of_nat (length l) + 1 /\ m' (s + Z.of_nat (length l)) = 0 /\ (length l < k)%nat \/
   s' = s + Z.of_nat k /\ (k <= length l)%nat).
Proof.
  revert m s t l. induction k as [|k IH]; intros m s t l Hc Hd; cbn [safestrcpy_loop].
  { split_and!; [apply bytes_at_nil|done|lia|]. right. lia. }
  destruct l as [|y l].
  - apply cstr_nil in Hc. rewrite Hc. cbn [Z.eqb take length].
    split_and!; [apply bytes_at_nil| |lia|].
    + intros x Hx. apply upd_ne. lia.
    + left. rewrite Z.add_0_r, upd_eq. split_and!; [lia|done|lia].
  - apply cstr_cons in Hc as (Ht & Hy & Hc). rewrite Ht.
    destruct (Z.eqb_spec y 0); [lia|]. simpl in Hd.
    assert (Hc' : cstr (upd m s y) (t + 1) l).
    { eapply cstr_ext; [exact Hc|]. intros z Hz. apply upd_ne. lia. }
    specialize (IH (upd m s y) (s + 1) (t + 1) l Hc' ltac:(lia)).
    destruct (safestrcpy_loop _ _ _ k) as [m' s']. destruct IH as (H1 & H2 & H3 & H4).
    split_and!.
    + cbn [take]. apply bytes_at_cons. split; [|done]. rewrite H2 by lia. rewrite upd_eq. apply u8_id. lia.
    + intros x Hx. rewrite H2 by lia. apply upd_ne. lia.
    + lia.
    + simpl. destruct H4 as [(-> & H4 & ?)|[-> ?]]; [left|right]; split_and!; try lia.
      rewrite <- H4. f_equal. lia.
Qed.

(** [safestrcpy] leaves the first [n-1] bytes of the string, terminated, and
    writes nothing outside its [n] bytes. *)
Lemma safestrcpy_ok m s t n l : 0 < n -> cstr m t l ->
  s + n <= t \/ t + Z.of_nat (length l) + 1 <= s ->
  cstr (safestrcpy m s t n) s (take (Z.to_nat (n - 1)) l) /\
  forall x, ~ (s <= x < s + n) -> safestrcpy m s t n x = m x.
Proof.
  intros Hn Hc Hd. unfold safestrcpy. destruct (Z.leb_spec n 0); [lia|].
  pose proof (safestrcpy_loop_ok (Z.to_nat (n - 1)) m s t l Hc ltac:(lia)) as H1.
  destruct (safestrcpy_loop _ _ _ _) as [m' s']. destruct H1 as (H1 & H2 & H3 & H4).
  set (k := Z.to_nat (n - 1)) in *. split.
  - split; [|apply Forall_take, Hc]. intros i x Hx.
    apply lookup_app_Some in Hx as [Hx|[Hi Hx]].
    + pose proof (lookup_lt_Some _ _ _ Hx) as Hlt. rewrite length_take in Hlt.
      rewrite upd_ne by lia. by apply H1.
    + apply list_lookup_singleton_Some in Hx as [Hi0 <-]. rewrite length_take in *.
      destruct H4 as [(-> & H4 & ?)|[-> ?]].
      * rewrite upd_ne by lia. rewrite <- H4. f_equal. lia.
      * replace (s + Z.of_nat i) with (s + Z.of_nat k) by lia. apply upd_eq.
  - intros x Hx. rewrite upd_ne by lia. apply H2. lia.
Qed.

Lemma strcpy_ok fuel m s t l : cstr m t l -> (length l < fuel)%nat ->
  s + Z.of_nat (length l) + 1 <= t \/ t + Z.of_nat (length l) + 1 <= s ->
  exists m', Ulib.strcpy fuel m s t = Some m' /\ cstr m' s l /\
    forall x, ~ (s <= x < s + Z.of_nat (length l) + 1) -> m' x = m x.
Proof.
  revert m s t l. induction fuel as [|f IH]; intros m s t l Hc Hf Hd; [lia|]. cbn [Ulib.strcpy].
  destruct l as [|y l].
  - apply cstr_nil in Hc. rewrite Hc. eexists. split; [done|]. split.
    + apply cstr_nil. by rewrite upd_eq.
    + simpl. intros x Hx. apply upd_ne. lia.
  - apply cstr_cons in Hc as (Ht & Hy & Hc). rewrite Ht. simpl in Hd, Hf.
    destruct (Z.eqb_spec y 0); [lia|].
    assert (Hc' : cstr (upd m s y) (t + 1) l).
    { eapply cstr_ext; [exact Hc|]. intros z Hz. apply upd_ne. lia. }
    destruct (IH (upd m s y) (s + 1) (t + 1) l Hc' ltac:(lia) ltac:(lia)) as (m' & E & Hm & Hx).
    exists m'. split; [done|]. split.
    + apply cstr_cons. split; [|done]. rewrite Hx, upd_eq by lia. apply u8_id. lia.
    + simpl. intros x Hx'. rewrite Hx by lia. apply upd_ne. lia.
Qed.

Lemma strchr_ok fuel m s c l : cstr m s l -> (length l < fuel)%nat ->
  Ulib.strchr fuel m s c =
    Some match list_find (fun x => x = u8 c) l with Some (i, _) => s + Z.of_nat i | None => 0 end.
Proof.
  revert s l. induction fuel as [|f IH]; intros s l Hc Hf; [lia|]. cbn [Ulib.strchr].
  destruct l as [|y l].
  - apply cstr_nil in Hc. by rewrite Hc.
  - apply cstr_cons in Hc as (-> & Hy & Hc). destruct (Z.eqb_spec y 0); [lia|].
    cbn [list_find]. destruct (Z.eqb_spec y (u8 c)) as [E|E].
    + rewrite decide_True by done. f_equal. lia.
    + rewrite decide_False by done. rewrite (IH _ l) by (done || (simpl in Hf; lia)).
      destruct (list_find _ l) as [[i x]|]; simpl; f_equal. lia.
Qed.

(** ** Lines and numbers *)

(** The line [gets] takes from its input: up to and including the first end
    of line, [k] bytes at most. *)
Fixpoint line (k : nat) (input : list Z) : list Z :=
  match k, input with
  | S k', c :: rest => c :: if (u8 c =? 10) || (u8 c =? 13) then [] else line k' rest
  | _, _ => []
  end.

Lemma gets_loop_ok k m buf i input : Forall (fun x => 0 <= x < 256) input ->
  let l := line k input in
  exists m' rest, Ulib.gets_loop k m buf i input = (m', i + Z.of_nat (length l), rest) /\
    input = l ++ rest /\ (length l <= k)%nat /\ bytes_at m' (buf + i) l /\
    forall x, ~ (buf + i <= x < buf + i + Z.of_nat (length l)) -> m' x = m x.
Proof.
  cbv zeta. revert m i input. induction k as [|k IH]; intros m i input Hin.
  { exists m, input. simpl. split_and!; [f_equal; f_equal; lia|done|lia|apply bytes_at_nil|done]. }
  destruct Hin as [|c input Hc Hin].
  { exists m, []. simpl. split_and!; [f_equal; f_equal; lia|done|lia|apply bytes_at_nil|done]. }
  cbn [Ulib.gets_loop line]. destruct (_ || _) eqn:E.
  - exists (upd m (buf + i) c), input. cbn [length]. split_and!; [f_equal; f_equal; lia|done|lia| |].
    + apply bytes_at_cons. split; [|apply bytes_at_nil]. rewrite upd_eq. by apply u8_id.
    + intros x Hx. apply upd_ne. lia.
  - destruct (IH (upd m (buf + i) c) (i + 1) input Hin) as (m' & rest & E' & Hi & Hl & Hb & Hx).
    exists m', rest. rewrite E'. cbn [length app].
    split_and!; [f_equal; f_equal; lia|by f_equal|lia| |].
    + apply bytes_at_cons. rewrite Z.add_assoc in Hb. split; [|done].
      rewrite Hx by lia. rewrite upd_eq. by apply u8_id.
    + intros x Hx'. rewrite Hx by lia. apply upd_ne. lia.
Qed.

Lemma gets_ok m buf max input : 0 < max -> Forall (fun x => 0 <= x < 256) input ->
  let l := line (Z.to_nat (max - 1)) input in
  exists m' rest, Ulib.gets m buf max input = (m', rest) /\ input = l ++ rest /\
    bytes_at m' buf (l ++ [0]) /\ (forall x, ~ (buf <= x < buf + max) -> m' x = m x).
Proof.
  intros Hmax Hin l. unfold Ulib.gets.
  destruct (gets_loop_ok (Z.to_nat (max - 1)) m buf 0 input Hin) as (m' & rest & E & Hi & Hl & Hb & Hx).
  fold l in E, Hi, Hl, Hb, Hx. rewrite E. eexists _, rest. split; [done|]. split; [done|].
  rewrite Z.add_0_r in *. cbn [Z.add]. split.
  - intros i x Hix. apply lookup_app_Some in Hix as [Hix|[Hle Hix]].
    + pose proof (lookup_lt_Some _ _ _ Hix). rewrite upd_ne by lia. by apply Hb.
    + apply list_lookup_singleton_Some in Hix as [Hi0 <-].
      replace (buf + Z.of_nat i) with (buf + Z.of_nat (length l)) by lia. apply upd_eq.
  - intros x Hx'. rewrite upd_ne by lia. apply Hx. lia.
Qed.

(** The value of a list of decimal digits, most significant first. *)
Definition decimal (n : Z) (ds : list Z) : Z := fold_left (fun a d => a * 10 + d) ds n.
Definition digits_ok (ds : list Z) : Prop := Forall (fun d => 0 <= d <= 9) ds.

Lemma decimal_ge n ds : digits_ok ds -> 0 <= n -> n <= decimal n ds.
Proof.
  intros Hd. revert n. induction Hd as [|d ds Hd _ IH]; intros n Hn; simpl; [done|].
  unfold decimal in *. specialize (IH (n * 10 + d)). lia.
Qed.

Lemma atoi_from_ok fuel m s n ds c : digits_ok ds -> 0 <= n -> decimal n ds < 2 ^ 31 ->
  bytes_at m s (((fun d => 48 + d) <$> ds) ++ [c]) -> Ulib.isdigit c = false ->
  (length ds < fuel)%nat -> Ulib.atoi_from fuel m s n = Some (decimal n ds).
Proof.
  intros Hd. revert s n fuel. induction Hd as [|d ds Hd Hds IH]; intros s n fuel Hn Hlt Hb Hc Hf;
    (destruct fuel as [|f]; [simpl in Hf; lia|]); cbn [Ulib.atoi_from].
  - apply bytes_at_cons in Hb as [-> _]. by rewrite Hc.
  - cbn [fmap list_fmap app] in Hb. apply bytes_at_cons in Hb as [-> Hb].
    unfold Ulib.isdigit at 1. destruct (Z.leb_spec 48 (48 + d)); [|lia].
    destruct (Z.leb_spec (48 + d) 57); [|lia]. cbn [andb].
    assert (Hn' : n * 10 + d < 2 ^ 31).
    { pose proof (decimal_ge (n * 10 + d) ds Hds). unfold decimal in *. simpl in Hlt. lia. }
    replace (s32 (n * 10 + (48 + d) - 48)) with (n * 10 + d).
    2: { rewrite s32_id; lia. }
    apply IH; try done; simpl in *; lia.
Qed.

(** ** The promises of the string functions *)

(** The kernel's [memset], which stores whole words when the address and
    the length allow it, leaves the same memory as the byte loop of the user
    library's [memset], for every address, byte and length. *)
Theorem memset_equiv m dst c n x : 0 <= n -> memset m dst c n x = Ulib.memset m dst c n x.
Proof.
  intros Hn. rewrite memset_spec by done. unfold Ulib.memset.
  by rewrite stosb_spec, Z2Nat.id.
Qed.

(** [memmove] of string.c copies the bytes the source had at the start,
    however the two ranges overlap, and changes nothing else. *)
Theorem memmove_spec m dst src n x : mem_ok m -> 0 <= n ->
  memmove m dst src n x = if decide (dst <= x < dst + n) then m (x - dst + src) else m x.
Proof. apply memmove_ok. Qed.

(** [safestrcpy] always leaves a terminated string, the first [n-1] bytes
    of its source, and writes only its [n] bytes; [strncpy] fills exactly its
    [n] bytes, with zeros after the string, and may leave no terminator. *)
Theorem strcpy_bounded m s t n l : 0 < n -> cstr m t l ->
  s + n <= t \/ t + Z.of_nat (length l) + 1 <= s ->
  cstr (safestrcpy m s t n) s (take (Z.to_nat (n - 1)) l) /\
  (forall x, ~ (s <= x < s + n) -> safestrcpy m s t n x = m x) /\
  (forall x, strncpy m s t (Z.to_nat n) x =
     if decide (s <= x < s + n) then field (Z.to_nat n) l (x - s) else m x).
Proof.
  intros Hn Hc Hd. destruct (safestrcpy_ok m s t n l Hn Hc Hd) as [H1 H2].
  split_and!; [done|done|]. intros x. rewrite (strncpy_ok _ _ _ _ l), Z2Nat.id by (done || lia). done.
Qed.

(** [strncmp] (which compares directory names) is zero exactly when the
    two strings agree on their first [n] bytes, [strcmp] exactly when they
    are equal; [strcmp] returns on every pair of C strings. *)
Theorem strcmp_spec m p q l1 l2 n fuel : cstr m p l1 -> cstr m q l2 -> (length l1 < fuel)%nat ->
  (strncmp m p q n = 0 <-> take n l1 = take n l2) /\
  exists r, Ulib.strcmp fuel m p q = Some r /\ (r = 0 <-> l1 = l2).
Proof.
  intros H1 H2 Hf. rewrite (strncmp_ok n m p q l1 l2) by done. destruct H1 as [H1 F1], H2 as [H2 F2].
  split; [apply strdiff_zero; by apply Forall_take|].
  exists (strdiff l1 l2). split; [by apply strcmp_ok; try split|]. by apply strdiff_zero.
Qed.

(** The user library's [memmove] copies upwards whatever the overlap: a
    copy of three bytes to the next address repeats the first byte, where the
    kernel's [memmove] moves the three. *)
Theorem ulib_memmove_overlap : let m := fun a => if decide (0 <= a < 3) then a + 1 else 0 in
  (Ulib.memmove m 1 0 3 <$> [1; 2; 3]) = [1; 1; 1] /\ (memmove m 1 0 3 <$> [1; 2; 3]) = [1; 2; 3].
Proof. split; by vm_compute. Qed.

Definition hello (a : Z) : Z := nth (Z.to_nat a) [104; 105; 0] 0.

Lemma hello_cstr : cstr hello 0 [104; 105].
Proof.
  split; [|repeat constructor; lia].
  intros i x. destruct i as [|[|[|i]]]; vm_compute; congruence.
Qed.

Lemma hello_ok : mem_ok hello.
Proof.
  intros a. unfold hello. destruct (Z.to_nat a) as [|[|[|n]]]; simpl; try lia.
  destruct n; simpl; lia.
Qed.

Lemma memset_equiv_witness : memset hello 8 65 6 9 = Ulib.memset hello 8 65 6 9.
Proof. apply (memset_equiv hello 8 65 6 9). lia. Defined.

Lemma memmove_spec_witness : memmove hello 1 0 2 2 = 105.
Proof. rewrite (memmove_spec hello 1 0 2 2 hello_ok); [reflexivity|lia]. Defined.

Lemma strcpy_bounded_witness : cstr (safestrcpy hello 10 0 2) 10 [104].
Proof. apply (strcpy_bounded hello 10 0 2 [104; 105]); [lia|apply hello_cstr|simpl; lia]. Defined.

Lemma strcmp_spec_witness : exists r, Ulib.strcmp 5 hello 0 0 = Some r /\ (r = 0 <-> [104; 105] = [104; 105]).
Proof. apply (strcmp_spec hello 0 0 [104; 105] [104; 105] 14 5 hello_cstr hello_cstr). simpl. lia. Defined.
