(* ===== verification/Printf.v ===== *)
(** * Formatted output (printf.c, and printint and cprintf of console.c)

    The user library's [printf] and the kernel's [cprintf], as the list of
    bytes they hand to [putc] and [consputc]. *)

From stdpp Require Import base numbers list gmap strings.
From Stdlib Require Import ZArith Lia.
From S2P Require Import Prelude Kstring.

Local Open Scope Z_scope.
Local Open Scope kernel_scope.

(** The digits of the two [printint]s: upper case in printf.c, lower case in
    console.c. *)
Definition digit (alpha d : Z) : Z := if d <? 10 then 48 + d else alpha + (d - 10).
Definition upper : Z := 65.
Definition lower : Z := 97.

(** [do buf[i++] = digits[x % base]; while((x /= base) != 0)], the bytes in
    the order they are stored. *)
Fixpoint digit_loop (fuel : nat) (alpha x base : Z) : list Z :=
  match fuel with
  | O => []
  | S f =>
      digit alpha (x mod base) ::
      if x / base =? 0 then [] else digit_loop f alpha (x / base) base
  end.

(** The bytes stored in [buf] by [printint]. *)
Definition printint_buf (alpha xx base : Z) (sgn : bool) : list Z :=
  let neg := sgn && (xx <? 0) in
  let x := u32 (if neg then - xx else xx) in
  digit_loop 32 alpha x base ++ if neg then [45] else [].

(** [while(--i >= 0) putc(fd, buf[i])]. *)
Definition printint (alpha xx base : Z) (sgn : bool) : list Z :=
  rev (printint_buf alpha xx base sgn).

(** The string at an address, as [%s] reads it. *)
Fixpoint loadstr (fuel : nat) (m : mem) (s : Z) : option (list Z) :=
  match fuel with
  | O => None
  | S f => if m s =? 0 then Some [] else x ← loadstr f m (s + 1); Some (m s :: x)
  end.

Definition null_str : list Z := [40; 110; 117; 108; 108; 41].

Section formats.
(** [m] is the memory the string arguments point into, [ap] the words on the
    stack above [fmt]. *)
Context (fuel : nat) (m : mem) (ap : nat -> Z).

Definition str_arg (s : Z) : option (list Z) := if s =? 0 then Some null_str else loadstr fuel m s.

(** [printf]: [state] is true after a percent sign, [i] counts the arguments
    used. *)
Fixpoint printf_loop (state : bool) (fmt : list Z) (i : nat) : option (list Z) :=
  match fmt with
  | [] => Some []
  | c :: rest =>
      if negb state then
        if c =? 37 then printf_loop true rest i
        else r ← printf_loop false rest i; Some (c :: r)
      else if c =? 100 then
        r ← printf_loop false rest (S i); Some (printint upper (s32 (ap i)) 10 true ++ r)
      else if (c =? 120) || (c =? 112) then
        r ← printf_loop false rest (S i); Some (printint upper (s32 (ap i)) 16 false ++ r)
      else if c =? 115 then
        s ← str_arg (ap i); r ← printf_loop false rest (S i); Some (s ++ r)
      else if c =? 99 then
        r ← printf_loop false rest (S i); Some (u8 (ap i) :: r)
      else if c =? 37 then
        r ← printf_loop false rest i; Some (37 :: r)
      else
        r ← printf_loop false rest i; Some (37 :: c :: r)
  end.

Definition printf (fmt : list Z) : option (list Z) := printf_loop false fmt 0.

(** [cprintf]: the directive is read together with its percent sign. *)
Fixpoint cprintf_loop (fmt : list Z) (i : nat) : option (list Z) :=
  match fmt with
  | [] => Some []
  | c :: rest =>
      if negb (c =? 37) then r ← cprintf_loop rest i; Some (c :: r)
      else match rest with
      | [] => Some []
      | c :: rest =>
          if c =? 100 then
            r ← cprintf_loop rest (S i); Some (printint lower (s32 (ap i)) 10 true ++ r)
          else if (c =? 120) || (c =? 112) then
            r ← cprintf_loop rest (S i); Some (printint lower (s32 (ap i)) 16 false ++ r)
          else if c =? 115 then
            s ← str_arg (ap i); r ← cprintf_loop rest (S i); Some (s ++ r)
          else if c =? 37 then
            r ← cprintf_loop rest i; Some (37 :: r)
          else
            r ← cprintf_loop rest i; Some (37 :: c :: r)
      end
  end.

Definition cprintf (fmt : list Z) : option (list Z) := cprintf_loop fmt 0.

End formats.

(** ** What they print *)

(** The number a list of digits denotes, the least significant first. *)
Fixpoint number (base : Z) (ds : list Z) : Z :=
  match ds with
  | [] => 0
  | d :: ds => d + base * number base ds
  end.

(** The digits of [x] in [base], the least significant first. *)
Fixpoint digits (fuel : nat) (x base : Z) : list Z :=
  match fuel with
  | O => []
  | S f => x mod base :: if x / base =? 0 then [] else digits f (x / base) base
  end.

Lemma digit_loop_digits fuel alpha x base :
  digit_loop fuel alpha x base = digit alpha <$> digits fuel x base.
Proof.
  revert x. induction fuel as [|f IH]; intros x; [done|]. cbn [digit_loop digits].
  rewrite fmap_cons, IH. by destruct (x / base =? 0).
Qed.

Lemma digits_spec fuel x base : 2 <= base -> 0 <= x < base ^ Z.of_nat fuel -> (0 < fuel)%nat ->
  number base (digits fuel x base) = x /\ Forall (fun d => 0 <= d < base) (digits fuel x base).
Proof.
  intros Hb. revert x. induction fuel as [|f IH]; intros x Hx Hf; [lia|]. cbn [digits number].
  pose proof (Z.mod_pos_bound x base ltac:(lia)) as Hm.
  pose proof (Z.div_mod x base ltac:(lia)) as Hd.
  destruct (Z.eqb_spec (x / base) 0) as [E|E].
  - cbn [number]. split; [nia|]. constructor; [done|constructor].
  - rewrite Nat2Z.inj_succ, Z.pow_succ_r in Hx by lia.
    assert (0 <= x / base < base ^ Z.of_nat f).
    { split; [apply Z.div_pos; lia|]. apply Z.div_lt_upper_bound; lia. }
    destruct f as [|f]; [simpl in *; lia|].
    destruct (IH (x / base)) as [Hn Hall]; [done|lia|]. rewrite Hn. split; [lia|].
    by constructor.
Qed.

Lemma digits_length fuel x base k : 2 <= base -> 0 <= x < base ^ Z.of_nat k -> (0 < k)%nat ->
  (length (digits fuel x base) <= k)%nat.
Proof.
  intros Hb. revert x fuel. induction k as [|k IH]; intros x fuel Hx Hk; [lia|].
  destruct fuel as [|f]; simpl; [lia|]. destruct (Z.eqb_spec (x / base) 0) as [E|E]; simpl; [lia|].
  rewrite Nat2Z.inj_succ, Z.pow_succ_r in Hx by lia.
  assert (0 <= x / base < base ^ Z.of_nat k).
  { split; [apply Z.div_pos; lia|]. apply Z.div_lt_upper_bound; lia. }
  destruct k as [|k]; [simpl in *; lia|].
  specialize (IH (x / base) f ltac:(done) ltac:(lia)). lia.
Qed.

Lemma number_decimal ds : number 10 (rev ds) = decimal 0 ds.
Proof.
  assert (H : forall n, decimal n ds = n * 10 ^ Z.of_nat (length ds) + number 10 (rev ds)).
  { assert (Happ : forall a b, number 10 (a ++ b) = number 10 a + 10 ^ Z.of_nat (length a) * number 10 b).
    { induction a as [|x a IH]; intros b; [simpl; lia|]. cbn [app number].
      rewrite IH. simpl length. rewrite Nat2Z.inj_succ, Z.pow_succ_r by lia. lia. }
    unfold decimal. induction ds as [|d ds IH]; intros n; [simpl; lia|].
    cbn [fold_left rev length]. rewrite IH, Happ, length_rev.
    rewrite Nat2Z.inj_succ, Z.pow_succ_r by lia. cbn [number]. lia. }
  rewrite (H 0). lia.
Qed.

(** The buffer of [printint] is large enough: at most ten decimal digits and a
    sign, or eight hexadecimal digits, for its sixteen bytes. *)
Lemma printint_buf_fits alpha xx : 
  (length (printint_buf alpha xx 10 true) <= 11)%nat /\
  (length (printint_buf alpha xx 16 false) <= 8)%nat.
Proof.
  unfold printint_buf. rewrite !length_app, !digit_loop_digits, !length_fmap. cbn [andb].
  pose proof (u32_range (if xx <? 0 then - xx else xx)) as H1.
  pose proof (u32_range xx) as H2. split.
  - pose proof (digits_length 32 (u32 (if xx <? 0 then - xx else xx)) 10 10
      ltac:(lia) ltac:(change (10 ^ Z.of_nat 10) with 10000000000; lia) ltac:(lia)).
    destruct (xx <? 0); cbn [length] in *; lia.
  - pose proof (digits_length 32 (u32 xx) 16 8
      ltac:(lia) ltac:(change (16 ^ Z.of_nat 8) with (2 ^ 32); lia) ltac:(lia)).
    cbn [length]. lia.
Qed.

(** The digits that [%d] prints for [x]. *)
Lemma printint_decimal alpha xx : - 2 ^ 31 <= xx < 2 ^ 31 ->
  exists ds, digits_ok ds /\ ds <> [] /\ decimal 0 ds = Z.abs xx /\
    printint alpha xx 10 true = (if xx <? 0 then [45] else []) ++ ((fun d => 48 + d) <$> ds).
Proof.
  intros Hx. unfold printint, printint_buf. cbn [andb].
  set (x := u32 (if xx <? 0 then - xx else xx)).
  assert (Hu : x = Z.abs xx).
  { unfold x. destruct (Z.ltb_spec xx 0); rewrite u32_id by lia; lia. }
  destruct (digits_spec 32 x 10) as [Hn Hd]; [lia| |lia|].
  { change (10 ^ Z.of_nat 32) with 100000000000000000000000000000000. lia. }
  exists (rev (digits 32 x 10)). split_and!.
  - apply Forall_rev. eapply Forall_impl; [exact Hd|]. simpl. lia.
  - intros E. apply (f_equal length) in E. rewrite length_rev in E. discriminate.
  - by rewrite <- number_decimal, rev_involutive, Hn.
  - rewrite rev_app_distr. f_equal; [by destruct (xx <? 0)|].
    rewrite digit_loop_digits. etransitivity; [|exact (eq_sym (map_rev _ _))]. f_equal.
    apply Forall_fmap_ext_1. eapply Forall_impl; [exact Hd|]. simpl. intros d Hd'.
    unfold digit. destruct (Z.ltb_spec d 10); lia.
Qed.

Lemma loadstr_ok fuel m a l : cstr m a l -> (length l < fuel)%nat -> loadstr fuel m a = Some l.
Proof.
  revert a l. induction fuel as [|f IH]; intros a l Hc Hf; [lia|]. cbn [loadstr].
  destruct l as [|y l].
  - apply cstr_nil in Hc. by rewrite Hc.
  - apply cstr_cons in Hc as (-> & Hy & Hc). destruct (Z.eqb_spec y 0); [lia|].
    by rewrite (IH _ l) by (done || (simpl in Hf; lia)).
Qed.

Lemma digit_loop_alpha a b f x : digit_loop f a x 10 = digit_loop f b x 10.
Proof.
  revert x. induction f as [|f IH]; intros x; [done|].
  cbn [digit_loop]. rewrite IH. f_equal. unfold digit.
  pose proof (Z.mod_pos_bound x 10 ltac:(lia)). destruct (Z.ltb_spec (x mod 10) 10); [done|lia].
Qed.

Lemma printint_alpha a b xx sgn : printint a xx 10 sgn = printint b xx 10 sgn.
Proof. unfold printint, printint_buf. by rewrite (digit_loop_alpha a b). Qed.

(** A format whose directives the two functions treat alike. *)
Fixpoint plain (fmt : list Z) : bool :=
  match fmt with
  | [] => true
  | c :: rest =>
      if c =? 37 then
        match rest with
        | [] => true
        | d :: rest => negb ((d =? 99) || (d =? 120) || (d =? 112)) && plain rest
        end
      else plain rest
  end.

Lemma printf_cprintf_loop fuel m ap fmt i : plain fmt = true ->
  printf_loop fuel m ap false fmt i = cprintf_loop fuel m ap fmt i.
Proof.
  remember (length fmt) as n eqn:Hn. assert (Hle : (length fmt <= n)%nat) by lia. clear Hn.
  revert fmt i Hle. induction n as [|n IH]; intros fmt i Hle Hp.
  { destruct fmt; [done|simpl in Hle; lia]. }
  destruct fmt as [|c rest]; [done|]. cbn [printf_loop cprintf_loop plain negb length] in *.
  destruct (Z.eqb_spec c 37) as [->|Hc]; cbn [negb].
  - destruct rest as [|d rest]; [done|]. cbn [length printf_loop negb] in *.
    apply andb_true_iff in Hp as [Hd Hp]. apply negb_true_iff in Hd.
    apply orb_false_iff in Hd as [Hd Hd3]. apply orb_false_iff in Hd as [Hd1 Hd2].
    rewrite Hd1, Hd2, Hd3. cbn [orb]. rewrite !IH by (done || lia).
    by rewrite (printint_alpha upper lower).
  - by rewrite IH by (done || lia).
Qed.

(** ** The promises of formatted output *)

(** The decimal number that [%d] prints is read back by [atoi]: for every
    [int] that is not negative, the bytes of [printint] followed by a byte
    that is not a digit are converted to the same number. *)
Theorem printint_atoi alpha xx c fuel m s : 0 <= xx < 2 ^ 31 -> Ulib.isdigit c = false ->
  bytes_at m s (printint alpha xx 10 true ++ [c]) ->
  (length (printint alpha xx 10 true) < fuel)%nat ->
  Ulib.atoi fuel m s = Some xx.
Proof.
  intros Hx Hc Hb Hf. destruct (printint_decimal alpha xx) as (ds & Hds & _ & Hv & E); [lia|].
  destruct (Z.ltb_spec xx 0); [lia|]. rewrite Z.abs_eq in Hv by lia. rewrite E in Hb, Hf.
  cbn [app] in Hb, Hf. rewrite length_fmap in Hf. rewrite <- Hv.
  apply (atoi_from_ok fuel m s 0 ds c); try done. lia.
Qed.

(** The buffer of sixteen bytes in the two [printint]s never overflows,
    and what is printed is never empty. *)
Theorem printint_bounds alpha xx :
  (0 < length (printint_buf alpha xx 10 true) <= 16)%nat /\
  (0 < length (printint_buf alpha xx 16 false) <= 16)%nat.
Proof.
  destruct (printint_buf_fits alpha xx) as [H1 H2].
  split; (split; [unfold printint_buf; rewrite length_app; cbn [digit_loop length]; lia|lia]).
Qed.

(** [printf] and [cprintf] print the same bytes for every format that
    uses none of [%c], [%x] and [%p], whatever the arguments. *)
Theorem printf_cprintf fuel m ap fmt : plain fmt = true ->
  printf fuel m ap fmt = cprintf fuel m ap fmt.
Proof. apply printf_cprintf_loop. Qed.

Lemma printint_atoi_witness : Ulib.atoi 20
  (fun a => nth (Z.to_nat a) [52; 50; 32] 0) 0 = Some 42.
Proof.
  apply (printint_atoi lower 42 32); [lia|reflexivity| |vm_compute; lia].
  intros i x. destruct i as [|[|[|i]]]; vm_compute; congruence.
Defined.

Lemma printf_cprintf_witness : printf 10 (fun _ => 0) (fun _ => u32 (-7)) [110; 61; 37; 100; 37; 37] =
  cprintf 10 (fun _ => 0) (fun _ => u32 (-7)) [110; 61; 37; 100; 37; 37].
Proof. apply (printf_cprintf 10). reflexivity. Defined.
