(* ===== verification/User.v ===== *)
(** * User programs

    A user program is an interaction tree over the system calls: a C loop is
    [ITree.iter], [exit] is a call that does not come back.  [ends] is the run
    of a program on an operating system given by its calls; [run_for] runs a
    program for a number of steps.  The world of the theorems has files, open
    descriptors to read from and the bytes written to each descriptor; how
    many bytes a read delivers, at least one before the end, is up to the
    world. *)

From stdpp Require Import base numbers list gmap strings.
From ITree Require Import ITree.
From Stdlib Require Import ZArith Lia.
From S2P Require Import Prelude Kstring Printf.

Local Open Scope Z_scope.

(** ** System calls (user.h) *)

(** A buffer or string a call reads is an argument, one it writes is part of
    its result; [struct stat] has its type, inode number and size. *)
Inductive userE : Type -> Type :=
| Exit : userE Empty_set
| Read (fd n : Z) : userE (Z * list Z)
| Write (fd : Z) (bs : list Z) : userE Z
| Open (path : list Z) (mode : Z) : userE Z
| Close (fd : Z) : userE Z
| Dup (fd : Z) : userE Z
| Pipe : userE (Z * (Z * Z))
| Fork : userE Z
| Wait : userE Z
| Exec (path : list Z) (argv : list (list Z)) : userE Z
| Kill (pid : Z) : userE Z
| Chdir (path : list Z) : userE Z
| Mkdir (path : list Z) : userE Z
| Mknod (path : list Z) (major minor : Z) : userE Z
| Unlink (path : list Z) : userE Z
| Link (old new : list Z) : userE Z
| Fstat (fd : Z) : userE (option (Z * Z * Z))
| Getpid : userE Z
| Sbrk (n : Z) : userE Z
| Sleep (n : Z) : userE Z
| Uptime : userE Z
| Halt : userE Z
| Alarm (ticks handler : Z) : userE Z.

Abbreviation user := (itree userE).
Definition call {X} (e : userE X) : user X := ITree.trigger e.
(** [exit()]. *)
Definition exit {A} : user A := ITree.bind (call Exit) (fun x : Empty_set => match x with end).

Declare Scope user_scope.
Delimit Scope user_scope with user.
Notation "'do' x '<-' m 'in' k" := (ITree.bind m (fun x => k))
  (at level 10, x pattern, m at level 100, k at level 200) : user_scope.
Notation "m '>>>' k" := (ITree.bind m (fun _ => k))
  (at level 100, k at level 200, right associativity) : user_scope.
Local Open Scope user_scope.

(** ** Formatted output *)

Inductive farg : Type := FInt (n : Z) | FStr (s : list Z).

(** What [printf] emits, with its arguments as values. *)
Fixpoint format (state : bool) (fmt : list Z) (args : list farg) : list Z :=
  match fmt with
  | [] => []
  | c :: rest =>
      if negb state then
        if c =? 37 then format true rest args else c :: format false rest args
      else
        match args with
        | FInt n :: args' =>
            if c =? 100 then printint upper (s32 n) 10 true ++ format false rest args'
            else if (c =? 120) || (c =? 112) then printint upper (s32 n) 16 false ++ format false rest args'
            else if c =? 99 then u8 n :: format false rest args'
            else if c =? 37 then 37 :: format false rest args else 37 :: c :: format false rest args
        | FStr s :: args' =>
            if c =? 115 then s ++ format false rest args'
            else if c =? 37 then 37 :: format false rest args else 37 :: c :: format false rest args
        | [] => if c =? 37 then 37 :: format false rest args else 37 :: c :: format false rest args
        end
  end.

(** [putc], one call of [write] for each character. *)
Fixpoint puts (fd : Z) (cs : list Z) : user unit :=
  match cs with
  | [] => Ret tt
  | c :: cs => call (Write fd [c]) >>> puts fd cs
  end.

Definition printf (fd : Z) (fmt : list Z) (args : list farg) : user unit := puts fd (format false fmt args).

(** The arguments on the stack: a number, or the address of a string. *)
Definition arg_at (fuel : nat) (m : mem) (w : Z) (a : farg) : Prop :=
  match a with FInt n => w = n | FStr s => w <> 0 /\ loadstr fuel m w = Some s end.

(** Each directive has an argument of its kind. *)
Fixpoint fits (state : bool) (fmt : list Z) (args : list farg) : bool :=
  match fmt with
  | [] => true
  | c :: rest =>
      if negb state then if c =? 37 then fits true rest args else fits false rest args
      else if (c =? 100) || (c =? 120) || (c =? 112) || (c =? 99) then
        match args with FInt _ :: args => fits false rest args | _ => false end
      else if c =? 115 then match args with FStr _ :: args => fits false rest args | _ => false end
      else fits false rest args
  end.

(** [format] is what [printf] of printf.c emits. *)
Lemma format_printf fuel m fmt : forall state ap args i, fits state fmt args ->
  (forall j a, args !! j = Some a -> arg_at fuel m (ap (i + j)%nat) a) ->
  printf_loop fuel m ap state fmt i = Some (format state fmt args).
Proof.
  induction fmt as [|c rest IH]; intros state ap args i Hf Ha; [done|]. cbn [printf_loop format fits] in *.
  assert (Hnext : forall a args', args = a :: args' -> fits false rest args' ->
    arg_at fuel m (ap i) a /\ printf_loop fuel m ap false rest (S i) = Some (format false rest args')).
  { intros a args' -> Hf'. split; [specialize (Ha 0%nat a eq_refl); by rewrite Nat.add_0_r in Ha|].
    apply IH; [done|]. intros j x Hx. specialize (Ha (S j) x Hx). by rewrite Nat.add_succ_r in Ha. }
  destruct state; simpl negb in *; cbv iota in *; [|destruct (c =? 37); [by apply IH|by rewrite (IH false ap args i)]].
  destruct (Z.eqb_spec c 100) as [->|H1]; [|destruct (Z.eqb_spec c 120) as [->|H2]; [|destruct (Z.eqb_spec c 112) as [->|H3];
    [|destruct (Z.eqb_spec c 99) as [->|H4]; [|destruct (Z.eqb_spec c 115) as [->|H5]]]]]; simpl in *.
  all: try (destruct args as [|[n|s] args]; try done; destruct (Hnext _ _ eq_refl Hf) as [E ->]; simpl in E; subst; done).
  - destruct args as [|[n|s] args]; try done. destruct (Hnext _ _ eq_refl Hf) as [[E1 E2] ->]. unfold str_arg.
    destruct (Z.eqb_spec (ap i) 0); [done|]. by rewrite E2.
  - rewrite (IH false ap args i) by done. destruct args as [|[n|s] args], (c =? 37); done.
Qed.

(** ** Runs *)

Section runs.
(** The operating system: the result of a call and the new state; [None] for
    a call it does not have. *)
Context {W : Type} (os : forall X, userE X -> W -> option (X * W)).

(** A program in a state ends with a value, or in [exit], in a state. *)
Inductive ends {A : Type} : itree' userE A -> W -> option A -> W -> Prop :=
| ends_ret a w : ends (RetF a) w (Some a) w
| ends_tau t w o w' : ends (observe t) w o w' -> ends (TauF t) w o w'
| ends_exit k w : ends (VisF Exit k) w None w
| ends_call X (e : userE X) k w x w1 o w' : os X e w = Some (x, w1) -> ends (observe (k x)) w1 o w' ->
    ends (VisF e k) w o w'.

Definition runs_to {A} (t : user A) (w : W) (o : option A) (w' : W) : Prop := ends (observe t) w o w'.

Lemma observe_bind {A B} (t : user A) (k : A -> user B) : observe (ITree.bind t k) =
  match observe t with
  | RetF r => observe (k r)
  | TauF t => TauF (ITree.bind t k)
  | VisF e h => VisF e (fun x => ITree.bind (h x) k)
  end.
Proof.
  unfold ITree.bind. change (observe (ITree.subst k t)) with (observe (match observe t with
    RetF r => k r | TauF t => Tau (ITree.subst k t) | VisF e h => Vis e (fun x => ITree.subst k (h x)) end)).
  by destruct (observe t).
Qed.

Lemma runs_ret {A} (a : A) w : runs_to (Ret a) w (Some a) w.
Proof. apply ends_ret. Qed.

Lemma runs_exit {A} w : runs_to (A := A) exit w None w.
Proof. unfold runs_to, exit, call. rewrite observe_bind. apply ends_exit. Qed.

Lemma runs_bind {A B} (t : user A) (k : A -> user B) w a w1 o w' :
  runs_to t w (Some a) w1 -> runs_to (k a) w1 o w' -> runs_to (ITree.bind t k) w o w'.
Proof.
  unfold runs_to. rewrite observe_bind. intros H Hk. remember (Some a) as oa eqn:E. revert E.
  induction H as [|t' w o' w3 H IH|k' w|X e k' w x w2 o' w3 He H IH]; intros E; simplify_eq; [done| |].
  - apply ends_tau. rewrite observe_bind. by apply IH.
  - eapply ends_call; [done|]. rewrite observe_bind. by apply IH.
Qed.

Lemma runs_bind_exit {A B} (t : user A) (k : A -> user B) w w' :
  runs_to t w None w' -> runs_to (ITree.bind t k) w None w'.
Proof.
  unfold runs_to. rewrite observe_bind. intros H. remember None as oa eqn:E. revert E.
  induction H as [|t' w o' w3 H IH|k' w|X e k' w x w2 o' w3 He H IH]; intros E; simplify_eq.
  - apply ends_tau. rewrite observe_bind. by apply IH.
  - apply ends_exit.
  - eapply ends_call; [done|]. rewrite observe_bind. by apply IH.
Qed.

Lemma runs_call {X B} (e : userE X) (k : X -> user B) w x w1 o w' :
  os X e w = Some (x, w1) -> runs_to (k x) w1 o w' -> runs_to (do x <- call e in k x) w o w'.
Proof. intros He Hk. apply (runs_bind _ _ _ x w1); [|done]. eapply ends_call; [done|]. apply ends_ret. Qed.

(** One turn of a loop. *)
Lemma runs_iter {I R} (body : I -> user (I + R)) i w o w' :
  runs_to (do r <- body i in match r with inl j => Tau (ITree.iter body j) | inr r => Ret r end) w o w' ->
  runs_to (ITree.iter body i) w o w'.
Proof. done. Qed.

Lemma runs_iter_next {I R} (body : I -> user (I + R)) i j w w1 o w' :
  runs_to (body i) w (Some (inl j)) w1 -> runs_to (ITree.iter body j) w1 o w' -> runs_to (ITree.iter body i) w o w'.
Proof. intros H1 H2. apply runs_iter. eapply runs_bind; [done|]. by apply ends_tau. Qed.

Lemma runs_iter_done {I R} (body : I -> user (I + R)) i r w w1 :
  runs_to (body i) w (Some (inr r)) w1 -> runs_to (ITree.iter body i) w (Some r) w1.
Proof. intros H. apply runs_iter. eapply runs_bind; [done|]. apply ends_ret. Qed.

(** The result of a run is unique when the calls are functions. *)
Fixpoint run_for (n : nat) {A} (t : itree' userE A) (w : W) : option (option A * W) :=
  match n with
  | O => None
  | S n =>
      match t with
      | RetF a => Some (Some a, w)
      | TauF t => run_for n (observe t) w
      | @VisF _ _ _ X e k =>
          match e in userE Y return (Y -> user A) -> option (option A * W) -> option (option A * W) with
          | Exit => fun _ _ => Some (None, w)
          | _ => fun _ r => r
          end k (match os X e w with Some (x, w1) => run_for n (observe (k x)) w1 | None => None end)
      end
  end.

Lemma run_for_ends n {A} : forall (t : itree' userE A) w o w', run_for n t w = Some (o, w') -> ends t w o w'.
Proof.
  induction n as [|n IH]; intros t w o w'; simpl; [done|].
  destruct t as [a|t|X e k]; [intros [= <- <-]; constructor|intros H; constructor; by apply IH|].
  destruct e; try (intros [= <- <-]; constructor);
    (destruct (os _ _ w) as [[x w1]|] eqn:E; [|done]; intros H; eapply ends_call; [done|]; by apply IH).
Qed.
End runs.

(** ** The world *)

(** The files, what is left to read of each open descriptor, the bytes
    written to each descriptor, and the sizes of the next reads. *)
Record world : Type := World {
  files : gmap (list Z) (list Z);
  fds : gmap nat (list Z);
  outs : gmap Z (list Z);
  short : list nat
}.

Definition out (w : world) (fd : Z) : list Z := default [] (outs w !! fd).

(** How many bytes a read of [n] delivers when [r] is left. *)
Definition read_size (w : world) (r : list Z) (n : Z) : nat :=
  let k := Nat.min (length r) (Z.to_nat n) in
  match short w with [] => k | s :: _ => Nat.min k (Nat.max 1 s) end.

Definition new_fd (w : world) : nat := fresh (dom (fds w) ∪ {[0; 1; 2]}%nat).

Definition world_os (X : Type) (e : userE X) (w : world) : option (X * world) :=
  match e in userE X return option (X * world) with
  | Read fd n =>
      match (if fd <? 0 then None else fds w !! Z.to_nat fd) with
      | Some r =>
          let k := read_size w r n in
          Some ((Z.of_nat k, take k r), World (files w) (<[Z.to_nat fd := drop k r]> (fds w)) (outs w) (tail (short w)))
      | None => Some ((-1, []), w)
      end
  | Write fd bs => Some (Z.of_nat (length bs), World (files w) (fds w) (<[fd := out w fd ++ bs]> (outs w)) (short w))
  | Open path _ =>
      match files w !! path with
      | Some c => Some (Z.of_nat (new_fd w), World (files w) (<[new_fd w := c]> (fds w)) (outs w) (short w))
      | None => Some (-1, w)
      end
  | Close fd => Some (0, World (files w) (delete (Z.to_nat fd) (fds w)) (outs w) (short w))
  | _ => None
  end.

Abbreviation ends_in := (runs_to world_os).

Lemma new_fd_free w : fds w !! new_fd w = None /\ (3 <= new_fd w)%nat.
Proof.
  pose proof (is_fresh (dom (fds w) ∪ {[0; 1; 2]}%nat)) as H. fold (new_fd w) in H. split.
  - apply not_elem_of_dom. set_solver.
  - destruct (new_fd w) as [|[|[|]]]; [set_solver..|lia].
Qed.

Lemma read_size_pos w r n : r <> [] -> 0 < n -> (1 <= read_size w r n <= length r)%nat.
Proof. intros Hr Hn. unfold read_size. destruct r; [done|]. destruct (short w); cbn [length]; lia. Qed.

Lemma read_size_nil w n : read_size w [] n = 0%nat.
Proof. unfold read_size. by destruct (short w). Qed.

(** [cs] has been written to [fd], and nothing else has changed. *)
Definition written (fd : Z) (cs : list Z) (w w' : world) : Prop :=
  files w' = files w /\ fds w' = fds w /\ short w' = short w /\
  forall fd', out w' fd' = out w fd' ++ if fd' =? fd then cs else [].

Lemma written_refl fd w : written fd [] w w.
Proof. split_and!; try done. intros fd'. destruct (fd' =? fd); by rewrite app_nil_r. Qed.

Lemma written_trans fd cs cs' w w1 w2 : written fd cs w w1 -> written fd cs' w1 w2 -> written fd (cs ++ cs') w w2.
Proof.
  intros (A1 & A2 & A3 & A4) (B1 & B2 & B3 & B4). split_and!; try congruence. intros fd'. rewrite B4, A4, <- app_assoc.
  by destruct (fd' =? fd).
Qed.

Lemma os_write fd bs w : exists w1, world_os _ (Write fd bs) w = Some (Z.of_nat (length bs), w1) /\ written fd bs w w1.
Proof.
  eexists. split; [done|]. split_and!; try done. intros fd'. unfold out at 1. simpl.
  destruct (Z.eqb_spec fd' fd) as [->|Hne]; [by rewrite lookup_insert_eq|]. by rewrite lookup_insert_ne, app_nil_r by done.
Qed.

Lemma runs_puts fd cs w : exists w1, ends_in (puts fd cs) w (Some tt) w1 /\ written fd cs w w1.
Proof.
  revert w. induction cs as [|c cs IH]; intros w; simpl; [exists w; split; [apply runs_ret|apply written_refl]|].
  destruct (os_write fd [c] w) as (w0 & E & H0). destruct (IH w0) as (w1 & H1 & H2). exists w1.
  split; [by eapply runs_call|by apply (written_trans fd [c] cs w w0)].
Qed.

(** A read of an open descriptor. *)
Lemma os_read (fd : nat) n r w : fds w !! fd = Some r -> world_os _ (Read (Z.of_nat fd) n) w =
  Some ((Z.of_nat (read_size w r n), take (read_size w r n) r),
        World (files w) (<[fd := drop (read_size w r n) r]> (fds w)) (outs w) (tail (short w))).
Proof. intros H. simpl. destruct (Z.ltb_spec (Z.of_nat fd) 0); [lia|]. by rewrite Nat2Z.id, H. Qed.
