(* ===== verification/Progs.v ===== *)
(** * The small user programs

    cat, wc, echo, kill, ln, mkdir, rm, zombie, halt, init, ls and big, with
    what cat and wc print. *)

From stdpp Require Import base numbers list gmap strings.
From ITree Require Import ITree.
From Stdlib Require Import ZArith Lia.
From S2P Require Import Prelude Abi Kstring Printf User.

Local Open Scope Z_scope.
Local Open Scope user_scope.

(** The loop over file arguments of cat, wc and grep: open each file, act on
    it and close it; [name] is the program's name in the message about a file
    that cannot be opened. *)
Fixpoint each_file (name : list Z) (act : Z -> list Z -> user unit) (argv : list (list Z)) : user unit :=
  match argv with
  | [] => exit
  | a :: argv =>
      do fd <- call (Open a 0) in
      if fd <? 0 then printf 1 (name ++ chars ": cannot open %s" ++ [10]) [FStr a] >>> exit
      else act fd a >>> call (Close fd) >>> each_file name act argv
  end.

(** A program's [main] takes its arguments, the program's name first. *)
Module Cat.

Definition cat (fd : Z) : user unit :=
  do n <- ITree.iter (fun _ : unit =>
    do (n, buf) <- call (Read fd 512) in
    if 0 <? n then call (Write 1 buf) >>> Ret (inl tt) else Ret (inr n)) tt in
  if n <? 0 then printf 1 (chars "cat: read error" ++ [10]) [] >>> exit else Ret tt.

Definition main (argv : list (list Z)) : user unit :=
  if (length argv <=? 1)%nat then cat 0 >>> exit
  else each_file (chars "cat") (fun fd _ => cat fd) (tail argv).

End Cat.

Module Wc.

(** The counts and whether the last byte was part of a word. *)
Record counts : Type := Counts { lines : Z; words : Z; bytes : Z; inword : bool }.

Definition is_space (c : Z) : bool := bool_decide (c ∈ [32; 13; 9; 10; 11]).

Definition count (s : counts) (b : Z) : counts :=
  let c := s32 (bytes s + 1) in
  let l := if b =? 10 then s32 (lines s + 1) else lines s in
  if is_space b then Counts l (words s) c false
  else if negb (inword s) then Counts l (s32 (words s + 1)) c true
  else Counts l (words s) c (inword s).

Definition wc (fd : Z) (name : list Z) : user unit :=
  do (n, s) <- ITree.iter (fun s =>
    do (n, buf) <- call (Read fd 512) in
    if 0 <? n then Ret (inl (foldl count s buf)) else Ret (inr (n, s))) (Counts 0 0 0 false) in
  if n <? 0 then printf 1 (chars "wc: read error" ++ [10]) [] >>> exit
  else printf 1 (chars "%d %d %d %s" ++ [10]) [FInt (lines s); FInt (words s); FInt (bytes s); FStr name].

Definition main (argv : list (list Z)) : user unit :=
  if (length argv <=? 1)%nat then wc 0 [] >>> exit else each_file (chars "wc") wc (tail argv).

End Wc.

Module Echo.
Fixpoint args_loop (argv : list (list Z)) : user unit :=
  match argv with
  | [] => exit
  | a :: argv =>
      printf 1 (chars "%s%s") [FStr a; FStr (match argv with [] => [10] | _ => chars " " end)] >>> args_loop argv
  end.
Definition main (argv : list (list Z)) : user unit := args_loop (tail argv).
End Echo.

(** [atoi] of ulib.c on a string. *)
Fixpoint atoi_loop (n : Z) (s : list Z) : Z :=
  match s with
  | [] => n
  | c :: s => if (48 <=? c) && (c <=? 57) then atoi_loop (s32 (n * 10 + c - 48)) s else n
  end.
Definition atoi (s : list Z) : Z := atoi_loop 0 s.

Module KillProg.
Fixpoint args_loop (argv : list (list Z)) : user unit :=
  match argv with
  | [] => exit
  | a :: argv => call (Kill (atoi a)) >>> args_loop argv
  end.
Definition main (argv : list (list Z)) : user unit :=
  if (length argv <? 1)%nat then printf 2 (chars "usage: kill pid..." ++ [10]) [] >>> exit
  else args_loop (tail argv).
End KillProg.

Module Ln.
Definition main (argv : list (list Z)) : user unit :=
  match argv with
  | [_; old; new] =>
      do r <- call (Link old new) in
      (if r <? 0 then printf 2 (chars "link %s %s: failed" ++ [10]) [FStr old; FStr new] else Ret tt) >>> exit
  | _ => printf 2 (chars "Usage: ln old new" ++ [10]) [] >>> exit
  end.
End Ln.

Module MkdirProg.
Fixpoint args_loop (argv : list (list Z)) : user unit :=
  match argv with
  | [] => exit
  | a :: argv =>
      do r <- call (Mkdir a) in
      if r <? 0 then printf 2 (chars "mkdir: %s failed to create" ++ [10]) [FStr a] >>> exit
      else args_loop argv
  end.
Definition main (argv : list (list Z)) : user unit :=
  if (length argv <? 2)%nat then printf 2 (chars "Usage: mkdir files..." ++ [10]) [] >>> exit
  else args_loop (tail argv).
End MkdirProg.

Module Rm.
Fixpoint args_loop (argv : list (list Z)) : user unit :=
  match argv with
  | [] => exit
  | a :: argv =>
      do r <- call (Unlink a) in
      if r <? 0 then printf 2 (chars "rm: %s failed to delete" ++ [10]) [FStr a] >>> exit
      else args_loop argv
  end.
Definition main (argv : list (list Z)) : user unit :=
  if (length argv <? 2)%nat then printf 2 (chars "Usage: rm files..." ++ [10]) [] >>> exit
  else args_loop (tail argv).
End Rm.

Module Zombie.
Definition main : user unit :=
  do pid <- call Fork in
  (if 0 <? pid then call (Sleep 5) >>> Ret tt else Ret tt) >>> exit.
End Zombie.

Module HaltProg.
Definition main : user Z := call Halt >>> Ret 0.
End HaltProg.

Module Init.
(** [while((wpid=wait()) >= 0 && wpid != pid) printf(1, "zombie!\n")]. *)
Definition wait_for (pid : Z) : user unit :=
  ITree.iter (fun _ : unit =>
    do wpid <- call Wait in
    if (0 <=? wpid) && negb (wpid =? pid) then printf 1 (chars "zombie!" ++ [10]) [] >>> Ret (inl tt)
    else Ret (inr tt)) tt.

Definition main : user unit :=
  (do r <- call (Open (chars "console") O_RDWR) in
   if r <? 0 then call (Mknod (chars "console") 1 1) >>> call (Open (chars "console") O_RDWR) >>> Ret tt else Ret tt) >>>
  call (Dup 0) >>>
  call (Dup 0) >>>
  ITree.iter (fun _ : unit =>
    printf 1 (chars "init: starting sh" ++ [10]) [] >>>
    do pid <- call Fork in
    if pid <? 0 then printf 1 (chars "init: fork failed" ++ [10]) [] >>> exit
    else if pid =? 0 then
      call (Exec (chars "sh") [chars "sh"]) >>> printf 1 (chars "init: exec sh failed" ++ [10]) [] >>> exit
    else wait_for pid >>> Ret (inl tt)) tt.
End Init.

Module Ls.
Definition DIRSIZ : nat := 14.
Definition T_DIR : Z := 1.
Definition T_FILE : Z := 2.

(** What follows the last slash. *)
Fixpoint after_slash (s last : list Z) : list Z :=
  match s with
  | [] => last
  | c :: s => after_slash s (if c =? 47 then s else last)
  end.

Definition fmtname (path : list Z) : list Z :=
  let p := after_slash path path in
  if (DIRSIZ <=? length p)%nat then p else p ++ replicate (DIRSIZ - length p) 32.

(** [stat] of ulib.c. *)
Definition stat (n : list Z) : user (option (Z * Z * Z)) :=
  do fd <- call (Open n O_RDONLY) in
  if fd <? 0 then Ret None
  else
    do r <- call (Fstat fd) in
    call (Close fd) >>> Ret r.

(** One line about a file: [type], [ino] and [size]. *)
Definition print_stat (path : list Z) (st : Z * Z * Z) : user unit :=
  let '(ty, ino, size) := st in
  printf 1 (chars "%s %d %d %d" ++ [10]) [FStr (fmtname path); FInt ty; FInt ino; FInt size].

(** The loop over the entries of a directory. *)
Definition entries (fd : Z) (path : list Z) : user unit :=
  ITree.iter (fun _ : unit =>
    do (n, de) <- call (Read fd 16) in
    if negb (n =? 16) then Ret (inr tt)
    else if get_le 2 0 de =? 0 then Ret (inl tt)
    else
      let buf := path ++ [47] ++ cstring (slice 2 DIRSIZ de) in
      do st <- stat buf in
      match st with
      | None => printf 1 (chars "ls: cannot stat %s" ++ [10]) [FStr buf] >>> Ret (inl tt)
      | Some st => print_stat buf st >>> Ret (inl tt)
      end) tt.

Definition ls (path : list Z) : user unit :=
  do fd <- call (Open path 0) in
  if fd <? 0 then printf 2 (chars "ls: cannot open %s" ++ [10]) [FStr path]
  else
    do st <- call (Fstat fd) in
    match st with
    | None => printf 2 (chars "ls: cannot stat %s" ++ [10]) [FStr path] >>> call (Close fd) >>> Ret tt
    | Some st =>
        let ty := fst (fst st) in
        (if ty =? T_FILE then print_stat path st
         else if ty =? T_DIR then
           if (512 <? length path + 1 + DIRSIZ + 1)%nat then printf 1 (chars "ls: path too long" ++ [10]) []
           else entries fd path
         else Ret tt) >>>
        call (Close fd) >>> Ret tt
    end.

Fixpoint args_loop (argv : list (list Z)) : user unit :=
  match argv with
  | [] => exit
  | a :: argv => ls a >>> args_loop argv
  end.
Definition main (argv : list (list Z)) : user unit :=
  if (length argv <? 2)%nat then ls (chars ".") >>> exit else args_loop (tail argv).
End Ls.

Module Big.
(** [junk]: what the buffer on the stack holds behind the sector's number. *)
Definition main (junk : list Z) : user unit :=
  do fd <- call (Open (chars "big.file") (Z.lor O_CREATE O_WRONLY)) in
  if fd <? 0 then printf 2 (chars "big: cannot open big.file for writing" ++ [10]) [] >>> exit
  else
    do sectors <- ITree.iter (fun sectors =>
      do cc <- call (Write fd (le_enc 4 sectors ++ junk)) in
      if cc <=? 0 then Ret (inr sectors)
      else
        let sectors := s32 (sectors + 1) in
        (if Z.rem sectors 100 =? 0 then printf 2 (chars ".") [] else Ret tt) >>> Ret (inl sectors)) 0 in
    printf 1 ([10] ++ chars "wrote %d sectors" ++ [10]) [FInt sectors] >>>
    call (Close fd) >>>
    do fd <- call (Open (chars "big.file") O_RDONLY) in
    if fd <? 0 then printf 2 (chars "big: cannot re-open big.file for reading" ++ [10]) [] >>> exit
    else
      ITree.iter (fun '(i, buf) =>
        if i <? sectors then
          do (cc, bs) <- call (Read fd 512) in
          let buf := bs ++ drop (length bs) buf in
          if cc <=? 0 then printf 2 (chars "big: read error at sector %d" ++ [10]) [FInt i] >>> exit
          else
            let got := s32 (get_le 4 0 buf) in
            if negb (got =? i) then
              printf 2 (chars "big: read the wrong data (%d) for sector %d" ++ [10]) [FInt got; FInt i] >>> exit
            else Ret (inl (i + 1, buf))
        else Ret (inr tt)) (0, le_enc 4 sectors ++ junk) >>>
      exit.
End Big.

(** ** What cat and wc print *)

#[local] Opaque format puts.

(** A descriptor has been read to its end and [cs] written to descriptor 1. *)
Definition copied (fd : nat) (cs : list Z) (w w' : world) : Prop :=
  files w' = files w /\ fds w' = <[fd := []]> (fds w) /\ forall d, out w' d = out w d ++ if d =? 1 then cs else [].

Lemma copied_written fd cs w w1 w2 : copied fd [] w w1 -> written 1 cs w1 w2 -> copied fd cs w w2.
Proof.
  intros (A1 & A2 & A3) (B1 & B2 & _ & B4). split_and!; try congruence. intros d. rewrite B4, A3, <- app_assoc. by destruct (d =? 1).
Qed.

(** A chunk has been read, and [cs] is written. *)
Lemma read_copied (fd : nat) r n cs cs' w w1 w2 : fds w !! fd = Some r ->
  written 1 cs (World (files w) (<[fd := drop n r]> (fds w)) (outs w) (tail (short w))) w1 ->
  copied fd cs' w1 w2 -> copied fd (cs ++ cs') w w2.
Proof.
  intros E (B1 & B2 & _ & B4) (A1 & A2 & A3). split_and!; [by rewrite A1, B1|rewrite A2, B2; apply insert_insert_eq|].
  intros d. rewrite A3, B4, <- app_assoc. unfold out at 1. simpl. by destruct (d =? 1).
Qed.

(** What is printed for a list of files, [f] being what is printed for the
    contents of one. *)
Fixpoint for_files (name : list Z) (f : list Z -> list Z -> list Z) (fs : gmap (list Z) (list Z)) (names : list (list Z)) : list Z :=
  match names with
  | [] => []
  | a :: names =>
      match fs !! a with
      | Some c => f c a ++ for_files name f fs names
      | None => format false (name ++ chars ": cannot open %s" ++ [10]) [FStr a]
      end
  end.

Lemma each_file_ok name act f (ok : list Z -> Prop) :
  (forall (fd : nat) a c w, fds w !! fd = Some c -> ok c ->
     exists w', ends_in (act (Z.of_nat fd) a) w (Some tt) w' /\ copied fd (f c a) w w') ->
  forall names w, (forall a c, a ∈ names -> files w !! a = Some c -> ok c) ->
  exists w', ends_in (each_file name act names) w None w' /\
    forall d, out w' d = out w d ++ if d =? 1 then for_files name f (files w) names else [].
Proof.
  intros Hact. induction names as [|a names IH]; intros w Hok; cbn [each_file for_files].
  - exists w. split; [apply runs_exit|]. intros d. by destruct (d =? 1); rewrite app_nil_r.
  - destruct (files w !! a) as [c|] eqn:E.
    + set (w0 := World (files w) (<[new_fd w := c]> (fds w)) (outs w) (short w)).
      destruct (Hact (new_fd w) a c w0) as (w1 & H1 & C1 & _ & C3); [apply lookup_insert_eq|by eapply Hok; [left|]|].
      set (w1' := World (files w1) (delete (new_fd w) (fds w1)) (outs w1) (short w1)).
      destruct (IH w1') as (w2 & H2 & C4). { intros b c' Hb. change (files w1') with (files w1). rewrite C1. apply Hok. by right. }
      exists w2. split.
      * eapply runs_call; [simpl; rewrite E; done|]. cbn beta. destruct (Z.ltb_spec (Z.of_nat (new_fd w)) 0); [lia|].
        eapply runs_bind; [exact H1|]. eapply runs_call; [simpl; by rewrite Nat2Z.id|]. exact H2.
      * intros d. rewrite C4. change (out w1' d) with (out w1 d). rewrite C3. change (out w0 d) with (out w d).
        change (files w1') with (files w1). rewrite C1, <- app_assoc. by destruct (d =? 1).
    + destruct (runs_puts 1 (format false (name ++ chars ": cannot open %s" ++ [10]) [FStr a]) w) as (w1 & H1 & _ & _ & _ & W4).
      exists w1. split; [|done]. eapply runs_call; [simpl; by rewrite E|]. eapply runs_bind; [exact H1|]. apply runs_exit.
Qed.

Module CatSpec.
Import Cat.

Lemma cat_ok (fd : nat) r w : fds w !! fd = Some r ->
  exists w', ends_in (cat (Z.of_nat fd)) w (Some tt) w' /\ copied fd r w w'.
Proof.
  intros E. unfold cat. set (body := fun _ : unit => _).
  assert (H : exists w', ends_in (ITree.iter body tt) w (Some 0) w' /\ copied fd r w w').
  { remember (length r) as n eqn:En. revert r w E En. induction n as [n IH] using lt_wf_ind. intros r w E ->.
    pose proof (os_read fd 512 r w E) as Hr. destruct r as [|b r'] eqn:Er.
    - rewrite read_size_nil in Hr. eexists. split.
      + apply runs_iter_done. eapply runs_call; [exact Hr|]. apply runs_ret.
      + split_and!; try done. intros d. unfold out. simpl. by destruct (d =? 1); rewrite app_nil_r.
    - rewrite <- Er in *. pose proof (read_size_pos w r 512 ltac:(by subst) ltac:(lia)) as Hk. set (k := read_size w r 512) in *.
      destruct (os_write 1 (take k r) (World (files w) (<[fd := drop k r]> (fds w)) (outs w) (tail (short w)))) as (w1 & E1 & W1).
      destruct (IH (length (drop k r)) ltac:(rewrite length_drop; lia) (drop k r) w1) as (w2 & H2 & C2); [|done|].
      { destruct W1 as (_ & -> & _). simpl. apply lookup_insert_eq. }
      exists w2. split.
      + eapply runs_iter_next; [|exact H2]. eapply runs_call; [exact Hr|]. cbn beta iota.
        destruct (Z.ltb_spec 0 (Z.of_nat k)); [|lia]. eapply runs_call; [exact E1|]. apply runs_ret.
      + rewrite <- (take_drop k r). by eapply read_copied. }
  destruct H as (w' & H & C). exists w'. split; [|done]. eapply runs_bind; [exact H|]. apply runs_ret.
Qed.

End CatSpec.

(** cat ends and writes to descriptor 1 what is left of descriptor 0
    when it has no arguments, and otherwise the contents of the files it is
    given, in order, up to the first that does not exist, whose name it
    reports; however many bytes each read delivers. *)
Theorem cat_main argv w r : fds w !! 0%nat = Some r ->
  exists w', ends_in (Cat.main argv) w None w' /\
    out w' 1 = out w 1 ++ match tail argv with [] => r | names => for_files (chars "cat") (fun c _ => c) (files w) names end /\
    out w' 2 = out w 2.
Proof.
  intros E. unfold Cat.main. destruct (Nat.leb_spec (length argv) 1) as [Hl|Hl].
  - destruct (CatSpec.cat_ok 0 r w E) as (w1 & H1 & _ & _ & C). exists w1. split; [eapply runs_bind; [exact H1|apply runs_exit]|].
    rewrite !C, app_nil_r. by destruct argv as [|? [|]]; simpl in *; [..|lia].
  - destruct (each_file_ok (chars "cat") (fun fd _ => Cat.cat fd) (fun c _ => c) (fun _ => True)
      ltac:(intros fd a c w1 E1 _; by apply CatSpec.cat_ok) (tail argv) w ltac:(done)) as (w1 & H1 & C).
    exists w1. split; [exact H1|]. rewrite !C, app_nil_r. by destruct argv as [|? [|]]; simpl in *; [lia..|].
Qed.

(** ** wc *)

Module WcSpec.
Import Wc.

(** The pieces of a text between white space. *)
Fixpoint pieces (l cur : list Z) : list (list Z) :=
  match l with
  | [] => match cur with [] => [] | _ => [cur] end
  | c :: l => if is_space c then match cur with [] => pieces l [] | _ => cur :: pieces l [] end else pieces l (cur ++ [c])
  end.

(** What wc prints. *)
Definition wc_line (c name : list Z) : list Z :=
  format false (chars "%d %d %d %s" ++ [10])
    [FInt (Z.of_nat (length (filter (.= 10) c))); FInt (Z.of_nat (length (pieces c []))); FInt (Z.of_nat (length c)); FStr name].

Lemma count_ok l : forall s cur, 0 <= lines s <= bytes s -> 0 <= words s <= bytes s -> bytes s + Z.of_nat (length l) < 2 ^ 31 ->
  inword s = negb (bool_decide (cur = [])) ->
  let s' := foldl count s l in
  lines s' = lines s + Z.of_nat (length (filter (.= 10) l)) /\ bytes s' = bytes s + Z.of_nat (length l) /\
  words s' + (if inword s then 1 else 0) = words s + Z.of_nat (length (pieces l cur)).
Proof.
  induction l as [|b l IH]; intros s cur Hl Hw Hb Hi; cbn [foldl pieces length].
  - rewrite filter_nil, Hi. destruct cur; simpl; lia.
  - rewrite Nat2Z.inj_succ, filter_cons in *. cbn [length] in Hb. unfold count at 2 4 6.
    set (s1 := if is_space b then _ else _).
    assert (E1 : bytes s1 = bytes s + 1 /\ lines s1 = lines s + (if b =? 10 then 1 else 0)).
    { subst s1. repeat case_match; simpl; rewrite !s32_id by lia; lia. }
    destruct (is_space b) eqn:Es.
    + destruct (IH s1 []) as (A1 & A2 & A3); [repeat case_match; lia|change (words s1) with (words s); lia|lia|done|].
      rewrite A1, A2. split_and!; [|lia|].
      * destruct E1 as [_ ->]. destruct (Z.eqb_spec b 10), (decide (b = 10)); try done; simpl; lia.
      * subst s1. simpl in A3. rewrite Hi. destruct cur; simpl; lia.
    + assert (Hs : words s1 = words s + (if inword s then 0 else 1) /\ inword s1 = true).
      { subst s1. destruct (inword s) eqn:Ei; simpl; [lia|]. rewrite s32_id by lia. done. }
      destruct (IH s1 (cur ++ [b])) as (A1 & A2 & A3); [repeat case_match; lia|repeat case_match; lia|lia| |].
      { rewrite (proj2 Hs). by destruct cur. }
      rewrite A1, A2. split_and!; [|lia|].
      * destruct E1 as [_ ->]. destruct (Z.eqb_spec b 10), (decide (b = 10)); try done; simpl; lia.
      * rewrite (proj2 Hs) in A3. destruct (inword s); lia.
Qed.

(** The loop of wc reads to the end, whatever the chunks. *)
Lemma wc_loop_ok (fd : nat) r : forall w s, fds w !! fd = Some r -> exists w',
  ends_in (ITree.iter (fun s =>
    do (n, buf) <- call (Read (Z.of_nat fd) 512) in
    if 0 <? n then Ret (inl (foldl count s buf)) else Ret (inr (n, s))) s) w (Some (0, foldl count s r)) w' /\ copied fd [] w w'.
Proof.
  remember (length r) as n eqn:En. revert r En. induction n as [n IH] using lt_wf_ind. intros r -> w s E.
  pose proof (os_read fd 512 r w E) as Hr. destruct r as [|b r'] eqn:Er.
  - rewrite read_size_nil in Hr. eexists. split; [apply runs_iter_done; eapply runs_call; [exact Hr|]; apply runs_ret|].
    split_and!; try done. intros d. unfold out. simpl. by destruct (d =? 1); rewrite app_nil_r.
  - rewrite <- Er in *. pose proof (read_size_pos w r 512 ltac:(by subst) ltac:(lia)) as Hk. set (k := read_size w r 512) in *.
    set (w1 := World (files w) (<[fd := drop k r]> (fds w)) (outs w) (tail (short w))) in *.
    destruct (IH (length (drop k r)) ltac:(rewrite length_drop; lia) (drop k r) eq_refl w1 (foldl count s (take k r))) as (w2 & H2 & C2).
    { apply lookup_insert_eq. }
    exists w2. split; [|eapply (read_copied fd r k [] []); [done|apply written_refl|done]].
    rewrite <- foldl_app, take_drop in H2. eapply runs_iter_next; [|exact H2].
    eapply runs_call; [exact Hr|]. cbn beta iota. destruct (Z.ltb_spec 0 (Z.of_nat k)); [|lia]. apply runs_ret.
Qed.

Lemma wc_ok (fd : nat) name c w : fds w !! fd = Some c -> Z.of_nat (length c) < 2 ^ 31 ->
  exists w', ends_in (wc (Z.of_nat fd) name) w (Some tt) w' /\ copied fd (wc_line c name) w w'.
Proof.
  intros E Hc. destruct (wc_loop_ok fd c w (Counts 0 0 0 false) E) as (w1 & H1 & C1).
  destruct (count_ok c (Counts 0 0 0 false) []) as (A1 & A2 & A3); [done..|].
  cbn [lines words bytes inword] in A1, A2, A3. rewrite Z.add_0_l in A1, A2, A3. rewrite Z.add_0_r in A3.
  destruct (runs_puts 1 (wc_line c name) w1) as (w2 & H2 & C2). exists w2.
  split; [|exact (copied_written fd _ w w1 w2 C1 C2)]. unfold wc. eapply runs_bind; [exact H1|]. cbn beta iota. rewrite Z.ltb_irrefl.
  unfold printf. rewrite A1, A2, A3. unfold wc_line in H2. exact H2.
Qed.
End WcSpec.

(** C34. wc ends and prints for its input, or for each file in turn, the
    numbers of newlines, of the pieces between white space and of bytes,
    however the input is cut into reads. *)
Theorem wc_main argv w r : fds w !! 0%nat = Some r -> Z.of_nat (length r) < 2 ^ 31 ->
  (forall a c, a ∈ tail argv -> files w !! a = Some c -> Z.of_nat (length c) < 2 ^ 31) ->
  exists w', ends_in (Wc.main argv) w None w' /\
    out w' 1 = out w 1 ++ match tail argv with
      | [] => WcSpec.wc_line r [] | names => for_files (chars "wc") WcSpec.wc_line (files w) names end /\
    out w' 2 = out w 2.
Proof.
  intros E Hr Hf. unfold Wc.main. destruct (Nat.leb_spec (length argv) 1) as [Hl|Hl].
  - destruct (WcSpec.wc_ok 0 [] r w E Hr) as (w1 & H1 & _ & _ & C). exists w1. split; [eapply runs_bind; [exact H1|apply runs_exit]|].
    rewrite !C, app_nil_r. by destruct argv as [|? [|]]; simpl in *; [..|lia].
  - destruct (each_file_ok (chars "wc") Wc.wc WcSpec.wc_line (fun c => Z.of_nat (length c) < 2 ^ 31)
      ltac:(intros; by apply WcSpec.wc_ok) (tail argv) w Hf) as (w1 & H1 & C).
    exists w1. split; [exact H1|]. rewrite !C, app_nil_r. by destruct argv as [|? [|]]; simpl in *; [lia..|].
Qed.

(** An input of 14 bytes that arrives in chunks of 3, 1 and 10. *)
Definition demo_world : world :=
  World {[chars "f" := chars "ab cd" ++ [10]]} {[0%nat := chars "one  two" ++ [10; 9] ++ chars "x" ++ [10; 32; 10]]} ∅ [3; 1]%nat.

Lemma cat_main_witness : exists w', ends_in (Cat.main [chars "cat"; chars "f"; chars "g"]) demo_world None w' /\
  out w' 1 = chars "ab cd" ++ [10] ++ chars "cat: cannot open g" ++ [10].
Proof.
  edestruct (cat_main [chars "cat"; chars "f"; chars "g"] demo_world) as (w' & H1 & H2 & _); [vm_compute; reflexivity|].
  exists w'. split; [exact H1|]. rewrite H2. vm_compute. reflexivity.
Defined.

Lemma wc_main_witness : exists w', ends_in (Wc.main [chars "wc"]) demo_world None w' /\ out w' 1 = chars "3 3 14 " ++ [10].
Proof.
  edestruct (wc_main [chars "wc"] demo_world) as (w' & H1 & H2 & _); [vm_compute; reflexivity|vm_compute; reflexivity| |].
  { intros a c Ha. inversion Ha. }
  exists w'. split; [exact H1|]. rewrite H2. vm_compute. reflexivity.
Defined.
