(* ===== verification/Grep.v ===== *)
(** * grep (grep.c)

    The pattern matcher, against the language of a pattern, and the program
    that reads lines into a buffer. *)

From stdpp Require Import base numbers list gmap strings.
From ITree Require Import ITree.
From Stdlib Require Import ZArith Lia.
From S2P Require Import Prelude Abi Kstring Printf User Progs.

Local Open Scope Z_scope.
Local Open Scope user_scope.

(** ** The matcher *)

Definition dot : Z := 46.
Definition star : Z := 42.
Definition dollar : Z := 36.
Definition caret : Z := 94.

(** [matchstar(c, re, text)], with [here] for [matchhere(re, .)]. *)
Fixpoint matchstar (here : list Z -> bool) (c : Z) (text : list Z) : bool :=
  here text ||
  match text with
  | [] => false
  | x :: text => ((x =? c) || (c =? dot)) && matchstar here c text
  end.

Fixpoint matchhere (re text : list Z) : bool :=
  match re with
  | [] => true
  | c :: re' =>
      match re' with
      | s :: re'' =>
          if s =? star then matchstar (matchhere re'') c text
          else match text with
               | x :: text => ((c =? dot) || (c =? x)) && matchhere re' text
               | [] => false
               end
      | [] =>
          if c =? dollar then match text with [] => true | _ => false end
          else match text with
               | x :: text => ((c =? dot) || (c =? x)) && matchhere re' text
               | [] => false
               end
      end
  end.

(** The loop of [match]. *)
Fixpoint match_loop (re text : list Z) : bool :=
  matchhere re text || match text with [] => false | _ :: text => match_loop re text end.

Definition match_ (re text : list Z) : bool :=
  match re with
  | c :: re' => if c =? caret then matchhere re' text else match_loop re text
  | [] => match_loop re text
  end.

(** ** Patterns and their language *)

Inductive item : Type :=
| One (c : option Z)
| Many (c : option Z).

(** The character an item stands for; [None] for any. *)
Definition sym (c : Z) : option Z := if c =? dot then None else Some c.
Definition fits_sym (c : option Z) (x : Z) : Prop := match c with None => True | Some c => x = c end.

(** The items of a pattern, and whether it ends in [$]. *)
Fixpoint items (re : list Z) : list item * bool :=
  match re with
  | [] => ([], false)
  | c :: re' =>
      match re' with
      | s :: re'' =>
          if s =? star then let '(l, e) := items re'' in (Many (sym c) :: l, e)
          else let '(l, e) := items re' in (One (sym c) :: l, e)
      | [] => if c =? dollar then ([], true) else ([One (sym c)], false)
      end
  end.

(** The strings of a list of items. *)
Inductive language : list item -> list Z -> Prop :=
| lang_nil : language [] []
| lang_one c x l t : fits_sym c x -> language l t -> language (One c :: l) (x :: t)
| lang_many c xs l t : Forall (fits_sym c) xs -> language l t -> language (Many c :: l) (xs ++ t).

(** [pre] of the text [pre ++ post] matches: it is in the language, and it is
    all of the text when the pattern ends in [$]. *)
Definition prefix_of_text (p : list item * bool) (text : list Z) : Prop :=
  exists pre post, text = pre ++ post /\ language (fst p) pre /\ (snd p = true -> post = []).

Lemma sym_fits c x : (x =? c) || (c =? dot) = true <-> fits_sym (sym c) x.
Proof.
  unfold sym. destruct (Z.eqb_spec c dot); simpl; [by rewrite orb_true_r|]. rewrite orb_false_r. by rewrite Z.eqb_eq.
Qed.

Lemma matchstar_spec here c text : matchstar here c text = true <->
  exists xs rest, text = xs ++ rest /\ Forall (fits_sym (sym c)) xs /\ here rest = true.
Proof.
  induction text as [|x text IH]; simpl; rewrite orb_true_iff.
  - split.
    + intros [H|]; [|done]. by exists [], [].
    + intros (xs & rest & E & _ & H). destruct xs, rest; try done. by left.
  - rewrite andb_true_iff, sym_fits, IH. split.
    + intros [H|(Hx & xs & rest & -> & Hf & H)]; [by exists [], (x :: text)|]. exists (x :: xs), rest. by split_and!; [|constructor|].
    + intros (xs & rest & E & Hf & H). destruct xs as [|y xs]; simplify_list_eq; [by left|]. right.
      inversion Hf; subst. split; [done|]. by exists xs, rest.
Qed.

Lemma prefix_many c l e text : prefix_of_text (Many c :: l, e) text <->
  exists xs rest, text = xs ++ rest /\ Forall (fits_sym c) xs /\ prefix_of_text (l, e) rest.
Proof.
  split.
  - intros (pre & post & -> & H & He). simpl in H. inversion H as [| |? xs ? t Hf Hl]; subst.
    exists xs, (t ++ post). rewrite app_assoc. split_and!; [done|done|]. by exists t, post.
  - intros (xs & rest & -> & Hf & pre & post & -> & H & He). exists (xs ++ pre), post. rewrite app_assoc.
    split_and!; [done|by constructor|done].
Qed.

Lemma prefix_one c l e text : prefix_of_text (One c :: l, e) text <->
  exists x rest, text = x :: rest /\ fits_sym c x /\ prefix_of_text (l, e) rest.
Proof.
  split.
  - intros (pre & post & -> & H & He). simpl in H. inversion H as [|? x ? t Hf Hl|]; subst.
    exists x, (t ++ post). split_and!; [done|done|]. by exists t, post.
  - intros (x & rest & -> & Hf & pre & post & -> & H & He). exists (x :: pre), post. split_and!; [done|by constructor|done].
Qed.

Lemma prefix_nil e text : prefix_of_text ([], e) text <-> (e = true -> text = []).
Proof.
  split.
  - intros (pre & post & -> & H & He) E. simpl in H. inversion H; subst. by apply He.
  - intros H. exists [], text. split_and!; [done|constructor|done].
Qed.

Lemma fits_comm c x : (c =? dot) || (c =? x) = (x =? c) || (c =? dot).
Proof. rewrite (Z.eqb_sym c x). apply orb_comm. Qed.

Lemma items_cons c s re : items (c :: s :: re) =
  if s =? star then let '(l, e) := items re in (Many (sym c) :: l, e)
  else let '(l, e) := items (s :: re) in (One (sym c) :: l, e).
Proof. done. Qed.

Lemma matchhere_spec re : forall text, matchhere re text = true <-> prefix_of_text (items re) text.
Proof.
  induction re as [re IH] using (well_founded_induction (well_founded_ltof _ (@length Z))). unfold ltof in IH. intros text.
  assert (Hone : forall c re', re = c :: re' ->
    match text with x :: text => ((c =? dot) || (c =? x)) && matchhere re' text | [] => false end = true <->
    exists x rest, text = x :: rest /\ fits_sym (sym c) x /\ prefix_of_text (items re') rest).
  { intros c re' ->. destruct text as [|x text]; [split; [done|by intros (? & ? & ? & _)]|].
    rewrite fits_comm, andb_true_iff, sym_fits, (IH re') by (simpl; lia).
    split; [intros [? ?]; eauto|intros (? & ? & ? & ? & ?); by simplify_eq]. }
  destruct re as [|c [|s re'']].
  - cbn [matchhere items]. by rewrite prefix_nil.
  - cbn [matchhere items]. destruct (c =? dollar).
    + rewrite prefix_nil. destruct text; split; try done. intros H. by specialize (H eq_refl).
    + rewrite prefix_one. exact (Hone c [] eq_refl).
  - rewrite items_cons. specialize (Hone c (s :: re'') eq_refl). cbn [matchhere] in *. destruct (s =? star).
    + rewrite matchstar_spec. destruct (items re'') as [l e] eqn:E. rewrite prefix_many. rewrite <- E.
      split; intros (xs & rest & H1 & H2 & H3); exists xs, rest; (split_and!; [done|done|]); by apply IH; [simpl; lia|].
    + rewrite Hone. destruct (items (s :: re'')) as [l e]. by rewrite prefix_one.
Qed.

Lemma match_loop_spec re text : match_loop re text = true <->
  exists skipped rest, text = skipped ++ rest /\ prefix_of_text (items re) rest.
Proof.
  induction text as [|x text IH]; cbn [match_loop]; rewrite orb_true_iff, matchhere_spec.
  - split; [intros [H|]; [by exists [], []|done]|]. intros (a & b & E & H). destruct a, b; try done. by left.
  - rewrite IH. split.
    + intros [H|(a & b & -> & H)]; [by exists [], (x :: text)|by exists (x :: a), b].
    + intros (a & b & E & H). destruct a as [|y a]; simplify_list_eq; [by left|]. right. by exists a, b.
Qed.

(** C35. The matcher of grep accepts a text exactly when some part of it is
    in the language of the pattern: at the start for a pattern with [^], and
    up to the end for one with [$]. *)
Theorem match_language re text : match_ re text = true <->
  exists before part after, text = before ++ part ++ after /\
    let anchored := bool_decide (head re = Some caret) in
    let p := items (if anchored then tail re else re) in
    language (fst p) part /\ (anchored = true -> before = []) /\ (snd p = true -> after = []).
Proof.
  destruct re as [|c re]; cbn [match_ head tail].
  - rewrite match_loop_spec. split.
    + intros (a & b & -> & pre & post & -> & H & He). exists a, pre, post. by split_and!.
    + intros (a & b & d & -> & H & _ & He). exists a, (b ++ d). split; [done|]. by exists b, d.
  - destruct (Z.eqb_spec c caret) as [->|Hc].
    + rewrite bool_decide_true by done. rewrite matchhere_spec. split.
      * intros (pre & post & -> & H & He). exists [], pre, post. by split_and!.
      * intros (a & b & d & -> & H & Ha & He). rewrite Ha by done. by exists b, d.
    + rewrite bool_decide_false by congruence. rewrite match_loop_spec. split.
      * intros (a & b & -> & pre & post & -> & H & He). exists a, pre, post. by split_and!.
      * intros (a & b & d & -> & H & _ & He). exists a, (b ++ d). split; [done|]. by exists b, d.
Qed.

(** ** The program *)

Definition bytes_from (m : mem) (a n : Z) : list Z := (fun i => m (a + Z.of_nat i)) <$> seq 0 (Z.to_nat n).
Fixpoint put_bytes (m : mem) (a : Z) (bs : list Z) : mem :=
  match bs with [] => m | b :: bs => put_bytes (upd m a b) (a + 1) bs end.

Section grep.
(** The address of [buf], in memory that programs start with as zeros. *)
Context (buf : Z).

(** [strchr] of ulib.c; the result is an address or 0. *)
Definition strchr (m : mem) (s c : Z) : user Z :=
  ITree.iter (fun s => Ret (if m s =? 0 then inr 0 else if m s =? c then inr s else inl (s + 1))) s.

(** The loop over the lines from [p] on: the memory and the final [p].  With
    the newline at [q] made a NUL, the text [match] looks at is the bytes from
    [p] up to [q]. *)
Definition lines (pattern : list Z) (m : mem) (p : Z) : user (mem * Z) :=
  ITree.iter (fun '(m, p) =>
    do q <- strchr m p 10 in
    if q =? 0 then Ret (inr (m, p))
    else
      let m := upd m q 0 in
      if match_ pattern (bytes_from m p (q - p)) then
        let m := upd m q 10 in
        call (Write 1 (bytes_from m p (q + 1 - p))) >>> Ret (inl (m, q + 1))
      else Ret (inl (m, q + 1))) (m, p).

Definition grep (pattern : list Z) (fd : Z) (m0 : mem) : user mem :=
  ITree.iter (fun '(mm, m) =>
    do (n, bs) <- call (Read fd (s32 (u32 (1024 - m)))) in
    if 0 <? n then
      let mm := put_bytes mm (buf + m) bs in
      let m := s32 (m + n) in
      do (mm, p) <- lines pattern mm buf in
      let m := if p =? buf then 0 else m in
      if 0 <? m then
        let m := m - (p - buf) in Ret (inl (Ulib.memmove mm buf p m, m))
      else Ret (inl (mm, m))
    else Ret (inr mm)) (m0, 0).

(** The loop of [main] over its files, with the memory kept. *)
Fixpoint files_loop (pattern : list Z) (m : mem) (argv : list (list Z)) : user unit :=
  match argv with
  | [] => exit
  | a :: argv =>
      do fd <- call (Open a 0) in
      if fd <? 0 then printf 1 (chars "grep: cannot open %s" ++ [10]) [FStr a] >>> exit
      else
        do m <- grep pattern fd m in
        call (Close fd) >>> files_loop pattern m argv
  end.

Definition main (argv : list (list Z)) : user unit :=
  match argv with
  | _ :: pattern :: argv =>
      match argv with
      | [] => grep pattern 0 (fun _ => 0) >>> exit
      | _ => files_loop pattern (fun _ => 0) argv
      end
  | _ => printf 2 (chars "usage: grep pattern [file ...]" ++ [10]) [] >>> exit
  end.
End grep.

(** grep does not end its buffer with a NUL: an input of eight bytes
    with one line "ya", read in chunks of seven and one, makes it print that
    line twice. *)
Theorem grep_repeats :
  let input := chars "xa" ++ [10] ++ chars "ya" ++ [10] ++ chars "zw" in
  exists w', ends_in (main 4096 [chars "grep"; chars "a"]) (World ∅ {[0%nat := input]} ∅ [7%nat; 1%nat]) None w' /\
    out w' 1 = chars "xa" ++ [10] ++ chars "ya" ++ [10] ++ chars "ya" ++ [10].
Proof.
  intros input.
  assert (H : match run_for world_os 1000 (observe (main 4096 [chars "grep"; chars "a"])) (World ∅ {[0%nat := input]} ∅ [7%nat; 1%nat]) with
    | Some (None, w') => bool_decide (out w' 1 = chars "xa" ++ [10] ++ chars "ya" ++ [10] ++ chars "ya" ++ [10])
    | _ => false end = true) by (vm_compute; reflexivity).
  destruct (run_for _ _ _ _) as [[[]  w']|] eqn:E; [done| |done]. exists w'. split; [by eapply run_for_ends|].
  by apply bool_decide_eq_true in H.
Qed.

(** ** A file that one read delivers *)

(** The lines of a text that end in a newline. *)
Fixpoint full_lines (l cur : list Z) : list (list Z) :=
  match l with
  | [] => []
  | c :: l => if c =? 10 then cur :: full_lines l [] else full_lines l (cur ++ [c])
  end.
Definition grepped (pattern text : list Z) : list Z :=
  concat ((fun l => l ++ [10]) <$> (filter (fun l => match_ pattern l = true) (full_lines text []))).

(** The first line of a text. *)
Lemma full_lines_split l : forall cur,
  (full_lines l cur = [] /\ 10 ∉ l) \/
  (exists a b, l = a ++ 10 :: b /\ (10 ∉ a) /\ full_lines l cur = (cur ++ a) :: full_lines b []).
Proof.
  induction l as [|c l IH]; intros cur; simpl; [left; split; [done|apply not_elem_of_nil]|].
  destruct (Z.eqb_spec c 10) as [->|Hc]; [right; exists [], l; rewrite app_nil_r; split_and!; [done|apply not_elem_of_nil|done]|].
  destruct (IH (cur ++ [c])) as [[E Hn]|(a & b & -> & Ha & E)]; rewrite E.
  - left. split; [done|]. rewrite not_elem_of_cons. by split.
  - right. exists (c :: a), b. rewrite <- app_assoc. split_and!; [done| |done]. rewrite not_elem_of_cons. by split.
Qed.

Lemma strchr_runs m s l rest w : bytes_at m s l -> Forall (fun x => 0 < x < 256) l -> 10 ∉ l ->
  (rest = 0 \/ rest = 10) -> m (s + Z.of_nat (length l)) = rest ->
  ends_in (strchr m s 10) w (Some (if rest =? 10 then s + Z.of_nat (length l) else 0)) w.
Proof.
  revert s. induction l as [|c l IH]; intros s Hb Hf Hn Hr Hm; simpl in *.
  - rewrite Z.add_0_r in *. apply runs_iter_done. unfold runs_to. simpl. rewrite Hm. destruct Hr as [-> | ->]; simpl; apply ends_ret.
  - apply bytes_at_cons in Hb as [Hc Hb]. apply Forall_cons in Hf as [Hx Hf]. rewrite not_elem_of_cons in Hn. destruct Hn as [Hne Hn].
    eapply (runs_iter_next _ _ s (s + 1)).
    + unfold runs_to. simpl. rewrite Hc. destruct (Z.eqb_spec c 0); [lia|]. destruct (Z.eqb_spec c 10); [lia|]. apply ends_ret.
    + replace (s + Z.of_nat (S (length l))) with (s + 1 + Z.of_nat (length l)) in * by lia. by apply IH.
Qed.

Lemma bytes_from_at m a l : bytes_at m a l -> bytes_from m a (Z.of_nat (length l)) = l.
Proof.
  intros H. unfold bytes_from. rewrite Nat2Z.id. apply list_eq. intros i. rewrite list_lookup_fmap.
  destruct (decide (i < length l)%nat) as [Hi|Hi].
  - rewrite lookup_seq_lt by done. simpl. destruct (lookup_lt_is_Some_2 l i Hi) as [x Hx]. by rewrite Hx, (H i x).
  - rewrite lookup_seq_ge, lookup_ge_None_2 by lia. done.
Qed.

Lemma bytes_at_app m a l l' : bytes_at m a (l ++ l') <-> bytes_at m a l /\ bytes_at m (a + Z.of_nat (length l)) l'.
Proof.
  revert a. induction l as [|x l IH]; intros a; simpl.
  - rewrite Z.add_0_r. split; [intros ?; split; [apply bytes_at_nil|done]|by intros [_ ?]].
  - rewrite !bytes_at_cons, IH. replace (a + 1 + Z.of_nat (length l)) with (a + Z.of_nat (S (length l))) by lia. tauto.
Qed.

(** The loop over lines on a text with a NUL after it. *)
Lemma lines_runs pattern n : forall text m p w, (length text <= n)%nat -> cstr m p text -> 0 < p ->
  exists m' w' p', ends_in (lines pattern m p) w (Some (m', p')) w' /\ written 1 (grepped pattern text) w w' /\
    p <= p' <= p + Z.of_nat (length text).
Proof.
  induction n as [|n IH]; intros text m p w Hn Hc Hp;
    (destruct (full_lines_split text []) as [[E Hno]|(a & b & -> & Ha & E)];
     [|rewrite length_app in *; simpl in *; unfold grepped; rewrite E; simpl app; destruct Hc as [Hb Hf];
       rewrite <- app_assoc in Hb; apply bytes_at_app in Hb as [Hb1 Hb2]; apply Forall_app in Hf as [Hf1 Hf2]]).
  1, 3: exists m, w, p; unfold grepped; rewrite E; split_and!; [|apply written_refl|lia|lia];
    apply runs_iter_done; destruct Hc as [Hb Hf]; apply bytes_at_app in Hb as [Hb Hz];
    apply bytes_at_cons in Hz as [Hz _]; eapply runs_bind; [by apply (strchr_runs m p text 0 w); [..|left|]|]; apply runs_ret.
  { lia. }
  change ((10 :: b) ++ [0]) with (10 :: (b ++ [0])) in Hb2. apply bytes_at_cons in Hb2 as [Hq Hb2].
  set (q := p + Z.of_nat (length a)) in *. apply Forall_cons in Hf2 as [_ Hf2].
  assert (Hs : ends_in (strchr m p 10) w (Some q) w) by (apply (strchr_runs m p a 10 w); [done..|by right|done]).
  assert (Hkeep : forall v, cstr (upd m q v) (q + 1) b).
  { intros v. eapply cstr_ext; [by split|]. intros x Hx. apply upd_ne. lia. }
  assert (Htext : forall v, bytes_from (upd m q v) p (q - p) = a).
  { intros v. replace (q - p) with (Z.of_nat (length a)) by lia. apply bytes_from_at. eapply bytes_at_ext; [done|].
    intros x Hx. apply upd_ne. lia. }
  destruct (match_ pattern a) eqn:Em.
  - set (m1 := upd (upd m q 0) q 10). destruct (os_write 1 (a ++ [10]) w) as (w1 & E1 & W1).
    destruct (IH b m1 (q + 1) w1) as (m' & w' & p' & H1 & H2 & H3); [lia| |lia|].
    { eapply cstr_ext; [apply (Hkeep 0)|]. intros x Hx. apply upd_ne. lia. }
    exists m', w', p'. split_and!; [| |lia|lia].
    + eapply runs_iter_next; [|exact H1]. eapply runs_bind; [exact Hs|]. cbn beta. destruct (Z.eqb_spec q 0); [lia|].
      cbv zeta. rewrite Htext, Em. fold m1. eapply runs_call; [|apply runs_ret]. rewrite <- E1. do 2 f_equal.
      replace (q + 1 - p) with (Z.of_nat (length (a ++ [10]))) by (rewrite length_app; simpl; lia).
      apply bytes_from_at, bytes_at_app. split.
      * eapply bytes_at_ext; [done|]. intros x Hx. subst m1. by rewrite !upd_ne by lia.
      * apply bytes_at_cons. split; [by apply upd_eq|apply bytes_at_nil].
    + rewrite filter_cons, decide_True by done. simpl. eapply written_trans; [done|]. exact H2.
  - destruct (IH b (upd m q 0) (q + 1) w) as (m' & w' & p' & H1 & H2 & H3); [lia|apply Hkeep|lia|].
    exists m', w', p'. split_and!; [| |lia|lia].
    + eapply runs_iter_next; [|exact H1]. eapply runs_bind; [exact Hs|]. cbn beta. destruct (Z.eqb_spec q 0); [lia|].
      cbv zeta. rewrite Htext, Em. apply runs_ret.
    + rewrite filter_cons, decide_False by (by rewrite Em). exact H2.
Qed.

Lemma put_bytes_at bs : forall m a, bytes_ok bs -> bytes_at (put_bytes m a bs) a bs /\
  forall x, ~ (a <= x < a + Z.of_nat (length bs)) -> put_bytes m a bs x = m x.
Proof.
  induction bs as [|b bs IH]; intros m a Hb; cbn [put_bytes length]; [split; [apply bytes_at_nil|done]|].
  apply Forall_cons in Hb as [Hb Hbs]. destruct (IH (upd m a b) (a + 1) Hbs) as [H1 H2]. split.
  - apply bytes_at_cons. split; [|done]. rewrite H2 by lia. rewrite upd_eq. by apply u8_id.
  - intros x Hx. rewrite H2 by lia. apply upd_ne. lia.
Qed.

(** grep on an input shorter than its buffer that arrives in one read
    prints the lines that end in a newline and match the pattern, in order,
    and ends. *)
Theorem grep_prints buf pattern text w : 0 < buf -> fds w !! 0%nat = Some text -> short w = [] ->
  Forall (fun x => 0 < x < 256) text -> (length text < 1024)%nat ->
  exists w', ends_in (main buf [chars "grep"; pattern]) w None w' /\ out w' 1 = out w 1 ++ grepped pattern text.
Proof.
  intros Hbuf Hin Hshort Ht Hlen. unfold main.
  assert (Hread : forall w n, fds w !! 0%nat = Some [] -> world_os _ (Read 0 n) w =
    Some ((0, []), World (files w) (<[0%nat := []]> (fds w)) (outs w) (tail (short w)))).
  { intros w1 n E1. pose proof (os_read 0 n [] w1 E1) as Hr. rewrite read_size_nil in Hr. exact Hr. }
  assert (H : exists m' w', ends_in (grep buf pattern 0 (fun _ => 0)) w (Some m') w' /\ out w' 1 = out w 1 ++ grepped pattern text).
  { unfold grep. change (s32 (u32 (1024 - 0))) with 1024. destruct text as [|b text'] eqn:Et.
    - eexists _, _. split; [apply runs_iter_done; eapply runs_call; [by apply Hread|apply runs_ret]|]. by rewrite app_nil_r.
    - rewrite <- Et in *. pose proof (os_read 0 1024 text w Hin) as Hr.
      replace (read_size w text 1024) with (length text) in Hr by (unfold read_size; rewrite Hshort; lia).
      rewrite take_ge, drop_ge in Hr by lia. set (w1 := World _ _ _ _) in Hr.
      destruct (put_bytes_at text (fun _ => 0) buf) as [Hb Hz]. { eapply Forall_impl; [exact Ht|]. simpl. lia. }
      set (m1 := put_bytes (fun _ => 0) buf text) in *.
      assert (Hc : cstr m1 buf text).
      { split; [|done]. apply bytes_at_app. split; [done|]. apply bytes_at_cons. split; [apply Hz; lia|apply bytes_at_nil]. }
      destruct (lines_runs pattern (length text) text m1 buf w1) as (m2 & w2 & p & H1 & H2 & Hp); [done|done|done|].
      set (m := if p =? buf then 0 else s32 (0 + Z.of_nat (length text))).
      set (next := if 0 <? m then (Ulib.memmove m2 buf p (m - (p - buf)), m - (p - buf)) else (m2, m)).
      destruct next as [na nb] eqn:En. eexists _, _. split.
      + eapply runs_iter_next; [|eapply (runs_iter_done _ _ (na, nb)); eapply runs_call; [apply Hread|apply runs_ret]].
        * eapply runs_call; [exact Hr|]. cbn beta iota. assert (length text <> 0)%nat by (by rewrite Et).
          destruct (Z.ltb_spec 0 (Z.of_nat (length text))); [|lia]. rewrite Z.add_0_r. cbv zeta. eapply runs_bind; [exact H1|].
          cbn beta iota. fold m. rewrite <- En. destruct (0 <? m); apply runs_ret.
        * destruct H2 as (_ & -> & _). apply lookup_insert_eq.
      + change (out (World _ _ (outs w2) _) 1) with (out w2 1). destruct H2 as (_ & _ & _ & ->). by rewrite Z.eqb_refl. }
  destruct H as (m' & w' & H & E). exists w'. split; [|done]. eapply runs_bind; [exact H|]. apply runs_exit.
Qed.
