(* ===== verification/Sh.v ===== *)
(** * The shell's parser (sh.c)

    A command line is a list of bytes with a NUL after it; a [char *] into it
    is a position.  The parser returns a command whose words are pairs of
    positions, start and end, and [nulterminate] then puts NULs at the ends.
    The theorems relate the code to a grammar on tokens: the parser returns
    for every line, accepts exactly the lines of the grammar, and the strings
    that the command points to are the words of the line. *)

From stdpp Require Import base numbers list sets strings.
From Stdlib Require Import ZArith Lia.
From S2P Require Import Prelude Abi.

Local Open Scope Z_scope.

(** ** Commands *)

Definition MAXARGS : nat := 10.

(** [struct redircmd], without the command in it. *)
Record redir : Type := Redir { rfile : nat; refile : nat; rmode : Z; rfd : Z }.

(** [struct cmd] with its variants; an [execcmd] has a list of pairs of
    [argv] and [eargv]. *)
Inductive cmd : Type :=
| EXEC (argv : list (nat * nat))
| REDIR (c : cmd) (r : redir)
| PIPE (left right : cmd)
| LIST (left right : cmd)
| BACK (c : cmd).

(** The redirections around a command, the outermost first. *)
Definition wrap (rs : list redir) (c : cmd) : cmd := foldr (fun r c => REDIR c r) c rs.

(** ** Tokens *)

Definition whitespace : list Z := [32; 9; 13; 10; 11].
Definition symbols : list Z := chars "<|>&;()".

(** [strchr(set, c) != 0], for [c] not NUL. *)
Definition strchr (set : list Z) (c : Z) : bool := bool_decide (c ∈ set).
Definition is_space (c : Z) : bool := strchr whitespace c.
(** A character of a word. *)
Definition is_word (c : Z) : bool := negb (c =? 0) && negb (strchr whitespace c) && negb (strchr symbols c).

(** The code of the token [>>] and of a word. *)
Definition tok_append : Z := 43.
Definition tok_word : Z := 97.

(** The result of a parsing function: a value and the new position, or the
    message of [panic]. *)
Inductive parsed (A : Type) : Type :=
| Got (a : A) (s : nat)
| Syntax (msg : string)
| NoFuel.
Arguments Got {A}.
Arguments Syntax {A}.
Arguments NoFuel {A}.

Definition pthen {A B} (m : parsed A) (k : A -> nat -> parsed B) : parsed B :=
  match m with Got a s => k a s | Syntax msg => Syntax msg | NoFuel => NoFuel end.
Local Notation "'let?' ( x , s ) := m 'in' k" := (pthen m (fun x s => k)) 
  (at level 10, x name, s name, m at level 100, k at level 200).

Section parser.
(** The line with its NUL, and the position of the NUL. *)
Context (buf : list Z) (es : nat).

Definition ch (s : nat) : Z := default 0 (buf !! s).

(** [while(s < es && p(s[0])) s++]. *)
Fixpoint skip_loop (n : nat) (p : Z -> bool) (s : nat) : nat :=
  match n with
  | O => s
  | S n => if p (ch s) then skip_loop n p (S s) else s
  end.
Definition skip (p : Z -> bool) (s : nat) : nat := skip_loop (es - s) p s.

(** [gettoken]: the token, [q], [eq] and the new position. *)
Definition gettoken (s : nat) : Z * nat * nat * nat :=
  let q := skip is_space s in
  let c := ch q in
  let '(ret, eq) :=
    if c =? 0 then (0, q)
    else if strchr (chars "|();&<") c then (c, S q)
    else if c =? 62 then (if ch (S q) =? 62 then (tok_append, S (S q)) else (c, S q))
    else (tok_word, skip is_word q) in
  (ret, q, eq, skip is_space eq).

Definition peek (s : nat) (toks : list Z) : bool * nat :=
  let s := skip is_space s in (negb (ch s =? 0) && strchr toks (ch s), s).

(** ** The parsing functions *)

(** [parseredirs]; [rs] are the redirections around the command so far. *)
Fixpoint parseredirs (f : nat) (rs : list redir) (s : nat) : parsed (list redir) :=
  match f with
  | O => NoFuel
  | S f =>
      let '(b, s) := peek s (chars "<>") in
      if b then
        let '(tok, _, _, s) := gettoken s in
        let '(t, q, eq, s) := gettoken s in
        if negb (t =? tok_word) then Syntax "missing file for redirection"
        else if tok =? 60 then parseredirs f (Redir q eq O_RDONLY 0 :: rs) s
        else if tok =? 62 then parseredirs f (Redir q eq (Z.lor O_WRONLY O_CREATE) 1 :: rs) s
        else if tok =? tok_append then parseredirs f (Redir q eq (Z.lor O_WRONLY O_CREATE) 1 :: rs) s
        else parseredirs f rs s
      else Got rs s
  end.

(** The loop of [parseexec]; [argv] so far. *)
Fixpoint parseargs (f : nat) (argv : list (nat * nat)) (rs : list redir) (s : nat) : parsed cmd :=
  match f with
  | O => NoFuel
  | S f =>
      let '(b, s) := peek s (chars "|)&;") in
      if b then Got (wrap rs (EXEC argv)) s
      else
        let '(tok, q, eq, s) := gettoken s in
        if tok =? 0 then Got (wrap rs (EXEC argv)) s
        else if negb (tok =? tok_word) then Syntax "syntax"
        else
          let argv := argv ++ [(q, eq)] in
          if (MAXARGS <=? length argv)%nat then Syntax "too many args"
          else let? (rs, s) := parseredirs f rs s in parseargs f argv rs s
  end.

(** The loop over [&] of [parseline]. *)
Fixpoint parsebacks (f : nat) (c : cmd) (s : nat) : parsed cmd :=
  match f with
  | O => NoFuel
  | S f =>
      let '(b, s) := peek s (chars "&") in
      if b then let '(_, _, _, s) := gettoken s in parsebacks f (BACK c) s
      else Got c s
  end.

Fixpoint parseline (f : nat) (s : nat) : parsed cmd :=
  match f with
  | O => NoFuel
  | S f =>
      let? (c, s) := parsepipe f s in
      let? (c, s) := parsebacks f c s in
      let '(b, s) := peek s (chars ";") in
      if b then
        let '(_, _, _, s) := gettoken s in
        let? (r, s) := parseline f s in Got (LIST c r) s
      else Got c s
  end
with parsepipe (f : nat) (s : nat) : parsed cmd :=
  match f with
  | O => NoFuel
  | S f =>
      let? (c, s) := parseexec f s in
      let '(b, s) := peek s (chars "|") in
      if b then
        let '(_, _, _, s) := gettoken s in
        let? (r, s) := parsepipe f s in Got (PIPE c r) s
      else Got c s
  end
with parseexec (f : nat) (s : nat) : parsed cmd :=
  match f with
  | O => NoFuel
  | S f =>
      let '(b, s) := peek s (chars "(") in
      if b then parseblock f s
      else let? (rs, s) := parseredirs f [] s in parseargs f [] rs s
  end
with parseblock (f : nat) (s : nat) : parsed cmd :=
  match f with
  | O => NoFuel
  | S f =>
      let '(b, s) := peek s (chars "(") in
      if negb b then Syntax "parseblock"
      else
        let '(_, _, _, s) := gettoken s in
        let? (c, s) := parseline f s in
        let '(b, s) := peek s (chars ")") in
        if negb b then Syntax "syntax - missing )"
        else
          let '(_, _, _, s) := gettoken s in
          let? (rs, s) := parseredirs f [] s in Got (wrap rs c) s
  end.

End parser.

Fixpoint nulterminate (c : cmd) (buf : list Z) : list Z :=
  match c with
  | EXEC argv => foldl (fun buf a => <[snd a := 0]> buf) buf argv
  | REDIR c r => <[refile r := 0]> (nulterminate c buf)
  | PIPE l r => nulterminate r (nulterminate l buf)
  | LIST l r => nulterminate r (nulterminate l buf)
  | BACK c => nulterminate c buf
  end.

(** [parsecmd] of a line: the command and the buffer it points into. *)
Definition parse_fuel (line : list Z) : nat := 4 * length line + 8.
Definition parsecmd (line : list Z) : parsed (cmd * list Z) :=
  let buf := line ++ [0] in
  let es := length line in
  let? (c, s) := parseline buf es (parse_fuel line) 0 in
  let '(_, s) := peek buf es s [] in
  if negb (s =? es)%nat then Syntax "syntax"
  else Got (c, nulterminate c buf) s.

(** The equations of the mutual recursion. *)
Section equations.
Context (buf : list Z) (es f s : nat).

Lemma parseline_S : parseline buf es (S f) s =
  let? (c, s) := parsepipe buf es f s in
  let? (c, s) := parsebacks buf es f c s in
  let '(b, s) := peek buf es s (chars ";") in
  if b then
    let '(_, _, _, s) := gettoken buf es s in
    let? (r, s) := parseline buf es f s in Got (LIST c r) s
  else Got c s.
Proof. done. Qed.

Lemma parsepipe_S : parsepipe buf es (S f) s =
  let? (c, s) := parseexec buf es f s in
  let '(b, s) := peek buf es s (chars "|") in
  if b then
    let '(_, _, _, s) := gettoken buf es s in
    let? (r, s) := parsepipe buf es f s in Got (PIPE c r) s
  else Got c s.
Proof. done. Qed.

Lemma parseexec_S : parseexec buf es (S f) s =
  let '(b, s) := peek buf es s (chars "(") in
  if b then parseblock buf es f s
  else let? (rs, s) := parseredirs buf es f [] s in parseargs buf es f [] rs s.
Proof. done. Qed.

Lemma parseblock_S : parseblock buf es (S f) s =
  let '(b, s) := peek buf es s (chars "(") in
  if negb b then Syntax "parseblock"
  else
    let '(_, _, _, s) := gettoken buf es s in
    let? (c, s) := parseline buf es f s in
    let '(b, s) := peek buf es s (chars ")") in
    if negb b then Syntax "syntax - missing )"
    else
      let '(_, _, _, s) := gettoken buf es s in
      let? (rs, s) := parseredirs buf es f [] s in Got (wrap rs c) s.
Proof. done. Qed.
End equations.

(** ** The grammar *)

Inductive token : Type :=
| TSym (c : Z)
| TAppend
| TWord (w : list Z).

(** The tokens of a string. *)
Inductive lexes : list Z -> list token -> Prop :=
| lex_nil : lexes [] []
| lex_space c l ts : is_space c -> lexes l ts -> lexes (c :: l) ts
| lex_sym c l ts : strchr (chars "|();&<") c -> lexes l ts -> lexes (c :: l) (TSym c :: ts)
| lex_append l ts : lexes l ts -> lexes (62 :: 62 :: l) (TAppend :: ts)
| lex_out l ts : head l <> Some 62 -> lexes l ts -> lexes (62 :: l) (TSym 62 :: ts)
| lex_word w l ts : w <> [] -> Forall is_word w -> (forall c, head l = Some c -> ~ is_word c) ->
    lexes l ts -> lexes (w ++ l) (TWord w :: ts).

(** Commands with strings. *)
Inductive scmd : Type :=
| SExec (argv : list (list Z))
| SRedir (c : scmd) (file : list Z) (mode fd : Z)
| SPipe (left right : scmd)
| SList (left right : scmd)
| SBack (c : scmd).

(** The mode and the descriptor of a redirection. *)
Definition redir_of (t : token) : option (Z * Z) :=
  match t with
  | TSym c => if c =? 60 then Some (O_RDONLY, 0) else if c =? 62 then Some (Z.lor O_WRONLY O_CREATE, 1) else None
  | TAppend => Some (Z.lor O_WRONLY O_CREATE, 1)
  | TWord _ => None
  end.

Definition swrap (rs : list (list Z * (Z * Z))) (c : scmd) : scmd :=
  foldl (fun c r => SRedir c (fst r) (fst (snd r)) (snd (snd r))) c rs.
Fixpoint backs (n : nat) (c : scmd) : scmd := match n with O => c | S n => backs n (SBack c) end.

(** Words and redirections in any order, the redirections applied from the
    inside out. *)
Inductive gargs : list token -> list (list Z) -> list (list Z * (Z * Z)) -> Prop :=
| args_nil : gargs [] [] []
| args_word w ts argv rs : gargs ts argv rs -> gargs (TWord w :: ts) (w :: argv) rs
| args_redir t w m ts argv rs : redir_of t = Some m -> gargs ts argv rs ->
    gargs (t :: TWord w :: ts) argv ((w, m) :: rs).

(** line ::= pipe &* | pipe &* ; line
    pipe ::= exec | exec '|' pipe
    exec ::= ( line ) redirection* | (word or redirection)*, fewer than
    [MAXARGS] words. *)
Inductive gline : list token -> scmd -> Prop :=
| line_one ts c n : gpipe ts c -> gline (ts ++ replicate n (TSym 38)) (backs n c)
| line_seq ts c n ts' c' : gpipe ts c -> gline ts' c' ->
    gline (ts ++ replicate n (TSym 38) ++ TSym 59 :: ts') (SList (backs n c) c')
with gpipe : list token -> scmd -> Prop :=
| pipe_one ts c : gexec ts c -> gpipe ts c
| pipe_more ts c ts' c' : gexec ts c -> gpipe ts' c' -> gpipe (ts ++ TSym 124 :: ts') (SPipe c c')
with gexec : list token -> scmd -> Prop :=
| exec_block ts c ts' rs : gline ts c -> gargs ts' [] rs -> gexec (TSym 40 :: ts ++ TSym 41 :: ts') (swrap rs c)
| exec_args ts argv rs : gargs ts argv rs -> (length argv < MAXARGS)%nat -> gexec ts (swrap rs (SExec argv)).

Scheme gline_mut := Induction for gline Sort Prop
  with gpipe_mut := Induction for gpipe Sort Prop
  with gexec_mut := Induction for gexec Sort Prop.
Combined Scheme grammar_ind from gline_mut, gpipe_mut, gexec_mut.

(** The strings a command points to. *)
Fixpoint strings (buf : list Z) (c : cmd) : scmd :=
  match c with
  | EXEC argv => SExec ((fun a => cstring (drop (fst a) buf)) <$> argv)
  | REDIR c r => SRedir (strings buf c) (cstring (drop (rfile r) buf)) (rmode r) (rfd r)
  | PIPE l r => SPipe (strings buf l) (strings buf r)
  | LIST l r => SList (strings buf l) (strings buf r)
  | BACK c => SBack (strings buf c)
  end.

(** ** Lexical facts *)

Lemma is_space_word c : is_space c -> ~ is_word c.
Proof. unfold is_word, is_space. intros ->%Is_true_true. simpl. rewrite andb_false_r. by intros []. Qed.

Lemma strchr_spec l c : strchr l c <-> c ∈ l.
Proof. unfold strchr. by rewrite bool_decide_spec. Qed.

Lemma sym_not_word c : c ∈ symbols -> ~ is_word c.
Proof. intros H%strchr_spec%Is_true_true. unfold is_word. rewrite H. simpl. rewrite andb_false_r. by intros []. Qed.

Lemma sym_not_space c : c ∈ symbols -> ~ is_space c.
Proof. unfold symbols. simpl. rewrite !elem_of_cons, elem_of_nil. intros H. destruct_or! H; subst; by vm_compute. Qed.

Lemma sym1 c : strchr (chars "|();&<") c -> c ∈ symbols.
Proof. rewrite strchr_spec. unfold symbols. simpl. set_solver. Qed.

Lemma classes c : c <> 0 -> is_space c \/ strchr (chars "|();&<") c \/ c = 62 \/ is_word c.
Proof.
  intros Hc. destruct (is_space c) eqn:E1; [by left|]. destruct (strchr (chars "|();&<") c) eqn:E2; [by right; left|].
  destruct (decide (c = 62)) as [->|H3]; [tauto|]. right; right; right. unfold is_word, is_space in *.
  rewrite E1. destruct (Z.eqb_spec c 0); [done|]. simpl. apply Is_true_true, negb_true_iff. unfold strchr in *.
  rewrite bool_decide_eq_false in *. unfold symbols in *. simpl in *. set_solver.
Qed.

Lemma lexes_space_inv c l ts : is_space c -> lexes (c :: l) ts -> lexes l ts.
Proof.
  intros Hc H. remember (c :: l) as l0 eqn:E. destruct H as [| |c' ? ? Hs| | |w ? ? Hw Hf]; simplify_eq; try done.
  - by destruct (sym_not_space c); [apply sym1|].
  - destruct w as [|c' w]; [done|]. simplify_list_eq. inversion Hf; subst. by destruct (is_space_word c).
Qed.

(** ** The line and positions in it *)

Section line.
Context (line : list Z).
Context (Hline : Forall (fun c => c <> 0) line).
Local Abbreviation buf := (line ++ [0]).
Local Abbreviation es := (length line).
Local Abbreviation chr := (ch buf).
Local Abbreviation skp := (skip buf es).

Lemma drop_at (s : nat) : (s <= es)%nat ->
  (s = es /\ drop s line = [] /\ chr s = 0) \/ ((s < es)%nat /\ drop s line = chr s :: drop (S s) line /\ chr s <> 0).
Proof.
  intros Hs. unfold ch. destruct (decide (s = es)) as [->|Hne].
  - left. split; [done|]. split; [apply drop_all|]. rewrite lookup_app_r, Nat.sub_diag by done. done.
  - right. split; [lia|]. destruct (lookup_lt_is_Some_2 line s) as [c Hc]; [lia|].
    rewrite lookup_app_l, Hc by lia. simpl. split; [by apply drop_S|]. by eapply Forall_lookup in Hline.
Qed.

Lemma skip_step p s : (s <= es)%nat ->
  skp p s = if (s <? es)%nat && p (chr s) then skp p (S s) else s.
Proof.
  intros Hs. unfold skip. destruct (Nat.ltb_spec s es); simpl.
  - replace (es - s)%nat with (S (es - S s)) by lia. done.
  - by replace (es - s)%nat with 0%nat by lia.
Qed.

(** [skip] stops at the end or at the first character outside the class. *)
Lemma skip_spec p s : (s <= es)%nat -> exists w,
  drop s line = w ++ drop (skp p s) line /\ Forall p w /\ skp p s = (s + length w)%nat /\ (skp p s <= es)%nat /\
  (forall c, head (drop (skp p s) line) = Some c -> ~ p c).
Proof.
  remember (es - s)%nat as n eqn:En. revert s En. induction n as [n IH] using lt_wf_ind. intros s -> Hs.
  rewrite (skip_step p s Hs). destruct (drop_at s Hs) as [(-> & E & _)|(Hl & E & _)].
  - rewrite Nat.ltb_irrefl. simpl. exists []. rewrite E. split_and!; try done; simpl; lia.
  - rewrite (proj2 (Nat.ltb_lt _ _) Hl). simpl. destruct (p (chr s)) eqn:Ep.
    + destruct (IH (es - S s)%nat ltac:(lia) (S s) eq_refl ltac:(lia)) as (w & H1 & H2 & H3 & H4 & H5).
      exists (chr s :: w). split_and!; [by rewrite E, H1 at 1|constructor; [by rewrite Ep|done]|simpl; lia|done|done].
    + exists []. split_and!; [done|done|simpl; lia|lia|]. rewrite E. simpl. intros c [= <-]. rewrite Ep. by intros [].
Qed.

(** The rest of the line from [s] on has the tokens [ts]. *)
Definition L (s : nat) (ts : list token) : Prop := (s <= es)%nat /\ lexes (drop s line) ts.

Lemma lexes_skip w l ts : Forall is_space w -> lexes (w ++ l) ts -> lexes l ts.
Proof. induction w as [|c w IH]; simpl; [done|]. inversion 1; subst. intros ?%lexes_space_inv; [|done]. by apply IH. Qed.

Lemma skip_lex s ts : L s ts -> L (skp is_space s) ts /\ (s <= skp is_space s)%nat /\
  (forall c, head (drop (skp is_space s) line) = Some c -> ~ is_space c).
Proof.
  intros [Hs H]. destruct (skip_spec is_space s Hs) as (w & E & Hw & Hl & Hle & Hh).
  rewrite E in H. apply lexes_skip in H; [|done]. split; [done|]. split; [lia|done].
Qed.

(** A word of the line: from [q] up to [eq], where a character of another
    class follows. *)
Definition reads (a : nat * nat) (w : list Z) : Prop :=
  (snd a <= es)%nat /\ drop (fst a) line = w ++ drop (snd a) line /\ snd a = (fst a + length w)%nat /\
  w <> [] /\ Forall is_word w /\ ~ is_word (chr (snd a)).

(** The first character of the next token, of those in [set]. *)
Definition starts (ts : list token) (set : list Z) : bool :=
  match ts with TSym c :: _ => strchr set c | TAppend :: _ => strchr set 62 | _ => false end.

Lemma peek_spec set s ts : Forall (.∈ symbols) set -> L s ts ->
  exists s', peek buf es s set = (starts ts set, s') /\ L s' ts /\ (s <= s')%nat.
Proof.
  intros Hset H. apply skip_lex in H as (HL & Hle & Hh). unfold peek. exists (skp is_space s). split; [|done].
  f_equal. destruct HL as [Hs H]. destruct (drop_at _ Hs) as [(_ & E & ->)|(Hlt & E & Hne)].
  - rewrite E in H. remember [] as l0 eqn:E0. destruct H as [| | | | |w ? ? Hw]; simplify_eq; [done|]. by destruct w.
  - rewrite E in H, Hh. set (c := chr (skp is_space s)) in *. specialize (Hh c eq_refl).
    destruct (Z.eqb_spec c 0) as [?|_]; [done|]. simpl.
    clearbody c. remember (c :: _) as l0 eqn:E0 in H.
    destruct H as [| |c' ? ? Hs'| | |w ? ? Hw Hf]; simplify_eq; simpl; try done.
    destruct w as [|c' w]; [done|]. simplify_list_eq. inversion Hf; subst.
    apply bool_decide_eq_false. intros Hin. rewrite Forall_forall in Hset. by destruct (sym_not_word c); [apply Hset|].
Qed.

Lemma word_split w w' l l' : w ++ l = w' ++ l' -> Forall is_word w -> Forall is_word w' ->
  (forall c, head l = Some c -> ~ is_word c) -> (forall c, head l' = Some c -> ~ is_word c) -> w = w' /\ l = l'.
Proof.
  revert w'. induction w as [|c w IH]; intros [|c' w'] E H1 H2 H3 H4; simpl in *.
  - done.
  - subst l. inversion H2; subst. by destruct (H3 c').
  - subst l'. inversion H1; subst. by destruct (H4 c).
  - injection E as -> E. inversion H1; inversion H2; subst. by destruct (IH w' E) as [-> ->].
Qed.

Lemma not_word_at s : (s <= es)%nat -> (forall c, head (drop s line) = Some c -> ~ is_word c) -> ~ is_word (chr s).
Proof.
  intros Hs H. destruct (drop_at s Hs) as [(_ & _ & ->)|(_ & E & _)]; [by intros []|]. apply H. by rewrite E.
Qed.

(** What [gettoken] returns for the first of the tokens. *)
Definition token_at (t : Z) (q eq : nat) (ts : list token) : Prop :=
  match ts with
  | [] => t = 0
  | TSym c :: _ => t = c /\ c ∈ symbols
  | TAppend :: _ => t = tok_append
  | TWord w :: _ => t = tok_word /\ reads (q, eq) w
  end.

Lemma gettoken_spec s ts : L s ts -> exists t q eq s', gettoken buf es s = (t, q, eq, s') /\
  token_at t q eq ts /\ L s' (tail ts) /\ (s <= s')%nat /\ (ts <> [] -> (s < s')%nat).
Proof.
  intros H. apply skip_lex in H as ([Hq H] & Hle & Hh). unfold gettoken. set (q := skp is_space s) in *.
  assert (Hend : forall t eq, (q <= eq)%nat -> (ts <> [] -> (q < eq)%nat) -> L eq (tail ts) -> token_at t q eq ts ->
    exists t' q' eq' s', (t, q, eq, skp is_space eq) = (t', q', eq', s') /\ token_at t' q' eq' ts /\
      L s' (tail ts) /\ (s <= s')%nat /\ (ts <> [] -> (s < s')%nat)).
  { intros t eq H1 H2 (HL & H3 & _)%skip_lex Ht. exists t, q, eq, (skp is_space eq). split_and!; try done; [lia|].
    intros ?%H2. lia. }
  destruct (drop_at q Hq) as [(_ & E & ->)|(Hlt & E & Hne)].
  { rewrite E in H. remember [] as l0 eqn:E0. destruct H as [| | | | |w ? ? Hw]; simplify_eq; [|by destruct w].
    apply Hend; try done. split; [done|]. rewrite E. constructor. }
  rewrite E in Hh. destruct (Z.eqb_spec (chr q) 0) as [?|_]; [done|].
  specialize (Hh (chr q) eq_refl). assert (HS : forall ts', lexes (drop (S q) line) ts' -> L (S q) ts') by (split; [lia|done]).
  destruct (skip_spec is_word q Hq) as (w1 & E1 & Hw1 & Hl1 & Hle1 & Hh1).
  assert (E2 : head (drop (S q) line) = Some 62 -> chr (S q) = 62 /\ drop (S q) line = 62 :: drop (S (S q)) line /\ (S (S q) <= es)%nat).
  { intros E2. destruct (drop_at (S q) ltac:(lia)) as [(_ & E3 & _)|(? & E3 & _)]; rewrite E3 in E2; [done|].
    simpl in E2. injection E2 as E2. rewrite E2 in E3. split_and!; [done|done|lia]. }
  remember (chr q) as c eqn:Ec. clear Ec. rewrite E in H. remember (c :: drop (S q) line) as l0 eqn:E0.
  destruct H as [|? ? ? ? ?|c' l ts Hs H|l ts H|l ts Hd H|w l ts Hw Hf Hhd H]; simplify_eq.
  - rewrite (proj1 (Is_true_true _) Hs). apply Hend; [lia|lia|by apply HS|]. split; [done|by apply sym1].
  - replace (strchr _ _) with false by done. simpl. destruct E2 as (E2 & E3 & H3); [by rewrite <- H1|].
    rewrite E3 in H1. injection H1 as ->. rewrite E2. simpl. apply Hend; [lia|lia|by split|done].
  - replace (strchr _ _) with false by done. simpl. destruct (Z.eqb_spec (chr (S q)) 62) as [E3|_].
    + destruct Hd. destruct (drop_at (S q) ltac:(lia)) as [(_ & _ & E4)|(? & -> & _)]; [by rewrite E3 in E4|]. simpl. by rewrite E3.
    + apply Hend; [lia|lia|by apply HS|]. split; [done|]. by apply strchr_spec.
  - destruct (word_split w w1 l (drop (skp is_word q) line)) as [-> ->]; try done.
    { congruence. }
    assert (Hc : is_word c). { destruct w1; [done|]. simplify_list_eq. by inversion Hf. }
    destruct (strchr (chars "|();&<") c) eqn:Es.
    { by destruct (sym_not_word c); [apply sym1; rewrite Es|]. }
    destruct (Z.eqb_spec c 62) as [->|_]; [done|]. assert (length w1 <> 0)%nat by (by destruct w1).
    apply Hend; [lia|lia|by split|]. split; [done|]. split_and!; try done. by apply not_word_at.
Qed.

(** Every line has tokens. *)
Lemma lexes_total s : (s <= es)%nat -> exists ts, L s ts.
Proof.
  remember (es - s)%nat as n eqn:En. revert s En. induction n as [n IH] using lt_wf_ind. intros s -> Hs.
  assert (Hr : forall s', (s < s' <= es)%nat -> exists ts, L s' ts) by (intros s' H'; apply (IH (es - s')%nat); lia).
  unfold L in *. destruct (drop_at s Hs) as [(_ & E & _)|(Hlt & E & Hne)].
  { exists []. rewrite E. split; [done|constructor]. }
  destruct (Hr (S s) ltac:(lia)) as (ts & _ & H). rewrite E.
  destruct (classes _ Hne) as [Hc|[Hc|[Hc|Hc]]].
  - exists ts. split; [done|by constructor].
  - exists (TSym (chr s) :: ts). split; [done|by constructor].
  - rewrite Hc. destruct (decide (head (drop (S s) line) = Some 62)) as [E2|E2]; [|by exists (TSym 62 :: ts); split; [|constructor]].
    destruct (drop_at (S s) ltac:(lia)) as [(_ & E3 & _)|(? & E3 & _)]; rewrite E3 in E2; [done|]. injection E2 as E2.
    destruct (Hr (S (S s)) ltac:(lia)) as (ts2 & _ & H2). exists (TAppend :: ts2). split; [done|]. rewrite E3, E2. by constructor.
  - destruct (skip_spec is_word s Hs) as (w & E1 & Hw & Hl & Hle & Hh).
    assert (Hw0 : w <> []). { intros ->. simpl in *. rewrite <- E1, E in Hh. by destruct (Hh (chr s)). }
    destruct (Hr (skp is_word s)) as (ts2 & _ & H2). { destruct w; [done|]. simpl in *. lia. }
    exists (TWord w :: ts2). split; [done|]. rewrite <- E, E1. by constructor.
Qed.

(** ** Soundness *)

(** A redirection and a command stand for those with strings. *)
Definition rrel (r : redir) (x : list Z * (Z * Z)) : Prop := reads (rfile r, refile r) (fst x) /\ (rmode r, rfd r) = snd x.
Inductive crel : cmd -> scmd -> Prop :=
| crel_exec argv ws : Forall2 reads argv ws -> crel (EXEC argv) (SExec ws)
| crel_redir c c' r w m d : crel c c' -> rrel r (w, (m, d)) -> crel (REDIR c r) (SRedir c' w m d)
| crel_pipe l l' r r' : crel l l' -> crel r r' -> crel (PIPE l r) (SPipe l' r')
| crel_list l l' r r' : crel l l' -> crel r r' -> crel (LIST l r) (SList l' r')
| crel_back c c' : crel c c' -> crel (BACK c) (SBack c').
Hint Constructors crel gargs gline gpipe gexec : core.

Lemma wrap_rel rs xs c c' : Forall2 rrel (reverse rs) xs -> crel c c' -> crel (wrap rs c) (swrap xs c').
Proof.
  revert xs. induction rs as [|r rs IH]; intros xs H Hc.
  - by inversion H.
  - rewrite reverse_cons in H. apply Forall2_app_inv_l in H as (xs1 & x & H1 & H2 & ->).
    inversion H2 as [|? x' ? ? Hr Hn]; subst. inversion Hn; subst. unfold swrap. rewrite foldl_app. simpl.
    destruct x' as [w [m d]]. apply crel_redir; [by apply IH|done].
Qed.

Lemma gargs_app ts a rs ts' a' rs' : gargs ts a rs -> gargs ts' a' rs' -> gargs (ts ++ ts') (a ++ a') (rs ++ rs').
Proof. induction 1; simpl; eauto. Qed.

Ltac pk s ts s' := match goal with |- context [peek _ _ s ?set] =>
  let H := fresh "H" s' in destruct (peek_spec set s ts) as (s' & H & ? & ?);
  [by repeat (constructor; [by apply strchr_spec|])|done|rewrite H; clear H] end.
Ltac gt s ts t q e s' := match goal with |- context [gettoken _ _ s] =>
  let H := fresh in let Ht := fresh "Htok" in let HL := fresh "HL" in
  destruct (gettoken_spec s ts) as (t & q & e & s' & H & Ht & HL & ? & ?);
  [done|rewrite H; clear H; pose proof (proj1 HL)] end.

Lemma token_is_word q eq ts : token_at tok_word q eq ts -> exists w ts', ts = TWord w :: ts' /\ reads (q, eq) w.
Proof.
  destruct ts as [|[c| |w] ts]; simpl; [done| |done|by intros [_ H]; eauto].
  intros [<- H%strchr_spec]. by vm_compute in H.
Qed.

Lemma token_is_end q eq ts : token_at 0 q eq ts -> ts = [].
Proof.
  destruct ts as [|[c| |w] ts]; simpl; [done| |done|by intros [??]].
  intros [<- H%strchr_spec]. by vm_compute in H.
Qed.

(** The first token of a redirection and what [parseredirs] does with it. *)
Lemma token_is_redir x q eq t ts : starts (t :: ts) (chars "<>") -> token_at x q eq (t :: ts) ->
  exists m d, redir_of t = Some (m, d) /\ forall A (k : Z -> Z -> A) z,
    (if x =? 60 then k O_RDONLY 0 else if x =? 62 then k (Z.lor O_WRONLY O_CREATE) 1
     else if x =? tok_append then k (Z.lor O_WRONLY O_CREATE) 1 else z) = k m d.
Proof.
  destruct t as [c| |w]; [|intros _ ->; simpl; by eauto 10|done]. intros H [-> _]. cbn [starts] in H. apply strchr_spec in H.
  simpl in H. rewrite !elem_of_cons, elem_of_nil in H. destruct_or! H; subst; simpl; by eauto 10.
Qed.

Lemma redir_starts t m ts : redir_of t = Some m -> starts (t :: ts) (chars "<>").
Proof.
  intros H. destruct t as [c| |w]; simpl in *; [|done|done].
  destruct (Z.eqb_spec c 60) as [->|]; [done|]. by destruct (Z.eqb_spec c 62) as [->|].
Qed.

Lemma parseredirs_sound f : forall rs s ts rs' s', L s ts -> parseredirs buf es f rs s = Got rs' s' ->
  exists ts1 ts2 new xs, ts = ts1 ++ ts2 /\ L s' ts2 /\ (s <= s')%nat /\ rs' = new ++ rs /\
    gargs ts1 [] xs /\ Forall2 rrel (reverse new) xs.
Proof.
  induction f as [|f IH]; intros rs s ts rs' s' HL; cbn [parseredirs]; [done|].
  pk s ts s1. destruct (starts ts _) eqn:Eb; [|intros [= <- <-]; exists [], ts, [], []; by eauto 10].
  gt s1 ts x q0 e0 s2. destruct ts as [|t ts]; [done|]. simpl tail in *. gt s2 ts y q e s3.
  destruct (Z.eqb_spec y tok_word) as [->|_]; [|done]. simpl negb. cbv iota.
  destruct (token_is_word q e ts) as (w & ts0 & -> & Hw); [done|].
  edestruct token_is_redir as (m & d & Ht & Hk); [by rewrite Eb|done|].
  rewrite (Hk _ (fun m d => parseredirs buf es f (Redir q e m d :: rs) s3)). simpl tail in *.
  intros (ts1 & ts2 & new & xs & -> & ? & ? & -> & ? & ?)%(IH _ _ ts0); [|done].
  exists (t :: TWord w :: ts1), ts2, (new ++ [Redir q e m d]), ((w, (m, d)) :: xs). rewrite reverse_app, <- app_assoc.
  split_and!; try done; [lia|by constructor|]. by constructor.
Qed.

Lemma parseargs_sound f : forall argv rs s ts c s', L s ts -> parseargs buf es f argv rs s = Got c s' ->
  (length argv < MAXARGS)%nat ->
  exists ts1 ts2 new xs args ws, ts = ts1 ++ ts2 /\ L s' ts2 /\ (s <= s')%nat /\ c = wrap (new ++ rs) (EXEC (argv ++ args)) /\
    gargs ts1 ws xs /\ Forall2 rrel (reverse new) xs /\ Forall2 reads args ws /\ (length argv + length ws < MAXARGS)%nat.
Proof.
  induction f as [|f IH]; intros argv rs s ts c s' HL; cbn [parseargs]; [done|].
  pk s ts s1. destruct (starts ts _) eqn:Eb.
  { intros [= <- <-] ?. exists [], ts, [], [], [], []. rewrite (app_nil_r argv). simpl. split_and!; eauto; lia. }
  gt s1 ts x q e s2. destruct (Z.eqb_spec x 0) as [->|_].
  { apply token_is_end in Htok as ->. intros [= <- <-] ?. exists [], [], [], [], [], []. rewrite (app_nil_r argv). simpl in *. split_and!; eauto; lia. }
  destruct (Z.eqb_spec x tok_word) as [->|_]; [|done]. destruct (token_is_word q e ts) as (w & ts0 & -> & Hw); [done|].
  simpl negb. cbv iota zeta. destruct (Nat.leb_spec MAXARGS (length (argv ++ [(q, e)]))) as [?|Hlen]; [done|].
  destruct (parseredirs buf es f rs s2) as [rs2 s3| |] eqn:Er; simpl; [|done|done].
  apply (parseredirs_sound f _ _ ts0) in Er as (ta & tb & new & xs & -> & ? & ? & -> & ? & ?); [|done].
  intros (ts1 & ts2 & new' & xs' & args & ws & -> & ? & ? & -> & ? & ? & ? & Hn)%(IH _ _ _ tb); [|done|done]. intros _.
  exists (TWord w :: ta ++ ts1), ts2, (new' ++ new), (xs ++ xs'), ((q, e) :: args), (w :: ws).
  rewrite reverse_app, <- !app_assoc. rewrite length_app in Hn. simpl in *. rewrite <- ?app_assoc. split_and!; try done; try lia.
  - constructor. by apply (gargs_app ta [] xs ts1 ws xs').
  - by apply Forall2_app.
  - by constructor.
Qed.

Lemma parsebacks_sound f : forall c sc s ts c' s', L s ts -> crel c sc -> parsebacks buf es f c s = Got c' s' ->
  exists n ts2, ts = replicate n (TSym 38) ++ ts2 /\ L s' ts2 /\ (s <= s')%nat /\ crel c' (backs n sc).
Proof.
  induction f as [|f IH]; intros c sc s ts c' s' HL Hc; cbn [parsebacks]; [done|].
  pk s ts s1. destruct (starts ts _) eqn:Eb; [|intros [= <- <-]; by exists 0%nat, ts].
  gt s1 ts x q e s2. destruct ts as [|[y| |] ts]; try done. cbn [starts] in Eb.
  assert (y = 38) as ->. { apply bool_decide_eq_true in Eb. simpl in Eb. set_solver. }
  intros (n & ts2 & -> & ? & ? & ?)%(IH _ (SBack sc) _ ts); [|done|by constructor]. exists (S n), ts2. split_and!; try done. lia.
Qed.

(** The next token is the one symbol looked for. *)
Lemma starts_one ts c : starts ts [c] = true -> c <> 62 -> exists ts', ts = TSym c :: ts'.
Proof.
  destruct ts as [|[y| |] ts]; cbn [starts]; try done; intros H%bool_decide_eq_true Hc; simpl in H; [exists ts|]; set_solver.
Qed.

Definition sound (g : list token -> scmd -> Prop) (p : nat -> parsed cmd) : Prop := forall s ts c s',
  L s ts -> p s = Got c s' -> exists ts1 ts2 sc, ts = ts1 ++ ts2 /\ L s' ts2 /\ (s <= s')%nat /\ g ts1 sc /\ crel c sc.

Lemma parser_sound f : sound gline (parseline buf es f) /\ sound gpipe (parsepipe buf es f) /\
  sound gexec (parseexec buf es f) /\ sound gexec (parseblock buf es f).
Proof.
  induction f as [|f (IHl & IHp & IHe & IHb)]; [by split_and!; intros s ts c s' _|].
  split_and!; intros s ts c s' HL;
    rewrite ?parseline_S, ?parsepipe_S, ?parseexec_S, ?parseblock_S.
  - destruct (parsepipe buf es f s) as [c1 s1| |] eqn:E1; cbn [pthen]; [|done|done].
    eapply IHp in E1 as (t1 & t2 & sc & -> & ? & ? & ? & ?); [|done].
    destruct (parsebacks buf es f c1 s1) as [c2 s2| |] eqn:E2; cbn [pthen]; [|done|done].
    apply (parsebacks_sound f _ sc _ t2) in E2 as (n & t3 & -> & ? & ? & ?); [|done|done].
    pk s2 t3 s3. destruct (starts t3 _) eqn:Eb.
    + apply starts_one in Eb as [t4 ->]; [|done]. gt s3 (TSym 59 :: t4) x q e s4.
      destruct (parseline buf es f s4) as [c3 s5| |] eqn:E3; cbn [pthen]; [|done|done]. intros [= <- <-].
      eapply IHl in E3 as (t5 & t6 & sc' & E & ? & ? & ? & ?); [|done]. simpl in E. subst t4.
      exists (t1 ++ replicate n (TSym 38) ++ TSym 59 :: t5), t6, (SList (backs n sc) sc').
      split_and!; [by rewrite <- !app_assoc|done|lia|by constructor|by constructor].
    + intros [= <- <-]. exists (t1 ++ replicate n (TSym 38)), t3, (backs n sc).
      split_and!; [by rewrite <- !app_assoc|done|lia|by constructor|done].
  - destruct (parseexec buf es f s) as [c1 s1| |] eqn:E1; cbn [pthen]; [|done|done].
    eapply IHe in E1 as (t1 & t2 & sc & -> & ? & ? & ? & ?); [|done].
    pk s1 t2 s3. destruct (starts t2 _) eqn:Eb.
    + apply starts_one in Eb as [t4 ->]; [|done]. gt s3 (TSym 124 :: t4) x q e s4.
      destruct (parsepipe buf es f s4) as [c3 s5| |] eqn:E3; cbn [pthen]; [|done|done]. intros [= <- <-].
      eapply IHp in E3 as (t5 & t6 & sc' & E & ? & ? & ? & ?); [|done]. simpl in E. subst t4.
      exists (t1 ++ TSym 124 :: t5), t6, (SPipe sc sc').
      split_and!; [by rewrite <- !app_assoc|done|lia|by constructor|by constructor].
    + intros [= <- <-]. exists t1, t2, sc. split_and!; try done; [lia|by constructor].
  - pk s ts s1. destruct (starts ts _) eqn:Eb.
    + intros (t1 & t2 & sc & -> & ? & ? & ? & ?)%(IHb _ ts); [|done]. exists t1, t2, sc. split_and!; try done; lia.
    + destruct (parseredirs buf es f [] s1) as [rs s2| |] eqn:E1; cbn [pthen]; [|done|done].
      eapply parseredirs_sound in E1 as (t1 & t2 & new & xs & -> & ? & ? & -> & ? & ?); [|done].
      intros (t3 & t4 & new' & xs' & args & ws & -> & ? & ? & -> & ? & ? & ? & ?)%(parseargs_sound f _ _ _ t2); [|done|by apply Nat.ltb_lt].
      exists (t1 ++ t3), t4, (swrap (xs ++ xs') (SExec ws)). rewrite app_nil_r. simpl.
      split_and!; [by rewrite <- app_assoc|done|lia| |].
      * apply exec_args; [by apply (gargs_app t1 [] xs)|done].
      * apply wrap_rel; [rewrite reverse_app; by apply Forall2_app|by constructor].
  - pk s ts s1. destruct (starts ts _) eqn:Eb; cbn [negb]; [|done]. apply starts_one in Eb as [t1 ->]; [|done].
    gt s1 (TSym 40 :: t1) x q e s2. destruct (parseline buf es f s2) as [c1 s3| |] eqn:E1; cbn [pthen]; [|done|done].
    eapply IHl in E1 as (t2 & t3 & sc & E & ? & ? & ? & ?); [|done]. simpl in E. subst t1.
    pk s3 t3 s4. destruct (starts t3 _) eqn:Eb; cbn [negb]; [|done]. apply starts_one in Eb as [t4 ->]; [|done].
    gt s4 (TSym 41 :: t4) x' q' e' s5. destruct (parseredirs buf es f [] s5) as [rs s6| |] eqn:E1; cbn [pthen]; [|done|done].
    eapply parseredirs_sound in E1 as (t5 & t6 & new & xs & E & ? & ? & -> & ? & ?); [|done]. simpl in E. subst t4.
    intros [= <- <-]. exists (TSym 40 :: t2 ++ TSym 41 :: t5), t6, (swrap xs sc). rewrite app_nil_r. simpl.
    split_and!; [by rewrite <- app_assoc|done|lia|by constructor|by apply wrap_rel].
Qed.

(** ** The parser returns *)

Lemma parseredirs_fuel f : forall rs s, (s <= es)%nat -> (es - s < f)%nat -> parseredirs buf es f rs s <> NoFuel.
Proof.
  induction f as [|f IH]; intros rs s Hs Hf; [lia|]. cbn [parseredirs].
  destruct (lexes_total s Hs) as [ts HL]. pk s ts s1. destruct (starts ts _) eqn:Eb; [|done].
  gt s1 ts x q0 e0 s2. destruct ts as [|t ts]; [done|]. simpl tail in *. gt s2 ts y q e s3.
  assert (s1 < s2)%nat by auto.
  repeat case_match; first [done|apply IH; lia].
Qed.

Lemma parseargs_fuel f : forall argv rs s, (s <= es)%nat -> (es - s < f)%nat -> parseargs buf es f argv rs s <> NoFuel.
Proof.
  induction f as [|f IH]; intros argv rs s Hs Hf; [lia|]. cbn [parseargs].
  destruct (lexes_total s Hs) as [ts HL]. pk s ts s1. destruct (starts ts _) eqn:Eb; [done|].
  gt s1 ts x q e s2. destruct (Z.eqb_spec x 0) as [->|Hx]; [done|]. destruct (negb _); [done|]. cbv zeta.
  destruct (MAXARGS <=? _)%nat; [done|].
  assert (s1 < s2)%nat. { destruct ts; [done|]. auto. }
  destruct (parseredirs buf es f rs s2) as [rs2 s3| |] eqn:Er; cbn [pthen]; [|done|].
  - eapply parseredirs_sound in Er as (? & ? & ? & ? & _ & [? _] & ? & _); [|done]. apply IH; lia.
  - by apply parseredirs_fuel in Er; [|lia|lia].
Qed.

Lemma parsebacks_fuel f : forall c s, (s <= es)%nat -> (es - s < f)%nat -> parsebacks buf es f c s <> NoFuel.
Proof.
  induction f as [|f IH]; intros c s Hs Hf; [lia|]. cbn [parsebacks].
  destruct (lexes_total s Hs) as [ts HL]. pk s ts s1. destruct (starts ts _) eqn:Eb; [|done].
  gt s1 ts x q e s2. assert (s1 < s2)%nat. { destruct ts; [done|]. auto. } apply IH; lia.
Qed.

(** One call of a parsing function from a position in the line: it ends in an
    error, or goes on from a position not before it. *)
Lemma pthen_fuel {A B} (m : parsed A) (k : A -> nat -> parsed B) s :
  m <> NoFuel -> (forall a s', m = Got a s' -> (s <= s' <= es)%nat) ->
  (forall a s', (s <= s' <= es)%nat -> k a s' <> NoFuel) -> pthen m k <> NoFuel.
Proof. destruct m as [a s'| |]; simpl; [|done|done]. intros _ H1 H2. by eapply H2, H1. Qed.

Lemma sound_range g p s c s' : sound g p -> (s <= es)%nat -> p s = Got c s' -> (s <= s' <= es)%nat.
Proof. intros H Hs E. destruct (lexes_total s Hs) as [ts HL]. eapply H in E as (? & ? & ? & _ & [? _] & ? & _); done. Qed.

Lemma parsebacks_range f : forall c s c' s', (s <= es)%nat -> parsebacks buf es f c s = Got c' s' -> (s <= s' <= es)%nat.
Proof.
  induction f as [|f IH]; intros c s c' s' Hs; cbn [parsebacks]; [done|]. destruct (lexes_total s Hs) as [ts HL].
  pk s ts s1. destruct (starts ts _); [|intros [= <- <-]; by destruct H]. gt s1 ts x q e s2. intros ?%IH; lia.
Qed.

Lemma parser_fuel f : forall s, (s <= es)%nat ->
  ((4 * (es - s) + 3 < f)%nat -> parseline buf es f s <> NoFuel) /\ ((4 * (es - s) + 2 < f)%nat -> parsepipe buf es f s <> NoFuel) /\
  ((4 * (es - s) + 1 < f)%nat -> parseexec buf es f s <> NoFuel) /\ ((4 * (es - s) < f)%nat -> parseblock buf es f s <> NoFuel).
Proof.
  induction f as [|f IH]; [by intros; split_and!; lia|]. intros s Hs. destruct (parser_sound f) as (Sl & Sp & Se & _).
  assert (Hr : forall rs s' rs' s'', (s' <= es)%nat -> parseredirs buf es f rs s' = Got rs' s'' -> (s' <= s'' <= es)%nat).
  { intros rs s' rs' s'' Hs' E. destruct (lexes_total s' Hs') as [ts HL].
    eapply parseredirs_sound in E as (? & ? & ? & ? & _ & [? _] & ? & _); [|done]. lia. }
  split_and!; intros Hf; rewrite ?parseline_S, ?parsepipe_S, ?parseexec_S, ?parseblock_S.
  - apply (pthen_fuel _ _ s); [apply IH; lia|by intros c s'; eapply sound_range|]. intros c s1 Hs1.
    apply (pthen_fuel _ _ s1); [apply parsebacks_fuel; lia|intros c' s'; apply parsebacks_range; lia|]. intros c' s2 Hs2.
    destruct (lexes_total s2 ltac:(lia)) as [ts HL]. pk s2 ts s3. destruct (starts ts _) eqn:Eb; [|done].
    apply starts_one in Eb as [ts' ->]; [|done]. gt s3 (TSym 59 :: ts') x q e s4. assert (s3 < s4)%nat by auto.
    apply (pthen_fuel _ _ s4); [apply IH; lia|intros a s'; eapply sound_range; [done|lia]|done].
  - apply (pthen_fuel _ _ s); [apply IH; lia|by intros c s'; eapply sound_range|]. intros c s2 Hs2.
    destruct (lexes_total s2 ltac:(lia)) as [ts HL]. pk s2 ts s3. destruct (starts ts _) eqn:Eb; [|done].
    apply starts_one in Eb as [ts' ->]; [|done]. gt s3 (TSym 124 :: ts') x q e s4. assert (s3 < s4)%nat by auto.
    apply (pthen_fuel _ _ s4); [apply IH; lia|intros a s'; eapply sound_range; [done|lia]|done].
  - destruct (lexes_total s Hs) as [ts HL]. pk s ts s1. pose proof (proj1 H). destruct (starts ts _) eqn:Eb; [apply IH; lia|].
    apply (pthen_fuel _ _ s1); [apply parseredirs_fuel; lia|intros rs s'; apply Hr; lia|].
    intros rs s2 Hs2. apply parseargs_fuel; lia.
  - destruct (lexes_total s Hs) as [ts HL]. pk s ts s1. destruct (starts ts _) eqn:Eb; [|done]. cbn [negb].
    apply starts_one in Eb as [ts' ->]; [|done]. gt s1 (TSym 40 :: ts') x q e s2. assert (s1 < s2)%nat by auto.
    apply (pthen_fuel _ _ s2); [apply IH; lia|intros a s'; eapply sound_range; [done|lia]|]. intros c s3 Hs3.
    destruct (lexes_total s3 ltac:(lia)) as [ts2 HL2]. pk s3 ts2 s4. destruct (starts ts2 _) eqn:Eb; [|done]. cbn [negb].
    gt s4 ts2 x' q' e' s5. apply (pthen_fuel _ _ s5); [apply parseredirs_fuel; lia|intros rs s'; apply Hr; lia|done].
Qed.

(** ** Completeness *)

(** What may follow a part of a line. *)
Definition follow (set : list Z) (ts : list token) : Prop := ts = [] \/ starts ts set = true.
Definition goes {A} (p : parsed A) (Q : A -> Prop) (ts : list token) : Prop :=
  p = NoFuel \/ exists a s', p = Got a s' /\ Q a /\ L s' ts.

Lemma goes_bind {A B} (m : parsed A) (k : A -> nat -> parsed B) Q R ts ts' :
  goes m Q ts -> (forall a s, Q a -> L s ts -> goes (k a s) R ts') -> goes (pthen m k) R ts'.
Proof. intros [->|(a & s & -> & HQ & HL)] H; [by left|]. by apply H. Qed.

Lemma follow_not set set' ts : follow set ts -> Forall (fun c => c ∉ set') set -> starts ts set' = false.
Proof.
  intros [->|H] Hf; [done|]. rewrite Forall_forall in Hf.
  destruct ts as [|[c| |] ts]; cbn [starts] in *; try done; apply bool_decide_eq_true in H; apply bool_decide_eq_false; by eapply Hf.
Qed.

Lemma gargs_split ts argv rs : gargs ts argv rs -> exists ts1 ts2 rs1 rs2,
  ts = ts1 ++ ts2 /\ rs = rs1 ++ rs2 /\ gargs ts1 [] rs1 /\
  ((ts2 = [] /\ argv = [] /\ rs2 = []) \/ exists w ts3 argv', ts2 = TWord w :: ts3 /\ argv = w :: argv' /\ gargs ts3 argv' rs2).
Proof.
  induction 1 as [|w ts argv rs H _|t w m ts argv rs Ht H (ts1 & ts2 & rs1 & rs2 & -> & -> & H1 & H2)].
  - exists [], [], [], []. by eauto 10.
  - exists [], (TWord w :: ts), [], rs. split_and!; try done. right. by eauto 10.
  - exists (t :: TWord w :: ts1), ts2, ((w, m) :: rs1), rs2. split_and!; try done. by constructor.
Qed.

Lemma parseredirs_complete ts1 args xs : gargs ts1 args xs -> args = [] -> forall f rs s ts2, L s (ts1 ++ ts2) ->
  starts ts2 (chars "<>") = false ->
  goes (parseredirs buf es f rs s) (fun rs' => exists new, rs' = new ++ rs /\ Forall2 rrel (reverse new) xs) ts2.
Proof.
  induction 1 as [| |t w [m d] ts argv xs Ht H IH]; [|done|]; intros Ha [|f] rs s ts2 HL Hs; [by left| |by left|]; cbn [parseredirs].
  - pk s ts2 s1. rewrite Hs. right. exists rs, s1. split_and!; try done. by exists [].
  - simpl in HL. pk s (t :: TWord w :: ts ++ ts2) s1. pose proof (redir_starts t (m, d) (TWord w :: ts ++ ts2) Ht) as Hst.
    rewrite (proj1 (Is_true_true _) Hst). gt s1 (t :: TWord w :: ts ++ ts2) x q0 e0 s2. simpl tail in *.
    gt s2 (TWord w :: ts ++ ts2) y q e s3. destruct Htok0 as [-> Hw]. simpl negb. cbv iota.
    edestruct token_is_redir as (m' & d' & Ht' & Hk); [done..|]. simplify_eq.
    rewrite (Hk _ (fun m d => parseredirs buf es f (Redir q e m d :: rs) s3)).
    destruct (IH eq_refl f (Redir q e m d :: rs) s3 ts2) as [->|(rs' & s' & -> & (new & -> & Hn) & ?)]; [done|done|by left|].
    right. exists (new ++ Redir q e m d :: rs), s'. split_and!; try done.
    exists (new ++ [Redir q e m d]). rewrite <- app_assoc, reverse_app. split; [done|]. by constructor.
Qed.

Definition stop : list Z := chars "|)&;".

Lemma parseargs_complete f : forall ts1 args xs argv rs s ts2, gargs ts1 args xs -> L s (ts1 ++ ts2) -> follow stop ts2 ->
  (ts1 = [] \/ exists w ts, ts1 = TWord w :: ts) -> (length argv + length args < MAXARGS)%nat ->
  goes (parseargs buf es f argv rs s) (fun c => exists new a, c = wrap (new ++ rs) (EXEC (argv ++ a)) /\
    Forall2 rrel (reverse new) xs /\ Forall2 reads a args) ts2.
Proof.
  induction f as [|f IH]; intros ts1 args xs argv rs s ts2 Hg HL Hfo Hsh Hlen; [by left|]. cbn [parseargs].
  pk s (ts1 ++ ts2) s1. destruct Hsh as [->|(w & ts & ->)].
  - simpl app in *. inversion Hg; subst. destruct Hfo as [->|Hst].
    + cbn [starts]. gt s1 (@nil token) x q e s2. cbn [token_at] in Htok. subst x. right. do 2 eexists. split; [done|]. split; [|done].
      exists [], []. by rewrite app_nil_r.
    + change (chars "|)&;") with stop. rewrite Hst. right. do 2 eexists. split; [done|]. split; [|done]. exists [], []. by rewrite app_nil_r.
  - simpl app in *. cbn [starts]. gt s1 (TWord w :: ts ++ ts2) x q e s2. destruct Htok as [-> Hw]. simpl tail in *.
    simpl Z.eqb. simpl negb. cbv iota zeta.
    assert (exists args', args = w :: args' /\ gargs ts args' xs) as (args' & -> & Hg').
    { inversion Hg as [|? ? ? ? ?|? ? ? ? ? ? Ht]; subst; [by eauto|done]. }
    simpl in Hlen. rewrite length_app. simpl length. destruct (Nat.leb_spec MAXARGS (length argv + 1)); [lia|].
    apply gargs_split in Hg' as (ta & tb & xa & xb & -> & -> & Ha & Hb). rewrite <- app_assoc in *.
    assert (Hb' : gargs tb args' xb /\ (tb = [] \/ exists w ts, tb = TWord w :: ts)).
    { destruct Hb as [(-> & -> & ->)|(w' & t3 & ar & -> & -> & ?)]; split; eauto. }
    eapply goes_bind; [eapply (parseredirs_complete ta [] xa Ha eq_refl); [done|]|].
    { destruct Hb as [(-> & _)|(w' & t3 & ar & -> & _)]; [|done]. eapply follow_not; [done|].
      apply (bool_decide_unpack _). by vm_compute. }
    intros rs' s3 (new & -> & Hn) HL3. destruct Hb' as [Hgb Htb].
    destruct (IH tb args' xb (argv ++ [(q, e)]) (new ++ rs) s3 ts2) as [->|(c & s4 & -> & (new' & a & -> & ? & ?) & ?)];
      [done|done|done|done|rewrite length_app; simpl; lia|by left|].
    right. do 2 eexists. split; [done|]. split; [|done]. exists (new' ++ new), ((q, e) :: a).
    rewrite reverse_app, <- !app_assoc. split_and!; [done|by apply Forall2_app|by constructor].
Qed.

Lemma parsebacks_complete n : forall f c sc s ts2, crel c sc -> L s (replicate n (TSym 38) ++ ts2) -> starts ts2 (chars "&") = false ->
  goes (parsebacks buf es f c s) (fun c' => crel c' (backs n sc)) ts2.
Proof.
  induction n as [|n IH]; intros [|f] c sc s ts2 Hc HL Hs; [by left| |by left|]; cbn [parsebacks].
  - simpl in HL. pk s ts2 s1. rewrite Hs. right. by exists c, s1.
  - cbn [replicate app] in HL. pk s (TSym 38 :: replicate n (TSym 38) ++ ts2) s1.
    gt s1 (TSym 38 :: replicate n (TSym 38) ++ ts2) x q e s2. apply (IH f (BACK c) (SBack sc)); [by constructor|done|done].
Qed.

Lemma gargs_no_block ts args xs ts2 : gargs ts args xs -> follow stop ts2 -> starts (ts ++ ts2) (chars "(") = false.
Proof.
  destruct 1 as [|w ts argv rs H|t w m ts argv rs Ht H]; intros Hf; simpl app; [|done|].
  - eapply follow_not; [done|]. apply (bool_decide_unpack _). by vm_compute.
  - pose proof (redir_starts t m [] Ht) as Hs. destruct t as [c| |]; cbn [starts] in *; [|done|done]. apply strchr_spec in Hs.
    apply bool_decide_eq_false. simpl in *. set_solver.
Qed.

(** What follows a part also follows what precedes it. *)
Lemma follow_mono set set' ts : follow set ts -> Forall (.∈ set') set -> follow set' ts.
Proof.
  intros [->|H] Hf; [by left|]. right. rewrite Forall_forall in Hf.
  destruct ts as [|[c| |] ts]; cbn [starts] in *; try done; apply bool_decide_eq_true in H; apply bool_decide_eq_true; by apply Hf.
Qed.

Lemma follow_sym c ts set : c ∈ set -> follow set (TSym c :: ts).
Proof. intros H. right. by apply bool_decide_eq_true. Qed.

Lemma follow_backs n ts set : 38 ∈ set -> follow set ts -> follow set (replicate n (TSym 38) ++ ts).
Proof. intros H1 H2. destruct n; [done|]. by apply follow_sym. Qed.

Ltac dec := apply (bool_decide_unpack _); by vm_compute.

Definition complete (ts : list token) (sc : scmd) (set : list Z) (p : nat -> nat -> parsed cmd) : Prop :=
  forall f s ts2, L s (ts ++ ts2) -> follow set ts2 -> goes (p f s) (fun c => crel c sc) ts2.

Lemma exec_args_complete ts argv rs : gargs ts argv rs -> (length argv < MAXARGS)%nat ->
  complete ts (swrap rs (SExec argv)) stop (parseexec buf es).
Proof.
  intros Hg Hlen [|f] s ts2 HL Hf; [by left|]. rewrite parseexec_S. pk s (ts ++ ts2) s1. rewrite (gargs_no_block _ _ _ _ Hg Hf).
  apply gargs_split in Hg as (ta & tb & xa & xb & -> & -> & Ha & Hb). rewrite <- app_assoc in *.
  assert (Hb' : gargs tb argv xb /\ (tb = [] \/ exists w ts, tb = TWord w :: ts)).
  { destruct Hb as [(-> & -> & ->)|(w' & t3 & ar & -> & -> & ?)]; split; eauto. }
  eapply goes_bind; [eapply (parseredirs_complete ta [] xa Ha eq_refl); [done|]|].
  { destruct Hb as [(-> & _)|(w' & t3 & ar & -> & _)]; [|done]. eapply follow_not; [done|dec]. }
  intros rs' s3 (new & -> & Hn) HL3. destruct Hb' as [Hgb Htb].
  destruct (parseargs_complete f tb argv xb [] (new ++ []) s3 ts2) as [->|(c & s4 & -> & (new' & a & -> & ? & ?) & ?)];
    [done..|by left|].
  right. do 2 eexists. split; [done|]. split; [|done]. rewrite app_nil_r.
  apply wrap_rel; [rewrite reverse_app; by apply Forall2_app|by constructor].
Qed.

Lemma exec_block_complete ts sc ts' rs : complete ts sc (chars ")") (parseline buf es) -> gargs ts' [] rs ->
  complete (TSym 40 :: ts ++ TSym 41 :: ts') (swrap rs sc) stop (parseexec buf es).
Proof.
  intros IH Hg [|[|f]] s ts2 HL Hf; [by left| |]; rewrite parseexec_S; pk s ((TSym 40 :: ts ++ TSym 41 :: ts') ++ ts2) s1; [by left|].
  cbn [app starts]. rewrite parseblock_S. cbn [app] in *. rewrite <- app_assoc in *. cbn [app] in *.
  pk s1 (TSym 40 :: ts ++ TSym 41 :: ts' ++ ts2) s2. cbn [starts]. simpl negb. cbv iota.
  gt s2 (TSym 40 :: ts ++ TSym 41 :: ts' ++ ts2) x q e s3.
  eapply goes_bind; [apply (IH f s3 (TSym 41 :: ts' ++ ts2)); [done|apply follow_sym; dec]|]. intros c s4 Hc HL4. cbv beta.
  pk s4 (TSym 41 :: ts' ++ ts2) s5. cbn [starts]. simpl negb. cbv iota. gt s5 (TSym 41 :: ts' ++ ts2) x' q' e' s6.
  eapply goes_bind; [eapply (parseredirs_complete ts' [] rs Hg eq_refl); [done|eapply follow_not; [done|dec]]|].
  intros rs' s7 (new & -> & Hn) HL7. right. do 2 eexists. split; [done|]. split; [|done]. rewrite app_nil_r. by apply wrap_rel.
Qed.

Lemma parser_complete :
  (forall ts sc, gline ts sc -> complete ts sc (chars ")") (parseline buf es)) /\
  (forall ts sc, gpipe ts sc -> complete ts sc (chars ")&;") (parsepipe buf es)) /\
  (forall ts sc, gexec ts sc -> complete ts sc stop (parseexec buf es)).
Proof.
  apply grammar_ind.
  - intros ts sc n _ IH [|f] s ts2 HL Hf; [by left|]. rewrite parseline_S. rewrite <- app_assoc in HL.
    eapply goes_bind; [apply (IH f s _ HL), follow_backs; [dec|eapply follow_mono; [exact Hf|dec]]|]. intros c s1 Hc HL1. cbv beta.
    eapply goes_bind; [apply (parsebacks_complete n f c sc s1 ts2); [done|done|eapply follow_not; [done|dec]]|].
    intros c' s2 Hc' HL2. cbv beta. pk s2 ts2 s3. rewrite (follow_not _ _ _ Hf) by dec. right. by exists c', s3.
  - intros ts sc n ts' sc' _ IH _ IH' [|f] s ts2 HL Hf; [by left|]. rewrite parseline_S. rewrite <- !app_assoc in HL. cbn [app] in HL.
    eapply goes_bind; [apply (IH f s _ HL), follow_backs; [dec|apply follow_sym; dec]|]. intros c s1 Hc HL1. cbv beta.
    eapply goes_bind; [by apply (parsebacks_complete n f c sc s1 (TSym 59 :: ts' ++ ts2))|].
    intros c' s2 Hc' HL2. cbv beta. pk s2 (TSym 59 :: ts' ++ ts2) s3. cbn [starts]. gt s3 (TSym 59 :: ts' ++ ts2) x q e s4.
    eapply goes_bind; [by apply (IH' f s4 ts2)|]. intros c2 s5 Hc2 HL5. right. do 2 eexists. split; [done|]. split; [by constructor|done].
  - intros ts sc _ IH [|f] s ts2 HL Hf; [by left|]. rewrite parsepipe_S.
    eapply goes_bind; [apply (IH f s _ HL); eapply follow_mono; [exact Hf|dec]|]. intros c s1 Hc HL1. cbv beta.
    pk s1 ts2 s2. rewrite (follow_not _ _ _ Hf) by dec. right. by exists c, s2.
  - intros ts sc ts' sc' _ IH _ IH' [|f] s ts2 HL Hf; [by left|]. rewrite parsepipe_S. rewrite <- app_assoc in HL. cbn [app] in HL.
    eapply goes_bind; [apply (IH f s _ HL), follow_sym; dec|]. intros c s1 Hc HL1. cbv beta.
    pk s1 (TSym 124 :: ts' ++ ts2) s2. cbn [starts]. gt s2 (TSym 124 :: ts' ++ ts2) x q e s3.
    eapply goes_bind; [by apply (IH' f s3 ts2)|]. intros c2 s5 Hc2 HL5. right. do 2 eexists. split; [done|]. split; [by constructor|done].
  - intros. by apply exec_block_complete.
  - intros. by apply exec_args_complete.
Qed.

(** ** The strings *)

Fixpoint ends (c : cmd) : list nat :=
  match c with
  | EXEC argv => snd <$> argv
  | REDIR c r => refile r :: ends c
  | PIPE l r | LIST l r => ends l ++ ends r
  | BACK c => ends c
  end.

(** [nulterminate] puts NULs at the ends and nowhere else. *)
Lemma nulterminate_lookup c : forall b i, (forall e, e ∈ ends c -> (e < length b)%nat) ->
  nulterminate c b !! i = (if decide (i ∈ ends c) then Some 0 else b !! i) /\ length (nulterminate c b) = length b.
Proof.
  induction c as [argv|c IH r|l IHl r IHr|l IHl r IHr|c IH]; intros b i Hb; simpl in *; [| | | |by apply IH].
  - revert b Hb. induction argv as [|a argv IH]; intros b Hb; simpl in *; [done|].
    destruct (IH (<[a.2:=0]> b)) as [-> ->]; [intros e He; rewrite length_insert; apply Hb; by right|]. rewrite length_insert.
    split; [|done]. destruct (decide (i = a.2)) as [->|Hne].
    + rewrite (decide_True (P := _ ∈ _ :: _)) by left. destruct (decide _); [done|]. apply list_lookup_insert_eq, Hb. left.
    + rewrite list_lookup_insert_ne by done. destruct (decide (i ∈ argv.*2)), (decide (i ∈ _ :: _)); set_solver.
  - destruct (IH b i) as [E1 E2]; [intros e He; apply Hb; by right|]. rewrite length_insert. split; [|done].
    destruct (decide (i = refile r)) as [->|Hne].
    + rewrite (decide_True (P := _ ∈ _ :: _)) by left. apply list_lookup_insert_eq. rewrite E2. apply Hb. left.
    + rewrite list_lookup_insert_ne, E1 by done. destruct (decide (i ∈ ends c)), (decide (i ∈ _ :: _)); set_solver.
  - destruct (IHl b i) as [E1 E2]; [intros e He; apply Hb; set_solver|].
    destruct (IHr (nulterminate l b) i) as [-> ->]; [intros e He; rewrite E2; apply Hb; set_solver|]. rewrite E1. split; [|done].
    destruct (decide (i ∈ ends r)), (decide (i ∈ ends l)), (decide (i ∈ _ ++ _)); set_solver.
  - destruct (IHl b i) as [E1 E2]; [intros e He; apply Hb; set_solver|].
    destruct (IHr (nulterminate l b) i) as [-> ->]; [intros e He; rewrite E2; apply Hb; set_solver|]. rewrite E1. split; [|done].
    destruct (decide (i ∈ ends r)), (decide (i ∈ ends l)), (decide (i ∈ _ ++ _)); set_solver.
Qed.

Lemma ends_ok c sc : crel c sc -> forall e, e ∈ ends c -> (e <= es)%nat /\ ~ is_word (chr e).
Proof.
  induction 1 as [argv ws H|c c' r w m d _ IH [Hr _]|? ? ? ? _ IH1 _ IH2|? ? ? ? _ IH1 _ IH2|c c' _ IH]; intros e He; simpl in *; [| | | |by auto].
  - apply list_elem_of_fmap in He as (a & -> & [i Ha]%list_elem_of_lookup). eapply Forall2_lookup_l in H as (w & _ & Hr); [|done].
    by destruct Hr as (? & _ & _ & _ & _ & ?).
  - apply elem_of_cons in He as [->|He]; [|by auto]. by destruct Hr as (? & _ & _ & _ & _ & ?).
  - apply elem_of_app in He as [He|He]; auto.
  - apply elem_of_app in He as [He|He]; auto.
Qed.

Lemma cstring_at b w : forall q, (forall j, (j < length w)%nat -> b !! (q + j)%nat = w !! j) -> b !! (q + length w)%nat = Some 0 ->
  Forall is_word w -> cstring (drop q b) = w.
Proof.
  induction w as [|c w IH]; intros q Hj Hz Hw; simpl in *.
  - rewrite Nat.add_0_r in Hz. by rewrite (drop_S _ _ _ Hz).
  - inversion Hw as [|? ? Hc Hw']; subst. specialize (Hj 0%nat ltac:(lia)) as H0. rewrite Nat.add_0_r in H0. simpl in H0.
    rewrite (drop_S _ _ _ H0). simpl. destruct (Z.eqb_spec c 0) as [->|_]; [done|]. f_equal. apply IH; [|by replace (S q + length w)%nat with (q + S (length w))%nat by lia|done].
    intros j Hl. specialize (Hj (S j) ltac:(lia)). by replace (S q + j)%nat with (q + S j)%nat by lia.
Qed.

(** The string at a word of the line, when NULs have been put at ends of
    words. *)
Lemma cstring_reads b a w : reads a w -> (forall i, is_word (chr i) -> b !! i = buf !! i) -> b !! snd a = Some 0 ->
  cstring (drop (fst a) b) = w.
Proof.
  intros (Hle & E & He & _ & Hw & _) Hb Hz. apply cstring_at; [|by rewrite <- He|done]. intros j Hj.
  assert (Hl : line !! (fst a + j)%nat = w !! j). { rewrite <- lookup_drop, E. by apply lookup_app_l. }
  destruct (lookup_lt_is_Some_2 w j Hj) as [c Hc]. rewrite Hb; rewrite Hc in Hl.
  - rewrite Hc. by apply lookup_app_l_Some.
  - unfold ch. rewrite (lookup_app_l_Some _ _ _ _ Hl). simpl. by eapply Forall_lookup in Hw.
Qed.

Lemma strings_nulterminate c sc : crel c sc -> strings (nulterminate c buf) c = sc.
Proof.
  intros H. assert (Hok := ends_ok c sc H).
  assert (Hn : forall i, nulterminate c buf !! i = if decide (i ∈ ends c) then Some 0 else buf !! i).
  { intros i. apply nulterminate_lookup. intros e [? _]%Hok. rewrite length_app. simpl. lia. }
  set (b := nulterminate c buf) in *. clearbody b.
  assert (Hb : forall i, is_word (chr i) -> b !! i = buf !! i).
  { intros i Hi. rewrite Hn. destruct (decide _) as [[_ ?]%Hok|_]; done. }
  assert (Hz : forall e, e ∈ ends c -> b !! e = Some 0) by (intros e He; rewrite Hn; by rewrite decide_True).
  clear Hn Hok. induction H as [argv ws H|c c' r w m d _ IH [Hr Hm]|? ? ? ? _ IH1 _ IH2|? ? ? ? _ IH1 _ IH2|c c' _ IH]; simpl in *.
  - f_equal. induction H as [|a w argv ws Hr H IH]; simpl in *; [done|].
    f_equal; [apply cstring_reads; [done..|]; apply Hz; left|apply IH; intros e He; apply Hz; by right].
  - rewrite IH by (intros e He; apply Hz; by right). injection Hm as -> ->. f_equal.
    apply (cstring_reads b (rfile r, refile r)); [done..|]. apply Hz. left.
  - rewrite IH1, IH2; [done|intros e He; apply Hz; set_solver..].
  - rewrite IH1, IH2; [done|intros e He; apply Hz; set_solver..].
  - by rewrite IH.
Qed.

Lemma L_end s : L s [] -> skp is_space s = es.
Proof.
  intros HL. apply skip_lex in HL as ([Hs H] & _ & Hh). destruct (drop_at _ Hs) as [(E & _)|(_ & E & _)]; [done|].
  rewrite E in H, Hh. specialize (Hh _ eq_refl). inversion H; simplify_eq. done.
Qed.
End line.

Lemma parsecmd_ok line : Forall (fun c => c <> 0) line ->
  parsecmd line <> NoFuel /\
  forall sc, (exists c buf s, parsecmd line = Got (c, buf) s /\ strings buf c = sc) <-> (exists ts, lexes line ts /\ gline ts sc).
Proof.
  intros Hl. unfold parsecmd. destruct (lexes_total line Hl 0 ltac:(lia)) as [ts0 HL0].
  destruct (parser_fuel line Hl (parse_fuel line) 0) as [Hfuel _]; [lia|]. specialize (Hfuel ltac:(unfold parse_fuel; lia)).
  split.
  { destruct (parseline _ _ _ _) as [c s| |]; cbn [pthen]; [|done|done]. destruct (peek _ _ _ _) as [b s']. by destruct (negb _). }
  intros sc. split.
  - intros (c & b & s & E & <-). destruct (parseline _ _ _ _) as [c1 s1| |] eqn:E1; cbn [pthen] in E; [|done|done].
    destruct (proj1 (parser_sound line Hl (parse_fuel line)) _ ts0 c1 s1 HL0 E1) as (ts1 & ts2 & sc & -> & HL & _ & Hg & Hc).
    destruct (peek_spec line Hl [] s1 ts2 ltac:(constructor) HL) as (s2 & Ep & HL2 & _). rewrite Ep in E.
    destruct (Nat.eqb_spec s2 (length line)) as [Es|]; [|done]. subst s2. injection E as <- <- <-.
    assert (ts2 = []) as ->. { destruct HL2 as [_ H]. rewrite drop_all in H. remember [] as l eqn:El in H.
      destruct H as [| | | | |w ? ? Hw]; simplify_eq; [done|]. by destruct w. }
    exists ts1. rewrite app_nil_r in HL0. split; [by destruct HL0|]. by rewrite (strings_nulterminate line Hl c1 sc).
  - intros (ts & Hlex & Hg). assert (HL : L line 0 (ts ++ [])) by (rewrite app_nil_r; split; [lia|done]).
    destruct (proj1 (parser_complete line Hl) ts sc Hg (parse_fuel line) 0%nat [] HL ltac:(by left)) as [E|(c & s & E & Hc & HL')]; [done|].
    rewrite E. cbn [pthen]. unfold peek. rewrite (L_end line Hl s HL'), Nat.eqb_refl. simpl negb. cbv iota.
    do 3 eexists. split; [done|]. by apply strings_nulterminate.
Qed.

(** C32. The shell's parser on any line: [parsecmd] always returns, and it
    returns a command exactly when the line's tokens are in the grammar; the
    strings the command then points to, with the NULs that [nulterminate] has
    put into the line, are the words of the line in their places. *)
Theorem parsecmd_grammar line : Forall (fun c => c <> 0) line ->
  parsecmd line <> NoFuel /\
  forall sc, (exists c buf s, parsecmd line = Got (c, buf) s /\ strings buf c = sc) <-> (exists ts, lexes line ts /\ gline ts sc).
Proof. apply parsecmd_ok. Qed.

Definition demo_line : list Z := chars "cat<f a|(wc -l;x)>>y&".

Lemma parsecmd_grammar_witness : parsecmd demo_line <> NoFuel /\ exists ts, lexes demo_line ts /\
  gline ts (SBack (SPipe (SRedir (SExec [chars "cat"; chars "a"]) (chars "f") 0 0)
    (SRedir (SList (SExec [chars "wc"; chars "-l"]) (SExec [chars "x"])) (chars "y") 513 1))).
Proof.
  destruct (parsecmd_grammar demo_line) as [H1 H2]; [by repeat constructor|]. split; [done|]. apply H2.
  do 3 eexists. split; vm_compute; reflexivity.
Defined.
