(* ===== verification/Shell.v ===== *)
(** * The shell's commands (sh.c)

    [runcmd] and the main loop of the shell as programs over system calls.
    The theorem follows the processes that a command forks, each with its own
    table of descriptors, up to the programs they become. *)

From stdpp Require Import base numbers list gmap strings.
From ITree Require Import ITree.
From Stdlib Require Import ZArith Lia.
From S2P Require Import Prelude Abi Kstring Printf User Sh.

Local Open Scope Z_scope.
Local Open Scope user_scope.

(** ** The code *)

Definition panic {A} (s : list Z) : user A := printf 2 (chars "%s" ++ [10]) [FStr s] >>> exit.

Definition fork1 : user Z :=
  do pid <- call Fork in
  if pid =? -1 then panic (chars "fork") else Ret pid.

(** The words of an [execcmd]: the strings its pointers point to. *)
Definition words (buf : list Z) (argv : list (nat * nat)) : list (list Z) := (fun a => cstring (drop (fst a) buf)) <$> argv.

(** [runcmd], which never returns: a branch for [fork1() == 0] that runs a
    command does not come to what follows it. *)
Fixpoint runcmd (buf : list Z) (c : cmd) : user Empty_set :=
  match c with
  | EXEC argv =>
      match words buf argv with
      | [] => exit
      | a :: args =>
          printf 2 (chars "argv:%s %s" ++ [10]) [FStr a; FStr (match args with b :: _ => b | [] => null_str end)] >>>
          do ret <- call (Exec a (a :: args)) in
          printf 2 (chars "exec %s failed here:%d" ++ [10]) [FStr a; FInt ret] >>> exit
      end
  | REDIR c r =>
      let file := cstring (drop (rfile r) buf) in
      call (Close (rfd r)) >>>
      do fd <- call (Open file (rmode r)) in
      if fd <? 0 then printf 2 (chars "open %s failed" ++ [10]) [FStr file] >>> exit
      else runcmd buf c
  | LIST l r =>
      do pid <- fork1 in
      if pid =? 0 then runcmd buf l
      else call Wait >>> runcmd buf r
  | PIPE l r =>
      do (res, (p0, p1)) <- call Pipe in
      if res <? 0 then panic (chars "pipe")
      else
        do pid <- fork1 in
        if pid =? 0 then
          call (Close 1) >>> call (Dup p1) >>> call (Close p0) >>> call (Close p1) >>> runcmd buf l
        else
          do pid <- fork1 in
          if pid =? 0 then
            call (Close 0) >>> call (Dup p0) >>> call (Close p0) >>> call (Close p1) >>> runcmd buf r
          else
            call (Close p0) >>> call (Close p1) >>> call Wait >>> call Wait >>> exit
  | BACK c =>
      do pid <- fork1 in
      if pid =? 0 then runcmd buf c else exit
  end.

(** [gets] of ulib.c: the bytes read. *)
Definition gets (max : nat) : user (list Z) :=
  ITree.iter (fun got =>
    if (length got + 1 <? max)%nat then
      do (cc, c) <- call (Read 0 1) in
      if cc <? 1 then Ret (inr got)
      else
        let got := got ++ c in
        Ret (if bool_decide (c = [10] \/ c = [13]) then inr got else inl got)
    else Ret (inr got)) [].

(** [getcmd]: the line; [None] for -1. *)
Definition getcmd (nbuf : nat) : user (option (list Z)) :=
  printf 2 (chars "$ ") [] >>>
  do got <- gets nbuf in
  let line := cstring got in
  Ret (match line with [] => None | _ => Some line end).

(** The messages of the constructors that built a command, in the order in
    which the parser called them: a constructor is called after its arguments
    are parsed. *)
Fixpoint messages (c : cmd) : user unit :=
  match c with
  | EXEC _ => printf 2 (chars "execcmd" ++ [10]) []
  | REDIR c _ => messages c >>> printf 2 (chars "redicmd" ++ [10]) []
  | PIPE l r => messages l >>> messages r >>> printf 2 (chars "pipe cmd" ++ [10]) []
  | LIST l r => messages l >>> messages r >>> printf 2 (chars "listcmd" ++ [10]) []
  | BACK c => messages c >>> printf 2 (chars "backcmd" ++ [10]) []
  end.

(** The messages before a syntax error.  For a line that [parseline] itself
    rejects, those of the constructors it had called are left out. *)
Definition leftovers (line : list Z) : user unit :=
  let buf := line ++ [0] in
  match parseline buf (length line) (parse_fuel line) 0 with
  | Got c s =>
      let '(_, s) := peek buf (length line) s [] in
      messages c >>> printf 2 (chars "leftovers: %s" ++ [10]) [FStr (cstring (drop s buf))]
  | _ => Ret tt
  end.

(** What the child does with a line, when [malloc] always finds room. *)
Definition run_line (line : list Z) : user Empty_set :=
  match parsecmd line with
  | Got (c, buf) _ => messages c >>> runcmd buf c
  | Syntax msg => leftovers line >>> panic (chars msg)
  | NoFuel => exit
  end.

Definition main : user unit :=
  ITree.iter (fun _ : unit =>
    do fd <- call (Open (chars "console") O_RDWR) in
    if 0 <=? fd then
      if 3 <=? fd then call (Close fd) >>> Ret (inr tt) else Ret (inl tt)
    else Ret (inr tt)) tt >>>
  ITree.iter (fun _ : unit =>
    do r <- getcmd 100 in
    match r with
    | None => exit
    | Some line =>
        if bool_decide (take 3 line = chars "cd ") then
          let dir := drop 3 (take (length line - 1) line) in
          do r <- call (Chdir dir) in
          (if r <? 0 then printf 2 (chars "cannot cd %s" ++ [10]) [FStr dir] else Ret tt) >>> Ret (inl tt)
        else
          do pid <- fork1 in
          if pid =? 0 then do x <- run_line line in match (x : Empty_set) with end
          else call Wait >>> Ret (inl tt)
    end) tt.

(** ** Processes and their descriptors *)

(** What a descriptor stands for; a pipe is named by the process that made
    it and a number. *)
Inductive obj : Type :=
| Inherited (n : nat)
| Opened (file : list Z) (mode : Z)
| PipeEnd (wr : bool) (id : list nat * nat).

(** A process: its descriptors, its path in the tree of forks and the number
    of its children. *)
Record penv : Type := PEnv { tab : gmap nat obj; ppath : list nat; forks : nat }.

Definition set_tab (f : gmap nat obj -> gmap nat obj) (e : penv) : penv := PEnv (f (tab e)) (ppath e) (forks e).
Definition child (e : penv) : penv := PEnv (tab e) (ppath e ++ [forks e]) 0.
Definition forked (e : penv) : penv := PEnv (tab e) (ppath e) (S (forks e)).

(** The lowest free descriptor. *)
Fixpoint lowest_from (n i : nat) (t : gmap nat obj) : nat :=
  match n with
  | O => i
  | S n => match t !! i with None => i | Some _ => lowest_from n (S i) t end
  end.
Definition lowest (t : gmap nat obj) : nat := lowest_from (size t) 0 t.

(** The calls on descriptors; [open] and [exec] find the files they look
    for. *)
Definition proc_os (X : Type) (e : userE X) (s : penv) : option (X * penv) :=
  match e in userE X return option (X * penv) with
  | Write fd bs => Some (Z.of_nat (length bs), s)
  | Open file mode => let n := lowest (tab s) in Some (Z.of_nat n, set_tab (<[n := Opened file mode]>) s)
  | Close fd => Some (0, set_tab (delete (Z.to_nat fd)) s)
  | Dup fd =>
      match tab s !! Z.to_nat fd with
      | Some o => let n := lowest (tab s) in Some (Z.of_nat n, set_tab (<[n := o]>) s)
      | None => Some (-1, s)
      end
  | Pipe =>
      let p0 := lowest (tab s) in
      let t := <[p0 := PipeEnd false (ppath s, forks s)]> (tab s) in
      let p1 := lowest t in
      Some ((0, (Z.of_nat p0, Z.of_nat p1)), set_tab (fun _ => <[p1 := PipeEnd true (ppath s, forks s)]> t) s)
  | _ => None
  end.

(** What a process and its children come to: programs that they become, with
    path, arguments and descriptors; and processes of the shell that wait for
    a child, with the descriptors that they keep open meanwhile. *)
Inductive fate : Type :=
| Runs (path : list Z) (argv : list (list Z)) (t : gmap nat obj)
| Waits (t : gmap nat obj).

Definition fate_tab (f : fate) : gmap nat obj := match f with Runs _ _ t | Waits t => t end.

Inductive becomes {A : Type} : itree' userE A -> penv -> list fate -> Prop :=
| b_exit k e : becomes (VisF Exit k) e []
| b_exec p argv k e : becomes (VisF (Exec p argv) k) e [Runs p argv (tab e)]
| b_fork k e pid l1 l2 : 0 < pid -> becomes (observe (k 0)) (child e) l1 -> becomes (observe (k pid)) (forked e) l2 ->
    becomes (VisF Fork k) e (l1 ++ l2)
| b_wait k e x l : becomes (observe (k x)) e l -> becomes (VisF Wait k) e (Waits (tab e) :: l)
| b_call X (c : userE X) k e x e1 l : proc_os X c e = Some (x, e1) -> becomes (observe (k x)) e1 l -> becomes (VisF c k) e l
| b_tau t e l : becomes (observe t) e l -> becomes (TauF t) e l
| b_ret a e : becomes (RetF a) e [].

Definition fates {A} (t : user A) (e : penv) (l : list fate) : Prop := becomes (observe t) e l.

(** What a command line means: the programs with the descriptors they should
    have, and the shells that wait for them with no descriptors but those they
    were given. *)
Fixpoint denote (c : scmd) (e : penv) : list fate :=
  match c with
  | SExec [] => []
  | SExec (a :: args) => [Runs a (a :: args) (tab e)]
  | SRedir c file mode fd => denote c (set_tab (<[Z.to_nat fd := Opened file mode]>) e)
  | SList l r => denote l (child e) ++ Waits (tab e) :: denote r (forked e)
  | SPipe l r =>
      let id := (ppath e, forks e) in
      denote l (set_tab (<[1%nat := PipeEnd true id]>) (child e)) ++
      denote r (set_tab (<[0%nat := PipeEnd false id]>) (child (forked e))) ++
      [Waits (tab e); Waits (tab e)]
  | SBack c => denote c (child e)
  end.

(** ** The shell runs what the line says *)

Lemma fates_bind {A B} (t : user A) (k : A -> user B) e a e1 l :
  runs_to proc_os t e (Some a) e1 -> fates (k a) e1 l -> fates (ITree.bind t k) e l.
Proof.
  unfold fates, runs_to. rewrite observe_bind. intros H Hk. remember (Some a) as oa eqn:E. revert E.
  induction H as [|t' w o' w3 H IH|k' w|X c k' w x w2 o' w3 He H IH]; intros E; simplify_eq; [done| |].
  - apply b_tau. rewrite observe_bind. by apply IH.
  - eapply b_call; [done|]. rewrite observe_bind. by apply IH.
Qed.

Lemma fates_call {X B} (c : userE X) (k : X -> user B) e x e1 l :
  proc_os X c e = Some (x, e1) -> fates (k x) e1 l -> fates (do x <- call c in k x) e l.
Proof. intros H Hk. eapply fates_bind; [|done]. eapply ends_call; [done|]. apply ends_ret. Qed.

Lemma fates_wait {B} (k : Z -> user B) e l : fates (k 1) e l -> fates (do x <- call Wait in k x) e (Waits (tab e) :: l).
Proof. intros H. unfold fates, call. rewrite observe_bind. apply (b_wait _ e 1). cbn. by rewrite observe_bind. Qed.

Lemma puts_silent fd cs e : runs_to proc_os (puts fd cs) e (Some tt) e.
Proof. induction cs as [|c cs IH]; simpl; [apply runs_ret|]. by eapply runs_call. Qed.

Lemma messages_silent c e : runs_to proc_os (messages c) e (Some tt) e.
Proof.
  induction c; simpl; repeat (eapply runs_bind; [eassumption|]); apply puts_silent.
Qed.

Lemma fates_exit {A} e : fates (A := A) exit e [].
Proof. unfold fates, exit, call. rewrite observe_bind. apply b_exit. Qed.

Lemma fates_fork {B} (k : Z -> user B) e l1 l2 : fates (k 0) (child e) l1 -> fates (k 1) (forked e) l2 ->
  fates (do pid <- fork1 in k pid) e (l1 ++ l2).
Proof.
  intros H1 H2. unfold fates, fork1. rewrite !observe_bind. apply (b_fork _ e 1); [done| |]; rewrite !observe_bind; done.
Qed.

(** The lowest free descriptor is free, and all below it are in use. *)
Lemma lowest_from_spec n : forall i t, (i <= lowest_from n i t)%nat /\ (forall j, (i <= j < lowest_from n i t)%nat -> is_Some (t !! j)) /\
  (t !! lowest_from n i t = None \/ lowest_from n i t = (i + n)%nat).
Proof.
  induction n as [|n IH]; intros i t; simpl; [split_and!; [lia|lia|right; lia]|]. destruct (t !! i) as [o|] eqn:E.
  - destruct (IH (S i) t) as (H1 & H2 & H3). split_and!; [lia| |destruct H3 as [H3|H3]; [by left|right; lia]].
    intros j Hj. destruct (decide (j = i)) as [->|]; [by rewrite E|]. apply H2. lia.
  - split_and!; [lia|lia|by left].
Qed.

Lemma dom_size n (t : gmap nat obj) : (forall j, (j < n)%nat -> is_Some (t !! j)) -> (n <= size t)%nat.
Proof.
  intros H. assert (Hs : (list_to_set (seq 0 n) : gset nat) ⊆ dom t).
  { intros j Hj. apply elem_of_list_to_set, elem_of_seq in Hj. apply elem_of_dom, H. lia. }
  apply subseteq_size in Hs. rewrite size_list_to_set, length_seq, size_dom in Hs by apply NoDup_seq. done.
Qed.

Lemma lowest_free t : t !! lowest t = None /\ forall j, (j < lowest t)%nat -> is_Some (t !! j).
Proof.
  unfold lowest. destruct (lowest_from_spec (size t) 0 t) as (_ & H2 & H3). split; [|intros j Hj; apply H2; lia].
  destruct H3 as [H3|H3]; [done|]. destruct (t !! lowest_from (size t) 0 t) as [o|] eqn:E; [|done].
  rewrite H3 in *. simpl in *. assert (S (size t) <= size t)%nat; [|lia]. apply dom_size. intros j Hj.
  destruct (decide (j = size t)) as [->|]; [by rewrite E|]. apply H2. lia.
Qed.

Lemma lowest_is t n : t !! n = None -> (forall j, (j < n)%nat -> is_Some (t !! j)) -> lowest t = n.
Proof.
  intros Hn Hj. destruct (lowest_free t) as [H1 H2]. destruct (Nat.lt_trichotomy (lowest t) n) as [H|[H|H]]; [|done|].
  - apply Hj in H. by rewrite H1 in H; destruct H.
  - apply H2 in H. by rewrite Hn in H; destruct H.
Qed.

(** The standard descriptors are open. *)
Definition std (e : penv) : Prop := forall j, (j < 3)%nat -> is_Some (tab e !! j).

Lemma std_insert e n o : std e -> std (set_tab (<[n := o]>) e).
Proof. intros H j Hj. simpl. destruct (decide (n = j)) as [->|]; [by rewrite lookup_insert_eq|]. rewrite lookup_insert_ne by done. by apply H. Qed.

Lemma std_child e : std e -> std (child e).
Proof. done. Qed.
Lemma std_forked e : std e -> std (forked e).
Proof. done. Qed.
#[local] Hint Resolve std_insert std_child std_forked : core.

(** Redirections are of the standard input and output. *)
Fixpoint redirs_ok (c : scmd) : Prop :=
  match c with
  | SExec _ => True
  | SRedir c _ _ fd => (fd = 0 \/ fd = 1) /\ redirs_ok c
  | SPipe l r | SList l r => redirs_ok l /\ redirs_ok r
  | SBack c => redirs_ok c
  end.

(** [close(fd)] and a call that takes the lowest descriptor replace a
    standard descriptor. *)
Lemma lowest_closed e n : std e -> (n < 3)%nat -> lowest (delete n (tab e)) = n.
Proof.
  intros H Hn. apply lowest_is; [apply lookup_delete_eq|]. intros j Hj. rewrite lookup_delete_ne by lia. apply H. lia.
Qed.

Section pipe.
Context (e : penv) (He : std e) (id : list nat * nat).
Let p0 := lowest (tab e).
Let t1 := <[p0 := PipeEnd false id]> (tab e).
Let p1 := lowest t1.
Let t2 := <[p1 := PipeEnd true id]> t1.

Lemma pipe_ends : (3 <= p0)%nat /\ (3 <= p1)%nat /\ p0 <> p1 /\ tab e !! p0 = None /\ tab e !! p1 = None.
Proof.
  destruct (lowest_free (tab e)) as [H1 _], (lowest_free t1) as [H3 _]. fold p0 in H1. fold p1 in H3.
  assert (p0 <> p1). { intros E. subst t1. rewrite <- E, lookup_insert_eq in H3. done. }
  assert (H5 : tab e !! p1 = None). { subst t1. by rewrite lookup_insert_ne in H3. }
  split_and!; try done.
  - destruct (decide (p0 < 3)%nat) as [Hl|]; [|lia]. apply He in Hl. rewrite H1 in Hl. by destruct Hl.
  - destruct (decide (p1 < 3)%nat) as [Hl|]; [|lia]. apply He in Hl. rewrite H5 in Hl. by destruct Hl.
Qed.

(** A child puts an end of the pipe in the place of a standard descriptor and
    closes the other names of the pipe. *)
Lemma pipe_child {A} (k : user A) d wr pp n l : (d < 3)%nat ->
  fates k (PEnv (<[d := PipeEnd wr id]> (tab e)) pp n) l ->
  fates (call (Close (Z.of_nat d)) >>> call (Dup (Z.of_nat (if wr then p1 else p0))) >>>
    call (Close (Z.of_nat p0)) >>> call (Close (Z.of_nat p1)) >>> k) (PEnv t2 pp n) l.
Proof.
  intros Hd Hk. destruct pipe_ends as (H0 & H1 & Hne & N0 & N1).
  assert (Hstd : std (PEnv t2 pp n)) by (unfold t2, t1; apply (std_insert (PEnv t1 pp n)), (std_insert (PEnv (tab e) pp n)), He).
  eapply fates_call; [done|]. eapply fates_call.
  { cbn [proc_os]. rewrite !Nat2Z.id. cbn [set_tab tab].
    assert (Hp : delete d t2 !! (if wr then p1 else p0) = Some (PipeEnd wr id)).
    { rewrite lookup_delete_ne by (destruct wr; lia). unfold t2, t1. destruct wr; [apply lookup_insert_eq|].
      rewrite lookup_insert_ne by done. apply lookup_insert_eq. }
    rewrite Hp, (lowest_closed (PEnv t2 pp n)) by done. done. }
  eapply fates_call; [done|]. eapply fates_call; [done|]. rewrite !Nat2Z.id. unfold set_tab. cbn [tab ppath forks].
  assert (Ht : <[d := PipeEnd wr id]> (tab e) = delete p1 (delete p0 (<[d := PipeEnd wr id]> (delete d t2) : gmap nat obj))); [|by rewrite <- Ht].
  apply map_eq. intros i. unfold t2, t1. destruct (decide (i = d)) as [->|]; [|destruct (decide (i = p0)) as [->|]; [|destruct (decide (i = p1)) as [->|]]].
  - rewrite !lookup_delete_ne, !lookup_insert_eq by lia. done.
  - rewrite lookup_delete_ne, lookup_delete_eq, lookup_insert_ne by lia. done.
  - rewrite lookup_delete_eq, lookup_insert_ne by lia. done.
  - by rewrite !lookup_delete_ne, !lookup_insert_ne, lookup_delete_ne, !lookup_insert_ne by lia.
Qed.

(** The shell that made the pipe keeps none of its names. *)
Lemma pipe_parent {A} (k : user A) pp n l : fates k (PEnv (tab e) pp n) l ->
  fates (call (Close (Z.of_nat p0)) >>> call (Close (Z.of_nat p1)) >>> k) (PEnv t2 pp n) l.
Proof.
  intros Hk. destruct pipe_ends as (H0 & H1 & Hne & N0 & N1).
  do 2 (eapply fates_call; [done|]). rewrite !Nat2Z.id. unfold set_tab. cbn [tab ppath forks]. unfold t2, t1.
  assert (Ht : tab e = delete p1 (delete p0 (<[p1 := PipeEnd true id]> (<[p0 := PipeEnd false id]> (tab e))))); [|by rewrite <- Ht].
  apply map_eq. intros i. destruct (decide (i = p1)) as [->|]; [by rewrite lookup_delete_eq|].
  rewrite lookup_delete_ne by done. destruct (decide (i = p0)) as [->|]; [by rewrite lookup_delete_eq|].
  by rewrite lookup_delete_ne, !lookup_insert_ne by done.
Qed.
End pipe.

Lemma runcmd_fates buf c : forall e, std e -> redirs_ok (strings buf c) ->
  fates (runcmd buf c) e (denote (strings buf c) e).
Proof.
  induction c as [argv|c IH r|l IHl r IHr|l IHl r IHr|c IH]; intros e He Hr; cbn [runcmd strings denote redirs_ok] in *.
  - fold (words buf argv). destruct (words buf argv) as [|a args]; [apply fates_exit|].
    eapply fates_bind; [apply puts_silent|]. unfold fates, call. rewrite observe_bind. apply b_exec.
  - destruct Hr as [Hfd Hr]. assert (Hn : (Z.to_nat (rfd r) < 3)%nat) by lia.
    eapply fates_call; [done|]. eapply fates_call; [done|]. cbn [set_tab tab]. rewrite lowest_closed by done.
    destruct (Z.ltb_spec (Z.of_nat (Z.to_nat (rfd r))) 0); [lia|].
    replace (set_tab _ (set_tab _ e)) with (set_tab (<[Z.to_nat (rfd r) := Opened (cstring (drop (rfile r) buf)) (rmode r)]>) e).
    + apply IH; [by apply std_insert|done].
    + unfold set_tab. simpl. by rewrite insert_delete_eq.
  - destruct Hr as [Hl Hr]. eapply fates_call; [done|]. cbn beta iota. simpl Z.ltb. cbv iota.
    destruct (pipe_ends e He (ppath e, forks e)) as (H0 & H1 & Hne & N0 & N1).
    apply fates_fork; cbn beta iota.
    + simpl Z.eqb. cbv iota. apply (pipe_child e He (ppath e, forks e) _ 1 true); [lia|].
      apply (IHl (set_tab (<[1%nat := PipeEnd true (ppath e, forks e)]>) (child e))); [auto|done].
    + simpl Z.eqb. cbv iota. apply fates_fork; cbn beta.
      * simpl Z.eqb. cbv iota. apply (pipe_child e He (ppath e, forks e) _ 0 false); [lia|].
        apply (IHr (set_tab (<[0%nat := PipeEnd false (ppath e, forks e)]>) (child (forked e)))); [auto|done].
      * simpl Z.eqb. cbv iota. apply (pipe_parent e He (ppath e, forks e)).
        do 2 apply (fates_wait _ (PEnv (tab e) _ _)). apply fates_exit.
  - destruct Hr as [Hl Hr]. apply fates_fork; [by apply IHl; [auto|]|]. apply (fates_wait _ (forked e)), IHr; [auto|done].
  - rewrite <- (app_nil_r (denote _ _)). apply fates_fork; [by apply IH; [auto|]|apply fates_exit].
Qed.

Lemma swrap_ok rs c : Forall (fun r : list Z * (Z * Z) => snd (snd r) = 0 \/ snd (snd r) = 1) rs -> redirs_ok c -> redirs_ok (swrap rs c).
Proof. revert c. induction rs as [|r rs IH]; intros c H Hc; [done|]. inversion H; subst. by apply IH. Qed.

Lemma gargs_ok ts argv rs : gargs ts argv rs -> Forall (fun r : list Z * (Z * Z) => snd (snd r) = 0 \/ snd (snd r) = 1) rs.
Proof.
  induction 1 as [|w ts argv rs _ IH|t w m ts argv rs Ht _ IH]; [constructor|done|]. constructor; [|done].
  destruct t as [c| |]; simpl in *; [|by injection Ht as <-; right|done].
  destruct (c =? 60); [by injection Ht as <-; left|]. destruct (c =? 62); [by injection Ht as <-; right|done].
Qed.

Lemma backs_ok n c : redirs_ok c -> redirs_ok (backs n c).
Proof. revert c. induction n as [|n IH]; intros c H; [done|]. by apply IH. Qed.

Lemma grammar_ok : (forall ts c, gline ts c -> redirs_ok c) /\ (forall ts c, gpipe ts c -> redirs_ok c) /\
  (forall ts c, gexec ts c -> redirs_ok c).
Proof.
  apply grammar_ind; intros; simpl; repeat split; eauto using backs_ok, swrap_ok, gargs_ok.
  all: apply swrap_ok; [by eapply gargs_ok|done].
Qed.

(** Whatever a command comes to has, apart from the standard input and output,
    the descriptors of the shell that runs it. *)
Lemma denote_others c : forall e f n, redirs_ok c -> f ∈ denote c e -> (2 <= n)%nat -> fate_tab f !! n = tab e !! n.
Proof.
  induction c as [[|a args]|c IH file mode fd|l IHl r IHr|l IHl r IHr|c IH]; intros e f n Hr Hf Hn;
    cbn [denote redirs_ok] in *; rewrite ?elem_of_app, ?elem_of_cons in Hf; try solve [set_solver].
  - destruct Hr as [Hfd Hr]. rewrite (IH _ _ _ Hr Hf Hn). apply lookup_insert_ne. lia.
  - destruct Hr as [Hl Hr], Hf as [Hf|[Hf|Hf]]; [rewrite (IHl _ _ _ Hl Hf Hn)|rewrite (IHr _ _ _ Hr Hf Hn)|set_solver];
      apply lookup_insert_ne; lia.
  - destruct Hr as [Hl Hr], Hf as [Hf|[->|Hf]]; [by rewrite (IHl _ _ _ Hl Hf Hn)|done|by rewrite (IHr _ _ _ Hr Hf Hn)].
  - by rewrite (IH _ _ _ Hr Hf Hn).
Qed.

(** C33. A line of the shell's grammar, run by the shell with the standard
    descriptors open, becomes exactly the programs it names, in order, each
    with its arguments and descriptors: redirections replace the standard
    input or output, and a pipe connects its two sides.  Nothing else refers
    to the pipe: the shell waits for the two sides with the descriptors it had
    before it made the pipe, and no program and no waiting shell has a
    descriptor from 2 on that the first shell had not. *)
Theorem shell_runs line ts sc e : Forall (fun c => c <> 0) line -> lexes line ts -> gline ts sc -> std e ->
  fates (run_line line) e (denote sc e) /\
  forall f n, f ∈ denote sc e -> (2 <= n)%nat -> fate_tab f !! n = tab e !! n.
Proof.
  intros Hl Hlex Hg He. destruct (parsecmd_ok line Hl) as [_ Hp].
  destruct (proj2 (Hp sc)) as (c & buf & s & E & Hs); [by eauto|]. pose proof (proj1 grammar_ok _ _ Hg) as Hr.
  split; [|intros f n; by apply denote_others]. unfold run_line. rewrite E. subst sc.
  eapply fates_bind; [apply messages_silent|]. by apply runcmd_fates.
Qed.

Definition demo_env : penv := PEnv {[0%nat := Inherited 0; 1%nat := Inherited 1; 2%nat := Inherited 2]} [] 0.

Lemma shell_runs_witness : fates (run_line (chars "a b|c>d")) demo_env
  [Runs (chars "a") [chars "a"; chars "b"] {[0%nat := Inherited 0; 1%nat := PipeEnd true ([], 0%nat); 2%nat := Inherited 2]};
   Runs (chars "c") [chars "c"] {[0%nat := PipeEnd false ([], 0%nat); 1%nat := Opened (chars "d") 513; 2%nat := Inherited 2]};
   Waits (tab demo_env); Waits (tab demo_env)].
Proof.
  apply (shell_runs (chars "a b|c>d") [TWord (chars "a"); TWord (chars "b"); TSym 124; TWord (chars "c"); TSym 62; TWord (chars "d")]
    (SPipe (SExec [chars "a"; chars "b"]) (SRedir (SExec [chars "c"]) (chars "d") 513 1)) demo_env).
  - by repeat constructor.
  - apply (lex_word [97]); [done|by apply (bool_decide_unpack _)|intros c [= <-]; by vm_compute|]. apply lex_space; [done|].
    apply (lex_word [98]); [done|by apply (bool_decide_unpack _)|intros c [= <-]; by vm_compute|]. apply lex_sym; [done|].
    apply (lex_word [99]); [done|by apply (bool_decide_unpack _)|intros c [= <-]; by vm_compute|]. apply lex_out; [done|].
    apply (lex_word [100] []); [done|by apply (bool_decide_unpack _)|done|constructor].
  - apply (line_one [_; _; _; _; _; _] _ 0), (pipe_more [_; _] _ [_; _; _]); [|apply pipe_one].
    + by apply (exec_args _ [_; _] []); repeat constructor.
    + by apply (exec_args _ [_] [(chars "d", (513, 1))]); repeat constructor.
  - intros [|[|[|j]]] Hj; try lia; by eexists.
Defined.
