(* ===== verification/Ring.v ===== *)
(** * Ring buffers

    Pipes and the console keep bytes in an array of a power-of-two size,
    indexed by [uint] counters that only grow and wrap around at 2^32.  A
    segment of such an array is the list of its bytes from a counter on. *)

From stdpp Require Import base numbers list gmap strings.
From Stdlib Require Import ZArith Lia.
From S2P Require Import Prelude.

Local Open Scope Z_scope.

Section ring.
Context (N : Z) (HN : 0 < N) (Hdiv : (N | 2 ^ 32)).

(** The place of the counter [r] moved by [i]. *)
Definition slot (r i : Z) : Z := u32 (r + i) mod N.

(** The [n] bytes from the counter [r] on. *)
Definition segment (buf : list Z) (r n : Z) : list Z :=
  (fun i => aget 0 buf (slot r i)) <$> seqZ 0 n.

Lemma slot_mod r i : slot r i = (r + i) mod N.
Proof. unfold slot, u32. by apply Z.mod_mod_divide. Qed.

Lemma slot_range r i : 0 <= slot r i < N.
Proof. rewrite slot_mod. by apply Z.mod_pos_bound. Qed.

Lemma slot_shift r i j : slot (u32 (r + i)) j = slot r (i + j).
Proof.
  unfold slot. f_equal. unfold u32. rewrite Z.add_mod_idemp_l by lia. f_equal. lia.
Qed.

Lemma slot_inj r i j : 0 <= i < N -> 0 <= j < N -> slot r i = slot r j -> i = j.
Proof.
  rewrite !slot_mod. intros Hi Hj E.
  pose proof (Z.div_mod (r + i) N ltac:(lia)) as H1. pose proof (Z.div_mod (r + j) N ltac:(lia)) as H2.
  rewrite E in H1. assert (i - j = N * ((r + i) / N - (r + j) / N)) as H3 by lia.
  assert ((r + i) / N - (r + j) / N = 0); [nia|lia].
Qed.

Lemma length_segment buf r n : 0 <= n -> Z.of_nat (length (segment buf r n)) = n.
Proof. intros. unfold segment. rewrite length_fmap, length_seqZ. lia. Qed.

Lemma segment_nil buf r : segment buf r 0 = [].
Proof. done. Qed.

Lemma segment_app buf r n k : 0 <= n -> 0 <= k ->
  segment buf r (n + k) = segment buf r n ++ segment buf (u32 (r + n)) k.
Proof.
  intros Hn Hk. unfold segment. rewrite seqZ_app by done. rewrite fmap_app. f_equal.
  rewrite Z.add_0_l. replace n with (n + 0) at 1 by lia. rewrite <- fmap_add_seqZ.
  rewrite <- list_fmap_compose. apply list_fmap_ext. intros i x _. simpl. by rewrite slot_shift.
Qed.

Lemma segment_one buf r : segment buf r 1 = [aget 0 buf (slot r 0)].
Proof. done. Qed.

(** Popping a byte. *)
Lemma segment_pop buf r n : 0 < n ->
  segment buf r n = aget 0 buf (slot r 0) :: segment buf (u32 (r + 1)) (n - 1).
Proof. intros. replace n with (1 + (n - 1)) at 1 by lia. by rewrite segment_app by lia. Qed.

(** Writing outside a segment. *)
Lemma segment_aset buf r n m x : Z.of_nat (length buf) = N -> 0 <= n <= m -> m < N ->
  segment (aset buf (slot r m) x) r n = segment buf r n.
Proof.
  intros Hl Hn Hm. unfold segment. apply list_fmap_ext. intros i y Hy.
  apply lookup_seqZ in Hy as [-> Hi]. rewrite aget_aset_ne; [done|].
  intros E%slot_inj; lia.
Qed.

(** Pushing a byte. *)
Lemma segment_push buf r n x : Z.of_nat (length buf) = N -> 0 <= n < N ->
  segment (aset buf (slot r n) x) r (n + 1) = segment buf r n ++ [x].
Proof.
  intros Hl Hn. rewrite segment_app by lia. f_equal; [apply segment_aset; lia|].
  rewrite segment_one, slot_shift, Z.add_0_r. f_equal. apply aget_aset_eq.
  pose proof (slot_range r n). lia.
Qed.

(** Counters at most [N] apart are told apart modulo 2^32. *)
Lemma counter_inj r a b : N < 2 ^ 32 -> 0 <= a <= N -> 0 <= b <= N ->
  u32 (r + a) = u32 (r + b) <-> a = b.
Proof.
  unfold u32. intros HN' Ha Hb. split; [|by intros ->]. intros E.
  pose proof (Z.div_mod (r + a) (2 ^ 32) ltac:(lia)) as H1.
  pose proof (Z.div_mod (r + b) (2 ^ 32) ltac:(lia)) as H2. lia.
Qed.

Lemma counter_diff r a : N < 2 ^ 32 -> 0 <= a <= N -> 0 <= r < 2 ^ 32 -> u32 (u32 (r + a) - r) = a.
Proof.
  unfold u32. intros HN' Ha Hr. rewrite Zminus_mod_idemp_l.
  replace (r + a - r) with a by lia. apply Z.mod_small. lia.
Qed.

End ring.
