(* ===== verification/Console.v ===== *)
(** * The console (console.c, kbd.c and kbd.h, uart.c)

    Output goes to the serial port and to the text screen; input comes from
    the keyboard and the serial port, is edited line by line in a ring buffer
    and read by [consoleread]. *)

From stdpp Require Import base numbers list gmap strings.
From Stdlib Require Import ZArith Lia.
From S2P Require Import Prelude Ring.

Local Open Scope Z_scope.
Local Open Scope kernel_scope.

(** ** The text screen *)

Definition BACKSPACE : Z := 256.

(** The cursor position, which [cgaputc] reads from and writes to the CRT
    controller, and the character cells from [crt] on. *)
Record cga : Type := Cga { pos : Z; crt : list Z }.

(** [memmove(crt, crt+80, sizeof(crt[0])*23*80)] on the cells. *)
Definition crt_up (cells : list Z) : list Z := take 1840 (drop 80 cells) ++ drop 1840 cells.
(** [memset(crt+pos, 0, sizeof(crt[0])*(24*80 - pos))]. *)
Definition crt_clear (p : Z) (cells : list Z) : list Z :=
  take (Z.to_nat p) cells ++ replicate (1920 - Z.to_nat p) 0 ++ drop 1920 cells.

Definition cgaputc (c : Z) (s : cga) : cga :=
  let '(p, cells) :=
    if c =? 10 then (pos s + (80 - Z.rem (pos s) 80), crt s)
    else if c =? BACKSPACE then (if 0 <? pos s then pos s - 1 else pos s, crt s)
    else (pos s + 1, aset (crt s) (pos s) (Z.lor (Z.land c 255) 1792)) in
  let '(p, cells) :=
    if 24 <=? Z.quot p 80 then
      let p := p - 80 in (p, crt_clear p (crt_up cells))
    else (p, cells) in
  Cga p (aset cells p (Z.lor 32 1792)).

(** ** The serial port

    [uart] says whether there is one; [sent] are the bytes written to it.
    The wait for the transmitter gives up after 128 polls and writes anyway. *)
Record serial : Type := Serial { uart : bool; sent : list Z }.

Definition uartputc (c : Z) (s : serial) : serial :=
  if negb (uart s) then s else Serial true (sent s ++ [u8 c]).

(** ** Input *)

Definition INPUT_BUF : Z := 128.
Record input : Type := Input { ibuf : list Z; ir : Z; iw : Z; ie : Z }.

Definition set_ie (x : Z) (i : input) : input := Input (ibuf i) (ir i) (iw i) x.
Definition set_iw (x : Z) (i : input) : input := Input (ibuf i) (ir i) x (ie i).
Definition set_ir (x : Z) (i : input) : input := Input (ibuf i) x (iw i) (ie i).

(** The state of console.c.  [wakeups] counts the calls of
    [wakeup(&input.r)], [dumps] those of [procdump]. *)
Record console : Type := Console {
  panicked : bool; ser : serial; scr : cga; inp : input; wakeups : nat; dumps : nat
}.

Definition set_inp (f : input -> input) (s : console) : console :=
  Console (panicked s) (ser s) (scr s) (f (inp s)) (wakeups s) (dumps s).

(** [consputc]: [None] when the kernel has panicked and the call spins for
    ever. *)
Definition consputc (c : Z) (s : console) : option console :=
  if panicked s then None else
  let ser1 := if c =? BACKSPACE then uartputc 8 (uartputc 32 (uartputc 8 (ser s)))
              else uartputc c (ser s) in
  Some (Console false ser1 (cgaputc c (scr s)) (inp s) (wakeups s) (dumps s)).

Definition ctl (x : Z) : Z := x - 64.

(** The kill-line loop: [while(input.e != input.w && ...)]. *)
Fixpoint kill_line (fuel : nat) (s : console) : option console :=
  match fuel with
  | O => None
  | S f =>
      let i := inp s in
      if negb (ie i =? iw i) && negb (aget 0 (ibuf i) (u32 (ie i - 1) mod INPUT_BUF) =? 10) then
        s' ← consputc BACKSPACE (set_inp (set_ie (u32 (ie i - 1))) s);
        kill_line f s'
      else Some s
  end.

Definition backspace (s : console) : option console :=
  let i := inp s in
  if negb (ie i =? iw i) then consputc BACKSPACE (set_inp (set_ie (u32 (ie i - 1))) s) else Some s.

Definition typed (c : Z) (s : console) : option console :=
  let i := inp s in
  if negb (c =? 0) && (u32 (ie i - ir i) <? INPUT_BUF) then
    let c := if c =? 13 then 10 else c in
    let i' := Input (aset (ibuf i) (ie i mod INPUT_BUF) (u8 c)) (ir i) (iw i) (u32 (ie i + 1)) in
    s1 ← consputc c (set_inp (fun _ => i') s);
    if (c =? 10) || (c =? ctl 68) || (ie i' =? u32 (ir i' + INPUT_BUF)) then
      Some (Console (panicked s1) (ser s1) (scr s1) (set_iw (ie i') (inp s1))
              (S (wakeups s1)) (dumps s1))
    else Some s1
  else Some s.

(** The body of the loop of [consoleintr] for one character. *)
Definition intr_char (c : Z) (s : console) : option console :=
  if c =? ctl 80 then
    Some (Console (panicked s) (ser s) (scr s) (inp s) (wakeups s) (S (dumps s)))
  else if c =? ctl 85 then kill_line 129 s
  else if (c =? ctl 72) || (c =? 127) then backspace s
  else typed c s.

(** [consoleintr]: [cs] are the characters [getc] delivers before it fails. *)
Fixpoint consoleintr (cs : list Z) (s : console) : option console :=
  match cs with
  | [] => Some s
  | c :: cs => s' ← intr_char c s; consoleintr cs s'
  end.

(** [consoleread]: it returns the bytes read, returns -1 because the process
    has been killed, or sleeps on [input.r] with [n] bytes still to come. *)
Inductive read_result : Type :=
| RDone (got : list Z) (i : input)
| RKilled (i : input)
| RSleep (n : nat) (got : list Z) (i : input).

Fixpoint read_loop (killed : bool) (n : nat) (got : list Z) (i : input) : read_result :=
  match n with
  | O => RDone got i
  | S n' =>
      if ir i =? iw i then (if killed then RKilled i else RSleep n got i)
      else
        let c := aget 0 (ibuf i) (ir i mod INPUT_BUF) in
        if c =? ctl 68 then
          match got with
          | [] => RDone got (set_ir (u32 (ir i + 1)) i)
          | _ => RDone got i
          end
        else
          let i' := set_ir (u32 (ir i + 1)) i in
          if c =? 10 then RDone (got ++ [c]) i' else read_loop killed n' (got ++ [c]) i'
  end.

Definition consoleread (killed : bool) (n : Z) (i : input) : read_result :=
  read_loop killed (Z.to_nat n) [] i.

(** [consolewrite] returns [n]. *)
Fixpoint consolewrite_loop (bs : list Z) (s : console) : option console :=
  match bs with
  | [] => Some s
  | b :: bs => s' ← consputc (Z.land b 255) s; consolewrite_loop bs s'
  end.

Definition consolewrite (bs : list Z) (s : console) : option (Z * console) :=
  s' ← consolewrite_loop bs s; Some (Z.of_nat (length bs), s').

(** ** The line discipline

    What the console promises: a queue of committed bytes that readers
    consume, and the line being edited. *)

Record lines : Type := Lines { committed : list Z; editing : list Z }.

Definition qlen (q : lines) : Z := Z.of_nat (length (committed q)) + Z.of_nat (length (editing q)).

Definition spec_typed (c : Z) (q : lines) : lines :=
  if negb (c =? 0) && (qlen q <? INPUT_BUF) then
    let c := if c =? 13 then 10 else c in
    let ed := editing q ++ [c] in
    if (c =? 10) || (c =? ctl 68) || (qlen q + 1 =? INPUT_BUF)
    then Lines (committed q ++ ed) []
    else Lines (committed q) ed
  else q.

Definition spec_char (c : Z) (q : lines) : lines :=
  if c =? ctl 80 then q
  else if c =? ctl 85 then Lines (committed q) []
  else if (c =? ctl 72) || (c =? 127) then Lines (committed q) (removelast (editing q))
  else spec_typed c q.

(** A read of at most [n] bytes: the bytes, the queue left, and whether the
    reader has to wait for more. *)
Fixpoint spec_read (n : nat) (got cm : list Z) : list Z * list Z * bool :=
  match n with
  | O => (got, cm, false)
  | S n' =>
      match cm with
      | [] => (got, [], true)
      | c :: cm' =>
          if c =? ctl 68 then (got, match got with [] => cm' | _ => cm end, false)
          else if c =? 10 then (got ++ [c], cm', false)
          else spec_read n' (got ++ [c]) cm'
      end
  end.

(** The ring buffer [i] holds the queue and the line [q]. *)
Record irep (i : input) (q : lines) : Prop := {
  ir_len : Z.of_nat (length (ibuf i)) = INPUT_BUF;
  ir_r : 0 <= ir i < 2 ^ 32;
  ir_w : iw i = u32 (ir i + Z.of_nat (length (committed q)));
  ir_e : ie i = u32 (ir i + qlen q);
  ir_size : qlen q <= INPUT_BUF;
  ir_bytes : segment INPUT_BUF (ibuf i) (ir i) (qlen q) = committed q ++ editing q;
  ir_line : 10 ∉ editing q
}.

Lemma INPUT_BUF_ok : 0 < INPUT_BUF /\ (INPUT_BUF | 2 ^ 32).
Proof. split; [done|]. exists (2 ^ 25). reflexivity. Qed.

Lemma irep_empty i q : irep i q -> ie i = iw i <-> editing q = [].
Proof.
  intros [H1 H2 H3 H4 H5 H6 H7]. rewrite H3, H4. unfold qlen in *.
  rewrite (counter_inj INPUT_BUF) by (unfold INPUT_BUF in *; lia). destruct (editing q); simpl; [split; [done|lia]|split; [lia|done]].
Qed.

(** The last byte of the edited line. *)
Lemma irep_last i q x ed : irep i q -> editing q = ed ++ [x] ->
  aget 0 (ibuf i) (u32 (ie i - 1) mod INPUT_BUF) = x /\
  irep (set_ie (u32 (ie i - 1)) i) (Lines (committed q) ed).
Proof.
  intros [H1 H2 H3 H4 H5 H6 H7] He. destruct INPUT_BUF_ok as [HN Hdiv].
  assert (Hq : qlen q = qlen (Lines (committed q) ed) + 1).
  { unfold qlen; simpl. rewrite He, length_app. simpl. lia. }
  assert (Hq0 : 0 <= qlen (Lines (committed q) ed)) by (unfold qlen; lia).
  rewrite Hq in *. set (n := qlen (Lines _ ed)) in *.
  assert (Hie : u32 (ie i - 1) = u32 (ir i + n)).
  { rewrite H4. unfold u32. rewrite Zminus_mod_idemp_l. f_equal. lia. }
  rewrite segment_app in H6 by (done || lia). rewrite He, app_assoc in H6.
  apply app_inj_2 in H6 as [H6 H6']; [|done]. split.
  - rewrite segment_one, slot_shift, Z.add_0_r in H6' by done. injection H6' as <-.
    rewrite Hie. done.
  - split; cbn [set_ie ibuf ir iw ie committed editing]; fold n; try done; [lia|].
    intros Hin. apply H7. rewrite He. set_solver.
Qed.

Lemma consputc_inp c s : panicked s = false -> exists s', consputc c s = Some s' /\
  inp s' = inp s /\ panicked s' = false /\ wakeups s' = wakeups s /\ dumps s' = dumps s.
Proof. intros Hp. unfold consputc. rewrite Hp. eexists. split; [done|]. done. Qed.

Lemma kill_line_ok fuel s q : irep (inp s) q -> panicked s = false ->
  (length (editing q) < fuel)%nat ->
  exists s', kill_line fuel s = Some s' /\ irep (inp s') (Lines (committed q) []) /\
    panicked s' = false /\ wakeups s' = wakeups s.
Proof.
  destruct q as [cm ed]. simpl. revert s ed. induction fuel as [|f IH]; intros s ed Hr Hp Hf; [lia|].
  cbn [kill_line]. pose proof (irep_empty _ _ Hr) as He. simpl in He.
  destruct ed as [|x ed _] using rev_ind.
  - destruct (Z.eqb_spec (ie (inp s)) (iw (inp s))) as [E|E]; [|by apply He in E || (exfalso; apply E, He)].
    cbn [negb andb]. by exists s.
  - destruct (Z.eqb_spec (ie (inp s)) (iw (inp s))) as [E|E].
    { apply He in E. by destruct ed. }
    destruct (irep_last _ _ x ed Hr eq_refl) as [-> Hr']. simpl in Hr'.
    assert (x <> 10). { intros ->. apply (ir_line _ _ Hr). simpl. set_solver. }
    destruct (Z.eqb_spec x 10); [done|]. cbn [negb andb].
    destruct (consputc_inp BACKSPACE (set_inp (set_ie (u32 (ie (inp s) - 1))) s) Hp)
      as (s1 & -> & Hi & Hp1 & Hw1 & _). cbn [mbind option_bind].
    destruct (IH s1 ed) as (s' & -> & Hr2 & Hp2 & Hw2); try done.
    + by rewrite Hi.
    + rewrite length_app in Hf. simpl in Hf. lia.
    + exists s'. split_and!; try done. by rewrite Hw2, Hw1.
Qed.

Lemma backspace_ok s q : irep (inp s) q -> panicked s = false ->
  exists s', backspace s = Some s' /\ irep (inp s') (Lines (committed q) (removelast (editing q))) /\
    panicked s' = false /\ wakeups s' = wakeups s.
Proof.
  destruct q as [cm ed]. intros Hr Hp. unfold backspace. pose proof (irep_empty _ _ Hr) as He.
  simpl in *. destruct ed as [|x ed _] using rev_ind.
  - destruct (Z.eqb_spec (ie (inp s)) (iw (inp s))) as [E|E]; [|exfalso; apply E, He; done].
    by exists s.
  - destruct (Z.eqb_spec (ie (inp s)) (iw (inp s))) as [E|E].
    { apply He in E. by destruct ed. }
    destruct (irep_last _ _ x ed Hr eq_refl) as [_ Hr']. simpl in Hr'. cbn [negb].
    destruct (consputc_inp BACKSPACE (set_inp (set_ie (u32 (ie (inp s) - 1))) s) Hp)
      as (s1 & -> & Hi & Hp1 & Hw1 & _).
    exists s1. rewrite Hi, removelast_last. done.
Qed.

(** The ring after a byte has been stored and [e] advanced. *)
Lemma irep_push i cm ed c : irep i (Lines cm ed) -> qlen (Lines cm ed) < INPUT_BUF -> c <> 10 ->
  irep (Input (aset (ibuf i) (ie i mod INPUT_BUF) c) (ir i) (iw i) (u32 (ie i + 1)))
    (Lines cm (ed ++ [c])).
Proof.
  intros [H1 H2 H3 H4 H5 H6 H7] Hq Hc. destruct INPUT_BUF_ok as [HN Hdiv].
  assert (Hq1 : qlen (Lines cm (ed ++ [c])) = qlen (Lines cm ed) + 1).
  { unfold qlen; simpl. rewrite length_app. simpl. lia. }
  assert (0 <= qlen (Lines cm ed)) by (unfold qlen; lia).
  split; cbn [ibuf ir iw ie committed editing] in *; rewrite ?Hq1; try done.
  - by rewrite length_aset.
  - rewrite H4. unfold u32. rewrite Zplus_mod_idemp_l. f_equal. lia.
  - lia.
  - rewrite H4. change (u32 (ir i + qlen (Lines cm ed)) mod INPUT_BUF) with
      (slot INPUT_BUF (ir i) (qlen (Lines cm ed))).
    rewrite segment_push by (done || lia). by rewrite H6, app_assoc.
  - intros Hin. apply elem_of_app in Hin as [Hin|Hin%list_elem_of_singleton]; done.
Qed.

(** The ring after a byte has been stored and the line committed. *)
Lemma irep_commit i cm ed c : irep i (Lines cm ed) -> qlen (Lines cm ed) < INPUT_BUF ->
  irep (Input (aset (ibuf i) (ie i mod INPUT_BUF) c) (ir i) (u32 (ie i + 1)) (u32 (ie i + 1)))
    (Lines (cm ++ ed ++ [c]) []).
Proof.
  intros [H1 H2 H3 H4 H5 H6 H7] Hq. destruct INPUT_BUF_ok as [HN Hdiv].
  assert (Hq1 : qlen (Lines (cm ++ ed ++ [c]) []) = qlen (Lines cm ed) + 1).
  { unfold qlen; simpl. rewrite !length_app. simpl. lia. }
  assert (Hq2 : Z.of_nat (length (cm ++ ed ++ [c])) = qlen (Lines cm ed) + 1).
  { unfold qlen; simpl. rewrite !length_app. simpl. lia. }
  assert (0 <= qlen (Lines cm ed)) by (unfold qlen; lia).
  assert (He : u32 (ie i + 1) = u32 (ir i + (qlen (Lines cm ed) + 1))).
  { rewrite H4. unfold u32. rewrite Zplus_mod_idemp_l. f_equal. lia. }
  split; cbn [ibuf ir iw ie committed editing] in *; rewrite ?Hq1, ?Hq2; try done.
  - by rewrite length_aset.
  - lia.
  - rewrite H4. change (u32 (ir i + qlen (Lines cm ed)) mod INPUT_BUF) with
      (slot INPUT_BUF (ir i) (qlen (Lines cm ed))).
    rewrite segment_push by (done || lia). by rewrite H6, !app_assoc, app_nil_r.
  - by intros ?%not_elem_of_nil.
Qed.

Lemma typed_ok c s q : irep (inp s) q -> panicked s = false -> 0 <= c < 256 ->
  exists s', typed c s = Some s' /\ irep (inp s') (spec_typed c q) /\ panicked s' = false /\
    wakeups s' = (wakeups s + if decide (committed (spec_typed c q) = committed q) then 0 else 1)%nat.
Proof.
  intros Hr Hp Hc. destruct q as [cm ed]. pose proof Hr as [H1 H2 H3 H4 H5 H6 H7].
  set (n := qlen (Lines cm ed)) in *. assert (0 <= n) by (unfold n, qlen; lia).
  assert (Hd : u32 (ie (inp s) - ir (inp s)) = n) by (rewrite H4; by apply (counter_diff INPUT_BUF)).
  unfold typed, spec_typed. fold n. rewrite Hd.
  destruct (negb (c =? 0) && (n <? INPUT_BUF)) eqn:E.
  2: { exists s. split_and!; try done. rewrite decide_True by done. lia. }
  bool_prop. set (c' := if c =? 13 then 10 else c).
  assert (Hc' : u8 c' = c'). { apply u8_id. unfold c'. destruct (c =? 13); lia. }
  rewrite Hc'. cbn [ir ie committed editing].
  set (i' := Input (aset (ibuf (inp s)) (ie (inp s) mod INPUT_BUF) c') (ir (inp s)) (iw (inp s))
    (u32 (ie (inp s) + 1))).
  destruct (consputc_inp c' (set_inp (fun _ => i') s) Hp) as (s1 & -> & Hi & Hp1 & Hw1 & _).
  cbn [mbind option_bind].
  assert (Hfull : (u32 (ie (inp s) + 1) =? u32 (ir (inp s) + INPUT_BUF)) = (n + 1 =? INPUT_BUF)).
  { assert (u32 (ie (inp s) + 1) = u32 (ir (inp s) + (n + 1))) as ->.
    { rewrite H4. unfold u32. rewrite Zplus_mod_idemp_l. f_equal. lia. }
    destruct (Z.eqb_spec (n + 1) INPUT_BUF) as [->|Hn]; [by rewrite Z.eqb_refl|].
    apply Z.eqb_neq. rewrite (counter_inj INPUT_BUF) by (unfold INPUT_BUF in *; lia). done. }
  rewrite Hfull. destruct ((c' =? 10) || (c' =? ctl 68) || (n + 1 =? INPUT_BUF)) eqn:Ec.
  - eexists. split; [done|]. cbn [inp panicked wakeups committed]. rewrite Hi, Hw1. split_and!; try done.
    + by apply (irep_commit (inp s) cm ed c' Hr).
    + rewrite decide_False; [simpl; lia|]. intros Hcm. apply (f_equal length) in Hcm.
      rewrite !length_app in Hcm. simpl in Hcm. lia.
  - exists s1. split; [done|]. rewrite Hi, Hw1. split_and!; try done.
    + apply orb_false_iff in Ec as [Ec _]. apply orb_false_iff in Ec as [Ec _]. bool_prop.
      by apply (irep_push (inp s) cm ed c' Hr).
    + rewrite decide_True by done. simpl. lia.
Qed.

Lemma intr_char_ok c s q : irep (inp s) q -> panicked s = false -> 0 <= c < 256 ->
  exists s', intr_char c s = Some s' /\ irep (inp s') (spec_char c q) /\ panicked s' = false.
Proof.
  intros Hr Hp Hc. unfold intr_char, spec_char.
  destruct (c =? ctl 80); [by eexists|].
  destruct (c =? ctl 85).
  { destruct (kill_line_ok 129 s q) as (s' & -> & ? & ? & _); try done; [|by eexists].
    pose proof (ir_size _ _ Hr). unfold qlen, INPUT_BUF in *. lia. }
  destruct (_ || _).
  { destruct (backspace_ok s q) as (s' & -> & ? & ? & _); try done. by eexists. }
  destruct (typed_ok c s q) as (s' & -> & ? & ? & _); try done. by eexists.
Qed.

Lemma consoleintr_ok cs s q : irep (inp s) q -> panicked s = false ->
  Forall (fun c => 0 <= c < 256) cs ->
  exists s', consoleintr cs s = Some s' /\ irep (inp s') (fold_left (fun q c => spec_char c q) cs q) /\
    panicked s' = false.
Proof.
  intros Hr Hp Hcs. revert s q Hr Hp. induction Hcs as [|c cs Hc Hcs IH]; intros s q Hr Hp.
  { by exists s. }
  cbn [consoleintr fold_left]. destruct (intr_char_ok c s q) as (s1 & -> & Hr1 & Hp1); try done.
  cbn [mbind option_bind]. by apply IH.
Qed.

(** ** Reading *)

Lemma irep_pop i c cm ed : irep i (Lines (c :: cm) ed) ->
  ir i <> iw i /\ aget 0 (ibuf i) (ir i mod INPUT_BUF) = c /\
  irep (set_ir (u32 (ir i + 1)) i) (Lines cm ed).
Proof.
  intros [H1 H2 H3 H4 H5 H6 H7]. destruct INPUT_BUF_ok as [HN Hdiv].
  assert (Hq1 : qlen (Lines (c :: cm) ed) = 1 + qlen (Lines cm ed)) by (unfold qlen; simpl; lia).
  assert (0 <= qlen (Lines cm ed)) by (unfold qlen; lia).
  rewrite Hq1 in *. cbn [committed editing] in *.
  rewrite segment_pop in H6 by (done || lia). injection H6 as Hc Hs.
  split_and!.
  - intros E. rewrite H3 in E. rewrite <- (u32_id (ir i)), <- (Z.add_0_r (ir i)) in E at 1 by lia.
    apply (counter_inj INPUT_BUF) in E; unfold qlen, INPUT_BUF in *; simpl in *; lia.
  - rewrite <- Hc. unfold slot. by rewrite Z.add_0_r, u32_id.
  - assert (Hsh : forall k, u32 (u32 (ir i + 1) + k) = u32 (ir i + (1 + k))).
    { intros k. unfold u32. rewrite Zplus_mod_idemp_l. f_equal. lia. }
    split; cbn [set_ir ibuf ir iw ie committed editing]; try done.
    + apply u32_range.
    + rewrite H3, Hsh. f_equal. simpl. lia.
    + by rewrite H4, Hsh.
    + lia.
    + replace (1 + qlen (Lines cm ed) - 1) with (qlen (Lines cm ed)) in Hs by lia. done.
Qed.

Lemma read_loop_ok killed n got i cm ed : irep i (Lines cm ed) ->
  let '(got', cm', wait) := spec_read n got cm in
  exists i', irep i' (Lines cm' ed) /\
    if wait then exists n', read_loop killed n got i = (if killed then RKilled i' else RSleep n' got' i')
      /\ (n' + length got' = n + length got)%nat
    else read_loop killed n got i = RDone got' i'.
Proof.
  revert got i cm. induction n as [|n IH]; intros got i cm Hr; cbn [spec_read read_loop].
  { by exists i. }
  destruct cm as [|c cm].
  { pose proof Hr as [H1 H2 H3 H4 H5 H6 H7]. cbn [committed length] in H3.
    rewrite Z.add_0_r, u32_id in H3 by done. exists i. split; [done|].
    rewrite H3, Z.eqb_refl. exists (S n). by destruct killed. }
  destruct (irep_pop i c cm ed Hr) as (Hne & -> & Hr').
  destruct (Z.eqb_spec (ir i) (iw i)); [done|].
  destruct (c =? ctl 68); [destruct got; by eexists|].
  destruct (c =? 10); [by eexists|].
  specialize (IH (got ++ [c]) _ cm Hr'). destruct (spec_read n (got ++ [c]) cm) as [[got' cm'] wait].
  destruct IH as (i' & Hi & IH). exists i'. split; [done|]. destruct wait; [|done].
  destruct IH as (n' & IH & Hn). exists n'. split; [done|]. rewrite Hn, length_app. simpl. lia.
Qed.

(** A line of ordinary characters, typed and read back. *)
Definition ordinary (c : Z) : Prop :=
  0 < c < 256 /\ c <> 4 /\ c <> 8 /\ c <> 10 /\ c <> 13 /\ c <> 16 /\ c <> 21 /\ c <> 127.

Lemma spec_char_ordinary c q : ordinary c -> qlen q + 1 < INPUT_BUF ->
  spec_char c q = Lines (committed q) (editing q ++ [c]).
Proof.
  unfold ordinary. intros (H0 & H1 & H2 & H3 & H4 & H5 & H6 & H7) Hq.
  unfold spec_char, spec_typed, ctl.
  repeat match goal with |- context [c =? ?k] => destruct (Z.eqb_spec c k); [lia|] end.
  cbn [orb negb andb]. destruct (Z.ltb_spec (qlen q) INPUT_BUF); [|lia].
  destruct (Z.eqb_spec (qlen q + 1) INPUT_BUF); [lia|]. done.
Qed.

Lemma spec_line_typed l q : Forall ordinary l -> qlen q + Z.of_nat (length l) + 1 < INPUT_BUF ->
  fold_left (fun q c => spec_char c q) (l ++ [10]) q = Lines (committed q ++ editing q ++ l ++ [10]) [].
Proof.
  intros Hl. revert q. induction Hl as [|c l Hc Hl IH]; intros q Hq; cbn [app fold_left].
  - unfold spec_char, spec_typed, ctl. cbn. destruct (Z.ltb_spec (qlen q) INPUT_BUF); [|simpl in *; lia].
    done.
  - rewrite spec_char_ordinary by (done || (simpl in *; lia)). rewrite IH.
    + cbn [committed editing]. by rewrite <- !app_assoc.
    + unfold qlen in *; simpl in *. rewrite length_app. simpl. lia.
Qed.

Lemma spec_read_line l n got cm : Forall ordinary l -> (length l < n)%nat ->
  spec_read n got (l ++ 10 :: cm) = (got ++ l ++ [10], cm, false).
Proof.
  intros Hl. revert n got. induction Hl as [|c l Hc Hl IH]; intros n got Hn;
    (destruct n as [|n]; [simpl in Hn; lia|]); cbn [app spec_read].
  - done.
  - unfold ordinary, ctl in *. destruct (Z.eqb_spec c (68 - 64)); [lia|].
    destruct (Z.eqb_spec c 10); [lia|]. rewrite IH by (simpl in Hn; lia). by rewrite <- app_assoc.
Qed.

(** ** The screen *)

Lemma length_crt_up cells : length cells = 2000%nat -> length (crt_up cells) = 2000%nat.
Proof. intros H. unfold crt_up. rewrite length_app, length_take, !length_drop. lia. Qed.

Lemma length_crt_clear p cells : length cells = 2000%nat -> 0 <= p <= 1920 ->
  length (crt_clear p cells) = 2000%nat.
Proof.
  intros H Hp. unfold crt_clear.
  rewrite !length_app, length_take, length_replicate, length_drop. lia.
Qed.

(** The cursor stays on the screen of 25 lines, and after any character within
    the first 24. *)
Lemma cgaputc_ok c s : 0 <= pos s < 2000 -> length (crt s) = 2000%nat ->
  0 <= pos (cgaputc c s) <= 1920 /\ length (crt (cgaputc c s)) = 2000%nat.
Proof.
  intros Hp Hl. unfold cgaputc.
  set (X := if c =? 10 then _ else _).
  assert (HX : 0 <= X.1 <= 2000 /\ length X.2 = 2000%nat).
  { unfold X. destruct (c =? 10); [|destruct (c =? BACKSPACE)]; simpl.
    - pose proof (Z.rem_bound_pos (pos s) 80 ltac:(lia) ltac:(lia)).
      pose proof (Z.quot_rem' (pos s) 80). split; [|done].
      assert (Z.quot (pos s) 80 <= 24) by (pose proof (Z.quot_le_upper_bound (pos s) 80 24); lia). lia.
    - destruct (Z.ltb_spec 0 (pos s)); (split; [lia|done]).
    - rewrite length_aset. split; [lia|done]. }
  destruct X as [p cells]. simpl in HX. destruct HX as [Hp1 Hl1].
  assert (Hq : 24 <= Z.quot p 80 <-> 1920 <= p).
  { rewrite Z.quot_div_nonneg by lia. divlia. }
  destruct (Z.leb_spec 24 (Z.quot p 80)); cbn [pos crt]; rewrite length_aset.
  - split; [lia|]. apply length_crt_clear; [by apply length_crt_up|lia].
  - split; [lia|done].
Qed.

(** ** The keyboard

    The tables of kbd.h: the entries in order, then those given by index. *)

Definition table (l : list Z) (by_index : list (Z * Z)) (d : Z) : Z :=
  match List.find (fun p => p.1 =? d) by_index with
  | Some (_, v) => v
  | None => aget 0 l d
  end.

Definition KSHIFT : Z := 2 ^ 0.
Definition KCTL : Z := 2 ^ 1.
Definition CAPSLOCK : Z := 2 ^ 3.
Definition E0ESC : Z := 2 ^ 6.

Definition shiftcode : Z -> Z := table []
  [(29, 2); (42, 1); (54, 1); (56, 4); (157, 2); (184, 4)].
Definition togglecode : Z -> Z := table []
  [(58, 8); (69, 16); (70, 32)].
Definition normalmap : Z -> Z := table
  [0; 27; 49; 50; 51; 52; 53; 54; 55; 56; 57; 48; 45; 61; 8; 9; 113; 119; 101; 114; 116; 121;
   117; 105; 111; 112; 91; 93; 10; 0; 97; 115; 100; 102; 103; 104; 106; 107; 108; 59; 39; 96;
   0; 92; 122; 120; 99; 118; 98; 110; 109; 44; 46; 47; 0; 42; 0; 32; 0; 0; 0; 0; 0; 0; 0; 0; 0;
   0; 0; 0; 0; 55; 56; 57; 45; 52; 53; 54; 43; 49; 50; 51; 48; 46; 0; 0; 0; 0]
  [(156, 10); (181, 47); (200, 226); (208, 227); (201, 230); (209, 231); (203, 228); (205, 229);
   (151, 224); (207, 225); (210, 232); (211, 233)].
Definition shiftmap : Z -> Z := table
  [0; 27; 33; 64; 35; 36; 37; 94; 38; 42; 40; 41; 95; 43; 8; 9; 81; 87; 69; 82; 84; 89; 85; 73;
   79; 80; 123; 125; 10; 0; 65; 83; 68; 70; 71; 72; 74; 75; 76; 58; 34; 126; 0; 124; 90; 88;
   67; 86; 66; 78; 77; 60; 62; 63; 0; 42; 0; 32; 0; 0; 0; 0; 0; 0; 0; 0; 0; 0; 0; 0; 0; 55; 56;
   57; 45; 52; 53; 54; 43; 49; 50; 51; 48; 46; 0; 0; 0; 0]
  [(156, 10); (181, 47); (200, 226); (208, 227); (201, 230); (209, 231); (203, 228); (205, 229);
   (151, 224); (207, 225); (210, 232); (211, 233)].
Definition ctlmap : Z -> Z := table
  [0; 0; 0; 0; 0; 0; 0; 0; 0; 0; 0; 0; 0; 0; 0; 0; 17; 23; 5; 18; 20; 25; 21; 9; 15; 16; 0; 0;
   13; 0; 1; 19; 4; 6; 7; 8; 10; 11; 12; 0; 0; 0; 0; 28; 26; 24; 3; 22; 2; 14; 13; 0; 0; 239;
   0; 0]
  [(156, 13); (181, 239); (200, 226); (208, 227); (201, 230); (209, 231); (203, 228);
   (205, 229); (151, 224); (207, 225); (210, 232); (211, 233)].

Definition charcode (k d : Z) : Z :=
  if k =? 0 then normalmap d else if k =? 1 then shiftmap d else ctlmap d.

(** [kbdgetc] on the byte [data] from the keyboard: the new [shift] and the
    result, 0 for no character. *)
Definition kbdgetc (data shift : Z) : Z * Z :=
  if data =? 224 then (fset shift E0ESC, 0)
  else if negb (Z.land data 128 =? 0) then
    let data := if fhas shift E0ESC then data else Z.land data 127 in
    (Z.land shift (Z.lnot (Z.lor (shiftcode data) E0ESC)), 0)
  else
    let '(data, shift) :=
      if fhas shift E0ESC then (Z.lor data 128, fclr shift E0ESC) else (data, shift) in
    let shift := Z.lxor (Z.lor shift (shiftcode data)) (togglecode data) in
    let c := charcode (Z.land shift (Z.lor KCTL KSHIFT)) data in
    let c :=
      if fhas shift CAPSLOCK then
        if (97 <=? c) && (c <=? 122) then c + (65 - 97)
        else if (65 <=? c) && (c <=? 90) then c + (97 - 65) else c
      else c in
    (shift, c).

(** The characters a sequence of keyboard bytes delivers to [consoleintr]. *)
Fixpoint kbdchars (ds : list Z) (shift : Z) : list Z * Z :=
  match ds with
  | [] => ([], shift)
  | d :: ds =>
      let '(shift, c) := kbdgetc d shift in
      let '(cs, shift) := kbdchars ds shift in (c :: cs, shift)
  end.

Definition kbdintr (ds : list Z) (shift : Z) (s : console) : option console :=
  consoleintr (kbdchars ds shift).1 s.

Definition kbd_check (d shift : Z) : bool :=
  let '(sh, c) := kbdgetc d shift in (0 <=? sh) && (sh <? 128) && (0 <=? c) && (c <? 256).

Lemma kbd_check_all : forallb (fun d => forallb (kbd_check d) (seqZ 0 128)) (seqZ 0 256) = true.
Proof. by vm_compute. Qed.

Lemma kbdgetc_range d shift : 0 <= d < 256 -> 0 <= shift < 128 ->
  0 <= (kbdgetc d shift).1 < 128 /\ 0 <= (kbdgetc d shift).2 < 256.
Proof.
  intros Hd Hs. pose proof kbd_check_all as H. rewrite forallb_forall in H.
  specialize (H d ltac:(apply list_elem_of_In, elem_of_seqZ; lia)).
  rewrite forallb_forall in H. specialize (H shift ltac:(apply list_elem_of_In, elem_of_seqZ; lia)).
  unfold kbd_check in H. destruct (kbdgetc d shift). bool_prop. simpl. lia.
Qed.

Lemma kbdchars_range ds shift : Forall (fun d => 0 <= d < 256) ds -> 0 <= shift < 128 ->
  Forall (fun c => 0 <= c < 256) (kbdchars ds shift).1.
Proof.
  intros Hds. revert shift. induction Hds as [|d ds Hd Hds IH]; intros shift Hs; [constructor|].
  cbn [kbdchars]. destruct (kbdgetc_range d shift Hd Hs) as [H1 H2].
  destruct (kbdgetc d shift) as [sh c]. specialize (IH sh H1).
  destruct (kbdchars ds sh). by constructor.
Qed.

(** ** The promises of the console *)

(** C27. The interrupt handler implements the line discipline: for any
    sequence of bytes from the keyboard, typed characters, backspace, kill
    line and the three ways to commit a line act on the ring buffer as on a
    queue of committed bytes and an edited line, at any value of the counters
    (they wrap around at 2^32), and the handler always returns. *)
Theorem kbdintr_refines ds shift s q : irep (inp s) q -> panicked s = false ->
  Forall (fun d => 0 <= d < 256) ds -> 0 <= shift < 128 ->
  exists s', kbdintr ds shift s = Some s' /\ panicked s' = false /\
    irep (inp s') (fold_left (fun q c => spec_char c q) (kbdchars ds shift).1 q).
Proof.
  intros Hr Hp Hds Hs. destruct (consoleintr_ok (kbdchars ds shift).1 s q) as (s' & E & Hr' & Hp');
    [done|done|by apply kbdchars_range|]. by exists s'.
Qed.

(** C28. [consoleread] takes bytes from the front of the committed queue until
    it has [n], a newline, or an end of file, which it leaves in the queue
    when it has read something; it sleeps exactly when the queue runs empty
    before that, and returns -1 there when the process has been killed. *)
Theorem consoleread_refines killed n i q : irep i q ->
  let '(got, cm, wait) := spec_read (Z.to_nat n) [] (committed q) in
  exists i', irep i' (Lines cm (editing q)) /\
    if wait then exists n', consoleread killed n i =
        (if killed then RKilled i' else RSleep n' got i') /\ (n' + length got = Z.to_nat n)%nat
    else consoleread killed n i = RDone got i'.
Proof.
  intros Hr. destruct q as [cm ed]. pose proof (read_loop_ok killed (Z.to_nat n) [] i cm ed Hr) as H.
  cbn [committed editing]. destruct (spec_read (Z.to_nat n) [] cm) as [[got cm'] wait].
  destruct H as (i' & Hi & H). exists i'. split; [done|]. destruct wait; [|done].
  destruct H as (n' & H & Hn). exists n'. split; [done|]. simpl in Hn. lia.
Qed.

(** A line of ordinary characters that is typed into an empty console is
    what the next read returns, newline included. *)
Theorem console_line s l n : irep (inp s) (Lines [] []) -> panicked s = false ->
  Forall ordinary l -> Z.of_nat (length l) + 1 < INPUT_BUF -> Z.of_nat (length l) < n ->
  exists s' i, consoleintr (l ++ [10]) s = Some s' /\ consoleread false n (inp s') = RDone (l ++ [10]) i /\
    irep i (Lines [] []).
Proof.
  intros Hr Hp Hl Hlen Hn.
  destruct (consoleintr_ok (l ++ [10]) s _ Hr Hp) as (s' & E & Hr' & _).
  { apply Forall_app. split; [|repeat constructor; lia].
    eapply Forall_impl; [exact Hl|]. unfold ordinary. intros; lia. }
  rewrite spec_line_typed in Hr' by done. cbn [committed editing app] in Hr'.
  exists s'. pose proof (read_loop_ok false (Z.to_nat n) [] (inp s') _ _ Hr') as H.
  rewrite spec_read_line in H by (done || lia). destruct H as (i & Hi & H).
  exists i. split; [done|]. done.
Qed.

(** On a screen of 25 lines the cursor and every cell [cgaputc] writes
    stay inside, whatever the character. *)
Theorem cgaputc_bounds c s : 0 <= pos s < 2000 -> length (crt s) = 2000%nat ->
  0 <= pos (cgaputc c s) <= 1920 /\ length (crt (cgaputc c s)) = 2000%nat.
Proof. apply cgaputc_ok. Qed.

Definition console0 : console :=
  Console false (Serial true []) (Cga 0 (replicate 2000 0)) (Input (replicate 128 0) (2 ^ 32 - 1) (2 ^ 32 - 1) (2 ^ 32 - 1)) 0 0.

Lemma console0_irep : irep (inp console0) (Lines [] []).
Proof. split; try done. by intros ?%not_elem_of_nil. Qed.

(** The keys h, i and Enter, at counters that wrap around. *)
Lemma kbdintr_refines_witness : exists s', kbdintr [35; 163; 23; 28] 0 console0 = Some s' /\
  panicked s' = false /\ irep (inp s') (Lines [104; 105; 10] []).
Proof.
  apply (kbdintr_refines [35; 163; 23; 28] 0 console0 (Lines [] []));
    [apply console0_irep|reflexivity|repeat constructor; lia|lia].
Defined.

Lemma consoleread_refines_witness : exists i' n', consoleread false 5 (inp console0) = RSleep n' [] i'.
Proof.
  destruct (consoleread_refines false 5 (inp console0) _ console0_irep) as (i' & _ & n' & E & _).
  exists i', n'. exact E.
Defined.

Lemma console_line_witness : exists s' i, consoleintr [104; 105; 10] console0 = Some s' /\
  consoleread false 100 (inp s') = RDone [104; 105; 10] i /\ irep i (Lines [] []).
Proof.
  apply (console_line console0 [104; 105] 100); [apply console0_irep|reflexivity| |done|done].
  repeat constructor; lia.
Defined.

Lemma cgaputc_bounds_witness : 0 <= pos (cgaputc 10 (Cga 1990 (replicate 2000 0))) <= 1920 /\
  length (crt (cgaputc 10 (Cga 1990 (replicate 2000 0)))) = 2000%nat.
Proof. apply (cgaputc_bounds 10 (Cga 1990 (replicate 2000 0))); [simpl; lia|reflexivity]. Defined.
