(* ===== verification/Pipe.v ===== *)
(** * Pipes (pipe.c)

    A pipe is a ring of 512 bytes between a writer and a reader.  [pipewrite]
    and [piperead] run under the pipe's lock until they return or sleep; each
    such run is one step of the system, and the steps of readers and writers
    interleave.  [pipealloc] is in File.v, with the file table. *)

From stdpp Require Import base numbers list gmap strings relations.
From Stdlib Require Import ZArith Lia.
From S2P Require Import Prelude Ring.

Local Open Scope Z_scope.
Local Open Scope kernel_scope.

Definition PIPESIZE : Z := 512.

(** [struct pipe], less its spin lock. *)
Record pipe : Type := Pipe {
  pdata : list Z; nread : Z; nwrite : Z; readopen : bool; writeopen : bool
}.

(** What [pipealloc] stores in a fresh page. *)
Definition pipe_init (junk : list Z) : pipe := Pipe junk 0 0 true true.

(** [pipeclose]: the pipe, and whether its page is freed. *)
Definition pipeclose (writable : bool) (p : pipe) : pipe * bool :=
  let p' := if writable then Pipe (pdata p) (nread p) (nwrite p) (readopen p) false
            else Pipe (pdata p) (nread p) (nwrite p) false (writeopen p) in
  (p', negb (readopen p') && negb (writeopen p')).

(** A run of [pipewrite] up to its return or to its sleep on [nwrite] with
    the bytes [rest] still to be written. *)
Inductive write_run : Type :=
| WDone (p : pipe)
| WFail (p : pipe)
| WSleep (rest : list Z) (p : pipe).

Definition put (b : Z) (p : pipe) : pipe :=
  Pipe (aset (pdata p) (nwrite p mod PIPESIZE) (u8 b)) (nread p) (u32 (nwrite p + 1))
       (readopen p) (writeopen p).

Fixpoint pipewrite (killed : bool) (bs : list Z) (p : pipe) : write_run :=
  match bs with
  | [] => WDone p
  | b :: bs' =>
      if nwrite p =? u32 (nread p + PIPESIZE) then
        if negb (readopen p) || killed then WFail p else WSleep bs p
      else pipewrite killed bs' (put b p)
  end.

(** A run of [piperead]. *)
Inductive read_run : Type :=
| RDone (got : list Z) (p : pipe)
| RFail
| RSleep.

Definition take1 (p : pipe) : Z * pipe :=
  (aget 0 (pdata p) (nread p mod PIPESIZE),
   Pipe (pdata p) (u32 (nread p + 1)) (nwrite p) (readopen p) (writeopen p)).

Fixpoint read_copy (n : nat) (p : pipe) : list Z * pipe :=
  match n with
  | O => ([], p)
  | S n' =>
      if nread p =? nwrite p then ([], p)
      else let '(b, p1) := take1 p in let '(bs, p2) := read_copy n' p1 in (b :: bs, p2)
  end.

Definition piperead (killed : bool) (n : Z) (p : pipe) : read_run :=
  if (nread p =? nwrite p) && writeopen p then (if killed then RFail else RSleep)
  else let '(bs, p') := read_copy (Z.to_nat n) p in RDone bs p'.

(** ** The queue of bytes in a pipe *)

Record prep (p : pipe) (q : list Z) : Prop := {
  pr_len : Z.of_nat (length (pdata p)) = PIPESIZE;
  pr_read : 0 <= nread p < 2 ^ 32;
  pr_write : nwrite p = u32 (nread p + Z.of_nat (length q));
  pr_size : Z.of_nat (length q) <= PIPESIZE;
  pr_bytes : segment PIPESIZE (pdata p) (nread p) (Z.of_nat (length q)) = q
}.

Lemma PIPESIZE_ok : 0 < PIPESIZE /\ (PIPESIZE | 2 ^ 32).
Proof. split; [done|]. exists (2 ^ 23). reflexivity. Qed.

Lemma prep_init junk : Z.of_nat (length junk) = PIPESIZE -> prep (pipe_init junk) [].
Proof. intros H. by split. Qed.

(** Full and empty, as the code tests them. *)
Lemma prep_full p q : prep p q ->
  (nwrite p =? u32 (nread p + PIPESIZE)) = (Z.of_nat (length q) =? PIPESIZE).
Proof.
  intros [H1 H2 H3 H4 H5]. rewrite H3.
  destruct (Z.eqb_spec (Z.of_nat (length q)) PIPESIZE) as [->|Hn]; [apply Z.eqb_refl|].
  apply Z.eqb_neq. rewrite (counter_inj PIPESIZE); unfold PIPESIZE in *; lia.
Qed.

Lemma prep_empty p q : prep p q -> (nread p =? nwrite p) = bool_decide (q = []).
Proof.
  intros [H1 H2 H3 H4 H5]. rewrite H3.
  rewrite <- (u32_id (nread p)) at 1 by done. rewrite <- (Z.add_0_r (nread p)) at 1.
  destruct q as [|b q]; [simpl; apply Z.eqb_refl|]. rewrite bool_decide_eq_false_2 by done.
  apply Z.eqb_neq. rewrite (counter_inj PIPESIZE); unfold PIPESIZE in *; simpl in *; lia.
Qed.

Lemma prep_put p q b : prep p q -> Z.of_nat (length q) < PIPESIZE -> 0 <= b < 256 ->
  prep (put b p) (q ++ [b]).
Proof.
  intros [H1 H2 H3 H4 H5] Hq Hb. destruct PIPESIZE_ok as [HN Hdiv].
  assert (Hl : Z.of_nat (length (q ++ [b])) = Z.of_nat (length q) + 1) by (rewrite length_app; simpl; lia).
  split; cbn [put pdata nread nwrite]; rewrite ?Hl; try done.
  - by rewrite length_aset.
  - rewrite H3. unfold u32. rewrite Zplus_mod_idemp_l. f_equal. lia.
  - lia.
  - rewrite H3, u8_id by done.
    change (u32 (nread p + Z.of_nat (length q)) mod PIPESIZE) with
      (slot PIPESIZE (nread p) (Z.of_nat (length q))).
    rewrite segment_push by (done || lia). by rewrite H5.
Qed.

Lemma prep_take p b q : prep p (b :: q) -> (take1 p).1 = b /\ prep (take1 p).2 q.
Proof.
  intros [H1 H2 H3 H4 H5]. destruct PIPESIZE_ok as [HN Hdiv].
  assert (Hl : Z.of_nat (length (b :: q)) = 1 + Z.of_nat (length q)) by (simpl; lia).
  rewrite Hl in *. rewrite segment_pop in H5 by (done || lia). injection H5 as Hb Hs.
  split.
  - simpl. rewrite <- Hb. unfold slot. by rewrite Z.add_0_r, u32_id.
  - split; cbn [take1 snd pdata nread nwrite]; try done.
    + apply u32_range.
    + rewrite H3. unfold u32. rewrite Zplus_mod_idemp_l. f_equal. lia.
    + lia.
    + replace (1 + Z.of_nat (length q) - 1) with (Z.of_nat (length q)) in Hs by lia. done.
Qed.

(** ** Runs on the queue *)

Definition room (q : list Z) : nat := Z.to_nat PIPESIZE - length q.

Definition same_ends (p p' : pipe) : Prop := readopen p' = readopen p /\ writeopen p' = writeopen p.

Lemma pipewrite_ok killed bs p q : prep p q -> Forall (fun b => 0 <= b < 256) bs ->
  exists p', prep p' (q ++ take (room q) bs) /\ same_ends p p' /\
    pipewrite killed bs p =
      if decide (length bs <= room q)%nat then WDone p'
      else if negb (readopen p) || killed then WFail p' else WSleep (drop (room q) bs) p'.
Proof.
  intros Hr Hbs. revert p q Hr. induction Hbs as [|b bs Hb Hbs IH]; intros p q Hr; cbn [pipewrite].
  { exists p. rewrite take_nil, app_nil_r. rewrite decide_True by (simpl; lia). done. }
  rewrite (prep_full p q Hr). pose proof (pr_size _ _ Hr).
  destruct (Z.eqb_spec (Z.of_nat (length q)) PIPESIZE) as [E|E].
  - assert (room q = 0%nat) as -> by (unfold room; lia). exists p. cbn [take drop].
    rewrite app_nil_r, decide_False by (simpl; lia). done.
  - assert (Hroom : room q = S (room (q ++ [b]))) by (unfold room; rewrite length_app; simpl; lia).
    destruct (IH (put b p) (q ++ [b])) as (p' & Hr' & He & ->); [by apply prep_put; [..|lia|]|].
    exists p'. rewrite Hroom. cbn [take drop length]. rewrite <- app_assoc in Hr'.
    split; [done|]. split; [done|]. cbn [put readopen].
    destruct (decide (length bs <= room (q ++ [b]))%nat);
      destruct (decide (S (length bs) <= S (room (q ++ [b])))%nat); lia || done.
Qed.

Lemma read_copy_ok n p q : prep p q ->
  exists p', read_copy n p = (take n q, p') /\ prep p' (drop n q) /\ same_ends p p'.
Proof.
  revert p q. induction n as [|n IH]; intros p q Hr; cbn [read_copy].
  { exists p. by rewrite take_0, drop_0. }
  rewrite (prep_empty p q Hr). destruct q as [|b q].
  - rewrite bool_decide_eq_true_2 by done. by exists p.
  - rewrite bool_decide_eq_false_2 by done. destruct (prep_take p b q Hr) as [Hb Hr'].
    destruct (take1 p) as [b' p1] eqn:E. simpl in Hb, Hr'. subst b'.
    destruct (IH p1 q Hr') as (p' & -> & Hp' & He). exists p'. split; [done|]. split; [done|].
    unfold take1 in E. injection E as _ <-. done.
Qed.

(** ** Interleaved readers and writers *)

(** The pipe with the bytes accepted from writers and delivered to readers
    since it was made. *)
Record history : Type := History { hp : pipe; written : list Z; delivered : list Z }.

Definition accepted (p p' : pipe) (bs : list Z) : list Z :=
  take (Z.to_nat (u32 (nwrite p' - nwrite p))) bs.

Definition after_write (r : write_run) : pipe :=
  match r with WDone p | WFail p | WSleep _ p => p end.

(** One step: a run of [pipewrite] on some bytes (a new call, or one that
    wakes up with its rest), a run of [piperead] that returns, or a close. *)
Inductive pstep : history -> history -> Prop :=
| step_write killed bs p w d : Forall (fun b => 0 <= b < 256) bs ->
    let p' := after_write (pipewrite killed bs p) in
    pstep (History p w d) (History p' (w ++ accepted p p' bs) d)
| step_read killed n p w d got p' : piperead killed n p = RDone got p' ->
    pstep (History p w d) (History p' w (d ++ got))
| step_close writable p w d :
    pstep (History p w d) (History (pipeclose writable p).1 w d).

Definition pipe_inv (h : history) : Prop :=
  exists q, prep (hp h) q /\ written h = delivered h ++ q.

Lemma accepted_ok p p' q bs k : prep p q -> prep p' (q ++ take k bs) -> nread p' = nread p ->
  accepted p p' bs = take k bs.
Proof.
  intros [H1 H2 H3 H4 H5] [G1 G2 G3 G4 G5] Hn. unfold accepted. rewrite G3, H3, Hn.
  assert (u32 (u32 (nread p + Z.of_nat (length (q ++ take k bs))) -
    u32 (nread p + Z.of_nat (length q))) = Z.of_nat (length (take k bs))) as ->.
  { unfold u32. rewrite Zminus_mod_idemp_r, Zminus_mod_idemp_l. rewrite length_app in *.
    rewrite Z.mod_small; unfold PIPESIZE in *; lia. }
  rewrite Nat2Z.id, length_take. destruct (decide (k <= length bs)%nat).
  - by rewrite Nat.min_l by lia.
  - rewrite Nat.min_r by lia. by rewrite !take_ge by lia.
Qed.

Lemma pipewrite_nread killed bs p : nread (after_write (pipewrite killed bs p)) = nread p.
Proof.
  revert p. induction bs as [|b bs IH]; intros p; cbn [pipewrite]; [done|].
  destruct (_ =? _); [by destruct (_ || _)|]. by rewrite IH.
Qed.

Lemma prep_close writable p q : prep p q -> prep (pipeclose writable p).1 q.
Proof. intros [H1 H2 H3 H4 H5]. by destruct writable; split. Qed.

Lemma pstep_inv h h' : pipe_inv h -> pstep h h' -> pipe_inv h'.
Proof.
  intros (q & Hr & Hw) Hs. destruct Hs as [killed bs p w d Hbs p'|killed n p w d got p' E|writable p w d];
    simpl in *.
  - destruct (pipewrite_ok killed bs p q Hr Hbs) as (p1 & Hr1 & _ & E).
    assert (p' = p1) as Hp'. { unfold p'. rewrite E. repeat case_match; done. }
    exists (q ++ take (room q) bs). cbn [hp written delivered]. rewrite Hp'.
    rewrite (accepted_ok p p1 q bs (room q)); [|done|done|].
    + split; [done|]. by rewrite Hw, app_assoc.
    + rewrite <- Hp'. apply pipewrite_nread.
  - unfold piperead in E. destruct (_ && _); [by destruct killed|].
    destruct (read_copy_ok (Z.to_nat n) p q Hr) as (p1 & E1 & Hr1 & _). rewrite E1 in E.
    injection E as <- <-. exists (drop (Z.to_nat n) q). split; [done|]. cbn [written delivered].
    by rewrite Hw, <- app_assoc, take_drop.
  - exists q. split; [by apply prep_close|done].
Qed.

(** ** The promises of pipes *)

(** C17. Bytes leave a pipe in the order in which they entered it, none lost
    and none twice: whatever the interleaving of runs of readers, writers and
    closers, and wherever the counters wrap around, the bytes accepted so far
    are the bytes delivered so far followed by the at most 512 bytes that the
    pipe holds. *)
Theorem pipe_fifo h junk : Z.of_nat (length junk) = PIPESIZE ->
  rtc pstep (History (pipe_init junk) [] []) h ->
  exists q, written h = delivered h ++ q /\ Z.of_nat (length q) <= PIPESIZE /\ prep (hp h) q.
Proof.
  intros Hj Hs. cut (pipe_inv h).
  { intros (q & Hr & Hw). exists q. split_and!; [done|apply (pr_size _ _ Hr)|done]. }
  eapply rtc_invariant; [apply pstep_inv|exact Hs|].
  exists []. split; [by apply prep_init|done].
Qed.

(** Every outcome of a run of [pipewrite] and [piperead] on a pipe that
    holds [q]: a write stores what fits and returns, or fails with the reader
    gone or the process killed, or sleeps with exactly the bytes that did not
    fit; a read of an empty pipe with an open writer sleeps, or fails when
    the process is killed, and otherwise delivers the first [n] bytes, which
    are none only at the end of file or for [n] not positive. *)
Theorem pipe_runs killed bs n p q : prep p q -> Forall (fun b => 0 <= b < 256) bs ->
  (exists p', prep p' (q ++ take (room q) bs) /\ same_ends p p' /\
    pipewrite killed bs p =
      if decide (length bs <= room q)%nat then WDone p'
      else if negb (readopen p) || killed then WFail p' else WSleep (drop (room q) bs) p') /\
  (exists p', prep p' (drop (Z.to_nat n) q) /\ same_ends p p' /\
    piperead killed n p =
      if decide (q = [] /\ writeopen p = true) then (if killed then RFail else RSleep)
      else RDone (take (Z.to_nat n) q) p').
Proof.
  intros Hr Hbs. split; [by apply pipewrite_ok|].
  destruct (read_copy_ok (Z.to_nat n) p q Hr) as (p' & E & Hr' & He). exists p'.
  split; [done|]. split; [done|]. unfold piperead. rewrite (prep_empty p q Hr), E.
  case_decide as Hd.
  - destruct Hd as [-> ->]. by rewrite bool_decide_eq_true_2.
  - case_bool_decide as Hq; [|done]. destruct (writeopen p) eqn:Ew; [by exfalso; apply Hd|done].
Qed.

Definition pipe0 : pipe := pipe_init (replicate 512 1).

Lemma pipe_fifo_witness : exists h q, written h = [1; 2; 3] /\ delivered h = [1; 2] /\
  written h = delivered h ++ q.
Proof.
  set (p1 := after_write (pipewrite false [1; 2; 3] pipe0)).
  destruct (piperead false 2 p1) as [got p2| |] eqn:E; [|by vm_compute in E..].
  assert (got = [1; 2]) as Hg by (vm_compute in E; congruence).
  destruct (pipe_fifo (History p2 [1; 2; 3] [1; 2]) (replicate 512 1)) as (q & Hq & _ & _);
    [reflexivity| |by exists (History p2 [1; 2; 3] [1; 2]), q].
  eapply rtc_l; [apply (step_write false [1; 2; 3] pipe0 [] []); repeat constructor; lia|].
  eapply rtc_l; [|apply rtc_refl]. rewrite Hg in E.
  exact (step_read false 2 p1 [1; 2; 3] [] [1; 2] p2 E).
Defined.

Lemma pipe_runs_witness : exists p', pipewrite false [1; 2] pipe0 = WDone p' /\ prep p' [1; 2].
Proof.
  destruct (pipe_runs false [1; 2] 1 pipe0 []) as [(p' & Hr & _ & E) _];
    [by apply prep_init|repeat constructor; lia|]. exists p'. split; [exact E|exact Hr].
Defined.
