(* ===== verification/Kalloc.v ===== *)
(** * The physical page allocator (kalloc.c)

    Free pages are linked through their first word, in the memory they give
    out: the state is the memory itself and the head of the list. *)

From stdpp Require Import base numbers list gmap strings relations.
From Stdlib Require Import ZArith Lia.
From S2P Require Import Prelude Kstring.

Local Open Scope Z_scope.
Local Open Scope kernel_scope.

Definition PGSIZE : Z := 4096.
Definition KERNBASE : Z := 2147483648.
Definition PHYSTOP : Z := 234881024.

Definition PGROUNDUP (sz : Z) : Z := Z.land (u32 (sz + PGSIZE - 1)) (u32 (Z.lnot (PGSIZE - 1))).
Definition PGROUNDDOWN (a : Z) : Z := Z.land a (u32 (Z.lnot (PGSIZE - 1))).
Definition v2p (a : Z) : Z := u32 (a - KERNBASE).
Definition p2v (a : Z) : Z := u32 (a + KERNBASE).

(** Loads of 16 and of 32 bits. *)
Definition load2 (m : mem) (a : Z) : Z := m a + 2 ^ 8 * m (a + 1).
Definition load4 (m : mem) (a : Z) : Z :=
  m a + 2 ^ 8 * m (a + 1) + 2 ^ 16 * m (a + 2) + 2 ^ 24 * m (a + 3).

(** [struct kmem], with the memory. *)
Record kmem : Type := Kmem { km : mem; freelist : Z; use_lock : bool }.

Section kalloc.
(** [kend] is the address of the linker's symbol [end]. *)
Context (kend : Z).

Definition kfree (v : Z) : M kmem unit := fun s =>
  if negb (v mod PGSIZE =? 0) || (v <? kend) || (PHYSTOP <=? v2p v) then Panic "kfree"
  else
    let m := memset (km s) v 1 PGSIZE in
    Ok tt (Kmem (store4 m v (freelist s)) v (use_lock s)).

Definition kalloc : M kmem Z := fun s =>
  let r := freelist s in
  if r =? 0 then Ok r s
  else Ok r (Kmem (km s) (load4 (km s) r) (use_lock s)).

(** The loop of [freerange], with fuel. *)
Fixpoint freerange_loop (fuel : nat) (p vend : Z) : M kmem unit :=
  match fuel with
  | O => panic "fuel"
  | S f => if p + PGSIZE <=? vend then kfree p ;;; freerange_loop f (p + PGSIZE) vend else ret tt
  end.

Definition freerange (vstart vend : Z) : M kmem unit :=
  let p := PGROUNDUP vstart in
  freerange_loop (S (Z.to_nat (vend - p))) p vend.

Definition kinit1 (vstart vend : Z) : M kmem unit :=
  modify (fun s => Kmem (km s) (freelist s) false) ;;;
  freerange vstart vend.

Definition kinit2 (vstart vend : Z) : M kmem unit :=
  freerange vstart vend ;;;
  modify (fun s => Kmem (km s) (freelist s) true).

(** ** Free lists *)

Definition page_ok (v : Z) : Prop :=
  v mod PGSIZE = 0 /\ kend <= v /\ KERNBASE <= v < KERNBASE + PHYSTOP.

(** The pages [l] are linked from [h]. *)
Fixpoint flist (m : mem) (h : Z) (l : list Z) : Prop :=
  match l with
  | [] => h = 0
  | p :: l => h = p /\ flist m (load4 m p) l
  end.

Record kinv (s : kmem) (l : list Z) : Prop := {
  ki_mem : mem_ok (km s);
  ki_list : flist (km s) (freelist s) l;
  ki_nodup : NoDup l;
  ki_pages : Forall page_ok l
}.

Lemma page_ok_test v : 0 <= v < 2 ^ 32 ->
  negb (v mod PGSIZE =? 0) || (v <? kend) || (PHYSTOP <=? v2p v) = false <-> page_ok v.
Proof.
  intros Hv. unfold page_ok, v2p, u32, PHYSTOP, KERNBASE. rewrite !orb_false_iff, negb_false_iff.
  rewrite Z.eqb_eq, Z.ltb_ge, Z.leb_gt. split; [intros [[H1 H2] H3]|intros (H1 & H2 & H3)].
  - change (2 ^ 32) with 4294967296 in *. split_and!; [done|lia|divlia|divlia].
  - change (2 ^ 32) with 4294967296 in *. split_and!; [done|lia|divlia].
Qed.

Lemma page_ok_range v : page_ok v -> 0 < v < 2 ^ 32.
Proof. unfold page_ok, KERNBASE, PHYSTOP. lia. Qed.

(** Two pages are the same or disjoint. *)
Lemma page_disjoint v w x : page_ok v -> page_ok w -> v <> w ->
  v <= x < v + PGSIZE -> ~ (w <= x < w + PGSIZE).
Proof. unfold page_ok, PGSIZE. intros (Hv & _) (Hw & _) Hne Hx Hx'. divlia. Qed.

Lemma load4_ext m m' a : (forall x, a <= x < a + 4 -> m' x = m x) -> load4 m' a = load4 m a.
Proof. intros H. unfold load4. rewrite !H by lia. done. Qed.

Lemma flist_ext m m' h l : (forall p x, p ∈ l -> p <= x < p + 4 -> m' x = m x) ->
  flist m h l -> flist m' h l.
Proof.
  revert h. induction l as [|p l IH]; intros h H; [done|]. intros [-> Hl]. split; [done|].
  rewrite (load4_ext m) by (intros; apply (H p); [left|done]).
  apply IH; [|done]. intros q x Hq. apply H. by right.
Qed.

Lemma store4_bytes m a w x : store4 m a w x =
  if decide (a <= x < a + 4) then u8 (Z.shiftr w (8 * (x - a))) else m x.
Proof.
  unfold store4. destruct (decide (x = a + 3)) as [->|].
  { rewrite upd_eq, decide_True by lia. do 2 f_equal. lia. }
  rewrite upd_ne by done. destruct (decide (x = a + 2)) as [->|].
  { rewrite upd_eq, decide_True by lia. do 2 f_equal. lia. }
  rewrite upd_ne by done. destruct (decide (x = a + 1)) as [->|].
  { rewrite upd_eq, decide_True by lia. do 2 f_equal. lia. }
  rewrite upd_ne by done. destruct (decide (x = a)) as [->|].
  { rewrite upd_eq, decide_True by lia. rewrite Z.sub_diag. simpl. by rewrite Z.shiftr_0_r. }
  rewrite upd_ne by done. by rewrite decide_False by lia.
Qed.

Lemma load4_store4 m a w : 0 <= w < 2 ^ 32 -> load4 (store4 m a w) a = w.
Proof.
  intros Hw. unfold load4. rewrite !store4_bytes, !decide_True by lia.
  rewrite Z.sub_diag. replace (a + 1 - a) with 1 by lia. replace (a + 2 - a) with 2 by lia.
  replace (a + 3 - a) with 3 by lia. unfold u8. rewrite !Z.shiftr_div_pow2 by lia.
  change (2 ^ (8 * 0)) with 1. change (2 ^ (8 * 1)) with 256. change (2 ^ (8 * 2)) with 65536.
  change (2 ^ (8 * 3)) with 16777216. change (2 ^ 8) with 256. change (2 ^ 16) with 65536.
  change (2 ^ 24) with 16777216. divlia.
Qed.

Lemma store4_ok m a w : mem_ok m -> mem_ok (store4 m a w).
Proof. intros Hm. unfold store4. by repeat apply upd_ok. Qed.

Lemma memset_ok m dst c n : mem_ok m -> 0 <= n -> mem_ok (memset m dst c n).
Proof. intros Hm Hn x. rewrite memset_spec by done. case_decide; [apply u8_range|apply Hm]. Qed.

(** ** The operations *)

Lemma kalloc_ok s l : kinv s l ->
  exists r s', kalloc s = Ok r s' /\ km s' = km s /\
    ((l = [] /\ r = 0 /\ s' = s) \/ (exists l', l = r :: l' /\ page_ok r /\ kinv s' l')).
Proof.
  intros [H1 H2 H3 H4]. unfold kalloc. destruct l as [|p l]; simpl in H2.
  - rewrite H2, Z.eqb_refl. exists 0, s. split; [done|]. split; [done|]. by left.
  - destruct H2 as [-> H2]. apply Forall_cons in H4 as [Hp H4].
    pose proof (page_ok_range _ Hp). destruct (Z.eqb_spec p 0); [lia|].
    eexists p, _. split; [done|]. split; [done|]. right. exists l. split; [done|]. split; [done|].
    apply NoDup_cons in H3 as [_ H3]. by split.
Qed.

(** The memory [kfree] leaves: junk in the page, except its first word. *)
Definition freed (m : mem) (v h : Z) : mem := store4 (memset m v 1 PGSIZE) v h.

Lemma freed_outside m v h x : ~ (v <= x < v + PGSIZE) -> freed m v h x = m x.
Proof.
  intros Hx. unfold freed. rewrite store4_bytes, decide_False by (unfold PGSIZE in *; lia).
  rewrite memset_spec, decide_False by (unfold PGSIZE in *; lia). done.
Qed.

Lemma flist_head m h l : Forall page_ok l -> flist m h l -> 0 <= h < 2 ^ 32.
Proof.
  intros Hl Hf. destruct l as [|p l]; simpl in Hf; [lia|]. destruct Hf as [-> _].
  apply Forall_cons in Hl as [Hp _]. pose proof (page_ok_range _ Hp). lia.
Qed.

Lemma kfree_ok s l v : kinv s l -> page_ok v -> v ∉ l ->
  exists s', kfree v s = Ok tt s' /\ kinv s' (v :: l) /\ km s' = freed (km s) v (freelist s) /\
    use_lock s' = use_lock s.
Proof.
  intros [H1 H2 H3 H4] Hv Hl. pose proof (page_ok_range _ Hv).
  unfold kfree. rewrite (proj2 (page_ok_test v ltac:(lia)) Hv).
  eexists. split; [done|]. split; [|done]. split; cbn [km freelist].
  - apply store4_ok, memset_ok; [done|unfold PGSIZE; lia].
  - split; [done|]. rewrite load4_store4 by (by eapply flist_head).
    eapply flist_ext; [|exact H2]. intros p x Hp Hx. apply (freed_outside (km s) v).
    rewrite Forall_forall in H4. apply (page_disjoint p v); [by apply H4|done| |unfold PGSIZE; lia].
    intros ->. done.
  - by constructor.
  - by constructor.
Qed.

Lemma kfree_panics s v : 0 <= v < 2 ^ 32 -> ~ page_ok v -> kfree v s = Panic "kfree".
Proof.
  intros Hv Hp. unfold kfree. destruct (_ || _) eqn:E; [done|]. by apply page_ok_test in E.
Qed.

(** The pages from [p] on that end by [vend], in the order of the loop. *)
Definition pages (p : Z) (n : nat) : list Z := (fun i => p + PGSIZE * Z.of_nat i) <$> seq 0 n.

Lemma pages_S p n : pages p (S n) = p :: pages (p + PGSIZE) n.
Proof.
  unfold pages. rewrite <- cons_seq, fmap_cons. f_equal; [lia|].
  rewrite <- fmap_S_seq, <- list_fmap_compose. apply list_fmap_ext. intros i x _. simpl. lia.
Qed.

Lemma freerange_loop_ok fuel p vend n s l :
  n = Z.to_nat ((vend - p) / PGSIZE) -> (n < fuel)%nat -> p <= vend ->
  kinv s l -> Forall page_ok (pages p n) -> (forall q, q ∈ pages p n -> q ∉ l) ->
  exists s', freerange_loop fuel p vend s = Ok tt s' /\ kinv s' (rev (pages p n) ++ l) /\
    use_lock s' = use_lock s.
Proof.
  revert p n s l. induction fuel as [|f IH]; intros p n s l Hn Hf Hp Hk Hok Hfresh; [lia|].
  cbn [freerange_loop]. unfold PGSIZE in Hn. destruct (Z.leb_spec (p + PGSIZE) vend) as [Hle|Hgt]; unfold PGSIZE in *.
  - assert (exists n', n = S n' /\ n' = Z.to_nat ((vend - (p + 4096)) / 4096)) as (n' & -> & Hn').
    { exists (Z.to_nat ((vend - (p + 4096)) / 4096)). split; [|done].
      replace (vend - p) with (vend - (p + 4096) + 1 * 4096) in Hn by lia.
      rewrite Z.div_add in Hn by lia. pose proof (Z.div_pos (vend - (p + 4096)) 4096). lia. }
    rewrite pages_S in *. apply Forall_cons in Hok as [Hpo Hok]. unfold PGSIZE in *.
    destruct (kfree_ok s l p Hk Hpo) as (s1 & E1 & Hk1 & _ & Hu1); [by apply Hfresh; left|].
    destruct (IH (p + 4096) n' s1 (p :: l)) as (s' & E & Hk' & Hu); try done; [lia| |].
    { intros q Hq [->|Hl]%elem_of_cons; [|by apply (Hfresh q); [right|]].
      unfold pages in Hq. apply list_elem_of_fmap in Hq as (i & Hi & _). unfold PGSIZE in Hi. lia. }
    exists s'. split; [unfold bind; by rewrite E1|]. split; [|by rewrite Hu].
    simpl. by rewrite <- app_assoc.
  - assert (n = 0%nat) as ->. { rewrite Hn, Z.div_small by lia. done. }
    exists s. split; [done|]. done.
Qed.

(** Ownership: the allocator with the pages its clients hold. *)
Inductive kstep : kmem * gset Z -> kmem * gset Z -> Prop :=
| kstep_alloc s own r s' : kalloc s = Ok r s' -> r <> 0 -> kstep (s, own) (s', {[r]} ∪ own)
| kstep_none s own s' : kalloc s = Ok 0 s' -> kstep (s, own) (s', own)
| kstep_free s own v s' : v ∈ own -> kfree v s = Ok tt s' -> kstep (s, own) (s', own ∖ {[v]})
| kstep_write s own v x b : v ∈ own -> v <= x < v + PGSIZE ->
    kstep (s, own) (Kmem (upd (km s) x b) (freelist s) (use_lock s), own).

(** Every page is free or held, never both. *)
Definition kowned (all : gset Z) (so : kmem * gset Z) : Prop :=
  exists l, kinv so.1 l /\ list_to_set l ## so.2 /\ list_to_set l ∪ so.2 = all /\
    forall v, v ∈ so.2 -> page_ok v.

Lemma kinv_write s l v x b : kinv s l -> page_ok v -> v ∉ l -> v <= x < v + PGSIZE ->
  kinv (Kmem (upd (km s) x b) (freelist s) (use_lock s)) l.
Proof.
  intros [H1 H2 H3 H4] Hv Hl Hx. split; cbn [km freelist]; try done; [by apply upd_ok|].
  eapply flist_ext; [|exact H2]. intros p y Hp Hy. apply upd_ne. intros ->.
  rewrite Forall_forall in H4. revert Hx. apply (page_disjoint p v); try done; [by apply H4| |].
  - by intros ->.
  - unfold PGSIZE. lia.
Qed.

Lemma kstep_owned all so so' : kowned all so -> kstep so so' -> kowned all so'.
Proof.
  intros (l & Hk & Hd & Ha & Ho) Hs.
  destruct Hs as [s own r s' E Hr|s own s' E|s own v s' Hv E|s own v x b Hv Hx]; simpl in *.
  - destruct (kalloc_ok s l Hk) as (r' & s2 & E2 & _ & H2). rewrite E in E2. injection E2 as <- <-.
    destruct H2 as [(-> & -> & _)|(l' & -> & Hp & Hk')]; [done|].
    exists l'. pose proof (ki_nodup _ _ Hk) as [Hr' _]%NoDup_cons. simpl in *. split_and!; [done| | |].
    + set_solver.
    + set_solver.
    + intros w [->%elem_of_singleton|Hw]%elem_of_union; auto.
  - destruct (kalloc_ok s l Hk) as (r' & s2 & E2 & _ & H2). rewrite E in E2. injection E2 as <- <-.
    destruct H2 as [(-> & _ & ->)|(l' & -> & Hp & Hk')]; [by exists []|].
    pose proof (page_ok_range _ Hp). lia.
  - assert (v ∉ l) as Hvl by set_solver.
    destruct (kfree_ok s l v Hk (Ho v Hv) Hvl) as (s2 & E2 & Hk2 & _).
    rewrite E in E2. injection E2 as <-. exists (v :: l). split_and!; [done| | |].
    + simpl. set_solver.
    + simpl. rewrite <- Ha. apply set_eq. intros y. destruct (decide (y = v)); set_solver.
    + set_solver.
  - exists l. split_and!; try done. apply (kinv_write s l v x b); auto. set_solver.
Qed.

Lemma pground_mask a : 0 <= a < 2 ^ 32 -> Z.land a (u32 (Z.lnot (PGSIZE - 1))) = a - a mod PGSIZE.
Proof.
  intros Ha. change (u32 (Z.lnot (PGSIZE - 1))) with (Z.ldiff (Z.ones 32) (Z.ones 12)).
  assert (Z.land a (Z.ldiff (Z.ones 32) (Z.ones 12)) = Z.ldiff (Z.land a (Z.ones 32)) (Z.ones 12)) as ->.
  { apply Z.bits_inj_iff'. intros j Hj. rewrite !Z.land_spec, !Z.ldiff_spec, Z.land_spec.
    by rewrite andb_assoc. }
  rewrite Z.land_ones, Z.mod_small, Z.ldiff_ones_r, Z.shiftr_div_pow2, Z.shiftl_mul_pow2 by lia.
  change (2 ^ 12) with PGSIZE. unfold PGSIZE. divlia.
Qed.

Lemma PGROUNDUP_ok a : 0 <= a -> a + PGSIZE - 1 < 2 ^ 32 ->
  PGROUNDUP a mod PGSIZE = 0 /\ a <= PGROUNDUP a < a + PGSIZE.
Proof.
  intros Ha Hb. unfold PGROUNDUP. rewrite u32_id by (unfold PGSIZE in *; lia).
  rewrite pground_mask by (unfold PGSIZE in *; lia). unfold PGSIZE in *. divlia.
Qed.

Lemma pages_ok vstart vend n : vstart mod PGSIZE = 0 -> kend <= vstart -> KERNBASE <= vstart ->
  vend <= KERNBASE + PHYSTOP -> n = Z.to_nat ((vend - vstart) / PGSIZE) ->
  Forall page_ok (pages vstart n).
Proof.
  intros H1 H2 H3 H4 ->. apply Forall_forall. intros q Hq. unfold pages in Hq.
  apply list_elem_of_fmap in Hq as (i & -> & Hi%elem_of_seq).
  unfold page_ok, PGSIZE, KERNBASE, PHYSTOP in *. split_and!; divlia.
Qed.

(** ** The promises of the allocator *)

(** C18. No page is handed out twice: in every state that clients can reach
    by allocating, freeing pages they hold and writing to them, the free list
    is well formed, the free and the held pages partition all pages, and a
    page that [kalloc] returns is whole, in range and held by nobody. *)
Theorem kalloc_exclusive all s own s' own' r s'' : kowned all (s, own) ->
  rtc kstep (s, own) (s', own') -> kalloc s' = Ok r s'' ->
  (exists l, kinv s' l /\ list_to_set l ## own' /\ list_to_set l ∪ own' = all) /\
  (r = 0 /\ own' = all \/ page_ok r /\ r ∉ own' /\ r ∈ all).
Proof.
  intros Ho Hs E. assert (kowned all (s', own')) as (l & Hk & Hd & Ha & _).
  { eapply rtc_invariant; [apply kstep_owned|exact Hs|done]. }
  simpl in *. split; [by exists l|].
  destruct (kalloc_ok s' l Hk) as (r' & s2 & E2 & _ & H2). rewrite E in E2. injection E2 as <- <-.
  destruct H2 as [(-> & -> & _)|(l' & -> & Hp & Hk')]; [left|right]; set_solver.
Qed.

(** [kinit1] and [kinit2] put on the free list exactly the whole pages of
    their range, and return. *)
Theorem kinit_pages s vstart vend : kinv s [] -> 0 <= vstart -> vstart + PGSIZE - 1 < 2 ^ 32 ->
  kend <= vstart -> KERNBASE <= vstart -> PGROUNDUP vstart <= vend -> vend <= KERNBASE + PHYSTOP ->
  let p := PGROUNDUP vstart in
  exists s1 s2, kinit1 vstart vend s = Ok tt s1 /\ kinit2 vstart vend s = Ok tt s2 /\
    kinv s1 (rev (pages p (Z.to_nat ((vend - p) / PGSIZE)))) /\
    kinv s2 (rev (pages p (Z.to_nat ((vend - p) / PGSIZE)))) /\ use_lock s2 = true.
Proof.
  intros Hk H1 H2 H3 H4 H5 H6 p. destruct (PGROUNDUP_ok vstart H1 H2) as [Hm Hr]. fold p in Hm, Hr.
  assert (Hok : forall s, kinv s [] -> exists s1, freerange vstart vend s = Ok tt s1 /\
    kinv s1 (rev (pages p (Z.to_nat ((vend - p) / PGSIZE))))).
  { intros s0 Hk0. destruct (freerange_loop_ok (S (Z.to_nat (vend - p))) p vend
      (Z.to_nat ((vend - p) / PGSIZE)) s0 []) as (s1 & E & Hk1 & _); try done.
    - unfold PGSIZE. divlia.
    - eapply pages_ok; [done|lia|lia|done|done].
    - intros q _. apply not_elem_of_nil.
    - exists s1. rewrite app_nil_r in Hk1. done. }
  destruct (Hok (Kmem (km s) (freelist s) false)) as (s1 & E1 & Hk1).
  { destruct Hk. by split. }
  destruct (Hok s Hk) as (s2 & E2 & Hk2). exists s1, (Kmem (km s2) (freelist s2) true).
  split_and!; try done.
  - unfold kinit2, bind. by rewrite E2.
  - destruct Hk2. by split.
Qed.

(** [kfree] of a page is undone by the next [kalloc]: it returns that
    page, the free list is as before, and only bytes of the page have
    changed, to the junk value in all but its first word; [kfree] panics on
    exactly the addresses that are not pages of the allocator. *)
Theorem kfree_kalloc s l v : kinv s l -> 0 <= v < 2 ^ 32 ->
  (page_ok v -> v ∉ l -> exists s1 s2, kfree v s = Ok tt s1 /\ kalloc s1 = Ok v s2 /\
     freelist s2 = freelist s /\
     (forall x, ~ (v <= x < v + PGSIZE) -> km s2 x = km s x) /\
     (forall x, v + 4 <= x < v + PGSIZE -> km s2 x = 1)) /\
  (~ page_ok v -> kfree v s = Panic "kfree").
Proof.
  intros Hk Hv. split; [|by apply kfree_panics]. intros Hp Hl.
  destruct (kfree_ok s l v Hk Hp Hl) as (s1 & E1 & Hk1 & Hm & _).
  destruct (kalloc_ok s1 _ Hk1) as (r & s2 & E2 & Hm2 & H2).
  destruct H2 as [(? & _)|(l' & [= <- <-] & _ & Hk2)]; [done|]. exists s1, s2.
  split_and!; [done|done| | |].
  - unfold kfree, kalloc in *. rewrite (proj2 (page_ok_test v Hv) Hp) in E1. injection E1 as <-.
    cbn [freelist] in E2. pose proof (page_ok_range _ Hp). destruct (Z.eqb_spec v 0); [lia|].
    injection E2 as <-; cbn [freelist km]. apply load4_store4. destruct Hk. by eapply flist_head.
  - intros x Hx. rewrite Hm2, Hm. by apply freed_outside.
  - intros x Hx. rewrite Hm2, Hm. unfold freed.
    rewrite store4_bytes, decide_False, memset_spec, decide_True by (unfold PGSIZE in *; lia). done.
Qed.

End kalloc.

(** A machine with an empty kernel: the pages from 4 MB on. *)
Definition demo_end : Z := KERNBASE + 4194304.
Definition kmem0 : kmem := Kmem (fun _ => 0) 0 false.

Lemma kmem0_kinv : kinv demo_end kmem0 [].
Proof. split; [by intros a; simpl; lia|done|constructor|constructor]. Qed.

Lemma kinit_pages_witness : exists s1 s2,
  kinit1 demo_end (demo_end + 5) (demo_end + 20000) kmem0 = Ok tt s1 /\
  kinit2 demo_end (demo_end + 5) (demo_end + 20000) kmem0 = Ok tt s2 /\ use_lock s2 = true.
Proof.
  destruct (kinit_pages demo_end kmem0 (demo_end + 5) (demo_end + 20000) kmem0_kinv
    ltac:(vm_compute; congruence) ltac:(reflexivity) ltac:(vm_compute; congruence)
    ltac:(vm_compute; congruence) ltac:(vm_compute; congruence) ltac:(vm_compute; congruence))
    as (s1 & s2 & E1 & E2 & _ & _ & Hu).
  exists s1, s2. split; [exact E1|]. split; [exact E2|exact Hu].
Defined.

Lemma kfree_kalloc_witness : exists s1 s2, kfree demo_end demo_end kmem0 = Ok tt s1 /\
  kalloc s1 = Ok demo_end s2 /\ freelist s2 = 0.
Proof.
  destruct (proj1 (kfree_kalloc demo_end kmem0 [] demo_end kmem0_kinv
    ltac:(vm_compute; split; congruence))) as (s1 & s2 & E1 & E2 & Hf & _).
  - split; [reflexivity|]. split; [reflexivity || lia|]. vm_compute. split; congruence.
  - apply not_elem_of_nil.
  - exists s1, s2. split; [exact E1|]. split; [exact E2|exact Hf].
Defined.

(** Two pages that clients hold at first: both are freed, the second one with
    a byte of it written before, and the page freed last is taken again. *)
Definition demo_pg : Z := demo_end + PGSIZE.
Definition demo_two : gset Z := {[demo_end; demo_pg]}.
Definition demo_s1 : kmem := Kmem (store4 (memset (km kmem0) demo_end 1 PGSIZE) demo_end 0) demo_end false.
Definition demo_s2 : kmem := Kmem (upd (km demo_s1) (demo_pg + 8) 77) demo_end false.
Definition demo_s3 : kmem :=
  Kmem (store4 (memset (km demo_s2) demo_pg 1 PGSIZE) demo_pg demo_end) demo_pg false.
Definition demo_s4 : kmem := Kmem (km demo_s3) (load4 (km demo_s3) demo_pg) false.

Lemma demo_kowned : kowned demo_end demo_two (kmem0, demo_two).
Proof.
  exists []. split; [apply kmem0_kinv|]. split; [set_solver|]. split; [set_solver|].
  simpl. intros v Hv. unfold demo_two in Hv.
  apply elem_of_union in Hv as [->%elem_of_singleton| ->%elem_of_singleton];
    (split; [reflexivity|]); vm_compute; split_and!; congruence.
Qed.

Lemma demo_ksteps : rtc (kstep demo_end) (kmem0, demo_two) (demo_s4, {[demo_pg]} ∪ ∅).
Proof.
  assert (demo_end <> demo_pg) as Hne by (vm_compute; congruence).
  assert ((demo_two ∖ {[demo_end]}) ∖ {[demo_pg]} = (∅ : gset Z)) as <- by (unfold demo_two; set_solver).
  eapply rtc_l; [apply (kstep_free _ _ _ demo_end demo_s1); [unfold demo_two; set_solver|reflexivity]|].
  eapply rtc_l; [apply (kstep_write _ _ _ demo_pg (demo_pg + 8) 77);
    [unfold demo_two; set_solver|unfold PGSIZE; lia]|].
  eapply rtc_l; [apply (kstep_free _ _ _ demo_pg demo_s3); [unfold demo_two; set_solver|reflexivity]|].
  apply rtc_once, kstep_alloc; [reflexivity|vm_compute; congruence].
Qed.

Lemma kalloc_exclusive_witness : exists s5,
  rtc (kstep demo_end) (kmem0, demo_two) (demo_s4, {[demo_pg]} ∪ ∅) /\
  kalloc demo_s4 = Ok demo_end s5 /\ page_ok demo_end demo_end /\
  demo_end ∉ ({[demo_pg]} ∪ ∅ : gset Z) /\ demo_end ∈ demo_two.
Proof.
  assert (load4 (km demo_s3) demo_pg = demo_end) as El by (vm_compute; reflexivity).
  assert (kalloc demo_s4 = Ok demo_end (Kmem (km demo_s3) (load4 (km demo_s3) demo_end) false)) as E.
  { unfold kalloc, demo_s4. cbn [freelist km use_lock]. rewrite El. reflexivity. }
  eexists. split; [exact demo_ksteps|]. split; [exact E|].
  destruct (kalloc_exclusive demo_end demo_two kmem0 demo_two _ _ demo_end _ demo_kowned demo_ksteps E)
    as [_ [[Hz _]|H]]; [vm_compute in Hz; congruence|exact H].
Defined.
