(* ===== verification/Fs.v ===== *)
(** * The file system (fs.c, fs.h, struct inode of file.h)

    Blocks, inodes, file contents, directories and path names, as programs on
    the block layer (Blk.v).  The kernel state holds the inode cache; a
    [struct inode *] is an index into it.  Data that the C code copies to or
    from memory is returned or passed as a list of bytes. *)

From stdpp Require Import base numbers list gmap strings.
From Stdlib Require Import ZArith Lia.
From S2P Require Import Prelude Disk Bio Log Blk Kstring.

Local Open Scope Z_scope.
Local Open Scope prog_scope.

Definition NDIRECT : Z := 11.
Definition NINDIRECT : Z := 128.
Definition MAXFILE : Z := NDIRECT + NINDIRECT + NINDIRECT * NINDIRECT.
Definition ROOTINO : Z := 1.
Definition IPB : Z := 8.
Definition BPB : Z := 4096.
Definition DIRSIZ : Z := 14.
Definition DIRENT : Z := 16.
Definition NINODE : nat := 50.
Definition NDEV : Z := 10.
Definition T_DIR : Z := 1.
Definition T_FILE : Z := 2.
Definition T_DEV : Z := 3.
Definition I_BUSY : Z := 2 ^ 0.
Definition I_VALID : Z := 2 ^ 1.

Definition IBLOCK (i : Z) : Z := u32 (i / IPB + 2).
Definition BBLOCK (b ninodes : Z) : Z := u32 (b / BPB + ninodes / IPB + 3).

(** ** On-disk inodes *)

(** [struct dinode]. *)
Record dinode : Type := DInode {
  d_type : Z; d_major : Z; d_minor : Z; d_nlink : Z; d_size : Z; d_addrs : list Z
}.

Definition doff (inum : Z) : nat := Z.to_nat (64 * (inum mod IPB)).

(** The 13 addresses from offset [o] on. *)
Definition get_addrs (o : nat) (d : list Z) : list Z :=
  (fun i => get_le 4 (o + 4 * i) d) <$> seq 0 13.

Fixpoint put_addrs (o : nat) (l : list Z) (d : list Z) : list Z :=
  match l with
  | [] => d
  | a :: l => put_addrs (o + 4) l (put_le 4 o a d)
  end.

Definition dec_dinode (o : nat) (d : list Z) : dinode :=
  DInode (s16 (get_le 2 o d)) (s16 (get_le 2 (o + 2) d)) (s16 (get_le 2 (o + 4) d))
         (s16 (get_le 2 (o + 6) d)) (get_le 4 (o + 8) d) (get_addrs (o + 12) d).

Definition enc_dinode (o : nat) (i : dinode) (d : list Z) : list Z :=
  put_addrs (o + 12) (d_addrs i)
    (put_le 4 (o + 8) (d_size i) (put_le 2 (o + 6) (d_nlink i) (put_le 2 (o + 4) (d_minor i)
      (put_le 2 (o + 2) (d_major i) (put_le 2 o (d_type i) d))))).

(** [memset] of a [struct dinode] to zero. *)
Definition zero_dinode (o : nat) (d : list Z) : list Z := splice o (replicate 64 0) d.

(** ** In-memory inodes *)

Record inode : Type := Inode {
  idev : Z; inum : Z; iref : Z; iflags : Z; dino : dinode
}.

Definition set_ref (x : Z) (i : inode) : inode := Inode (idev i) (inum i) x (iflags i) (dino i).
Definition set_iflags (x : Z) (i : inode) : inode := Inode (idev i) (inum i) (iref i) x (dino i).
Definition set_dino (x : dinode) (i : inode) : inode := Inode (idev i) (inum i) (iref i) (iflags i) x.
Definition set_type (x : Z) (d : dinode) : dinode :=
  DInode x (d_major d) (d_minor d) (d_nlink d) (d_size d) (d_addrs d).
Definition set_nlink (x : Z) (d : dinode) : dinode :=
  DInode (d_type d) (d_major d) (d_minor d) x (d_size d) (d_addrs d).
Definition set_size (x : Z) (d : dinode) : dinode :=
  DInode (d_type d) (d_major d) (d_minor d) (d_nlink d) x (d_addrs d).
Definition set_addr (n x : Z) (d : dinode) : dinode :=
  DInode (d_type d) (d_major d) (d_minor d) (d_nlink d) (d_size d) (aset (d_addrs d) n x).
Definition set_dev (ma mi : Z) (d : dinode) : dinode :=
  DInode (d_type d) ma mi (d_nlink d) (d_size d) (d_addrs d).

Definition inode0 : inode := Inode 0 0 0 0 (DInode 0 0 0 0 0 (replicate 13 0)).

(** The kernel state: the inode cache, and a part this file does not use. *)
Record fsk (E : Type) : Type := FsK { icache : list inode; ext : E }.
Arguments FsK {E} icache ext.
Arguments icache {E} _.
Arguments ext {E} _.

Section fs.
Context {E : Type}.
Local Abbreviation P := (prog (fsk E)).

Definition getip (ip : nat) : P inode := Get (fun k => Ret (default inode0 (icache k !! ip))).
Definition updip (ip : nat) (f : inode -> inode) : P unit :=
  pmodify (fun k => FsK (alter f ip (icache k)) (ext k)).
Definition upddino (ip : nat) (f : dinode -> dinode) : P unit :=
  updip ip (fun i => set_dino (f (dino i)) i).

(** ** Blocks *)

Definition readsb (dv : Z) : P superblock :=
  let! d := bread dv 1 in brelse dv 1 >>> Ret (dec_superblock d).

Definition bzero (dv bno : Z) : P unit :=
  let! _ := bread dv bno in logw dv bno (replicate BSIZE 0) >>> brelse dv bno.

Definition bitmask (bi : Z) : Z := Z.shiftl 1 (bi mod 8).
Definition testbit (d : list Z) (bi : Z) : bool := negb (Z.land (aget 0 d (bi / 8)) (bitmask bi) =? 0).
Definition setbit (d : list Z) (bi : Z) : list Z :=
  aset d (bi / 8) (Z.lor (aget 0 d (bi / 8)) (bitmask bi)).
Definition clrbit (d : list Z) (bi : Z) : list Z :=
  aset d (bi / 8) (Z.land (aget 0 d (bi / 8)) (u8 (Z.lnot (bitmask bi)))).

(** The inner loop of [balloc]: the first clear bit among [n] from [bi] on. *)
Fixpoint scan_bits (d : list Z) (bi : Z) (n : nat) : option Z :=
  match n with
  | O => None
  | S n' => if testbit d bi then scan_bits d (bi + 1) n' else Some bi
  end.

Fixpoint balloc_loop (fuel : nat) (dv : Z) (sb : superblock) (b : Z) : P Z :=
  match fuel with
  | O => PPanic "fuel"
  | S f =>
      if b <? sb_size sb then
        let bm := BBLOCK b (sb_ninodes sb) in
        let! d := bread dv bm in
        match scan_bits d 0 (Z.to_nat (Z.min BPB (sb_size sb - b))) with
        | Some bi =>
            logw dv bm (setbit d bi) >>> brelse dv bm >>> bzero dv (b + bi) >>> Ret (b + bi)
        | None => brelse dv bm >>> balloc_loop f dv sb (b + BPB)
        end
      else PPanic "balloc: out of blocks"
  end.

Definition balloc (dv : Z) : P Z :=
  let! sb := readsb dv in
  balloc_loop (S (Z.to_nat (sb_size sb / BPB + 1))) dv sb 0.

Definition bfree (dv b : Z) : P unit :=
  let! sb := readsb dv in
  let bm := BBLOCK b (sb_ninodes sb) in
  let! d := bread dv bm in
  let bi := b mod BPB in
  if negb (testbit d bi) then PPanic "freeing free block"
  else logw dv bm (clrbit d bi) >>> brelse dv bm.

(** ** Inodes *)

(** The search of [iget]: the entry that has the inode, and the first entry
    that is free. *)
Fixpoint iget_scan (l : list inode) (i : nat) (dv n : Z) (empty : option nat) : option nat + option nat :=
  match l with
  | [] => inr empty
  | ip :: l =>
      if (0 <? iref ip) && (idev ip =? dv) && (inum ip =? n) then inl (Some i)
      else iget_scan l (S i) dv n
             (match empty with None => if iref ip =? 0 then Some i else None | _ => empty end)
  end.

Definition iget (dv n : Z) : P nat :=
  Get (fun k =>
    match iget_scan (icache k) 0 dv n None with
    | inl (Some i) => updip i (fun ip => set_ref (iref ip + 1) ip) >>> Ret i
    | inr (Some i) => updip i (fun ip => Inode dv n 1 0 (dino ip)) >>> Ret i
    | _ => PPanic "iget: no inodes"
    end).

Fixpoint ialloc_loop (fuel : nat) (dv type : Z) (sb : superblock) (n : Z) : P nat :=
  match fuel with
  | O => PPanic "fuel"
  | S f =>
      if n <? sb_ninodes sb then
        let! d := bread dv (IBLOCK n) in
        if d_type (dec_dinode (doff n) d) =? 0 then
          logw dv (IBLOCK n) (put_le 2 (doff n) type (zero_dinode (doff n) d)) >>>
          brelse dv (IBLOCK n) >>>
          iget dv n
        else brelse dv (IBLOCK n) >>> ialloc_loop f dv type sb (n + 1)
      else PPanic "ialloc: no inodes"
  end.

Definition ialloc (dv type : Z) : P nat :=
  let! sb := readsb dv in ialloc_loop (S (Z.to_nat (sb_ninodes sb))) dv type sb 1.

Definition iupdate (ip : nat) : P unit :=
  let! i := getip ip in
  let! d := bread (idev i) (IBLOCK (inum i)) in
  logw (idev i) (IBLOCK (inum i)) (enc_dinode (doff (inum i)) (dino i) d) >>>
  brelse (idev i) (IBLOCK (inum i)).

Definition idup (ip : nat) : P nat := updip ip (fun i => set_ref (iref i + 1) i) >>> Ret ip.

Definition ilock (ip : nat) : P unit :=
  let! i := getip ip in
  if iref i <? 1 then PPanic "ilock"
  else if fhas (iflags i) I_BUSY then PSleep (WInode ip)
  else
    updip ip (fun i => set_iflags (fset (iflags i) I_BUSY) i) >>>
    if fhas (iflags i) I_VALID then Ret tt
    else
      let! d := bread (idev i) (IBLOCK (inum i)) in
      let di := dec_dinode (doff (inum i)) d in
      upddino ip (fun _ => di) >>>
      brelse (idev i) (IBLOCK (inum i)) >>>
      updip ip (fun i => set_iflags (fset (iflags i) I_VALID) i) >>>
      if d_type di =? 0 then PPanic "ilock: no type" else Ret tt.

Definition iunlock (ip : nat) : P unit :=
  let! i := getip ip in
  if negb (fhas (iflags i) I_BUSY) || (iref i <? 1) then PPanic "iunlock"
  else updip ip (fun i => set_iflags (fclr (iflags i) I_BUSY) i).

(** ** File contents *)

(** A free slot gets a block from [balloc]: a slot of [ip->addrs], or a
    word of an index block. *)
Definition map_addr (ip : nat) (n : Z) : P Z :=
  let! i := getip ip in
  let addr := aget 0 (d_addrs (dino i)) n in
  if addr =? 0 then
    let! addr := balloc (idev i) in
    upddino ip (set_addr n addr) >>> Ret addr
  else Ret addr.

Definition map_word (dv bno n : Z) : P Z :=
  let! d := bread dv bno in
  let addr := get_le 4 (Z.to_nat (4 * n)) d in
  if addr =? 0 then
    let! addr := balloc dv in
    logw dv bno (put_le 4 (Z.to_nat (4 * n)) addr d) >>>
    brelse dv bno >>> Ret addr
  else brelse dv bno >>> Ret addr.

Definition bmap (ip : nat) (bn : Z) : P Z :=
  let! i := getip ip in
  if bn <? NDIRECT then map_addr ip bn
  else
    let bn := bn - NDIRECT in
    if bn <? NINDIRECT then
      let! addr := map_addr ip NDIRECT in
      map_word (idev i) addr bn
    else
      let bn := bn - NINDIRECT in
      if bn <? NINDIRECT * NINDIRECT then
        let! addr := map_addr ip (NDIRECT + 1) in
        let! addr := map_word (idev i) addr (bn / NINDIRECT) in
        map_word (idev i) addr (bn mod NINDIRECT)
      else PPanic "bmap: out of range".

(** The loops of [itrunc], over the direct addresses and over the words of
    the indirect block. *)
Fixpoint itrunc_direct (ip : nat) (ns : list nat) : P unit :=
  match ns with
  | [] => Ret tt
  | n :: ns =>
      let! i := getip ip in
      let addr := aget 0 (d_addrs (dino i)) (Z.of_nat n) in
      (if addr =? 0 then Ret tt
       else bfree (idev i) addr >>> upddino ip (set_addr (Z.of_nat n) 0)) >>>
      itrunc_direct ip ns
  end.

Fixpoint itrunc_words (dv : Z) (a : list Z) (js : list nat) : P unit :=
  match js with
  | [] => Ret tt
  | j :: js =>
      let w := get_le 4 (4 * j) a in
      (if w =? 0 then Ret tt else bfree dv w) >>> itrunc_words dv a js
  end.

Definition itrunc (ip : nat) : P unit :=
  itrunc_direct ip (seq 0 (Z.to_nat NDIRECT)) >>>
  let! i := getip ip in
  let addr := aget 0 (d_addrs (dino i)) NDIRECT in
  (if addr =? 0 then Ret tt
   else
     let! a := bread (idev i) addr in
     itrunc_words (idev i) a (seq 0 (Z.to_nat NINDIRECT)) >>>
     brelse (idev i) addr >>>
     bfree (idev i) addr >>>
     upddino ip (set_addr NDIRECT 0)) >>>
  upddino ip (set_size 0) >>>
  iupdate ip.

Definition iput (ip : nat) : P unit :=
  let! i := getip ip in
  (if (iref i =? 1) && fhas (iflags i) I_VALID && (d_nlink (dino i) =? 0) then
     if fhas (iflags i) I_BUSY then PPanic "iput busy"
     else
       updip ip (fun i => set_iflags (fset (iflags i) I_BUSY) i) >>>
       itrunc ip >>>
       upddino ip (set_type 0) >>>
       iupdate ip >>>
       updip ip (set_iflags 0)
   else Ret tt) >>>
  updip ip (fun i => set_ref (iref i - 1) i).

Definition iunlockput (ip : nat) : P unit := iunlock ip >>> iput ip.

(** [struct stat]. *)
Record stat : Type := Stat { st_type : Z; st_dev : Z; st_ino : Z; st_nlink : Z; st_size : Z }.

Definition stati (ip : nat) : P stat :=
  let! i := getip ip in
  Ret (Stat (d_type (dino i)) (s32 (idev i)) (inum i) (d_nlink (dino i)) (d_size (dino i))).

(** [devsw]: the read and write functions of the devices that have them. *)
Context (devread : Z -> option (nat -> Z -> P (Z * list Z)))
        (devwrite : Z -> option (nat -> list Z -> P Z)).

Definition chunk (n tot off : Z) : Z := Z.min (n - tot) (Z.of_nat BSIZE - off mod Z.of_nat BSIZE).

Fixpoint readi_loop (fuel : nat) (ip : nat) (off n tot : Z) : P (list Z) :=
  match fuel with
  | O => PPanic "fuel"
  | S f =>
      if tot <? n then
        let! i := getip ip in
        let! bno := bmap ip (off / Z.of_nat BSIZE) in
        let! d := bread (idev i) bno in
        let m := chunk n tot off in
        brelse (idev i) bno >>>
        let! rest := readi_loop f ip (off + m) n (tot + m) in
        Ret (slice (Z.to_nat (off mod Z.of_nat BSIZE)) (Z.to_nat m) d ++ rest)
      else Ret []
  end.

(** The blocks a range of [n] bytes can touch, and one more round. *)
Definition io_fuel (n : Z) : nat := Z.to_nat (n / Z.of_nat BSIZE + 3).

(** [readi]: the value returned and the bytes stored at [dst]. *)
Definition readi (ip : nat) (off n : Z) : P (Z * list Z) :=
  let! i := getip ip in
  let di := dino i in
  if d_type di =? T_DEV then
    if (d_major di <? 0) || (NDEV <=? d_major di) then Ret (-1, [])
    else match devread (d_major di) with
         | None => Ret (-1, [])
         | Some rd => rd ip n
         end
  else if (d_size di <? off) || (u32 (off + n) <? off) then Ret (-1, [])
  else
    let n := if d_size di <? u32 (off + n) then d_size di - off else n in
    let! bs := readi_loop (io_fuel n) ip off n 0 in
    Ret (n, bs).

(** The loop of [writei]; it returns the final [off]. *)
Fixpoint writei_loop (fuel : nat) (ip : nat) (src : list Z) (off n tot : Z) : P Z :=
  match fuel with
  | O => PPanic "fuel"
  | S f =>
      if tot <? n then
        let! i := getip ip in
        let! bno := bmap ip (off / Z.of_nat BSIZE) in
        let! d := bread (idev i) bno in
        let m := chunk n tot off in
        logw (idev i) bno
          (splice (Z.to_nat (off mod Z.of_nat BSIZE)) (slice (Z.to_nat tot) (Z.to_nat m) src) d) >>>
        brelse (idev i) bno >>>
        writei_loop f ip src (off + m) n (tot + m)
      else Ret off
  end.

(** [writei] of the [n] bytes of [src]. *)
Definition writei (ip : nat) (src : list Z) (off : Z) : P Z :=
  let n := Z.of_nat (length src) in
  let! i := getip ip in
  let di := dino i in
  if d_type di =? T_DEV then
    if (d_major di <? 0) || (NDEV <=? d_major di) then Ret (-1)
    else match devwrite (d_major di) with
         | None => Ret (-1)
         | Some wr => wr ip src
         end
  else if (d_size di <? off) || (u32 (off + n) <? off) then Ret (-1)
  else if MAXFILE * Z.of_nat BSIZE <? u32 (off + n) then Ret (-1)
  else
    let! off := writei_loop (io_fuel n) ip src off n 0 in
    let! i := getip ip in
    (if (0 <? n) && (d_size (dino i) <? off) then
       upddino ip (set_size off) >>> iupdate ip
     else Ret tt) >>>
    Ret n.

(** ** Directories *)

(** [struct dirent]: a [ushort] and 14 bytes of name. *)
Definition de_inum (d : list Z) : Z := get_le 2 0 d.
Definition de_name (d : list Z) : list Z := slice 2 14 d.

(** [strncmp(s, t, n)] on names given by their bytes, NUL after the last. *)
Fixpoint strncmp (n : nat) (s t : list Z) : Z :=
  match n with
  | O => 0
  | S n' =>
      let c := default 0 (head s) in
      let d := default 0 (head t) in
      if negb (c =? 0) && (c =? d) then strncmp n' (tail s) (tail t) else c - d
  end.

Definition namecmp (s t : list Z) : Z := strncmp (Z.to_nat DIRSIZ) s t.

(** The entry found and its offset. *)
Fixpoint dirlookup_loop (fuel : nat) (dp : nat) (name : list Z) (off : Z) : P (option (nat * Z)) :=
  match fuel with
  | O => PPanic "fuel"
  | S f =>
      let! i := getip dp in
      if off <? d_size (dino i) then
        let! (r, de) := readi dp off DIRENT in
        if negb (r =? DIRENT) then PPanic "dirlink read"
        else if de_inum de =? 0 then dirlookup_loop f dp name (off + DIRENT)
        else if namecmp name (de_name de) =? 0 then
          let! ip := iget (idev i) (de_inum de) in Ret (Some (ip, off))
        else dirlookup_loop f dp name (off + DIRENT)
      else Ret None
  end.

Definition dir_fuel (sz : Z) : nat := Z.to_nat (sz / DIRENT + 2).

Definition dirlookup (dp : nat) (name : list Z) : P (option (nat * Z)) :=
  let! i := getip dp in
  if negb (d_type (dino i) =? T_DIR) then PPanic "dirlookup not DIR"
  else dirlookup_loop (dir_fuel (d_size (dino i))) dp name 0.

(** The search of [dirlink] for an empty entry: the offset it stops at. *)
Fixpoint dirlink_scan (fuel : nat) (dp : nat) (off : Z) : P Z :=
  match fuel with
  | O => PPanic "fuel"
  | S f =>
      let! i := getip dp in
      if off <? d_size (dino i) then
        let! (r, de) := readi dp off DIRENT in
        if negb (r =? DIRENT) then PPanic "dirlink read"
        else if de_inum de =? 0 then Ret off
        else dirlink_scan f dp (off + DIRENT)
      else Ret off
  end.

(** The bytes of an entry: [strncpy(de.name, name, DIRSIZ)], [de.inum = inum]. *)
Definition dirent_bytes (name : list Z) (n : Z) : list Z :=
  le_enc 2 n ++ take 14 (name ++ replicate 14 0).

Definition dirlink (dp : nat) (name : list Z) (n : Z) : P Z :=
  let! r := dirlookup dp name in
  match r with
  | Some (ip, _) => iput ip >>> Ret (-1)
  | None =>
      let! i := getip dp in
      let! off := dirlink_scan (dir_fuel (d_size (dino i))) dp 0 in
      let! r := writei dp (dirent_bytes name n) off in
      if negb (r =? DIRENT) then PPanic "dirlink" else Ret 0
  end.

(** ** Paths

    A path is the list of its characters, without the NUL. *)

Definition slash : Z := 47.

Fixpoint skip_slashes (path : list Z) : list Z :=
  match path with
  | c :: p => if c =? slash then skip_slashes p else path
  | [] => []
  end.

(** The characters up to the next slash, and the rest. *)
Fixpoint path_elem (path : list Z) : list Z * list Z :=
  match path with
  | [] => ([], [])
  | c :: p => if c =? slash then ([], path) else let '(s, r) := path_elem p in (c :: s, r)
  end.

(** The name and the rest of the path; [None] when there is no name. *)
Definition skipelem (path : list Z) : option (list Z * list Z) :=
  match skip_slashes path with
  | [] => None
  | path =>
      let '(s, r) := path_elem path in
      let name := if DIRSIZ <=? Z.of_nat (length s) then take (Z.to_nat DIRSIZ) s else s in
      Some (name, skip_slashes r)
  end.

(** The current process's directory. *)
Context (cwd : E -> nat).

Fixpoint namex_loop (fuel : nat) (ip : nat) (path : list Z) (parent : bool) (name : list Z) :
    P (option (nat * list Z)) :=
  match fuel with
  | O => PPanic "fuel"
  | S f =>
      match skipelem path with
      | None => if parent then iput ip >>> Ret None else Ret (Some (ip, name))
      | Some (name, path) =>
          ilock ip >>>
          let! i := getip ip in
          if negb (d_type (dino i) =? T_DIR) then iunlockput ip >>> Ret None
          else if parent && bool_decide (path = []) then iunlock ip >>> Ret (Some (ip, name))
          else
            let! r := dirlookup ip name in
            match r with
            | None => iunlockput ip >>> Ret None
            | Some (next, _) => iunlockput ip >>> namex_loop f next path parent name
            end
      end
  end.

Definition namex (path : list Z) (parent : bool) : P (option (nat * list Z)) :=
  let! ip := match path with
             | c :: _ => if c =? slash then iget ROOTDEV ROOTINO
                         else Get (fun k => idup (cwd (ext k)))
             | [] => Get (fun k => idup (cwd (ext k)))
             end in
  namex_loop (S (length path)) ip path parent [].

Definition namei (path : list Z) : P (option nat) :=
  let! r := namex path false in Ret (fst <$> r).

Definition nameiparent (path : list Z) : P (option (nat * list Z)) := namex path true.

End fs.
