(* ===== verification/FsSpec.v ===== *)
(** * What the file system's blocks mean

    The bitmap, the tree of blocks of an inode and the contents of a file, on
    the abstract block store of Blk.v; [balloc], [bmap], [readi] and [writei]
    of Fs.v against them. *)

From stdpp Require Import base numbers list gmap strings.
From Stdlib Require Import ZArith Lia.
From S2P Require Import Prelude Disk Bio Log Blk Fs.

Local Open Scope Z_scope.
Local Open Scope prog_scope.

(** ** Bits of a bitmap block *)

Lemma testbit_spec d bi : testbit d bi = Z.testbit (aget 0 d (bi / 8)) (bi mod 8).
Proof.
  unfold testbit, bitmask. rewrite Z.shiftl_1_l. apply fhas_bit. apply Z.mod_pos_bound. lia.
Qed.

Lemma testbit_setbit d bi bj : 0 <= bi < BPB -> 0 <= bj < BPB -> length d = BSIZE ->
  testbit (setbit d bi) bj = bool_decide (bi = bj) || testbit d bj.
Proof.
  intros Hi Hj Hd. rewrite !testbit_spec. unfold setbit, bitmask. rewrite Z.shiftl_1_l.
  unfold BPB in *. assert (Hm := Z.mod_pos_bound bj 8 ltac:(lia)). assert (Hm' := Z.mod_pos_bound bi 8 ltac:(lia)).
  destruct (decide (bi / 8 = bj / 8)) as [He|He].
  - rewrite <- He, aget_aset_eq by (rewrite Hd; unfold BSIZE; divlia). rewrite Z.lor_spec.
    rewrite orb_comm. f_equal. destruct (decide (bi = bj)) as [->|Hn].
    + rewrite bool_decide_true by done. by rewrite Z.pow2_bits_true by lia.
    + rewrite bool_decide_false by done. rewrite Z.pow2_bits_false; [done|divlia].
  - rewrite aget_aset_ne by done. rewrite bool_decide_false by congruence. done.
Qed.

Lemma testbit_clrbit d bi bj : 0 <= bi < BPB -> 0 <= bj < BPB -> length d = BSIZE ->
  testbit (clrbit d bi) bj = negb (bool_decide (bi = bj)) && testbit d bj.
Proof.
  intros Hi Hj Hd. rewrite !testbit_spec. unfold clrbit, bitmask. rewrite Z.shiftl_1_l.
  unfold BPB in *. assert (Hm := Z.mod_pos_bound bj 8 ltac:(lia)). assert (Hm' := Z.mod_pos_bound bi 8 ltac:(lia)).
  destruct (decide (bi / 8 = bj / 8)) as [He|He].
  - rewrite <- He, aget_aset_eq by (rewrite Hd; unfold BSIZE; divlia).
    unfold u8. rewrite Z.land_spec, Z.mod_pow2_bits_low by lia. rewrite Z.lnot_spec by lia.
    rewrite andb_comm. do 2 f_equal. destruct (decide (bi = bj)) as [->|Hn].
    + rewrite bool_decide_true by done. by rewrite Z.pow2_bits_true by lia.
    + rewrite bool_decide_false by done. rewrite Z.pow2_bits_false; [done|divlia].
  - rewrite aget_aset_ne by done. rewrite bool_decide_false by congruence. done.
Qed.

Lemma length_setbit d bi : length (setbit d bi) = length d.
Proof. apply length_aset. Qed.

Lemma length_clrbit d bi : length (clrbit d bi) = length d.
Proof. apply length_aset. Qed.

(** The first clear bit. *)
Lemma scan_bits_some d n : forall bi r, scan_bits d bi n = Some r ->
  bi <= r < bi + Z.of_nat n /\ testbit d r = false /\ forall j, bi <= j < r -> testbit d j = true.
Proof.
  induction n as [|n IH]; intros bi r; cbn [scan_bits]; [done|].
  destruct (testbit d bi) eqn:E; [|intros [= <-]; split_and!; [lia|lia|done|lia]].
  intros H. apply IH in H as (H1 & H2 & H3). split_and!; [lia|lia|done|].
  intros j Hj. destruct (decide (j = bi)) as [->|]; [done|apply H3; lia].
Qed.

Lemma scan_bits_none d n : forall bi, scan_bits d bi n = None ->
  forall j, bi <= j < bi + Z.of_nat n -> testbit d j = true.
Proof.
  induction n as [|n IH]; intros bi; cbn [scan_bits]; [lia|].
  destruct (testbit d bi) eqn:E; [|done]. intros H j Hj.
  destruct (decide (j = bi)) as [->|]; [done|apply (IH _ H); lia].
Qed.

(** ** Inodes on the disk *)

(** The fields fit their C types. *)
Record dinode_ok (d : dinode) : Prop := {
  do_type : - 2 ^ 15 <= d_type d < 2 ^ 15;
  do_major : - 2 ^ 15 <= d_major d < 2 ^ 15;
  do_minor : - 2 ^ 15 <= d_minor d < 2 ^ 15;
  do_nlink : - 2 ^ 15 <= d_nlink d < 2 ^ 15;
  do_size : 0 <= d_size d < 2 ^ 32;
  do_len : length (d_addrs d) = 13%nat;
  do_addrs : Forall (fun a => 0 <= a < 2 ^ 32) (d_addrs d)
}.

(** [dsz] settles the side conditions of field accesses. *)
Ltac dsz := repeat rewrite length_put_le by dsz; lia.

Lemma length_put_addrs l : forall o d, (o + 4 * length l <= length d)%nat -> length (put_addrs o l d) = length d.
Proof.
  induction l as [|a l IH]; intros o d Hl; [done|]. cbn [put_addrs length] in *.
  rewrite IH; rewrite length_put_le; lia.
Qed.

Lemma put_addrs_disj l : forall n o p d, (p + 4 * length l <= length d)%nat ->
  (o + n <= p \/ p + 4 * length l <= o)%nat -> get_le n o (put_addrs p l d) = get_le n o d.
Proof.
  induction l as [|a l IH]; intros n o p d Hl Hd; [done|]. cbn [put_addrs length] in *.
  rewrite IH by (rewrite ?length_put_le; lia). apply get_put_le_disj; lia.
Qed.

Lemma get_put_addrs l : Forall (fun a => 0 <= a < 2 ^ 32) l -> forall o d i, (o + 4 * length l <= length d)%nat ->
  (i < length l)%nat -> get_le 4 (o + 4 * i) (put_addrs o l d) = nth i l 0.
Proof.
  induction 1 as [|a l Ha Hl IH]; intros o d i Hlen Hi; [simpl in Hi; lia|]. cbn [put_addrs length] in *.
  destruct i as [|i].
  - rewrite put_addrs_disj by (rewrite ?length_put_le; lia). replace (o + 4 * 0)%nat with o by lia.
    rewrite get_put_le by lia. by apply Z.mod_small.
  - replace (o + 4 * S i)%nat with (o + 4 + 4 * i)%nat by lia. rewrite IH by (rewrite ?length_put_le; lia). done.
Qed.

Lemma length_enc_dinode o i d : length (d_addrs i) = 13%nat -> (o + 64 <= length d)%nat ->
  length (enc_dinode o i d) = length d.
Proof.
  intros Hi Ho. unfold enc_dinode. rewrite length_put_addrs by (rewrite Hi; dsz). dsz.
Qed.

Lemma put_get_short d o x : (o + 2 <= length d)%nat -> - 2 ^ 15 <= x < 2 ^ 15 -> s16 (get_le 2 o (put_le 2 o x d)) = x.
Proof.
  intros Ho Hx. rewrite get_put_le by lia. change (256 ^ Z.of_nat 2) with (2 ^ 16).
  change (x mod 2 ^ 16) with (u16 x). rewrite s16_u16. by apply s16_id.
Qed.

(** Reading back a written inode, and the inodes next to it. *)
Lemma dinode_roundtrip o i d : dinode_ok i -> (o + 64 <= length d)%nat -> dec_dinode o (enc_dinode o i d) = i.
Proof.
  intros [H1 H2 H3 H4 H5 H6 H7] Ho. unfold dec_dinode, enc_dinode.
  rewrite !(put_addrs_disj (d_addrs i)) by (rewrite ?H6; dsz).
  rewrite (get_put_le 4 (o + 8)) by dsz. rewrite (Z.mod_small (d_size i)) by done.
  rewrite !(get_put_le_disj 2 _ 4 (o + 8)) by dsz.
  rewrite put_get_short by (done || dsz). rewrite !(get_put_le_disj 2 _ 2 (o + 6)) by dsz.
  rewrite put_get_short by (done || dsz). rewrite !(get_put_le_disj 2 _ 2 (o + 4)) by dsz.
  rewrite put_get_short by (done || dsz). rewrite !(get_put_le_disj 2 _ 2 (o + 2)) by dsz.
  rewrite put_get_short by (done || dsz). destruct i as [t ma mi nl sz l]; cbn [d_addrs d_size d_type d_major d_minor d_nlink] in *.
  f_equal. apply list_eq. intros j. unfold get_addrs. rewrite list_lookup_fmap.
  destruct (decide (j < 13)%nat) as [Hj|Hj].
  - rewrite lookup_seq_lt by done. cbn [fmap option_fmap option_map Nat.add].
    rewrite get_put_addrs by (rewrite ?H6; try done; dsz).
    symmetry. destruct (lookup_lt_is_Some_2 l j) as [x Hx]; [lia|]. rewrite Hx. f_equal. symmetry. by apply nth_lookup_Some.
  - rewrite lookup_seq_ge by lia. symmetry. apply lookup_ge_None_2. lia.
Qed.

Lemma dinode_other o p i d : (o + 64 <= length d)%nat -> (p + 64 <= length d)%nat -> length (d_addrs i) = 13%nat ->
  (o + 64 <= p \/ p + 64 <= o)%nat -> dec_dinode p (enc_dinode o i d) = dec_dinode p d.
Proof.
  intros Ho Hp Hl Hd. unfold dec_dinode, enc_dinode, get_addrs.
  assert (Hg : forall n q, (p <= q)%nat -> (q + n <= p + 64)%nat -> get_le n q (enc_dinode o i d) = get_le n q d).
  { intros n q H1 H2. unfold enc_dinode. rewrite put_addrs_disj by (rewrite ?Hl; dsz).
    rewrite !get_put_le_disj by dsz. done. }
  unfold enc_dinode in Hg. rewrite !Hg by lia. f_equal. apply list_fmap_ext. intros j x Hx.
  apply lookup_seq in Hx as [-> Hj]. apply Hg; lia.
Qed.

(** ** The disk *)

Section disk.
Context (L : layout) (sb : superblock) {E : Type}.
Implicit Types (b : bstate) (k : fsk E).

Definition blockof b (n : Z) : list Z := default [] (img b !! (ldev L, n)).
Definition bmblock (n : Z) : Z := BBLOCK n (sb_ninodes sb).
Definition used b (n : Z) : bool := testbit (blockof b (bmblock n)) (n mod BPB).
(** The first data block. *)
Definition dstart : Z := sb_size sb / BPB + sb_ninodes sb / IPB + 4.

(** The superblock fits the device and the place of the log. *)
Record fsgeo : Prop := {
  fg_dev : 0 <= ldev L < 2 ^ 32;
  fg_size : 0 < sb_size sb < 2 ^ 31;
  fg_inodes : 0 <= sb_ninodes sb;
  fg_log : lstart L <= sb_size sb;
  fg_lsize : LOGSIZE <= lsize L;
  fg_data : dstart <= lstart L
}.

(** Superblock, bitmap and data blocks are there; blocks before the data
    blocks are marked used. *)
Record fsdisk b : Prop := {
  fd_block n : 0 <= n < lstart L -> exists x, img b !! (ldev L, n) = Some x /\ length x = BSIZE;
  fd_sb : dec_superblock (blockof b 1) = sb;
  fd_meta n : 0 <= n < lstart L -> used b n = false -> dstart <= n
}.

(** [c] more sectors may be logged. *)
Definition room b (c : nat) : Prop :=
  active b = true /\ (size (dirties b) + size (locked b) + c <= 9)%nat.

(** Locked blocks are allocated data blocks. *)
Definition lockok b : Prop := forall n, (ldev L, n) ∈ locked b -> dstart <= n < lstart L /\ used b n = true.

(** The lowest free block. *)
Definition first_free b (n : Z) : Prop :=
  0 <= n < lstart L /\ used b n = false /\ forall m, 0 <= m < n -> used b m = true.

(** At least [c] data blocks are free. *)
Definition avail b (c : nat) : Prop :=
  exists F : gset Z, (c <= size F)%nat /\ forall n, n ∈ F -> 0 <= n < lstart L /\ used b n = false.

(** The state [balloc] leaves when it takes [n]. *)
Definition alloc b (n : Z) : bstate :=
  BState (<[(ldev L, n) := replicate BSIZE 0]>
            (<[(ldev L, bmblock n) := setbit (blockof b (bmblock n)) (n mod BPB)]> (img b)))
         (locked b) ({[(ldev L, n)]} ∪ ({[(ldev L, bmblock n)]} ∪ dirties b)) true.

Context (Hgeo : fsgeo).

Lemma bmblock_eq n : 0 <= n < sb_size sb -> bmblock n = n / BPB + sb_ninodes sb / IPB + 3.
Proof.
  intros Hn. pose proof (fg_size Hgeo). pose proof (fg_inodes Hgeo). pose proof (fg_data Hgeo).
  pose proof (fg_log Hgeo). unfold dstart in *. unfold bmblock, BBLOCK, IPB, BPB in *. apply u32_id. divlia.
Qed.

Lemma bmblock_range n : 0 <= n < sb_size sb -> 3 <= bmblock n < dstart.
Proof.
  intros Hn. rewrite bmblock_eq by done. pose proof (fg_inodes Hgeo). unfold dstart, IPB, BPB in *. divlia.
Qed.

Lemma dstart_lstart : 4 <= dstart <= lstart L.
Proof. pose proof (fg_data Hgeo). pose proof (fg_inodes Hgeo). pose proof (fg_size Hgeo). unfold dstart, IPB, BPB in *. divlia. Qed.

(** A bit of the bitmap is named by its block and its place there. *)
Lemma bm_inj n m : 0 <= n < sb_size sb -> 0 <= m < sb_size sb -> bmblock n = bmblock m ->
  n mod BPB = m mod BPB -> n = m.
Proof. intros Hn Hm. rewrite !bmblock_eq by done. unfold BPB. intros. divlia. Qed.

Lemma block_sector b n : fsdisk b -> 0 <= n < lstart L -> sector L b (ldev L) n (blockof b n).
Proof.
  intros Hb Hn. pose proof (fg_dev Hgeo). pose proof (fg_size Hgeo). pose proof (fg_log Hgeo).
  destruct (fd_block _ Hb n Hn) as (x & Hx & _). unfold sector, blockof. rewrite Hx.
  split_and!; try done; try lia. unfold islog; simpl. lia.
Qed.

Lemma length_blockof b n : fsdisk b -> 0 <= n < lstart L -> length (blockof b n) = BSIZE.
Proof. intros Hb Hn. destruct (fd_block _ Hb n Hn) as (x & Hx & Hl). unfold blockof. by rewrite Hx. Qed.

(** ** Writing blocks *)

(** [b] after [log_write] of [x] to block [n]. *)
Definition setblock b (n : Z) (x : list Z) : bstate :=
  BState (<[(ldev L, n) := x]> (img b)) (locked b) ({[(ldev L, n)]} ∪ dirties b) true.

Lemma blockof_set b n x m : blockof (setblock b n x) m = if decide (n = m) then x else blockof b m.
Proof.
  unfold blockof, setblock; cbn [img]. case_decide as H; [subst; by rewrite lookup_insert_eq|].
  rewrite lookup_insert_ne by congruence. done.
Qed.

Lemma blockof_img b b' n : img b = img b' -> blockof b n = blockof b' n.
Proof. unfold blockof. by intros ->. Qed.

(** [bread], a change, [log_write], [brelse]. *)
Lemma wp_modify {A} n x g (m : unit -> prog (fsk E) A) (Q : A -> bstate -> fsk E -> Prop) b k :
  g (blockof b n) = (logw (ldev L) n x >>> pbind (brelse (ldev L) n) m) ->
  fsdisk b -> 0 <= n < lstart L -> ~ (ldev L, n) ∈ locked b -> room b 1 -> length x = BSIZE ->
  wp L (m tt) Q (setblock b n x) k -> wp L (pbind (bread (ldev L) n) g) Q b k.
Proof.
  intros Hg Hb Hn Hl [Ha Hr] Hf HQ. pose proof (fg_dev Hgeo). pose proof (fg_size Hgeo). pose proof (fg_log Hgeo).
  pose proof (fg_lsize Hgeo). unfold LOGSIZE in *. pose proof (size_union_le (locked b) (dirties b)).
  apply wp_bind, (wp_bread L _ _ (blockof b n)); [by apply block_sector|done|right; unfold NBUF; lia|].
  rewrite Hg. apply wp_bind, wp_logw; cbn [locked dirties active]; try done; [set_solver|lia|unfold LOGSIZE; lia|lia|].
  apply wp_bind, wp_brelse; cbn [locked]; [lia|lia|set_solver|]. cbn [img locked dirties active].
  replace (({[(ldev L, n)]} ∪ locked b) ∖ {[(ldev L, n)]}) with (locked b) by set_solver. done.
Qed.

(** [bread] and [brelse] of a block leave the state as it is. *)
Lemma wp_peek {A} n g (m : prog (fsk E) A) (Q : A -> bstate -> fsk E -> Prop) b k :
  g (blockof b n) = (brelse (ldev L) n >>> m) ->
  fsdisk b -> 0 <= n < lstart L -> ~ (ldev L, n) ∈ locked b ->
  (size (dirties b) + size (locked b) <= 9)%nat ->
  wp L m Q b k -> wp L (pbind (bread (ldev L) n) g) Q b k.
Proof.
  intros Hg Hb Hn Hl Hr HQ. pose proof (fg_dev Hgeo). pose proof (fg_size Hgeo). pose proof (fg_log Hgeo).
  pose proof (size_union_le (locked b) (dirties b)).
  apply wp_bind, (wp_bread L _ _ (blockof b n)); [by apply block_sector|done|right; unfold NBUF; lia|].
  rewrite Hg. apply wp_bind, wp_brelse; cbn [locked]; [lia|lia|set_solver|]. cbn [img locked dirties active].
  replace (({[(ldev L, n)]} ∪ locked b) ∖ {[(ldev L, n)]}) with (locked b) by set_solver. by destruct b.
Qed.

Lemma wp_readsb (Q : superblock -> bstate -> fsk E -> Prop) b k : fsdisk b -> lockok b ->
  (size (dirties b) + size (locked b) <= 9)%nat -> Q sb b k -> wp L (readsb (ldev L)) Q b k.
Proof.
  intros Hb Hl Hr HQ. pose proof dstart_lstart. unfold readsb.
  eapply (wp_peek 1); [done|done|lia| |done|].
  - intros Hk. apply Hl in Hk as [Hk _]. lia.
  - apply wp_ret. by rewrite (fd_sb _ Hb).
Qed.

Lemma wp_bzero n (Q : unit -> bstate -> fsk E -> Prop) b k : fsdisk b -> 0 <= n < lstart L ->
  ~ (ldev L, n) ∈ locked b -> room b 1 -> Q tt (setblock b n (replicate BSIZE 0)) k ->
  wp L (bzero (ldev L) n) Q b k.
Proof.
  intros Hb Hn Hl Hr HQ. unfold bzero. by eapply (wp_modify n _ _ Ret).
Qed.

(** A write outside superblock and bitmap keeps the disk well formed. *)
Lemma used_set b n x m : (forall j, 0 <= j < sb_size sb -> bmblock j <> n) -> 0 <= m < sb_size sb ->
  used (setblock b n x) m = used b m.
Proof. intros Hn Hm. unfold used. rewrite blockof_set, decide_False; [done|]. intros ->. by eapply Hn. Qed.

Lemma fsdisk_set b n x : fsdisk b -> 1 < n < lstart L ->
  (forall j, 0 <= j < sb_size sb -> bmblock j <> n) -> length x = BSIZE -> fsdisk (setblock b n x).
Proof.
  intros [H1 H2 H3] Hn Hbm Hx. pose proof (fg_log Hgeo). split.
  - intros m Hm. cbn [setblock img]. destruct (decide (n = m)) as [->|].
    + rewrite lookup_insert_eq. by exists x.
    + rewrite lookup_insert_ne by congruence. by apply H1.
  - rewrite blockof_set, decide_False by lia. done.
  - intros m Hm. rewrite used_set by (done || lia). by apply H3.
Qed.

Lemma data_not_bitmap n j : dstart <= n -> 0 <= j < sb_size sb -> bmblock j <> n.
Proof. intros Hn Hj. pose proof (bmblock_range j Hj). lia. Qed.

(** Writes to the bitmap. *)
Lemma used_bitmap b n m f : (forall d i, length (f d i) = length d) ->
  fsdisk b -> 0 <= n < lstart L -> 0 <= m < sb_size sb ->
  used (setblock b (bmblock n) (f (blockof b (bmblock n)) (n mod BPB))) m =
  if decide (bmblock n = bmblock m) then testbit (f (blockof b (bmblock n)) (n mod BPB)) (m mod BPB) else used b m.
Proof. intros Hf Hb Hn Hm. unfold used. rewrite blockof_set. by case_decide. Qed.

Lemma bit_range n : 0 <= n mod BPB < BPB.
Proof. apply Z.mod_pos_bound. unfold BPB. lia. Qed.

Lemma used_setbit b n m : fsdisk b -> 0 <= n < lstart L -> 0 <= m < sb_size sb ->
  used (setblock b (bmblock n) (setbit (blockof b (bmblock n)) (n mod BPB))) m =
  bool_decide (n = m) || used b m.
Proof.
  intros Hb Hn Hm. pose proof (fg_log Hgeo). rewrite (used_bitmap b n m setbit length_setbit) by done.
  assert (Hlen : length (blockof b (bmblock n)) = BSIZE).
  { apply length_blockof; [done|]. pose proof (bmblock_range n). pose proof dstart_lstart. lia. }
  case_decide as He.
  - rewrite testbit_setbit by (apply bit_range || done). unfold used. rewrite <- He. f_equal.
    apply bool_decide_ext. split; [|by intros ->]. intros. apply bm_inj; (done || lia).
  - rewrite bool_decide_false by congruence. done.
Qed.

Lemma used_clrbit b n m : fsdisk b -> 0 <= n < lstart L -> 0 <= m < sb_size sb ->
  used (setblock b (bmblock n) (clrbit (blockof b (bmblock n)) (n mod BPB))) m =
  negb (bool_decide (n = m)) && used b m.
Proof.
  intros Hb Hn Hm. pose proof (fg_log Hgeo). rewrite (used_bitmap b n m clrbit length_clrbit) by done.
  assert (Hlen : length (blockof b (bmblock n)) = BSIZE).
  { apply length_blockof; [done|]. pose proof (bmblock_range n). pose proof dstart_lstart. lia. }
  case_decide as He.
  - rewrite testbit_clrbit by (apply bit_range || done). unfold used. rewrite <- He. do 2 f_equal.
    apply bool_decide_ext. split; [|by intros ->]. intros. apply bm_inj; (done || lia).
  - rewrite bool_decide_false by congruence. done.
Qed.

Lemma fsdisk_bitmap b n x : fsdisk b -> 0 <= n < lstart L -> length x = BSIZE ->
  (forall m, 0 <= m < lstart L -> used (setblock b (bmblock n) x) m = false -> used b m = false \/ dstart <= m) ->
  fsdisk (setblock b (bmblock n) x).
Proof.
  intros [H1 H2 H3] Hn Hx Hu. pose proof (fg_log Hgeo). pose proof (bmblock_range n). split.
  - intros m Hm. cbn [setblock img]. destruct (decide (bmblock n = m)) as [<-|].
    + rewrite lookup_insert_eq. by exists x.
    + rewrite lookup_insert_ne by congruence. by apply H1.
  - rewrite blockof_set, decide_False by lia. done.
  - intros m Hm Hf. destruct (Hu m Hm Hf); [|done]. by apply H3.
Qed.

Lemma fsdisk_setbit b n : fsdisk b -> 0 <= n < lstart L ->
  fsdisk (setblock b (bmblock n) (setbit (blockof b (bmblock n)) (n mod BPB))).
Proof.
  intros Hb Hn. pose proof (fg_log Hgeo). pose proof (bmblock_range n). pose proof dstart_lstart.
  apply fsdisk_bitmap; [done|done|rewrite length_setbit; apply length_blockof; (done || lia)|].
  intros m Hm. rewrite used_setbit by (done || lia). intros [_ ?]%orb_false_iff. by left.
Qed.

(** ** Allocating a block *)

Lemma used_bit b n j : 0 <= j < BPB -> 0 <= n - j -> (n - j) mod BPB = 0 -> 0 <= n < sb_size sb ->
  0 <= n - j < sb_size sb -> used b n = testbit (blockof b (bmblock (n - j))) j.
Proof.
  intros Hj H0 Hm Hn Hn'. unfold used. rewrite !bmblock_eq by done. unfold BPB in *.
  replace (n mod 4096) with j by divlia. replace ((n - j) / 4096) with (n / 4096) by divlia. done.
Qed.

Lemma bitmap_free b n m : fsdisk b -> first_free b n -> 0 <= m < sb_size sb -> bmblock m <> n.
Proof.
  intros Hb (Hn & Hu & _) Hm He. pose proof (fd_meta _ Hb n Hn Hu). pose proof (bmblock_range m Hm). lia.
Qed.

Lemma wp_balloc_loop b n k (Q : Z -> bstate -> fsk E -> Prop) : fsdisk b -> lockok b -> room b 2 ->
  first_free b n -> Q n (alloc b n) k ->
  forall fuel base, 0 <= base <= n -> base mod BPB = 0 -> n < base + BPB * Z.of_nat fuel ->
  wp L (balloc_loop fuel (ldev L) sb base) Q b k.
Proof.
  intros Hb Hl Hr Hff HQ. pose proof (fg_log Hgeo) as Hlog. pose proof (fg_size Hgeo) as Hsz.
  pose proof dstart_lstart. destruct Hff as (Hn & Hu & Hmin) eqn:Ef. clear Ef.
  induction fuel as [|fuel IH]; intros base Hbase Hm Hfuel; [lia|]. cbn [balloc_loop].
  destruct (Z.ltb_spec base (sb_size sb)); [|lia].
  assert (Hbm : 0 <= bmblock base < lstart L) by (pose proof (bmblock_range base); lia).
  assert (Hnl : ~ (ldev L, bmblock base) ∈ locked b).
  { intros Hk. apply Hl in Hk as [Hk _]. pose proof (bmblock_range base). lia. }
  pose proof Hr as [Ha Hr']. change (BBLOCK base (sb_ninodes sb)) with (bmblock base).
  destruct (decide (n < base + BPB)) as [Hin|Hout].
  - assert (Hbit : testbit (blockof b (bmblock base)) (n - base) = false).
    { rewrite <- Hu. rewrite (used_bit b n (n - base)); [f_equal; f_equal; f_equal; lia|..]; try lia.
      by replace (n - (n - base)) with base by lia. }
    assert (Hlow : forall j, 0 <= j < n - base -> testbit (blockof b (bmblock base)) j = true).
    { intros j Hj. rewrite <- (Hmin (base + j)) by lia. rewrite (used_bit b (base + j) j); try lia;
        replace (base + j - j) with base by lia; try done; lia. }
    destruct (scan_bits (blockof b (bmblock base)) 0 (Z.to_nat (Z.min BPB (sb_size sb - base)))) as [r|] eqn:Es.
    2: { pose proof (scan_bits_none _ _ _ Es (n - base) ltac:(lia)). congruence. }
    assert (r = n - base) as ->.
    { destruct (scan_bits_some _ _ _ _ Es) as (H1 & H2 & H3).
      destruct (Z.lt_trichotomy r (n - base)) as [Hlt|[He|Hgt]]; [|done|].
      - rewrite Hlow in H2 by lia. done.
      - rewrite H3 in Hbit by lia. done. }
    assert (Hn0 : n - base + base = n) by lia.
    eapply (wp_modify (bmblock base) _ _ (fun _ => bzero (ldev L) (base + (n - base)) >>> Ret (base + (n - base))));
      [by rewrite Es|done|done|done|split; [done|lia]|rewrite length_setbit; by apply length_blockof|].
    replace (bmblock base) with (bmblock n).
    2: { rewrite !bmblock_eq by lia. unfold BPB in *. divlia. }
    replace (n - base) with (n mod BPB) by (unfold BPB in *; divlia).
    replace (base + n mod BPB) with n by (unfold BPB in *; divlia).
    apply wp_bind, wp_bzero; [by apply fsdisk_setbit|done|..].
    + intros Hk. apply Hl in Hk as [_ Hk]. congruence.
    + split; [done|]. cbn [setblock dirties locked]. pose proof (size_add_le (ldev L, bmblock n) (dirties b)). lia.
    + apply wp_ret. exact HQ.
  - eapply (wp_peek (bmblock base)); [|done|done|done|lia|apply (IH (base + BPB)); unfold BPB in *; [lia|divlia|lia]].
    destruct (scan_bits _ _ _) as [r|] eqn:Es; [|done]. exfalso.
    destruct (scan_bits_some _ _ _ _ Es) as (H1 & H2 & _).
    pose proof (Hmin (base + r) ltac:(lia)) as Hur.
    assert (He : base + r - r = base) by lia.
    rewrite (used_bit b (base + r) r) in Hur by (rewrite ?He; lia). rewrite He in Hur. congruence.
Qed.

Lemma wp_balloc b n k (Q : Z -> bstate -> fsk E -> Prop) : fsdisk b -> lockok b -> room b 2 ->
  first_free b n -> Q n (alloc b n) k -> wp L (balloc (ldev L)) Q b k.
Proof.
  intros Hb Hl Hr Hff HQ. unfold balloc. apply wp_bind, wp_readsb; [done|done|destruct Hr; lia|].
  pose proof (fg_log Hgeo). destruct Hff as (Hn & ?).
  eapply wp_balloc_loop; try done; [lia|]. unfold BPB. divlia.
Qed.

Lemma first_free_data b n : fsdisk b -> first_free b n -> dstart <= n < lstart L.
Proof. intros Hb (Hn & Hu & _). split; [|lia]. by apply (fd_meta _ Hb). Qed.

Lemma alloc_set b n : alloc b n =
  setblock (setblock b (bmblock n) (setbit (blockof b (bmblock n)) (n mod BPB))) n (replicate BSIZE 0).
Proof. done. Qed.

Lemma fsdisk_alloc b n : fsdisk b -> first_free b n -> fsdisk (alloc b n).
Proof.
  intros Hb Hf. pose proof (first_free_data b n Hb Hf). pose proof dstart_lstart. rewrite alloc_set.
  apply fsdisk_set; [apply fsdisk_setbit; [done|lia]|lia| |apply length_replicate].
  intros j. apply data_not_bitmap; lia.
Qed.

Lemma used_alloc b n m : fsdisk b -> first_free b n -> 0 <= m < sb_size sb ->
  used (alloc b n) m = bool_decide (n = m) || used b m.
Proof.
  intros Hb Hf Hm. pose proof (first_free_data b n Hb Hf). pose proof dstart_lstart. rewrite alloc_set.
  rewrite used_set by (done || (intros j; apply data_not_bitmap; lia)). apply used_setbit; (done || lia).
Qed.

Lemma blockof_alloc b n m : m <> bmblock n ->
  blockof (alloc b n) m = if decide (n = m) then replicate BSIZE 0 else blockof b m.
Proof. intros Hm. rewrite alloc_set, !blockof_set. repeat case_decide; congruence. Qed.

Lemma least_false (P : Z -> bool) x : 0 <= x -> P x = false ->
  exists n, 0 <= n <= x /\ P n = false /\ forall m, 0 <= m < n -> P m = true.
Proof.
  intros Hx. pattern x. apply Zlt_0_ind; [|done]. clear x Hx. intros x IH Hx HP.
  destruct (decide (Exists (fun m => P m = false) (seqZ 0 x))) as [He|Hn].
  - apply Exists_exists in He as (m & Hm%elem_of_seqZ & HPm). destruct (IH m) as (n & ? & ?); [lia|done|].
    exists n. split; [lia|done].
  - exists x. split_and!; [lia|lia|done|]. intros m Hm. apply not_false_iff_true. intros HF. apply Hn.
    apply Exists_exists. exists m. split; [apply elem_of_seqZ; lia|done].
Qed.

Lemma avail_first b c : avail b (S c) -> exists n, first_free b n.
Proof.
  intros (F & Hc & HF). destruct (set_choose_or_empty F) as [[x Hx]|He]; [|rewrite (leibniz_equiv _ _ He), size_empty in Hc; lia].
  destruct (HF x Hx) as [Hr Hu]. destruct (least_false (used b) x) as (n & Hn & ? & ?); [lia|done|].
  exists n. split; [lia|done].
Qed.

Lemma avail_alloc b n c : fsdisk b -> first_free b n -> avail b (S c) -> avail (alloc b n) c.
Proof.
  intros Hb Hf (F & Hc & HF). pose proof (fg_log Hgeo). exists (F ∖ {[n]}). split.
  - destruct (decide (n ∈ F)).
    + assert (size F = size ({[n]} ∪ F ∖ {[n]})) as HS by (f_equal; by apply union_difference_singleton_L).
      rewrite size_union, size_singleton in HS by set_solver. lia.
    + replace (F ∖ {[n]}) with F by set_solver. lia.
  - intros m [Hm Hne%not_elem_of_singleton]%elem_of_difference. destruct (HF m Hm) as [? Hu].
    split; [done|]. rewrite used_alloc by (done || lia). rewrite Hu, bool_decide_false by done. done.
Qed.

(** ** The tree of blocks of an inode

    A slot holds a block number: a word of [addrs], or a word of the block
    another slot names. *)

Inductive slot : Type :=
| Top (n : Z)
| Sub (s : slot) (n : Z).

#[export] Instance slot_eq_dec : EqDecision slot.
Proof. solve_decision. Defined.

Lemma slot_acyclic p : forall i, Sub p i <> p.
Proof. induction p as [n|p IH n]; intros i; [done|]. intros [= H _]. by apply (IH n). Qed.

(** Word [n] of block [blk]; block 0 stands for none. *)
Definition word b (blk n : Z) : Z :=
  if blk =? 0 then 0 else get_le 4 (Z.to_nat (4 * n)) (blockof b blk).

Fixpoint place b (d : dinode) (s : slot) : Z :=
  match s with
  | Top n => aget 0 (d_addrs d) n
  | Sub s n => word b (place b d s) n
  end.

(** The slots of data blocks, and all slots. *)
Definition leaf (s : slot) : bool :=
  match s with
  | Top n => (0 <=? n) && (n <? NDIRECT)
  | Sub (Top i) n => (i =? NDIRECT) && (0 <=? n) && (n <? NINDIRECT)
  | Sub (Sub (Top i) n) m =>
      (i =? NDIRECT + 1) && (0 <=? n) && (n <? NINDIRECT) && (0 <=? m) && (m <? NINDIRECT)
  | _ => false
  end.
Definition inner (s : slot) : bool :=
  match s with
  | Top n => (n =? NDIRECT) || (n =? NDIRECT + 1)
  | Sub (Top i) n => (i =? NDIRECT + 1) && (0 <=? n) && (n <? NINDIRECT)
  | _ => false
  end.
Definition valid (s : slot) : bool := leaf s || inner s.

(** The slot of block [bn] of a file. *)
Definition slot_of (bn : Z) : slot :=
  if bn <? NDIRECT then Top bn
  else if bn - NDIRECT <? NINDIRECT then Sub (Top NDIRECT) (bn - NDIRECT)
  else let n := bn - NDIRECT - NINDIRECT in Sub (Sub (Top (NDIRECT + 1)) (n / NINDIRECT)) (n mod NINDIRECT).

(** The blocks of the inode are allocated data blocks, each in one slot. *)
Record iwf b (d : dinode) : Prop := {
  iw_len : length (d_addrs d) = 13%nat;
  iw_used s : valid s = true -> place b d s <> 0 ->
    dstart <= place b d s < lstart L /\ used b (place b d s) = true;
  iw_inj s s' : valid s = true -> valid s' = true -> place b d s <> 0 -> place b d s = place b d s' -> s = s'
}.

(** The contents of a block of the file; a missing block reads as zeros. *)
Definition fblock b d (s : slot) : list Z :=
  if place b d s =? 0 then replicate BSIZE 0 else blockof b (place b d s).

Lemma valid_sub s n : valid (Sub s n) = true -> inner s = true /\ 0 <= n < NINDIRECT.
Proof.
  unfold valid, leaf, inner. destruct s as [i|[i|s m'] m]; [| |done]; unfold NDIRECT, NINDIRECT;
    intros [H|H]%orb_true_iff; bool_prop; (try done); (split; [|lia]); apply orb_true_iff || apply andb_true_iff.
  - left. by apply Z.eqb_eq.
  - right. by apply Z.eqb_eq.
  - split; [apply andb_true_iff; split; [by apply Z.eqb_eq|by apply Z.leb_le]|by apply Z.ltb_lt].
Qed.

Lemma inner_valid s : inner s = true -> valid s = true.
Proof. unfold valid. intros ->. apply orb_true_r. Qed.

Lemma leaf_valid s : leaf s = true -> valid s = true.
Proof. unfold valid. by intros ->. Qed.

Lemma leaf_not_inner s : leaf s = true -> inner s = true -> False.
Proof.
  unfold leaf, inner. destruct s as [i|[i|[i|s m''] m'] m]; unfold NDIRECT; intros H1 H2; try done;
    bool_prop; rewrite ?orb_true_iff in *; rewrite ?Z.eqb_eq in *; lia.
Qed.

Lemma valid_top n : valid (Top n) = true <-> 0 <= n < 13.
Proof. unfold valid, leaf, inner, NDIRECT. rewrite !orb_true_iff, !andb_true_iff, !Z.eqb_eq, Z.leb_le, Z.ltb_lt. lia. Qed.

(** The inode [d'] on [b'] is [d] on [b] with the fresh block [n] in slot [s0]. *)
Record filled b d b' d' (s0 : slot) (n : Z) : Prop := {
  fi_valid : valid s0 = true;
  fi_empty : place b d s0 = 0;
  fi_free : first_free b n;
  fi_disk : fsdisk b';
  fi_attr : exists l, length l = 13%nat /\
    d' = DInode (d_type d) (d_major d) (d_minor d) (d_nlink d) (d_size d) l;
  fi_place s : valid s = true -> place b' d' s = if decide (s = s0) then n else place b d s;
  fi_block m : 0 <= m < lstart L -> m <> n -> (forall j, 0 <= j < sb_size sb -> bmblock j <> m) ->
    (forall s, inner s = true -> place b d s <> m) -> blockof b' m = blockof b m;
  fi_zero : blockof b' n = replicate BSIZE 0;
  fi_used m : 0 <= m < sb_size sb -> used b' m = bool_decide (n = m) || used b m;
  fi_locked : locked b' = locked b;
  fi_active : active b' = true
}.

(** [b'] and [d'] have the blocks of [b] and [d], and perhaps more. *)
Record grows b d b' d' : Prop := {
  ex_disk : fsdisk b';
  ex_wf : iwf b' d';
  ex_attr : exists l, d' = DInode (d_type d) (d_major d) (d_minor d) (d_nlink d) (d_size d) l;
  ex_mono s : valid s = true -> place b d s <> 0 -> place b' d' s = place b d s;
  ex_frame m : 0 < m < lstart L -> used b m = true -> (forall j, 0 <= j < sb_size sb -> bmblock j <> m) ->
    (forall s, valid s = true -> place b d s <> m) -> blockof b' m = blockof b m;
  ex_used m : 0 <= m < sb_size sb -> used b m = true -> used b' m = true;
  ex_fresh s : valid s = true -> place b d s = 0 -> place b' d' s <> 0 -> used b (place b' d' s) = false;
  ex_new m : 0 < m < sb_size sb -> used b' m = true -> used b m = true \/
    exists s, valid s = true /\ place b' d' s = m;
  ex_locked : locked b' = locked b;
  ex_active : active b = true -> active b' = true
}.

Lemma grows_refl b d : fsdisk b -> iwf b d -> grows b d b d.
Proof.
  intros Hb Hw. split; try done; [|by left]. exists (d_addrs d). by destruct d.
Qed.

Lemma grows_place_used b d b' d' s : grows b d b' d' -> iwf b d -> valid s = true ->
  place b' d' s <> 0 -> used b (place b' d' s) = true -> place b d s <> 0.
Proof.
  intros He Hw Hs Hp Hu H0. pose proof (ex_fresh _ _ _ _ He s Hs H0 Hp). congruence.
Qed.

Lemma grows_trans b1 d1 b2 d2 b3 d3 :
  iwf b1 d1 -> grows b1 d1 b2 d2 -> grows b2 d2 b3 d3 -> grows b1 d1 b3 d3.
Proof.
  intros Hw A B. pose proof (fg_log Hgeo) as Hlg. pose proof dstart_lstart as Hds.
  destruct A as [A1 A2 [l1 A3] A5 A6 A7 A8 A9 A10 A11] eqn:EA, B as [B1 B2 [l2 B3] B5 B6 B7 B8 B9 B10 B11].
  split; try done.
  - exists l2. by rewrite B3, A3.
  - intros s Hs H0. rewrite B5; rewrite ?A5; done.
  - intros m Hm Hu Hbm Hp. rewrite B6; [by apply A6|done|apply A7; (done || lia)|done|].
    intros s Hs Hps. subst m. apply (Hp s Hs). symmetry. apply A5; [done|].
    apply (grows_place_used b1 d1 b2 d2); try done. lia.
  - intros m Hm Hu. by apply B7, A7.
  - intros s Hs H0 Hp. destruct (decide (place b2 d2 s = 0)) as [H2|H2].
    + pose proof (B8 s Hs H2 Hp) as Hf. apply not_true_iff_false. intros Hu.
      destruct (iw_used _ _ B2 s Hs Hp) as [? _]. rewrite A7 in Hf; [done|lia|done].
    + rewrite B5 by done. by apply A8.
  - intros m Hm Hu. destruct (B9 m Hm Hu) as [Hu2|?]; [|by right].
    destruct (A9 m Hm Hu2) as [?|(s & Hs & Hps)]; [by left|right]. exists s. split; [done|].
    rewrite B5; [done|done|lia].
  - by rewrite B10, A10.
  - auto.
Qed.

(** Filling a slot grows the inode. *)
Lemma filled_grows b d b' d' s0 n : fsdisk b -> iwf b d -> filled b d b' d' s0 n -> grows b d b' d'.
Proof.
  intros Hb Hw [F1 F2 F3 F4 (l & Hl & F5) F6 F7 F8 F9 F10 F11]. pose proof (fg_log Hgeo) as Hlg. pose proof dstart_lstart as Hds.
  pose proof (first_free_data _ _ Hb F3) as Hn. destruct F3 as (_ & Hun & _).
  assert (Hne : forall s, valid s = true -> place b d s <> n).
  { intros s Hs Hp. destruct (iw_used _ _ Hw s Hs) as [_ Hu]; [lia|]. congruence. }
  split; try done.
  - split.
    + by rewrite F5.
    + intros s Hs. rewrite F6 by done. case_decide as Hd.
      * intros _. split; [lia|]. rewrite F9, bool_decide_true by (done || lia). done.
      * intros H0. destruct (iw_used _ _ Hw s Hs H0) as [? Hu]. split; [done|].
        rewrite F9, Hu by lia. apply orb_true_r.
    + intros s s' Hs Hs'. rewrite !F6 by done. repeat case_decide; subst; try done.
      * intros _ He. by destruct (Hne s' Hs').
      * intros _ He. by destruct (Hne s Hs).
      * apply (iw_inj _ _ Hw); done.
  - by exists l.
  - intros s Hs H0. rewrite F6, decide_False; [done| |done]. by intros ->.
  - intros m Hm Hu Hbm Hp. apply F7; [lia|congruence|done|]. intros s Hs. by apply Hp, inner_valid.
  - intros m Hm Hu. rewrite F9, Hu by done. apply orb_true_r.
  - intros s Hs H0. rewrite F6 by done. case_decide; [done|congruence].
  - intros m Hm. rewrite F9 by lia. intros [He%bool_decide_eq_true|?]%orb_true_iff; [right|by left].
    exists s0. split; [done|]. by rewrite F6, decide_True.
Qed.

Lemma filled_data b d b' d' s0 n : fsdisk b -> iwf b d -> filled b d b' d' s0 n ->
  forall s, leaf s = true -> fblock b' d' s = fblock b d s.
Proof.
  intros Hb Hw [F1 F2 F3 F4 (l & Hl & F5) F6 F7 F8 F9 F10 F11]. pose proof dstart_lstart as Hds.
  pose proof (first_free_data _ _ Hb F3) as Hn. destruct F3 as (_ & Hun & _).
  assert (Hne : forall s, valid s = true -> place b d s <> n).
  { intros s Hs Hp. destruct (iw_used _ _ Hw s Hs) as [_ Hu]; [lia|]. congruence. }
  intros s Hs. unfold fblock. rewrite F6 by (by apply leaf_valid). case_decide as Hd.
  + subst s. rewrite F2, F8. destruct (Z.eqb_spec n 0); [lia|done].
  + destruct (Z.eqb_spec (place b d s) 0); [done|].
    destruct (iw_used _ _ Hw s (leaf_valid _ Hs)) as [Hr Hu]; [done|].
    apply F7; [lia|by apply Hne, leaf_valid|intros j ?; apply data_not_bitmap; lia|].
    intros s' Hs' He. apply (leaf_not_inner s); [done|].
    rewrite (iw_inj _ _ Hw s s'); [done|by apply leaf_valid|by apply inner_valid|done|done].
Qed.

(** Blocks in use are not touched by an allocation. *)
Lemma blockof_alloc_used b n m : fsdisk b -> first_free b n -> dstart <= m -> used b m = true ->
  blockof (alloc b n) m = blockof b m.
Proof.
  intros Hb Hf Hm Hu. pose proof (first_free_data b n Hb Hf). pose proof dstart_lstart. pose proof (fg_log Hgeo).
  rewrite blockof_alloc. { case_decide; [|done]. subst. destruct Hf as (_ & ? & _). congruence. }
  intros ->. pose proof (bmblock_range n). lia.
Qed.

Lemma word_zero b n : forall m, blockof b n = replicate BSIZE 0 -> 0 <= m < NINDIRECT -> word b n m = 0.
Proof.
  intros m Hz Hm. unfold word. case_match; [done|]. rewrite Hz. unfold get_le, slice.
  rewrite drop_replicate, take_replicate. induction (_ `min` _)%nat as [|j IH]; [done|].
  cbn [replicate le_dec]. lia.
Qed.

Lemma word_alloc b d n s m : fsdisk b -> iwf b d -> first_free b n -> inner s = true ->
  word (alloc b n) (place b d s) m = word b (place b d s) m.
Proof.
  intros Hb Hw Hf Hs. unfold word. destruct (Z.eqb_spec (place b d s) 0) as [|H0]; [done|].
  destruct (iw_used _ _ Hw s (inner_valid _ Hs) H0) as [? ?]. rewrite blockof_alloc_used; (done || lia).
Qed.

Lemma blockof_alloc_frame b n m : fsdisk b -> first_free b n -> m <> n ->
  (forall j, 0 <= j < sb_size sb -> bmblock j <> m) -> blockof (alloc b n) m = blockof b m.
Proof.
  intros Hb Hf Hm Hbm. pose proof (first_free_data b n Hb Hf). pose proof (fg_log Hgeo). pose proof dstart_lstart.
  rewrite blockof_alloc; [by rewrite decide_False|]. intros ->. apply (Hbm n); [lia|done].
Qed.

Lemma blockof_alloc_new b n : fsdisk b -> first_free b n -> blockof (alloc b n) n = replicate BSIZE 0.
Proof.
  intros Hb Hf. pose proof (first_free_data b n Hb Hf). pose proof (fg_log Hgeo). pose proof dstart_lstart.
  rewrite blockof_alloc; [by rewrite decide_True|]. pose proof (bmblock_range n ltac:(lia)). lia.
Qed.

Lemma filled_top b d i n : fsdisk b -> iwf b d -> 0 <= i < 13 -> aget 0 (d_addrs d) i = 0 ->
  first_free b n -> filled b d (alloc b n) (set_addr i n d) (Top i) n.
Proof.
  intros Hb Hw Hi H0 Hf. pose proof (iw_len _ _ Hw) as Hlen.
  split; try done.
  - by apply valid_top.
  - by apply fsdisk_alloc.
  - exists (aset (d_addrs d) i n). by rewrite length_aset.
  - intros s. induction s as [j|s IH m]; intros Hs; cbn [place set_addr d_addrs].
    + case_decide as He; [injection He as ->; apply aget_aset_eq; lia|].
      apply aget_aset_ne. congruence.
    + rewrite decide_False by done. destruct (valid_sub _ _ Hs) as [Hin Hm].
      rewrite IH by (by apply inner_valid). case_decide as He.
      * subst s. cbn [place]. rewrite H0. rewrite word_zero; [done|by apply blockof_alloc_new|done].
      * by apply word_alloc.
  - intros m Hm Hn Hbm _. by apply blockof_alloc_frame.
  - by apply blockof_alloc_new.
  - intros m Hm. by apply used_alloc.
Qed.

Lemma filled_child b d b' d' s n : filled b d b' d' s n -> forall m, valid (Sub s m) = true ->
  place b' d' (Sub s m) = 0.
Proof.
  intros Hf m Hm. rewrite (fi_place _ _ _ _ _ _ Hf), decide_False by (done || apply slot_acyclic).
  cbn [place]. by rewrite (fi_empty _ _ _ _ _ _ Hf).
Qed.

(** Words of an index block. *)
Lemma get_put_word d n m a : length d = BSIZE -> 0 <= n < NINDIRECT -> 0 <= m < NINDIRECT -> 0 <= a < 2 ^ 32 ->
  get_le 4 (Z.to_nat (4 * m)) (put_le 4 (Z.to_nat (4 * n)) a d) =
  if decide (m = n) then a else get_le 4 (Z.to_nat (4 * m)) d.
Proof.
  intros Hd Hn Hm Ha. unfold NINDIRECT, BSIZE in *. case_decide.
  - subst. rewrite get_put_le by lia. apply Z.mod_small. lia.
  - apply get_put_le_disj; lia.
Qed.

Lemma length_put_word d n a : length d = BSIZE -> 0 <= n < NINDIRECT -> length (put_le 4 (Z.to_nat (4 * n)) a d) = BSIZE.
Proof. intros Hd Hn. unfold NINDIRECT, BSIZE in *. rewrite length_put_le; lia. Qed.

Lemma filled_sub b d p i n : fsdisk b -> iwf b d -> valid (Sub p i) = true -> place b d p <> 0 ->
  word b (place b d p) i = 0 -> first_free b n ->
  filled b d (setblock (alloc b n) (place b d p)
    (put_le 4 (Z.to_nat (4 * i)) n (blockof b (place b d p)))) d (Sub p i) n.
Proof.
  intros Hb Hw Hv Hp H0 Hf. pose proof (fg_log Hgeo) as Hlg. pose proof (fg_size Hgeo) as Hsz.
  pose proof dstart_lstart as Hds.
  pose proof (first_free_data b n Hb Hf) as Hn. destruct (valid_sub _ _ Hv) as [Hin Hi].
  destruct (iw_used _ _ Hw p (inner_valid _ Hin) Hp) as [Hpr Hpu].
  assert (Hpn : place b d p <> n) by (intros He; rewrite He in Hpu; destruct Hf as (_ & ? & _); congruence).
  assert (Hlen : length (blockof b (place b d p)) = BSIZE) by (apply length_blockof; (done || lia)).
  assert (Hnb : forall j, 0 <= j < sb_size sb -> bmblock j <> place b d p) by (intros j; apply data_not_bitmap; lia).
  split; try done.
  - apply fsdisk_set; [by apply fsdisk_alloc|lia|done|by apply length_put_word].
  - exists (d_addrs d). split; [apply Hw|by destruct d].
  - intros s. induction s as [j|s IH m]; intros Hs; cbn [place]; [by rewrite decide_False|].
    destruct (valid_sub _ _ Hs) as [Hin' Hm']. rewrite IH by (by apply inner_valid).
    destruct (decide (s = Sub p i)) as [->|Hsne].
    { rewrite decide_False by (intros [= Hc _]; by destruct (slot_acyclic p i)).
      rewrite word_zero; [|rewrite blockof_set, decide_False by done; by apply blockof_alloc_new|done].
      cbn [place]. by rewrite H0. }
    destruct (decide (place b d s = place b d p)) as [He|He].
    + assert (s = p) as -> by (apply (iw_inj _ _ Hw); rewrite ?He; try done; by apply inner_valid).
      unfold word. destruct (Z.eqb_spec (place b d p) 0); [done|].
      rewrite blockof_set, decide_True by done. rewrite get_put_word by (done || lia).
      repeat case_decide; congruence.
    + rewrite decide_False by congruence. rewrite <- (word_alloc b d n s) by done.
      unfold word. case_match; [done|]. rewrite blockof_set, decide_False by congruence. done.
  - intros m Hm Hmn Hbm Hpl. rewrite blockof_set, decide_False by (by apply Hpl). by apply blockof_alloc_frame.
  - rewrite blockof_set, decide_False by done. by apply blockof_alloc_new.
  - intros m Hm. rewrite used_set by done. by apply used_alloc.
Qed.

(** ** [bmap] *)

(** The kernel state with [d] as the dinode of [ip]. *)
Definition kset (ip : nat) (d : dinode) (k : fsk E) : fsk E :=
  FsK (alter (set_dino d) ip (icache k)) (ext k).

Lemma kset_lookup ip d k i : icache k !! ip = Some i -> icache (kset ip d k) !! ip = Some (set_dino d i).
Proof. intros H. unfold kset; cbn [icache]. by rewrite list_lookup_alter_eq, H. Qed.

Lemma kset_twice ip d d' k : kset ip d' (kset ip d k) = kset ip d' k.
Proof. unfold kset; cbn [icache ext]. f_equal. apply list_eq. intros j. rewrite !list_lookup_alter.
  repeat case_decide; rewrite ?list_lookup_alter_eq, ?list_lookup_alter_ne by done; destruct (icache k !! j) eqn:E'; by simplify_option_eq. Qed.

Lemma kset_same ip k i : icache k !! ip = Some i -> kset ip (dino i) k = k.
Proof.
  intros H. destruct k as [c e]. unfold kset; cbn [icache ext] in *. f_equal.
  rewrite (list_alter_ext _ id _ c); [by apply list_alter_id| |done].
  intros x Hx. rewrite H in Hx. injection Hx as <-. by destruct i.
Qed.

Lemma wp_getip ip i (Q : inode -> bstate -> fsk E -> Prop) b k : icache k !! ip = Some i ->
  Q i b k -> wp L (getip ip) Q b k.
Proof. intros Hi HQ. unfold wp, getip. cbn [run snd]. by rewrite Hi. Qed.

Lemma wp_upddino ip i f (Q : unit -> bstate -> fsk E -> Prop) b k : icache k !! ip = Some i ->
  Q tt b (kset ip (f (dino i)) k) -> wp L (upddino ip f) Q b k.
Proof.
  intros Hi HQ. unfold wp, upddino, updip, pmodify. cbn [run fst snd].
  replace (FsK _ _) with (kset ip (f (dino i)) k); [done|]. unfold kset. f_equal.
  apply list_alter_ext; [|done]. intros x Hx. rewrite Hi in Hx. by injection Hx as <-.
Qed.

(** What one slot's lookup does: nothing, or a fresh block, with at most [c]
    more dirty sectors and [m] blocks taken. *)
Record mapped (m c : nat) b d (s : slot) (a : Z) b' d' : Prop := {
  mp_place : place b' d' s = a;
  mp_nz : a <> 0;
  mp_ext : grows b d b' d';
  mp_data s : leaf s = true -> fblock b' d' s = fblock b d s;
  mp_cost : b' = b /\ d' = d \/
    place b d s = 0 /\ (ldev L, a) ∈ dirties b' /\ (size (dirties b') <= size (dirties b) + c)%nat /\
    forall n, valid (Sub s n) = true -> place b' d' (Sub s n) = 0;
  mp_avail e : avail b (m + e) -> avail b' e
}.

Lemma avail_weaken b c c' : (c' <= c)%nat -> avail b c -> avail b c'.
Proof. intros Hc (F & HF & ?). exists F. split; [lia|done]. Qed.

Lemma mapped_refl m c b d s : fsdisk b -> iwf b d -> place b d s <> 0 -> mapped m c b d s (place b d s) b d.
Proof.
  intros Hb Hw Hp. split; [done|done|by apply grows_refl|done|by left|]. intros e. apply avail_weaken. lia.
Qed.

Lemma lockok_grows b d b' d' : grows b d b' d' -> lockok b -> lockok b'.
Proof.
  intros He Hl n. rewrite (ex_locked _ _ _ _ He). intros Hn. destruct (Hl n Hn) as [? ?].
  pose proof (fg_log Hgeo). pose proof dstart_lstart.
  split; [done|]. apply (ex_used _ _ _ _ He); [lia|done].
Qed.

Lemma wp_map_addr ip i n b k (Q : Z -> bstate -> fsk E -> Prop) :
  icache k !! ip = Some i -> idev i = ldev L -> 0 <= n < 13 -> fsdisk b -> iwf b (dino i) -> lockok b ->
  (place b (dino i) (Top n) = 0 -> room b 2 /\ avail b 1) ->
  (forall a b' d', mapped 1 2 b (dino i) (Top n) a b' d' -> Q a b' (kset ip d' k)) ->
  wp L (map_addr ip n) Q b k.
Proof.
  intros Hi Hd Hn Hb Hw Hl Hr HQ. unfold map_addr. apply wp_bind, (wp_getip ip i); [done|].
  change (aget 0 (d_addrs (dino i)) n) with (place b (dino i) (Top n)).
  destruct (Z.eqb_spec (place b (dino i) (Top n)) 0) as [H0|H0].
  - destruct (Hr H0) as [Hr2 Hav]. destruct (avail_first b 0 Hav) as [a Ha].
    pose proof (first_free_data b a Hb Ha) as Har. pose proof dstart_lstart as Hds.
    pose proof (filled_top b (dino i) n a Hb Hw Hn H0 Ha) as Hf.
    rewrite Hd. apply wp_bind, (wp_balloc b a); try done.
    apply wp_bind, (wp_upddino ip i); [done|]. apply wp_ret, HQ. split.
    + rewrite (fi_place _ _ _ _ _ _ Hf); [by rewrite decide_True|apply Hf].
    + lia.
    + by eapply filled_grows.
    + by eapply filled_data.
    + right. split; [done|]. cbn [alloc dirties]. split_and!; [set_solver| |].
      * etrans; [apply size_add_le|]. pose proof (size_add_le (ldev L, bmblock a) (dirties b)). lia.
      * intros m. by apply filled_child with (1 := Hf).
    + intros e He. apply avail_alloc; [done|done|]. eapply avail_weaken; [|exact He]. lia.
  - apply wp_ret. replace k with (kset ip (dino i) k) by (by apply kset_same).
    apply HQ. by apply mapped_refl.
Qed.

(** A block locked on top. *)
Definition lock b (n : Z) : bstate := BState (img b) ({[(ldev L, n)]} ∪ locked b) (dirties b) (active b).

Lemma fsdisk_lock b n : fsdisk b -> fsdisk (lock b n).
Proof. intros [H1 H2 H3]. by split. Qed.

Lemma wp_map_word d p n b k (Q : Z -> bstate -> fsk E -> Prop) :
  valid (Sub p n) = true -> place b d p <> 0 -> fsdisk b -> iwf b d -> lockok b ->
  ~ (ldev L, place b d p) ∈ locked b -> (size (dirties b) + size (locked b) <= 9)%nat ->
  (place b d (Sub p n) = 0 -> room b 3 /\ avail b 1) ->
  (forall a b', mapped 1 (if decide ((ldev L, place b d p) ∈ dirties b) then 2 else 3) b d (Sub p n) a b' d -> Q a b' k) ->
  wp L (map_word (ldev L) (place b d p) n) Q b k.
Proof.
  intros Hv Hp Hb Hw Hl Hnl Hsz Hr HQ. destruct (valid_sub _ _ Hv) as [Hin Hn].
  destruct (iw_used _ _ Hw p (inner_valid _ Hin) Hp) as [Hpr Hpu].
  pose proof dstart_lstart as Hds. pose proof (fg_dev Hgeo) as Hdev. pose proof (fg_log Hgeo) as Hlg.
  pose proof (fg_size Hgeo) as Hfs. pose proof (fg_lsize Hgeo) as Hls. unfold LOGSIZE in Hls.
  unfold map_word. set (pb := place b d p) in *.
  assert (Hword : place b d (Sub p n) = get_le 4 (Z.to_nat (4 * n)) (blockof b pb)).
  { cbn [place]. unfold word. fold pb. by destruct (Z.eqb_spec pb 0). }
  destruct (Z.eqb_spec (get_le 4 (Z.to_nat (4 * n)) (blockof b pb)) 0) as [H0|H0].
  - destruct (Hr ltac:(congruence)) as [[Hact Hr3] Hav]. destruct (avail_first b 0 Hav) as [a Ha].
    pose proof (filled_sub b d p n a Hb Hw Hv Hp ltac:(cbn [place] in Hword; by rewrite Hword) Ha) as Hf.
    pose proof (size_union_le (locked b) (dirties b)) as Hul.
    apply wp_bind, (wp_bread L _ _ (blockof b pb)); [by apply block_sector; [|lia]|done|right; unfold NBUF; lia|].
    rewrite H0. change (0 =? 0) with true. cbv iota.
    change (BState (img b) ({[(ldev L, pb)]} ∪ locked b) (dirties b) (active b)) with (lock b pb).
    apply wp_bind, (wp_balloc (lock b pb) a); [by apply fsdisk_lock| | |done|].
    { intros m [He%elem_of_singleton|Hm]%elem_of_union; [injection He as ->; done|by apply Hl]. }
    { split; [done|]. cbn [lock locked dirties]. pose proof (size_add_le (ldev L, pb) (locked b)). lia. }
    pose proof (size_add_le (ldev L, a) ({[(ldev L, bmblock a)]} ∪ dirties b)) as Hs1.
    pose proof (size_add_le (ldev L, bmblock a) (dirties b)) as Hs2.
    apply wp_bind, wp_logw; cbn [lock alloc locked dirties active]; try done;
      [set_solver|apply length_put_word; [apply length_blockof; (done || lia)|done]|lia|unfold LOGSIZE; lia|lia|].
    apply wp_bind, wp_brelse; [lia|lia|cbn [locked]; set_solver|]. cbn [img locked dirties active].
    replace (({[(ldev L, pb)]} ∪ locked b) ∖ {[(ldev L, pb)]}) with (locked b) by set_solver.
    apply wp_ret, HQ. fold pb in Hf. split.
    + pose proof (fi_place _ _ _ _ _ _ Hf (Sub p n) Hv) as Hpl. rewrite decide_True in Hpl by done. exact Hpl.
    + pose proof (first_free_data b a Hb Ha). lia.
    + eapply filled_grows; [done|done|exact Hf].
    + eapply filled_data; [done|done|exact Hf].
    + right. split; [congruence|]. cbn [dirties]. split_and!; [set_solver| |intros m; by apply filled_child with (1 := Hf)].
      case_decide as Hin'.
      * replace ({[(ldev L, pb)]} ∪ _) with ({[(ldev L, a)]} ∪ ({[(ldev L, bmblock a)]} ∪ dirties b)) by set_solver. lia.
      * etrans; [apply size_add_le|]. lia.
    + intros e He. apply (avail_weaken b _ (S e)) in He; [|lia].
      apply (avail_alloc b a e Hb Ha) in He as (F & HF1 & HF2). exists F. split; [done|].
      intros m Hm. destruct (HF2 m Hm) as [? Hu]. split; [done|]. rewrite <- Hu.
      rewrite (fi_used _ _ _ _ _ _ Hf), used_alloc by (done || lia). done.
  - eapply (wp_peek pb _ (Ret _)).
    { destruct (Z.eqb_spec (get_le 4 (Z.to_nat (4 * n)) (blockof b pb)) 0); done. }
    all: try (done || lia). apply wp_ret. rewrite <- Hword. apply HQ. apply mapped_refl; congruence.
Qed.

(** Blocks taken, sectors dirtied and sectors in use while it runs, for
    [bmap] on a slot. *)
Definition levels (s : slot) : nat := match s with Top _ => 1 | Sub (Top _) _ => 2 | _ => 3 end.
Definition cost (s : slot) : nat := 2 * levels s.
Definition need (s : slot) : nat := match levels s with 1%nat => 2 | l => S (2 * l) end.

(** The lookup of a slot after that of the slot of its index block. *)
Lemma mapped_trans m1 m2 c c1 c2 b d s1 a1 b1 d1 n a2 b2 d2 : iwf b d -> valid (Sub s1 n) = true ->
  mapped m1 c1 b d s1 a1 b1 d1 -> mapped m2 c2 b1 d1 (Sub s1 n) a2 b2 d2 ->
  (b1 = b /\ d1 = d -> c2 <= c)%nat -> ((ldev L, a1) ∈ dirties b1 -> c1 + c2 <= c)%nat ->
  mapped (m1 + m2) c b d (Sub s1 n) a2 b2 d2.
Proof.
  intros Hw Hv [A1 A2 A3 AD A4 A5] [B1 B2 B3 BD B4 B5] Hc1 Hc2.
  split; [done|done|by eapply grows_trans|intros s Hs; by rewrite BD, AD| |].
  - destruct A4 as [[-> ->]|(A4 & A6 & A7 & A8)], B4 as [[-> ->]|(B4 & B6 & B7 & B8)]; [by left|right|right|right].
    + split_and!; [done..|specialize (Hc1 ltac:(done)); lia|done].
    + by rewrite A8 in B1.
    + split_and!; [|done| |done].
      * cbn [place]. by rewrite A4.
      * specialize (Hc2 A6). lia.
  - intros e He. apply B5, A5. eapply avail_weaken; [|exact He]. lia.
Qed.

(** What the state is after a lookup in a transaction with room. *)
Lemma mapped_room m c b d s a b' d' e : mapped m c b d s a b' d' -> room b (c + e) -> room b' e.
Proof.
  intros [A1 A2 A3 AD A4 A5] [Ha Hr]. split; [by apply (ex_active _ _ _ _ A3)|].
  rewrite (ex_locked _ _ _ _ A3). destruct A4 as [[-> ->]|(_ & _ & ? & _)]; lia.
Qed.

Lemma wp_map_step m1 c1 c b d s n a1 b1 d1 k (Q : Z -> bstate -> fsk E -> Prop) :
  fsdisk b -> iwf b d -> locked b = ∅ -> (size (dirties b) <= 9)%nat -> valid (Sub s n) = true ->
  mapped m1 c1 b d s a1 b1 d1 -> (3 <= c)%nat -> (c1 + 2 <= c)%nat ->
  (place b d (Sub s n) = 0 -> room b (c1 + 3) /\ avail b (m1 + 1)) ->
  (forall a2 b2, mapped (m1 + 1) c b d (Sub s n) a2 b2 d1 -> Q a2 b2 k) ->
  wp L (map_word (ldev L) a1 n) Q b1 k.
Proof.
  intros Hb Hw Hlk Hsz Hv Hm Hc3 Hc Hr HQ. pose proof Hm as [A1 A2 A3 AD A4 A5].
  assert (Hl : locked b1 = ∅) by (by rewrite (ex_locked _ _ _ _ A3)).
  rewrite <- A1. apply (wp_map_word d1); [done|congruence|apply A3|apply A3|..].
  - intros x. rewrite Hl. set_solver.
  - rewrite Hl. set_solver.
  - rewrite Hl, size_empty. destruct A4 as [[-> ->]|(H0 & _ & Hs & _)]; [lia|].
    destruct Hr as [[_ Hr] _]; [cbn [place]; by rewrite H0|]. lia.
  - intros H0. destruct Hr as [Hr Hav].
    { destruct (decide (place b d (Sub s n) = 0)) as [|Hne]; [done|].
      by rewrite <- (ex_mono _ _ _ _ A3 _ Hv Hne). }
    split; [by eapply mapped_room|by apply A5].
  - intros a2 b2 Hm2. apply HQ. rewrite A1 in Hm2. eapply mapped_trans; [done|done|exact Hm|exact Hm2|..].
    + intros _. case_decide; lia.
    + intros Hin. rewrite decide_True by done. lia.
Qed.

Lemma slot_of_leaf bn : 0 <= bn < MAXFILE -> leaf (slot_of bn) = true.
Proof.
  intros Hbn. unfold slot_of, MAXFILE, NDIRECT, NINDIRECT in *.
  repeat case_match; bool_prop; cbn [leaf]; unfold NDIRECT, NINDIRECT; rewrite ?andb_true_iff, ?Z.eqb_eq, ?Z.leb_le, ?Z.ltb_lt; divlia.
Qed.

Lemma slot_of_inj bn bn' : 0 <= bn -> 0 <= bn' -> slot_of bn = slot_of bn' -> bn = bn'.
Proof.
  intros H H'. unfold slot_of, NDIRECT, NINDIRECT. repeat case_match; bool_prop; intros [=]; divlia.
Qed.

Lemma wp_bmap ip i bn b k (Q : Z -> bstate -> fsk E -> Prop) :
  icache k !! ip = Some i -> idev i = ldev L -> 0 <= bn < MAXFILE -> fsdisk b -> iwf b (dino i) ->
  locked b = ∅ -> (size (dirties b) <= 9)%nat ->
  (place b (dino i) (slot_of bn) = 0 -> room b (need (slot_of bn)) /\ avail b 3) ->
  (forall a b' d', mapped 3 (cost (slot_of bn)) b (dino i) (slot_of bn) a b' d' -> Q a b' (kset ip d' k)) ->
  wp L (bmap ip bn) Q b k.
Proof.
  intros Hi Hd Hbn Hb Hw Hlk Hsz Hr HQ. pose proof (leaf_valid _ (slot_of_leaf bn Hbn)) as Hv.
  assert (Hl : lockok b) by (intros x; rewrite Hlk; set_solver).
  unfold bmap. apply wp_bind, (wp_getip ip i); [done|]. rewrite Hd.
  unfold slot_of in *. destruct (Z.ltb_spec bn NDIRECT) as [Hlt|Hge].
  { apply (wp_map_addr ip i bn); try done; [unfold NDIRECT in *; lia| |].
    - intros H0. destruct (Hr H0). split; [done|by eapply avail_weaken; [|done]; lia].
    - intros a b' d' [A1 A2 A3 AD A4 A5]. apply HQ. split; [done..|]. intros e He. apply A5.
      eapply avail_weaken; [|exact He]. lia. }
  destruct (Z.ltb_spec (bn - NDIRECT) NINDIRECT) as [Hlt|Hge2].
  { apply wp_bind, (wp_map_addr ip i NDIRECT); try done.
    - intros H0. destruct Hr as [[? Hr] Hav]; [cbn [place] in *; by rewrite H0|]. cbn [need levels] in Hr.
      split; [split; [done|lia]|by eapply avail_weaken; [|done]; lia].
    - intros a b' d' Hm. eapply (wp_map_step 1 2 4); try done.
      + lia.
      + intros H0. destruct (Hr H0). split; [done|by eapply avail_weaken; [|done]; lia].
      + intros a2 b2 [A1 A2 A3 AD A4 A5]. apply HQ. split; [done..|]. intros e He. apply A5.
        eapply avail_weaken; [|exact He]. lia. }
  destruct (Z.ltb_spec (bn - NDIRECT - NINDIRECT) (NINDIRECT * NINDIRECT)); [|unfold MAXFILE in *; lia].
  destruct (valid_sub _ _ Hv) as [Hin _].
  apply wp_bind, (wp_map_addr ip i (NDIRECT + 1)); try done.
  - intros H0. destruct Hr as [[? Hr] Hav]; [cbn [place] in *; by rewrite H0|]. cbn [need levels] in Hr.
    split; [split; [done|lia]|by eapply avail_weaken; [|done]; lia].
  - intros a b' d' Hm. apply wp_bind. eapply (wp_map_step 1 2 4); try done; [by apply inner_valid|lia| |].
    + intros H0. destruct Hr as [[? Hr] Hav]; [cbn [place] in *; by rewrite H0|]. cbn [need levels] in Hr.
      split; [split; [done|lia]|by eapply avail_weaken; [|done]; lia].
    + intros a2 b2 Hm2. eapply (wp_map_step 2 4 6); try done; [lia|].
      intros a3 b3 Hm3. by apply HQ.
Qed.

(** ** File contents *)

Local Abbreviation SZ := (Z.of_nat BSIZE).

(** Byte [p] of the file, and its contents. *)
Definition fbyte b d (p : Z) : Z := aget 0 (fblock b d (slot_of (p / SZ))) (p mod SZ).
Definition content b d : list Z := fbyte b d <$> seqZ 0 (d_size d).

(** Every block below the size is there. *)
Definition dense b d : Prop := forall bn, 0 <= bn -> bn * SZ < d_size d -> place b d (slot_of bn) <> 0.

(** A regular file or directory, fit to be read and written. *)
Record file_ok b d : Prop := {
  fo_wf : iwf b d;
  fo_dense : dense b d;
  fo_size : 0 <= d_size d <= MAXFILE * SZ;
  fo_type : d_type d <> T_DEV
}.

Lemma length_content b d : 0 <= d_size d -> Z.of_nat (length (content b d)) = d_size d.
Proof. intros. unfold content. rewrite length_fmap, length_seqZ. lia. Qed.

Lemma slice_seqZ (f : Z -> Z) n o m : 0 <= o -> 0 <= m -> o + m <= n ->
  slice (Z.to_nat o) (Z.to_nat m) (f <$> seqZ 0 n) = f <$> seqZ o m.
Proof.
  intros Ho Hm Hn. apply list_eq. intros j. rewrite lookup_slice, !list_lookup_fmap. case_decide.
  - rewrite !lookup_seqZ_lt by lia. simpl. do 2 f_equal. lia.
  - rewrite (lookup_seqZ_ge o) by lia. done.
Qed.

Lemma seqZ_split o m n : 0 <= m <= n -> seqZ o n = seqZ o m ++ seqZ (o + m) (n - m).
Proof. intros. rewrite <- seqZ_app by lia. f_equal. lia. Qed.

(** The bytes of one block. *)
Lemma block_bytes b d off m : fsdisk b -> iwf b d -> 0 <= off -> 0 <= m -> off mod SZ + m <= SZ ->
  off / SZ < MAXFILE -> place b d (slot_of (off / SZ)) <> 0 ->
  slice (Z.to_nat (off mod SZ)) (Z.to_nat m) (blockof b (place b d (slot_of (off / SZ)))) =
  fbyte b d <$> seqZ off m.
Proof.
  intros Hb Hw Ho Hm Hfit Hmax Hp.
  assert (Hr : 0 <= off mod SZ < SZ) by (apply Z.mod_pos_bound; unfold BSIZE; lia).
  assert (Hlen : length (blockof b (place b d (slot_of (off / SZ)))) = BSIZE).
  { apply length_blockof; [done|]. pose proof dstart_lstart. unfold BSIZE in *.
    destruct (iw_used _ _ Hw (slot_of (off / Z.of_nat 512))); [apply leaf_valid, slot_of_leaf; divlia|done|lia]. }
  apply list_eq. intros j. rewrite lookup_slice, list_lookup_fmap. case_decide as Hj.
  - rewrite lookup_seqZ_lt by lia. cbn [fmap option_fmap option_map]. unfold fbyte.
    replace ((off + Z.of_nat j) / SZ) with (off / SZ) by (unfold BSIZE in *; divlia).
    unfold fblock. destruct (Z.eqb_spec (place b d (slot_of (off / SZ))) 0); [done|].
    unfold aget. rewrite decide_True by (apply Z.mod_pos_bound; unfold BSIZE; lia).
    replace (Z.to_nat ((off + Z.of_nat j) mod SZ)) with (Z.to_nat (off mod SZ) + j)%nat
      by (unfold BSIZE in *; divlia).
    destruct (lookup_lt_is_Some_2 (blockof b (place b d (slot_of (off / SZ)))) (Z.to_nat (off mod SZ) + j)) as [x Hx].
    { rewrite Hlen. lia. }
    by rewrite Hx.
  - by rewrite lookup_seqZ_ge by lia.
Qed.

Lemma chunk_range n tot off : tot < n -> 0 <= off ->
  0 < chunk n tot off <= n - tot /\ off mod SZ + chunk n tot off <= SZ /\
  (chunk n tot off = n - tot \/ (off + chunk n tot off) mod SZ = 0 /\ (off + chunk n tot off) / SZ = off / SZ + 1).
Proof.
  intros Hn Ho. pose proof (Z.mod_pos_bound off SZ ltac:(unfold BSIZE; lia)). unfold chunk.
  split_and!; [lia|lia|lia|]. unfold BSIZE in *. destruct (Z.min_spec (n - tot) (Z.of_nat 512 - off mod Z.of_nat 512)) as [[_ ->]|[_ ->]]; [by left|right].
  split; divlia.
Qed.

(** Enough rounds for [n] bytes from [off]. *)
Definition rounds (fuel : nat) (off n : Z) : Prop :=
  (0 < fuel)%nat /\ (0 < n -> off mod SZ + n <= SZ * (Z.of_nat fuel - 1)).

Lemma rounds_init off n : 0 <= off -> 0 <= n -> rounds (io_fuel n) off n.
Proof.
  intros Ho Hn. pose proof (Z.mod_pos_bound off SZ ltac:(unfold BSIZE; lia)). unfold rounds, io_fuel, BSIZE in *.
  split; [divlia|]. intros _. divlia.
Qed.

Lemma rounds_step f off n tot : 0 <= off -> tot < n -> rounds (S f) off (n - tot) ->
  rounds f (off + chunk n tot off) (n - (tot + chunk n tot off)).
Proof.
  intros Ho Hn [_ Hr]. specialize (Hr ltac:(lia)). pose proof (Z.mod_pos_bound off SZ ltac:(unfold BSIZE; lia)).
  destruct (chunk_range n tot off) as (H1 & H2 & H3); [done|done|]. unfold rounds, BSIZE in *. split; [lia|].
  intros Hpos. destruct H3 as [H3|[H3 _]]; [lia|]. rewrite H3.
  set (c := chunk n tot off) in *. clearbody c. cbn in H2, H3, Hr |- *. divlia.
Qed.

Section io.
Context (devread : Z -> option (nat -> Z -> prog (fsk E) (Z * list Z)))
        (devwrite : Z -> option (nat -> list Z -> prog (fsk E) Z)).

Lemma wp_readi_loop ip i n b k (Q : list Z -> bstate -> fsk E -> Prop) :
  icache k !! ip = Some i -> idev i = ldev L -> fsdisk b -> file_ok b (dino i) ->
  locked b = ∅ -> (size (dirties b) <= 9)%nat ->
  forall fuel off tot, 0 <= off -> 0 <= tot <= n -> off + (n - tot) <= d_size (dino i) ->
  rounds fuel off (n - tot) -> Q (fbyte b (dino i) <$> seqZ off (n - tot)) b k ->
  wp L (readi_loop fuel ip off n tot) Q b k.
Proof.
  intros Hi Hd Hb Hok Hlk Hsz fuel. pose proof (fo_wf _ _ Hok) as Hw. pose proof (fo_size _ _ Hok) as Hs.
  revert Q. induction fuel as [|f IH]; intros Q off tot Ho Ht Hend Hr HQ; [destruct Hr; lia|].
  cbn [readi_loop]. destruct (Z.ltb_spec tot n) as [Hlt|Hge].
  2: { apply wp_ret. replace (n - tot) with 0 in HQ by lia. by rewrite seqZ_nil in HQ. }
  destruct (chunk_range n tot off) as (Hc1 & Hc2 & _); [done|done|].
  assert (Hbn : 0 <= off / SZ /\ off / SZ * SZ < d_size (dino i)) by (unfold BSIZE; divlia).
  assert (Hmax : off / SZ < MAXFILE) by (unfold BSIZE in *; divlia).
  pose proof (fo_dense _ _ Hok (off / SZ) (proj1 Hbn) (proj2 Hbn)) as Hp.
  apply wp_bind, (wp_getip ip i); [done|].
  apply wp_bind, (wp_bmap ip i); try done; [lia|].
  intros a b' d' [A1 A2 A3 AD [[-> ->]|(? & _)] A5]; [|done].
  rewrite kset_same by done. rewrite Hd.
  destruct (iw_used _ _ Hw (slot_of (off / SZ))) as [Har _]; [apply leaf_valid, slot_of_leaf; lia|done|].
  pose proof dstart_lstart. rewrite A1 in Har.
  eapply wp_peek; [done|done|lia|rewrite Hlk; set_solver|rewrite Hlk, size_empty; lia|].
  apply wp_bind, IH; [lia|lia|lia|by apply rounds_step|].
  apply wp_ret. rewrite <- A1, (block_bytes b (dino i)) by (done || lia).
  rewrite <- fmap_app, Z.sub_add_distr, <- seqZ_split by lia. done.
Qed.

(** [readi] returns the bytes of the file, fewer at its end, and changes
    nothing. *)
Lemma wp_readi ip i off n b k (Q : Z * list Z -> bstate -> fsk E -> Prop) :
  icache k !! ip = Some i -> idev i = ldev L -> fsdisk b -> file_ok b (dino i) ->
  locked b = ∅ -> (size (dirties b) <= 9)%nat -> 0 <= off <= d_size (dino i) -> 0 <= n -> off + n < 2 ^ 32 ->
  (let m := Z.min n (d_size (dino i) - off) in
   Q (m, slice (Z.to_nat off) (Z.to_nat m) (content b (dino i))) b k) ->
  wp L (readi devread ip off n) Q b k.
Proof.
  intros Hi Hd Hb Hok Hlk Hsz Ho Hn Hof HQ. pose proof (fo_size _ _ Hok) as Hs.
  unfold readi. apply wp_bind, (wp_getip ip i); [done|].
  destruct (Z.eqb_spec (d_type (dino i)) T_DEV) as [Ht|_]; [by apply Hok in Ht|].
  rewrite u32_id by lia. destruct (Z.ltb_spec (d_size (dino i)) off); [lia|].
  destruct (Z.ltb_spec (off + n) off); [lia|]. cbn [orb]. cbv zeta in HQ.
  replace (if d_size (dino i) <? off + n then d_size (dino i) - off else n)
    with (Z.min n (d_size (dino i) - off)) by (destruct (Z.ltb_spec (d_size (dino i)) (off + n)); lia).
  apply wp_bind, (wp_readi_loop ip i); try done; rewrite ?Z.sub_0_r; [lia|lia|lia|apply rounds_init; lia|].
  apply wp_ret. unfold content in HQ. rewrite slice_seqZ in HQ by lia. done.
Qed.

End io.

(** *** Writing *)

(** The blocks a range touches. *)
Definition blocks (off n : Z) : list Z :=
  if n <=? 0 then [] else seqZ (off / SZ) ((off mod SZ + n + (SZ - 1)) / SZ).

(** Sectors a transaction needs for a block, and blocks it may take. *)
Definition price b d (bn : Z) : nat :=
  if place b d (slot_of bn) =? 0 then need (slot_of bn) else 1%nat.
Definition lack b d (bn : Z) : nat := if place b d (slot_of bn) =? 0 then 3%nat else 0%nat.

Lemma elem_blocks off n bn : 0 <= off -> bn ∈ blocks off n <-> 0 < n /\ off / SZ <= bn /\ bn * SZ < off + n.
Proof.
  intros Ho. unfold blocks. destruct (Z.leb_spec n 0); [split; [by intros ?%elem_of_nil|lia]|].
  rewrite elem_of_seqZ. unfold BSIZE. split; intros; divlia.
Qed.

Lemma blocks_step n tot off : tot < n -> 0 <= off ->
  blocks off (n - tot) = off / SZ :: blocks (off + chunk n tot off) (n - (tot + chunk n tot off)).
Proof.
  intros Hn Ho. destruct (chunk_range n tot off Hn Ho) as (H1 & H2 & H3). unfold blocks.
  destruct (Z.leb_spec (n - tot) 0); [lia|].
  set (c := chunk n tot off) in *. clearbody c. destruct (Z.leb_spec (n - (tot + c)) 0) as [Hle|Hgt].
  - replace ((off mod SZ + (n - tot) + (SZ - 1)) / SZ) with 1 by (unfold BSIZE in *; divlia). done.
  - destruct H3 as [H3|[H3 H3']]; [lia|]. rewrite seqZ_cons by (unfold BSIZE in *; divlia).
    rewrite H3, H3'. f_equal. f_equal. unfold BSIZE in *. divlia.
Qed.

Lemma blocks_valid off n bn : 0 <= off -> off + n <= MAXFILE * SZ -> bn ∈ blocks off n -> 0 <= bn < MAXFILE.
Proof. intros Ho Hn (? & ? & ?)%elem_blocks; [|done]. unfold BSIZE in *. divlia. Qed.

Lemma prices_mono b d b' d' bns : grows b d b' d' -> (forall bn, bn ∈ bns -> 0 <= bn < MAXFILE) ->
  (sum_list_with (price b' d') bns <= sum_list_with (price b d) bns)%nat /\
  (sum_list_with (lack b' d') bns <= sum_list_with (lack b d) bns)%nat.
Proof.
  intros Hg. induction bns as [|bn bns IH]; intros Hv; [done|]. cbn [sum_list_with].
  destruct IH as [IH1 IH2]; [intros x Hx; apply Hv; by right|].
  assert (Hbn : 0 <= bn < MAXFILE) by (apply Hv; by left).
  pose proof (ex_mono _ _ _ _ Hg _ (leaf_valid _ (slot_of_leaf bn Hbn))) as Hm.
  unfold price at 1 3, lack at 1 3.
  destruct (Z.eqb_spec (place b d (slot_of bn)) 0) as [H0|H0].
  - assert (1 <= need (slot_of bn))%nat by (unfold need; case_match; [lia|case_match; lia]).
    case_match; lia.
  - rewrite (Hm H0). destruct (Z.eqb_spec (place b d (slot_of bn)) 0); [done|]. lia.
Qed.

(** A write to the block of a leaf slot. *)
Lemma place_set b d s x s' : iwf b d -> leaf s = true -> place b d s <> 0 -> valid s' = true ->
  place (setblock b (place b d s) x) d s' = place b d s'.
Proof.
  intros Hw Hs Hp. induction s' as [n|s' IH n]; intros Hs'; [done|]. cbn [place].
  destruct (valid_sub _ _ Hs') as [Hin _]. rewrite IH by (by apply inner_valid). unfold word.
  destruct (Z.eqb_spec (place b d s') 0) as [|H0]; [done|]. rewrite blockof_set, decide_False; [done|].
  intros He. apply (leaf_not_inner s Hs). rewrite (iw_inj _ _ Hw s s'); [done|by apply leaf_valid|by apply inner_valid|done|done].
Qed.

Lemma write_leaf b d s x : fsdisk b -> iwf b d -> leaf s = true -> place b d s <> 0 -> length x = BSIZE ->
  let b' := setblock b (place b d s) x in
  grows b d b' d /\ forall s', leaf s' = true -> fblock b' d s' = if decide (s' = s) then x else fblock b d s'.
Proof.
  intros Hb Hw Hs Hp Hx b'. pose proof dstart_lstart as Hds. pose proof (fg_log Hgeo) as Hlg.
  destruct (iw_used _ _ Hw s (leaf_valid _ Hs) Hp) as [Hr Hu].
  assert (Hnb : forall j, 0 <= j < sb_size sb -> bmblock j <> place b d s) by (intros j; apply data_not_bitmap; lia).
  assert (Hus : forall m, 0 <= m < sb_size sb -> used b' m = used b m) by (intros m Hm; by apply used_set).
  assert (Hpl : forall s', valid s' = true -> place b' d s' = place b d s') by (intros; by apply place_set).
  split; [split; try done|].
  - apply fsdisk_set; (done || lia).
  - split; [apply Hw| |].
    + intros s' Hs'. rewrite Hpl by done. intros H0. destruct (iw_used _ _ Hw s' Hs' H0). split; [done|]. by rewrite Hus by lia.
    + intros s1 s2 H1 H2. rewrite !Hpl by done. by apply Hw.
  - exists (d_addrs d). by destruct d.
  - intros s' Hs' _. by apply Hpl.
  - intros m Hm _ _ Hne. unfold b'. rewrite blockof_set, decide_False; [done|]. by apply Hne, leaf_valid.
  - intros m Hm. by rewrite Hus.
  - intros s' Hs' H0. by rewrite Hpl.
  - intros m Hm. rewrite Hus by lia. by left.
  - intros s' Hs'. unfold fblock. rewrite Hpl by (by apply leaf_valid). unfold b'. rewrite blockof_set.
    destruct (decide (s' = s)) as [->|Hne].
    + destruct (Z.eqb_spec (place b d s) 0); [done|]. by rewrite decide_True.
    + destruct (Z.eqb_spec (place b d s') 0); [done|]. rewrite decide_False; [done|]. intros He. apply Hne.
      symmetry. apply (iw_inj _ _ Hw); [by apply leaf_valid|by apply leaf_valid|done|done].
Qed.

(** [b'] and [d'] are [b] and [d] after [bs] has been written at [off]. *)
Record wrote b d b' d' (off : Z) (bs : list Z) : Prop := {
  wr_grows : grows b d b' d';
  wr_byte p : 0 <= p < MAXFILE * SZ -> fbyte b' d' p =
    if decide (off <= p < off + Z.of_nat (length bs)) then aget 0 bs (p - off) else fbyte b d p;
  wr_in bn : bn ∈ blocks off (Z.of_nat (length bs)) -> place b' d' (slot_of bn) <> 0;
  wr_same : (forall bn, bn ∈ blocks off (Z.of_nat (length bs)) -> place b d (slot_of bn) <> 0) -> d' = d
}.

Lemma aget_splice o (bs x : list Z) p : (o + length bs <= length x)%nat ->
  0 <= p -> aget 0 (splice o bs x) p =
  if decide (Z.of_nat o <= p < Z.of_nat o + Z.of_nat (length bs)) then aget 0 bs (p - Z.of_nat o) else aget 0 x p.
Proof.
  intros Hl Hp. unfold aget. rewrite decide_True by done. rewrite lookup_splice by done.
  repeat case_decide; try lia; do 2 f_equal; lia.
Qed.

Lemma aget_slice (src : list Z) o n p : 0 <= o -> 0 <= p < n -> o + n <= Z.of_nat (length src) ->
  aget 0 (slice (Z.to_nat o) (Z.to_nat n) src) p = aget 0 src (o + p).
Proof.
  intros Ho Hp Hl. unfold aget. rewrite !decide_True by lia. rewrite lookup_slice, decide_True by lia.
  do 2 f_equal. lia.
Qed.

Lemma aget_drop (src : list Z) o p : 0 <= o -> 0 <= p -> aget 0 (drop (Z.to_nat o) src) p = aget 0 src (o + p).
Proof. intros. unfold aget. rewrite !decide_True by lia. rewrite lookup_drop. do 2 f_equal. lia. Qed.

Lemma fbyte_write b d off x bs : fsdisk b -> iwf b d -> 0 <= off -> off / SZ < MAXFILE ->
  place b d (slot_of (off / SZ)) <> 0 -> off mod SZ + Z.of_nat (length bs) <= SZ ->
  x = splice (Z.to_nat (off mod SZ)) bs (blockof b (place b d (slot_of (off / SZ)))) ->
  forall p, 0 <= p < MAXFILE * SZ ->
  fbyte (setblock b (place b d (slot_of (off / SZ))) x) d p =
  if decide (off <= p < off + Z.of_nat (length bs)) then aget 0 bs (p - off) else fbyte b d p.
Proof.
  intros Hb Hw Ho Hmax Hp Hfit Hx p Hpr. pose proof dstart_lstart as Hds.
  assert (HSZ : 0 < SZ) by (unfold BSIZE; lia).
  assert (Hbn : 0 <= off / SZ < MAXFILE) by (split; [apply Z.div_pos; lia|done]).
  assert (Hpn : 0 <= p / SZ < MAXFILE) by (unfold BSIZE in *; divlia).
  pose proof (Z.mod_pos_bound off SZ HSZ) as Hom. pose proof (Z.mod_pos_bound p SZ HSZ) as Hpm.
  destruct (iw_used _ _ Hw _ (leaf_valid _ (slot_of_leaf _ Hbn)) Hp) as [Har _].
  assert (Hlen : length (blockof b (place b d (slot_of (off / SZ)))) = BSIZE) by (apply length_blockof; (done || lia)).
  assert (Hlx : length x = BSIZE) by (subst x; rewrite length_splice; lia).
  destruct (write_leaf b d _ x Hb Hw (slot_of_leaf _ Hbn) Hp Hlx) as [_ Hf].
  unfold fbyte. rewrite Hf by (by apply slot_of_leaf). destruct (decide (p / SZ = off / SZ)) as [He|He].
  - rewrite He, decide_True by done. subst x. rewrite aget_splice by lia.
    unfold fblock. destruct (Z.eqb_spec (place b d (slot_of (off / SZ))) 0); [done|].
    assert (p - off = p mod SZ - off mod SZ) as -> by (unfold BSIZE in *; divlia).
    rewrite Z2Nat.id by lia. repeat case_decide; (done || (unfold BSIZE in *; divlia)).
  - rewrite decide_False by (intros Hs; apply He, slot_of_inj; (done || lia)).
    rewrite decide_False; [done|]. unfold BSIZE in *. divlia.
Qed.

Lemma wrote_nil b d off : fsdisk b -> iwf b d -> wrote b d b d off [].
Proof.
  intros Hb Hw. split; [by apply grows_refl| |by intros bn ?%elem_of_nil|done].
  intros p Hp. by rewrite decide_False by (simpl; lia).
Qed.

Lemma wrote_app b d b1 d1 b2 d2 off bs1 bs2 : iwf b d -> 0 <= off ->
  off + Z.of_nat (length (bs1 ++ bs2)) <= MAXFILE * SZ ->
  wrote b d b1 d1 off bs1 -> wrote b1 d1 b2 d2 (off + Z.of_nat (length bs1)) bs2 ->
  wrote b d b2 d2 off (bs1 ++ bs2).
Proof.
  intros Hw Ho Hmax [A1 A2 A3 A4] [B1 B2 B3 B4]. rewrite length_app in Hmax.
  assert (Hsub1 : forall bn, bn ∈ blocks off (Z.of_nat (length bs1)) -> bn ∈ blocks off (Z.of_nat (length (bs1 ++ bs2)))).
  { intros bn. rewrite !elem_blocks by lia. rewrite length_app. lia. }
  assert (Hsub2 : forall bn, bn ∈ blocks (off + Z.of_nat (length bs1)) (Z.of_nat (length bs2)) ->
    bn ∈ blocks off (Z.of_nat (length (bs1 ++ bs2)))).
  { intros bn. rewrite !elem_blocks by lia. rewrite length_app. unfold BSIZE in *. intros. divlia. }
  assert (Hmono : forall bn, bn ∈ blocks off (Z.of_nat (length (bs1 ++ bs2))) ->
    valid (slot_of bn) = true).
  { intros bn Hbn. apply leaf_valid, slot_of_leaf. eapply blocks_valid; [exact Ho| |exact Hbn]. rewrite length_app. lia. }
  split; [by eapply grows_trans| | |].
  - intros p Hp. rewrite B2, A2 by done. rewrite length_app.
    repeat case_decide; try lia; unfold aget; rewrite ?decide_True by lia;
      rewrite ?lookup_app_l, ?lookup_app_r by lia; do 2 f_equal; lia.
  - intros bn Hbn. destruct (decide (bn ∈ blocks (off + Z.of_nat (length bs1)) (Z.of_nat (length bs2)))) as [H2|H2]; [by apply B3|].
    assert (H1 : bn ∈ blocks off (Z.of_nat (length bs1))).
    { rewrite elem_blocks in * by lia. rewrite length_app in Hbn. unfold BSIZE in *.
      destruct (decide (0 < Z.of_nat (length bs1))); divlia. }
    rewrite (ex_mono _ _ _ _ B1); [by apply A3|by apply Hmono|by apply A3].
  - intros Hall. rewrite B4; [apply A4; auto|]. intros bn Hbn.
    rewrite (ex_mono _ _ _ _ A1); auto.
Qed.

(** One round of the loop, after the block for it has been found. *)
Lemma wrote_block b d b1 d1 off a bs : iwf b d -> 0 <= off -> off / SZ < MAXFILE ->
  place b1 d1 (slot_of (off / SZ)) = a -> a <> 0 -> grows b d b1 d1 ->
  (forall s, leaf s = true -> fblock b1 d1 s = fblock b d s) -> (d1 = d \/ place b d (slot_of (off / SZ)) = 0) ->
  off mod SZ + Z.of_nat (length bs) <= SZ -> bs <> [] ->
  wrote b d (setblock b1 a (splice (Z.to_nat (off mod SZ)) bs (blockof b1 a))) d1 off bs.
Proof.
  intros Hw Ho Hmax A1 A2 A3 AD A4 Hfit Hne. pose proof (ex_disk _ _ _ _ A3) as Hb1.
  pose proof (ex_wf _ _ _ _ A3) as Hw1. pose proof dstart_lstart as Hds.
  assert (Hbn : 0 <= off / SZ < MAXFILE) by (split; [apply Z.div_pos; unfold BSIZE; lia|done]).
  pose proof (Z.mod_pos_bound off SZ ltac:(unfold BSIZE; lia)) as Hom.
  rewrite <- A1 in A2 |- *.
  destruct (iw_used _ _ Hw1 _ (leaf_valid _ (slot_of_leaf _ Hbn)) A2) as [Har _].
  assert (Hlen : length (blockof b1 (place b1 d1 (slot_of (off / SZ)))) = BSIZE) by (apply length_blockof; (done || lia)).
  assert (Hbns : forall bn, bn ∈ blocks off (Z.of_nat (length bs)) <-> bn = off / SZ).
  { intros bn. rewrite elem_blocks by done. destruct bs; [done|]. cbn [length] in *. unfold BSIZE in *. split; intros; divlia. }
  set (x := splice _ _ _).
  assert (Hlx : length x = BSIZE) by (unfold x; rewrite length_splice; lia).
  destruct (write_leaf b1 d1 _ x Hb1 Hw1 (slot_of_leaf _ Hbn) A2 Hlx) as [Hg _].
  split; [by eapply grows_trans| | |].
  - intros p Hp. rewrite (fbyte_write b1 d1 off x bs) by done. case_decide; [done|].
    unfold fbyte. rewrite AD; [done|]. apply slot_of_leaf. unfold BSIZE in *. divlia.
  - intros bn ->%Hbns. rewrite (ex_mono _ _ _ _ Hg); [done|by apply leaf_valid, slot_of_leaf|done].
  - intros Hall. destruct A4 as [->|H0]; [done|]. by destruct (Hall (off / SZ)); [apply Hbns|].
Qed.

Lemma wrote_round b d b1 d1 off a bs c : fsdisk b -> iwf b d -> 0 <= off -> off / SZ < MAXFILE ->
  mapped 3 c b d (slot_of (off / SZ)) a b1 d1 -> off mod SZ + Z.of_nat (length bs) <= SZ -> bs <> [] ->
  wrote b d (setblock b1 a (splice (Z.to_nat (off mod SZ)) bs (blockof b1 a))) d1 off bs.
Proof.
  intros Hb Hw Ho Hmax [A1 A2 A3 AD A4 A5] Hfit Hne. apply wrote_block; try done.
  destruct A4 as [[_ ->]|(? & _)]; [by left|by right].
Qed.

Lemma cost_need s : (cost s <= need s)%nat.
Proof. unfold cost, need, levels. destruct s as [|[|]]; simpl; lia. Qed.

(** The sectors dirty after a round. *)
Lemma round_room m b d s a b1 d1 x rest e : (m = if place b d s =? 0 then need s else 1%nat) ->
  mapped 3 (cost s) b d s a b1 d1 -> locked b = ∅ -> (1 <= e)%nat -> room b (m + rest + e) ->
  room b1 1 /\ room (setblock b1 a x) (rest + e).
Proof.
  intros Hm [A1 A2 A3 AD A4 A5] Hlk He [Ha Hr]. pose proof (cost_need s) as Hcn.
  pose proof (ex_active _ _ _ _ A3 Ha) as Ha1. pose proof (ex_locked _ _ _ _ A3) as Hl1.
  unfold room. cbn [setblock dirties locked active]. rewrite !Hl1, !Hlk, size_empty in *.
  pose proof (size_add_le (ldev L, a) (dirties b1)) as Hs.
  destruct (Z.eqb_spec (place b d s) 0) as [H0|H0]; destruct A4 as [[-> ->]|(Hz & Hin & Hsz & _)]; try congruence.
  - replace ({[(ldev L, a)]} ∪ dirties b1) with (dirties b1) in * by set_solver. split_and!; [done|lia|done|lia].
  - split_and!; [done|lia|done|lia].
Qed.

Lemma round_avail c b d s a b1 d1 x e : mapped 3 c b d s a b1 d1 -> leaf s = true ->
  avail b ((if place b d s =? 0 then 3 else 0) + e) -> avail (setblock b1 a x) e.
Proof.
  intros [A1 A2 A3 AD A4 A5] Hs Hav. pose proof (fg_log Hgeo) as Hlg.
  assert (Hav1 : avail b1 e).
  { destruct (Z.eqb_spec (place b d s) 0) as [H0|H0]; [by apply A5|].
    destruct A4 as [[-> ->]|(? & _)]; [done|congruence]. }
  destruct (iw_used _ _ (ex_wf _ _ _ _ A3) s) as [Har _]; [by apply leaf_valid|congruence|]. rewrite A1 in Har.
  destruct Hav1 as (F & HF1 & HF2). exists F. split; [done|]. intros m Hm. destruct (HF2 m Hm) as [? Hu].
  split; [done|]. rewrite used_set; [done| |lia]. intros j. apply data_not_bitmap. lia.
Qed.

Lemma wp_writei_loop ip src e (Q : Z -> bstate -> fsk E -> Prop) : (1 <= e)%nat ->
  let n := Z.of_nat (length src) in
  forall fuel off tot b k i, icache k !! ip = Some i -> idev i = ldev L -> fsdisk b -> iwf b (dino i) ->
  locked b = ∅ -> 0 <= off -> 0 <= tot <= n -> off + (n - tot) <= MAXFILE * SZ -> rounds fuel off (n - tot) ->
  room b (sum_list_with (price b (dino i)) (blocks off (n - tot)) + e) ->
  avail b (sum_list_with (lack b (dino i)) (blocks off (n - tot))) ->
  (forall b' d', wrote b (dino i) b' d' off (drop (Z.to_nat tot) src) -> room b' e ->
     Q (off + (n - tot)) b' (kset ip d' k)) ->
  wp L (writei_loop fuel ip src off n tot) Q b k.
Proof.
  intros He n fuel. induction fuel as [|f IH]; intros off tot b k i Hi Hd Hb Hw Hlk Ho Ht Hend Hr Hroom Hav HQ;
    [destruct Hr; lia|]. cbn [writei_loop]. destruct (Z.ltb_spec tot n) as [Hlt|Hge].
  2: { apply wp_ret. replace tot with n in * by lia. rewrite Z.sub_diag in *. rewrite Z.add_0_r in HQ.
       replace k with (kset ip (dino i) k) by (by apply kset_same). apply HQ; [|done].
       unfold n. rewrite Nat2Z.id, drop_all. by apply wrote_nil. }
  destruct (chunk_range n tot off) as (Hc1 & Hc2 & _); [done|done|].
  rewrite blocks_step in Hroom, Hav by done. cbn [sum_list_with] in Hroom, Hav.
  set (m := chunk n tot off) in *. set (s := slot_of (off / SZ)) in *.
  assert (Hbn : 0 <= off / SZ < MAXFILE) by (unfold BSIZE in *; divlia).
  apply wp_bind, (wp_getip ip i); [done|]. apply wp_bind, (wp_bmap ip i); try done.
  { destruct Hroom as [_ Hroom]. lia. }
  { intros H0. fold s in H0 |- *.
    replace (price b (dino i) (off / SZ)) with (need s) in Hroom by (unfold price; fold s; by rewrite H0).
    replace (lack b (dino i) (off / SZ)) with 3%nat in Hav by (unfold lack; fold s; by rewrite H0).
    destruct Hroom as [? Hroom]. split; [split; [done|lia]|]. eapply avail_weaken; [|exact Hav]. lia. }
  intros a b1 d1 Hm. fold s in Hm. rewrite Hd.
  set (bs := slice (Z.to_nat tot) (Z.to_nat m) src).
  assert (Hbs : Z.of_nat (length bs) = m) by (unfold bs; rewrite length_slice; lia).
  assert (Hwr := wrote_round b (dino i) b1 d1 off a bs _ Hb Hw Ho (proj2 Hbn) Hm ltac:(lia) ltac:(intros ->; simpl in Hbs; lia)).
  set (b2 := setblock b1 a _) in Hwr.
  destruct (round_room _ b (dino i) s a b1 d1 (splice (Z.to_nat (off mod SZ)) bs (blockof b1 a)) _ e eq_refl Hm Hlk He Hroom) as [Hr1 Hr2].
  fold b2 in Hr2. pose proof Hwr as [Hg _ _ _]. pose proof Hm as [A1 A2 A3 AD A4 A5].
  pose proof dstart_lstart as Hds.
  destruct (iw_used _ _ (ex_wf _ _ _ _ A3) s) as [Har _]; [by apply leaf_valid, slot_of_leaf|congruence|]. rewrite A1 in Har.
  pose proof (Z.mod_pos_bound off SZ ltac:(unfold BSIZE; lia)) as Hom.
  assert (Hlen : length (blockof b1 a) = BSIZE) by (apply length_blockof; [apply A3|lia]).
  eapply (wp_modify a _ _ (fun _ => writei_loop f ip src (off + m) n (tot + m))); [done|apply A3|lia| |done| |].
  { rewrite (ex_locked _ _ _ _ A3), Hlk. set_solver. }
  { rewrite length_splice; lia. }
  fold bs b2. destruct (prices_mono _ _ _ _ (blocks (off + m) (n - (tot + m))) Hg) as [Hp1 Hp2].
  { intros bn. apply blocks_valid; lia. }
  eapply (IH (off + m) (tot + m) b2 (kset ip d1 k) (set_dino d1 i)); try done.
  - by apply kset_lookup.
  - apply Hg.
  - apply Hg.
  - by rewrite (ex_locked _ _ _ _ Hg).
  - lia.
  - lia.
  - lia.
  - by apply rounds_step.
  - destruct Hr2 as [? Hr2]. split; [done|]. cbn [dino set_dino]. lia.
  - eapply avail_weaken; [exact Hp2|]. eapply round_avail; [exact Hm|by apply slot_of_leaf|exact Hav].
  - intros b' d' Hwr' Hr'. rewrite kset_twice. replace (off + m + (n - (tot + m))) with (off + (n - tot)) by lia.
    apply HQ; [|done]. replace (drop (Z.to_nat tot) src) with (bs ++ drop (Z.to_nat (tot + m)) src).
    + eapply wrote_app; [done|done| |exact Hwr|]; [|rewrite Hbs; exact Hwr'].
      rewrite length_app, Nat2Z.inj_add, Hbs, length_drop. lia.
    + unfold bs, slice. rewrite Z2Nat.inj_add, <- drop_drop by lia. apply take_drop.
Qed.

(** *** Other files *)

(** No block is in both trees. *)
Definition disjoint_files b d d2 : Prop := forall s s', valid s = true -> valid s' = true ->
  place b d s <> 0 -> place b d s <> place b d2 s'.

Lemma place_frame b b' d : (forall s, inner s = true -> place b d s <> 0 -> blockof b' (place b d s) = blockof b (place b d s)) ->
  forall s, valid s = true -> place b' d s = place b d s.
Proof.
  intros Hf. induction s as [n|s IH n]; intros Hs; [done|]. cbn [place].
  destruct (valid_sub _ _ Hs) as [Hin _]. rewrite IH by (by apply inner_valid). unfold word.
  destruct (Z.eqb_spec (place b d s) 0); [done|]. by rewrite Hf.
Qed.

(** A file whose blocks are as they were is as it was. *)
Lemma file_frame b b' d : file_ok b d ->
  (forall s, valid s = true -> place b d s <> 0 -> blockof b' (place b d s) = blockof b (place b d s)) ->
  (forall m, 0 <= m < sb_size sb -> used b m = true -> used b' m = true) ->
  file_ok b' d /\ content b' d = content b d /\ forall s, valid s = true -> place b' d s = place b d s.
Proof.
  intros [H1 H2 H3 H4] Hf Hu. pose proof (fg_log Hgeo) as Hlg. pose proof dstart_lstart as Hds.
  assert (Hpl : forall s, valid s = true -> place b' d s = place b d s).
  { apply place_frame. intros s Hs. by apply Hf, inner_valid. }
  assert (Hsl : forall bn, 0 <= bn -> bn * SZ < d_size d -> leaf (slot_of bn) = true).
  { intros bn H0 Hb. apply slot_of_leaf. unfold BSIZE in *. lia. }
  split_and!; [split| |done].
  - split; [apply H1| |].
    + intros s Hs. rewrite Hpl by done. intros H0'. destruct (iw_used _ _ H1 s Hs H0') as [? ?].
      split; [done|]. apply Hu; [lia|done].
    + intros s s' Hs Hs'. rewrite !Hpl by done. by apply H1.
  - intros bn H0' Hbn. rewrite Hpl by (by apply leaf_valid, Hsl). by apply H2.
  - done.
  - done.
  - unfold content. apply list_fmap_ext. intros j p Hp. apply lookup_seqZ in Hp as [-> Hp].
    unfold fbyte, fblock. rewrite Hpl by (apply leaf_valid, Hsl; unfold BSIZE; divlia).
    destruct (Z.eqb_spec (place b d (slot_of ((0 + Z.of_nat j) / SZ))) 0); [done|]. rewrite Hf; [done| |done].
    apply leaf_valid, Hsl; unfold BSIZE; divlia.
Qed.

Lemma grows_other b d b' d' d2 : iwf b d -> grows b d b' d' -> file_ok b d2 -> disjoint_files b d d2 ->
  file_ok b' d2 /\ content b' d2 = content b d2 /\ disjoint_files b' d' d2.
Proof.
  intros Hw Hg Ho Hdj. pose proof (fg_log Hgeo) as Hlg. pose proof dstart_lstart as Hds.
  pose proof (fo_wf _ _ Ho) as Hw2.
  destruct (file_frame b b' d2 Ho) as (H1 & H2 & H3).
  { intros s Hs H0. destruct (iw_used _ _ Hw2 s Hs H0) as [? ?]. apply (ex_frame _ _ _ _ Hg); [lia|done| |].
    - intros j. apply data_not_bitmap. lia.
    - intros s' Hs' He. apply (Hdj s' s); [done|done|lia|done]. }
  { apply (ex_used _ _ _ _ Hg). }
  split_and!; [done|done|]. intros s s' Hs Hs' H0. rewrite H3 by done.
  destruct (decide (place b d s = 0)) as [Hz|Hnz].
  - intros He. pose proof (ex_fresh _ _ _ _ Hg s Hs Hz H0) as Hun. rewrite He in Hun, H0.
    destruct (iw_used _ _ Hw2 s' Hs' H0). congruence.
  - rewrite (ex_mono _ _ _ _ Hg) by done. by apply Hdj.
Qed.

(** *** [iupdate] *)

Definition disk_dinode b (n : Z) : dinode := dec_dinode (doff n) (blockof b (IBLOCK n)).

Lemma IBLOCK_range n : 0 <= n < sb_ninodes sb -> IBLOCK n = n / IPB + 2 /\ 2 <= IBLOCK n < dstart /\
  forall j, 0 <= j < sb_size sb -> bmblock j <> IBLOCK n.
Proof.
  intros Hn. pose proof (fg_size Hgeo). pose proof (fg_log Hgeo). pose proof dstart_lstart.
  assert (He : IBLOCK n = n / IPB + 2).
  { unfold IBLOCK. apply u32_id. unfold dstart, IPB, BPB in *. divlia. }
  rewrite He. split_and!; [done|unfold IPB; divlia|unfold dstart, IPB, BPB in *; divlia|].
  intros j Hj. rewrite bmblock_eq by done. unfold IPB, BPB in *. divlia.
Qed.

Lemma doff_range n : (doff n + 64 <= BSIZE)%nat.
Proof. unfold doff, IPB, BSIZE. divlia. Qed.

Lemma doff_disj n m : 0 <= n -> 0 <= m -> n <> m -> n / IPB = m / IPB ->
  (doff n + 64 <= doff m \/ doff m + 64 <= doff n)%nat.
Proof. unfold doff, IPB. intros. divlia. Qed.

(** Only the inode's own entry changes. *)
Lemma wp_iupdate ip i b k (Q : unit -> bstate -> fsk E -> Prop) :
  icache k !! ip = Some i -> idev i = ldev L -> 0 <= inum i < sb_ninodes sb -> dinode_ok (dino i) ->
  fsdisk b -> locked b = ∅ -> room b 1 ->
  (forall x, fsdisk (setblock b (IBLOCK (inum i)) x) ->
     disk_dinode (setblock b (IBLOCK (inum i)) x) (inum i) = dino i ->
     (forall m, 0 <= m < sb_ninodes sb -> m <> inum i ->
        disk_dinode (setblock b (IBLOCK (inum i)) x) m = disk_dinode b m) ->
     Q tt (setblock b (IBLOCK (inum i)) x) k) ->
  wp L (iupdate ip) Q b k.
Proof.
  intros Hi Hd Hn Hok Hb Hlk Hr HQ. pose proof dstart_lstart as Hds.
  destruct (IBLOCK_range _ Hn) as (He & Hrange & Hnb). pose proof (doff_range (inum i)) as Hdo.
  assert (Hlen : length (blockof b (IBLOCK (inum i))) = BSIZE) by (apply length_blockof; (done || lia)).
  unfold iupdate. apply wp_bind, (wp_getip ip i); [done|]. rewrite Hd.
  eapply (wp_modify _ _ _ Ret); [done|done|lia|rewrite Hlk; set_solver|done| |].
  { rewrite length_enc_dinode; [done|apply Hok|lia]. }
  apply wp_ret, HQ.
  - apply fsdisk_set; [done|lia|done|]. rewrite length_enc_dinode; [done|apply Hok|lia].
  - unfold disk_dinode. rewrite blockof_set, decide_True by done. apply dinode_roundtrip; [done|lia].
  - intros m Hm Hne. unfold disk_dinode. rewrite blockof_set. case_decide as Heq; [|done]. rewrite <- Heq.
    pose proof (doff_range m). apply dinode_other; [lia|lia|apply Hok|]. apply doff_disj; [lia|lia|done|].
    destruct (IBLOCK_range _ Hm) as (Hem & _). lia.
Qed.

(** *** [writei] *)

(** The file [i] on [b] becomes [d'] on [b'] by a write of [src] at [off]. *)
Record written b i b' d' (off : Z) (src : list Z) : Prop := {
  wn_disk : fsdisk b';
  wn_file : file_ok b' d';
  wn_content : content b' d' = splice (Z.to_nat off) src (content b (dino i));
  wn_attr : d_type d' = d_type (dino i) /\ d_major d' = d_major (dino i) /\
    d_minor d' = d_minor (dino i) /\ d_nlink d' = d_nlink (dino i);
  wn_sync : disk_dinode b (inum i) = dino i -> disk_dinode b' (inum i) = d';
  wn_inodes m : 0 <= m < sb_ninodes sb -> m <> inum i -> disk_dinode b' m = disk_dinode b m;
  wn_others d2 : file_ok b d2 -> disjoint_files b (dino i) d2 ->
    file_ok b' d2 /\ content b' d2 = content b d2 /\ disjoint_files b' d' d2;
  wn_locked : locked b' = ∅;
  wn_active : active b' = true
}.

Lemma content_splice (f g : Z -> Z) off (src : list Z) sz : 0 <= off <= sz ->
  (forall p, 0 <= p < Z.max sz (off + Z.of_nat (length src)) ->
     g p = if decide (off <= p < off + Z.of_nat (length src)) then aget 0 src (p - off) else f p) ->
  g <$> seqZ 0 (Z.max sz (off + Z.of_nat (length src))) = splice (Z.to_nat off) src (f <$> seqZ 0 sz).
Proof.
  intros Ho Hg. set (n := Z.of_nat (length src)) in *. unfold splice.
  assert (Htake : take (Z.to_nat off) (f <$> seqZ 0 sz) = f <$> seqZ 0 off).
  { change (take (Z.to_nat off) (f <$> seqZ 0 sz)) with (slice (Z.to_nat 0) (Z.to_nat off) (f <$> seqZ 0 sz)).
    apply slice_seqZ; lia. }
  rewrite Htake. apply list_eq. intros j. rewrite list_lookup_fmap.
  destruct (decide (Z.of_nat j < off)) as [H1|H1].
  { rewrite lookup_seqZ_lt by lia. rewrite lookup_app_l by (rewrite length_fmap, length_seqZ; lia).
    rewrite list_lookup_fmap, lookup_seqZ_lt by lia. simpl. by rewrite Hg, decide_False by lia. }
  rewrite lookup_app_r by (rewrite length_fmap, length_seqZ; lia). rewrite length_fmap, length_seqZ.
  destruct (decide (Z.of_nat j < off + n)) as [H2|H2].
  { rewrite lookup_seqZ_lt by lia. rewrite lookup_app_l by lia. simpl. rewrite Hg, decide_True by lia.
    unfold aget. rewrite decide_True by lia. replace (Z.to_nat (0 + Z.of_nat j - off)) with (j - Z.to_nat off)%nat by lia.
    destruct (lookup_lt_is_Some_2 src (j - Z.to_nat off)) as [x Hx]; [lia|]. by rewrite Hx. }
  rewrite lookup_app_r by lia. rewrite lookup_drop, list_lookup_fmap.
  replace (Z.to_nat off + length src + (j - Z.to_nat off - length src))%nat with j by lia.
  destruct (decide (Z.of_nat j < sz)).
  - rewrite !lookup_seqZ_lt by lia. simpl. by rewrite Hg, decide_False by lia.
  - by rewrite !lookup_seqZ_ge by lia.
Qed.

(** The effect of the loop of [writei] and the change of the size. *)
Lemma wrote_file b i b' d' off src : file_ok b (dino i) -> 0 <= off <= d_size (dino i) ->
  off + Z.of_nat (length src) <= MAXFILE * SZ -> wrote b (dino i) b' d' off src ->
  let d2 := set_size (Z.max (d_size (dino i)) (off + Z.of_nat (length src))) d' in
  file_ok b' d2 /\ content b' d2 = splice (Z.to_nat off) src (content b (dino i)).
Proof.
  intros [H1 H2 H3 H4] Ho Hmax [[G1 G2 [l G3] G4 G5 G6 G7 G8 G9 G10] W2 W3 W4] d2.
  assert (Hplace : forall s, place b' d2 s = place b' d' s).
  { intros s. induction s as [n|s IH n]; [done|]. cbn [place]. by rewrite IH. }
  split; [split|].
  - split; [exact (iw_len _ _ G2)|intros s Hs; rewrite Hplace; by apply G2|].
    intros s s' Hs Hs'. rewrite !Hplace. by apply G2.
  - intros bn Hb0 Hbs. rewrite Hplace. cbn [d2 set_size d_size] in Hbs.
    destruct (decide (bn ∈ blocks off (Z.of_nat (length src)))) as [Hin|Hout]; [by apply W3|].
    rewrite elem_blocks in Hout by lia.
    assert (Hold : bn * SZ < d_size (dino i)) by (unfold BSIZE in *; divlia).
    rewrite G4; [by apply H2|apply leaf_valid, slot_of_leaf; unfold BSIZE in *; divlia|by apply H2].
  - cbn. lia.
  - cbn. by rewrite G3.
  - unfold content. cbn [d2 set_size d_size].
    rewrite (list_fmap_ext (fbyte b' d2) (fbyte b' d')).
    + apply content_splice; [lia|]. intros p Hp. apply W2. lia.
    + intros j p _. unfold fbyte, fblock. by rewrite Hplace.
Qed.

Lemma iwf_addrs b d : iwf b d -> Forall (fun a => 0 <= a < 2 ^ 32) (d_addrs d).
Proof.
  intros Hw. pose proof dstart_lstart. pose proof (fg_log Hgeo). pose proof (fg_size Hgeo).
  apply Forall_lookup. intros j a Hj. pose proof (lookup_lt_Some _ _ _ Hj) as Hlt. rewrite (iw_len _ _ Hw) in Hlt.
  assert (Ha : place b d (Top (Z.of_nat j)) = a).
  { cbn [place]. unfold aget. rewrite decide_True, Nat2Z.id, Hj by lia. done. }
  destruct (decide (a = 0)) as [->|Hne]; [lia|]. rewrite <- Ha in *.
  destruct (iw_used _ _ Hw (Top (Z.of_nat j))); [apply valid_top; lia|done|lia].
Qed.

(** Inodes on the disk are untouched while the tree grows. *)
Lemma grows_inodes b d b' d' m : fsdisk b -> iwf b d -> grows b d b' d' -> 0 <= m < sb_ninodes sb ->
  disk_dinode b' m = disk_dinode b m.
Proof.
  intros Hb Hw Hg Hm. destruct (IBLOCK_range m Hm) as (_ & Hr & Hnb). pose proof dstart_lstart as Hds.
  unfold disk_dinode. rewrite (ex_frame _ _ _ _ Hg); [done|lia| |done|].
  - apply not_false_iff_true. intros Hf. apply (fd_meta _ Hb) in Hf; lia.
  - intros s Hs He. destruct (iw_used _ _ Hw s Hs) as [? _]; lia.
Qed.

(** A write to an inode block leaves the files alone. *)
Lemma file_set_meta b n x d : 1 < n < dstart -> (forall j, 0 <= j < sb_size sb -> bmblock j <> n) ->
  file_ok b d -> file_ok (setblock b n x) d /\ content (setblock b n x) d = content b d /\
  forall s, valid s = true -> place (setblock b n x) d s = place b d s.
Proof.
  intros Hn Hnb Hok. apply file_frame; [done| |].
  - intros s Hs H0. destruct (iw_used _ _ (fo_wf _ _ Hok) s Hs H0). by rewrite blockof_set, decide_False by lia.
  - intros m Hm. by rewrite used_set.
Qed.

Lemma disjoint_place b b' d d2 : (forall s, valid s = true -> place b' d s = place b d s) ->
  (forall s, valid s = true -> place b' d2 s = place b d2 s) -> disjoint_files b d d2 -> disjoint_files b' d d2.
Proof. intros H1 H2 Hd s s' Hs Hs'. rewrite H1, H2 by done. by apply Hd. Qed.

Lemma set_size_id d : set_size (d_size d) d = d.
Proof. by destruct d. Qed.

Lemma place_size b d n s : place b (set_size n d) s = place b d s.
Proof. induction s as [m|s IH m]; [done|]. cbn [place]. by rewrite IH. Qed.

(** The state when [writei] does not call [iupdate], and when it does. *)
Lemma written_same b i b' d' off src : fsdisk b -> file_ok b (dino i) -> 0 <= off ->
  off + Z.of_nat (length src) <= d_size (dino i) -> 0 <= inum i < sb_ninodes sb ->
  locked b = ∅ -> active b = true -> wrote b (dino i) b' d' off src -> written b i b' d' off src.
Proof.
  intros Hb Hok Ho Hend Hn Hlk Ha Hwr. pose proof (fo_wf _ _ Hok) as Hw. pose proof (fo_size _ _ Hok) as Hs.
  pose proof (wr_grows _ _ _ _ _ _ Hwr) as Hg. destruct (ex_attr _ _ _ _ Hg) as [l Hl].
  destruct (wrote_file b i b' d' off src) as [F1 F2]; [done|lia|lia|done|].
  replace (d_size (dino i) `max` (off + Z.of_nat (length src))) with (d_size d') in F1, F2 by (rewrite Hl; cbn; lia).
  rewrite set_size_id in F1, F2. split; try done.
  - apply Hg.
  - by rewrite Hl.
  - intros Hd. rewrite (grows_inodes b (dino i) b' d') by done. rewrite Hd. symmetry. apply (wr_same _ _ _ _ _ _ Hwr).
    intros bn (? & ? & ?)%elem_blocks; [|done]. apply Hok; [|lia]. unfold BSIZE in *. divlia.
  - intros m Hm _. by apply (grows_inodes b (dino i) b' d').
  - intros d2 H1 H2. by apply (grows_other b (dino i)).
  - by rewrite (ex_locked _ _ _ _ Hg).
  - by apply (ex_active _ _ _ _ Hg).
Qed.

Lemma written_longer b i b' d' off src x : fsdisk b -> file_ok b (dino i) -> 0 <= off <= d_size (dino i) ->
  off + Z.of_nat (length src) <= MAXFILE * SZ -> d_size (dino i) < off + Z.of_nat (length src) ->
  0 <= inum i < sb_ninodes sb -> locked b = ∅ -> wrote b (dino i) b' d' off src ->
  let d2 := set_size (off + Z.of_nat (length src)) d' in
  let b2 := setblock b' (IBLOCK (inum i)) x in
  fsdisk b2 -> disk_dinode b2 (inum i) = d2 ->
  (forall m, 0 <= m < sb_ninodes sb -> m <> inum i -> disk_dinode b2 m = disk_dinode b' m) ->
  written b i b2 d2 off src.
Proof.
  intros Hb Hok Ho Hmax Hend Hn Hlk Hwr d2 b2 Hb2 Hd2 Hm2. pose proof (fo_wf _ _ Hok) as Hw.
  pose proof (wr_grows _ _ _ _ _ _ Hwr) as Hg. destruct (ex_attr _ _ _ _ Hg) as [l Hl].
  destruct (IBLOCK_range _ Hn) as (_ & Hr & Hnb).
  destruct (wrote_file b i b' d' off src) as [F1 F2]; [done|lia|lia|done|].
  replace (d_size (dino i) `max` (off + Z.of_nat (length src))) with (off + Z.of_nat (length src)) in F1, F2 by lia.
  fold d2 in F1, F2. destruct (file_set_meta b' (IBLOCK (inum i)) x d2) as (F3 & F4 & F5); [lia|done|done|].
  fold b2 in F3, F4, F5. split; try done.
  - by rewrite F4.
  - unfold d2. by rewrite Hl.
  - intros m Hm Hne. rewrite Hm2 by done. by apply (grows_inodes b (dino i) b' d').
  - intros d3 H1 H2. destruct (grows_other b (dino i) b' d' d3 Hw Hg H1 H2) as (G1 & G2 & G3).
    destruct (file_set_meta b' (IBLOCK (inum i)) x d3) as (G4 & G5 & G6); [lia|done|done|].
    split_and!; [done|by rewrite <- G2|]. apply (disjoint_place b'); [done|done|].
    intros s s' Hs Hs'. unfold d2. rewrite place_size. by apply G3.
  - cbn [b2 setblock locked]. by rewrite (ex_locked _ _ _ _ Hg).
Qed.

Section io_write.
Context (devwrite : Z -> option (nat -> list Z -> prog (fsk E) Z)).

Lemma wp_writei ip i src off b k (Q : Z -> bstate -> fsk E -> Prop) :
  icache k !! ip = Some i -> idev i = ldev L -> 0 <= inum i < sb_ninodes sb -> dinode_ok (dino i) ->
  fsdisk b -> file_ok b (dino i) -> locked b = ∅ -> 0 <= off <= d_size (dino i) ->
  off + Z.of_nat (length src) <= MAXFILE * SZ ->
  room b (sum_list_with (price b (dino i)) (blocks off (Z.of_nat (length src))) + 1) ->
  avail b (sum_list_with (lack b (dino i)) (blocks off (Z.of_nat (length src)))) ->
  (forall b' d', written b i b' d' off src -> Q (Z.of_nat (length src)) b' (kset ip d' k)) ->
  wp L (writei devwrite ip src off) Q b k.
Proof.
  intros Hi Hd Hn Hdok Hb Hok Hlk Ho Hmax Hr Hav HQ. pose proof (fo_size _ _ Hok) as Hs.
  unfold writei. apply wp_bind, (wp_getip ip i); [done|].
  destruct (Z.eqb_spec (d_type (dino i)) T_DEV) as [Ht|_]; [by apply Hok in Ht|].
  assert (Hlim : off + Z.of_nat (length src) < 2 ^ 32) by (unfold MAXFILE, NDIRECT, NINDIRECT, BSIZE in *; lia).
  rewrite u32_id by lia. destruct (Z.ltb_spec (d_size (dino i)) off); [lia|].
  destruct (Z.ltb_spec (off + Z.of_nat (length src)) off); [lia|]. cbn [orb].
  destruct (Z.ltb_spec (MAXFILE * SZ) (off + Z.of_nat (length src))); [lia|].
  apply wp_bind, (wp_writei_loop ip src 1) with i; rewrite ?Z.sub_0_r; try done; try lia.
  { apply Hok. }
  { apply rounds_init; lia. }
  intros b' d' Hwr Hr'. change (drop (Z.to_nat 0) src) with src in Hwr.
  pose proof (wr_grows _ _ _ _ _ _ Hwr) as Hg. destruct (ex_attr _ _ _ _ Hg) as [l Hl].
  apply wp_bind, (wp_getip ip (set_dino d' i)); [by apply kset_lookup|]. cbn [dino set_dino].
  assert (Hsz : d_size d' = d_size (dino i)) by (by rewrite Hl). rewrite Hsz.
  destruct (_ && _) eqn:Ec; bool_prop.
  - apply wp_bind, wp_bind, (wp_upddino ip (set_dino d' i)); [by apply kset_lookup|]. rewrite kset_twice. cbn [dino set_dino].
    apply (wp_iupdate ip (set_dino (set_size (off + Z.of_nat (length src)) d') i)); cbn [idev inum dino set_dino]; try done.
    + by apply kset_lookup.
    + destruct Hdok as [D1 D2 D3 D4 D5 D6 D7]. pose proof (ex_wf _ _ _ _ Hg) as Hw'.
      split; cbn [set_size d_type d_major d_minor d_nlink d_size d_addrs]; try (rewrite Hl; done); [lia|apply Hw'|by eapply iwf_addrs].
    + apply Hg.
    + by rewrite (ex_locked _ _ _ _ Hg).
    + intros x X1 X2 X3. apply wp_ret, HQ. apply written_longer; done.
  - apply wp_bind, wp_ret, wp_ret, HQ. destruct Hr as [Ha _]. apply andb_false_iff in Ec as [Ec|Ec]; bool_prop;
      apply written_same; (done || lia).
Qed.

End io_write.
End disk.
