(* ===== verification/Icache.v ===== *)
(** * The inode cache

    What the functions of fs.c do to the entries of the inode cache, whatever
    the disk does: the functions that work on an inode keep which inode every
    entry holds and its reference count; [iget], [idup] and [iput] keep the
    count equal to the number of references handed out. *)

From stdpp Require Import base numbers list gmap strings relations.
From Stdlib Require Import ZArith Lia.
From S2P Require Import Prelude Disk Bio Log Blk Fs.

Local Open Scope Z_scope.
Local Open Scope prog_scope.

(** ** Relations kept by a program

    For every way the block operations may answer. *)

Definition keeps {K A} (R : relation K) (p : prog K A) : Prop :=
  forall S (h : forall o, M S (op_ret o)) s k a s' k', run h p (s, k) = Ok a (s', k') -> R k k'.

Section keeps.
Context {K : Type} (R : relation K) `{!PreOrder R}.

Lemma keeps_ret {A} (a : A) : keeps R (Ret a).
Proof. intros S h s k a' s' k' [= <- <- <-]. reflexivity. Qed.

Lemma keeps_panic {A} msg : keeps R (PPanic msg : prog K A).
Proof. by intros S h s k a' s' k'. Qed.

Lemma keeps_sleep {A} c : keeps R (PSleep c : prog K A).
Proof. by intros S h s k a' s' k'. Qed.

Lemma keeps_bind {A B} (p : prog K A) (f : A -> prog K B) :
  keeps R p -> (forall a, keeps R (f a)) -> keeps R (pbind p f).
Proof.
  intros Hp Hf S h s k b s' k'. rewrite run_pbind. destruct (run h p (s, k)) as [a [s1 k1]| |] eqn:E; [|done..].
  intros H. transitivity k1; [by eapply Hp|by eapply Hf].
Qed.

Lemma keeps_do {A} o (f : op_ret o -> prog K A) : (forall r, keeps R (f r)) -> keeps R (Do o f).
Proof.
  intros Hf S h s k a s' k'. cbn [run fst snd]. destruct (h o s) as [r s1| |]; [|done..]. apply Hf.
Qed.

Lemma keeps_get {A} (f : K -> prog K A) : (forall k, keeps R (f k)) -> keeps R (Get f).
Proof. intros Hf S h s k a s' k'. cbn [run fst snd]. apply Hf. Qed.

Lemma keeps_modify f : (forall k, R k (f k)) -> keeps R (pmodify f).
Proof. intros Hf S h s k a s' k' [= <- <- <-]. apply Hf. Qed.

End keeps.

Create HintDb keeps.
#[export] Hint Resolve keeps_ret keeps_panic keeps_sleep keeps_do : keeps.

(** [keep] walks through a program. *)
Ltac keep :=
  repeat match goal with
  | |- forall _, _ => intro
  | |- keeps _ (pbind _ _) => apply keeps_bind; [exact _|..]
  | |- keeps _ (bread _ _) => apply keeps_do
  | |- keeps _ (logw _ _ _) => apply keeps_do
  | |- keeps _ (brelse _ _) => apply keeps_do
  | |- keeps _ (Get _) => apply keeps_get
  | |- keeps _ (getip _) => apply keeps_get
  | |- keeps _ (if ?b then _ else _) => destruct b
  | |- keeps _ (match ?x with _ => _ end) => destruct x
  | |- keeps _ _ => solve [auto with keeps typeclass_instances]
  end.

Section icache.
Context {E : Type}.
Implicit Types (k : fsk E).

(** Every entry holds the same inode with the same count. *)
Definition same_id (i i' : inode) : Prop := idev i' = idev i /\ inum i' = inum i /\ iref i' = iref i.
Definition same_ids k k' : Prop := Forall2 same_id (icache k) (icache k') /\ ext k' = ext k.

#[export] Instance same_id_pre : PreOrder same_id.
Proof. split; [done|]. intros i j l (H1 & H2 & H3) (H4 & H5 & H6). unfold same_id. by rewrite H4, H5, H6. Qed.

#[export] Instance same_ids_pre : PreOrder same_ids.
Proof.
  split; [split; [apply reflexivity|done]|]. intros k1 k2 k3 [H1 H2] [H3 H4].
  split; [by etransitivity|by rewrite H4].
Qed.

Lemma same_ids_upd ip f : (forall i, same_id i (f i)) -> keeps same_ids (updip (E:=E) ip f).
Proof.
  intros Hf. apply keeps_modify. intros k. split; [|done]. cbn [icache].
  apply Forall2_alter_r; [apply reflexivity|]. intros x y Hx Hy _. rewrite Hx in Hy. injection Hy as <-. apply Hf.
Qed.

Lemma keeps_upddino ip f : keeps same_ids (upddino (E:=E) ip f).
Proof. by apply same_ids_upd. Qed.

Lemma keeps_readsb dv : keeps same_ids (readsb (E:=E) dv).
Proof. unfold readsb. keep. Qed.

Lemma keeps_bzero dv n : keeps same_ids (bzero (E:=E) dv n).
Proof. unfold bzero. keep. Qed.
#[local] Hint Resolve keeps_upddino keeps_readsb keeps_bzero : keeps.

Lemma keeps_balloc dv : keeps same_ids (balloc (E:=E) dv).
Proof.
  unfold balloc. keep. generalize (S (Z.to_nat (sb_size a / BPB + 1))), 0. intros fuel.
  induction fuel as [|f IH]; intros z; cbn [balloc_loop]; keep.
Qed.

Lemma keeps_bfree dv n : keeps same_ids (bfree (E:=E) dv n).
Proof. unfold bfree. keep. Qed.

Lemma keeps_iupdate ip : keeps same_ids (iupdate (E:=E) ip).
Proof. unfold iupdate. keep. Qed.
#[local] Hint Resolve keeps_balloc keeps_bfree keeps_iupdate : keeps.

Lemma keeps_bmap ip n : keeps same_ids (bmap (E:=E) ip n).
Proof. unfold bmap, map_addr, map_word. keep. Qed.

Lemma keeps_itrunc ip : keeps same_ids (itrunc (E:=E) ip).
Proof.
  unfold itrunc. keep.
  - induction (seq 0 (Z.to_nat NDIRECT)) as [|n ns IH]; cbn [itrunc_direct]; keep.
  - induction (seq 0 (Z.to_nat NINDIRECT)) as [|n ns IH]; cbn [itrunc_words]; keep.
Qed.
#[local] Hint Resolve keeps_bmap keeps_itrunc : keeps.

Lemma keeps_ilock ip : keeps same_ids (ilock (E:=E) ip).
Proof. unfold ilock. keep; by apply same_ids_upd. Qed.

Lemma keeps_iunlock ip : keeps same_ids (iunlock (E:=E) ip).
Proof. unfold iunlock. keep; by apply same_ids_upd. Qed.
#[local] Hint Resolve keeps_ilock keeps_iunlock : keeps.

(** ** References *)

Definition upd_ref ip (f : Z -> Z) k : fsk E := FsK (alter (fun i => set_ref (f (iref i)) i) ip (icache k)) (ext k).

(** [iput] drops one reference, and otherwise keeps every entry. *)
Lemma iput_ids S (h : forall o, M S (op_ret o)) ip s k s' k' :
  run h (iput ip) (s, k) = Ok tt (s', k') -> same_ids (upd_ref ip (fun r => r - 1) k) k'.
Proof.
  unfold iput. rewrite run_pbind. cbn [getip run fst snd]. rewrite run_pbind.
  set (p := if _ : bool then _ else _).
  assert (Hp : keeps same_ids p) by (unfold p; keep; by apply same_ids_upd).
  destruct (run h p (s, k)) as [[] [s1 k1]| |] eqn:E1; [|done..]. apply Hp in E1 as [H1 H2].
  intros [= <- <-]. split; [|done]. cbn [upd_ref icache]. apply Forall2_alter; [done|].
  intros i i' _ _ (? & ? & ?). split_and!; simpl; congruence.
Qed.

Lemma idup_ids S (h : forall o, M S (op_ret o)) ip s k j s' k' :
  run h (idup ip) (s, k) = Ok j (s', k') -> j = ip /\ k' = upd_ref ip (fun r => r + 1) k.
Proof. by intros [= <- _ <-]. Qed.

(** The search of [iget]. *)
Definition hit (dv n : Z) (i : inode) : bool := (0 <? iref i) && (idev i =? dv) && (inum i =? n).

Lemma iget_scan_spec dv n l : forall o e, match iget_scan l o dv n e with
  | inl r => exists j i, r = Some (o + j)%nat /\ l !! j = Some i /\ hit dv n i = true
  | inr r => Forall (fun i => hit dv n i = false) l /\
      (r = e /\ (e = None -> Forall (fun i => iref i <> 0) l) \/
       exists j i, r = Some (o + j)%nat /\ l !! j = Some i /\ iref i = 0)
  end.
Proof.
  induction l as [|i l IH]; intros o e; cbn [iget_scan]; [split; [done|by left]|].
  change ((0 <? iref i) && (idev i =? dv) && (inum i =? n)) with (hit dv n i).
  destruct (hit dv n i) eqn:Eh.
  { exists 0%nat, i. by rewrite Nat.add_0_r. }
  set (e' := match e with None => _ | _ => _ end). specialize (IH (S o) e').
  destruct (iget_scan l (S o) dv n e') as [r|r].
  - destruct IH as (j & i' & -> & ? & ?). exists (S j), i'. rewrite Nat.add_succ_r. done.
  - destruct IH as [Hall Hr]. split; [by constructor|]. destruct Hr as [[-> He']|(j & i' & -> & ? & ?)].
    + destruct e as [e|]; [by left|]. subst e'. destruct (Z.eqb_spec (iref i) 0).
      * right. exists 0%nat, i. by rewrite Nat.add_0_r.
      * left. split; [done|]. intros _. constructor; [done|by apply He'].
    + right. exists (S j), i'. rewrite Nat.add_succ_r. done.
Qed.

(** [iget] finds the entry that has the inode or takes a free one. *)
Lemma iget_ids S (h : forall o, M S (op_ret o)) dv n s k j s' k' :
  run h (iget dv n) (s, k) = Ok j (s', k') ->
  exists i, icache k !! j = Some i /\ s' = s /\
    ((hit dv n i = true /\ k' = upd_ref j (fun r => r + 1) k) \/
     (iref i = 0 /\ Forall (fun i => hit dv n i = false) (icache k) /\
      k' = FsK (<[j := Inode dv n 1 0 (dino i)]> (icache k)) (ext k))).
Proof.
  unfold iget. cbn [run fst snd]. pose proof (iget_scan_spec dv n (icache k) 0 None) as Hs.
  destruct (iget_scan (icache k) 0 dv n None) as [[r|]|[r|]]; [| | |done].
  - destruct Hs as (j' & i & [= ->] & Hi & Hh). intros [= <- <- <-]. exists i. split_and!; [done|done|]. by left.
  - destruct Hs as (j' & i & [=] & _).
  - destruct Hs as [Hall [[? _]|(j' & i & [= ->] & Hi & Hr)]]; [done|]. intros [= <- <- <-].
    exists i. split_and!; [done|done|]. right. split_and!; [done|done|]. f_equal.
    by rewrite <- (list_alter_insert _ _ _ _ Hi) || (apply list_eq; intros m; destruct (decide (m = j')) as [->|];
      [rewrite list_lookup_alter_eq, list_lookup_insert_eq, Hi by (by eapply lookup_lt_Some); done
      |by rewrite list_lookup_alter_ne, list_lookup_insert_ne]).
Qed.

(** Entry [j] has been given a new reference to the inode [n]: it had the
    inode in use, or it was free and no entry had it. *)
Definition referenced k k' (j : nat) (dv n : Z) : Prop :=
  ext k' = ext k /\ (forall m, m <> j -> icache k' !! m = icache k !! m) /\
  exists i i', icache k !! j = Some i /\ icache k' !! j = Some i' /\
    idev i' = dv /\ inum i' = n /\ iref i' = iref i + 1 /\ dino i' = dino i /\
    (hit dv n i = true /\ iflags i' = iflags i \/
     iref i = 0 /\ iflags i' = 0 /\ Forall (fun i => hit dv n i = false) (icache k)).

Lemma iget_referenced S (h : forall o, M S (op_ret o)) dv n s k j s' k' :
  run h (iget dv n) (s, k) = Ok j (s', k') -> s' = s /\ referenced k k' j dv n.
Proof.
  intros (i & Hi & -> & [[Hh ->]|(H0 & Hall & ->)])%iget_ids; (split; [done|]); (split; [done|]); cbn [upd_ref icache].
  - split; [intros m Hm; by rewrite list_lookup_alter_ne|]. exists i, (set_ref (iref i + 1) i).
    rewrite list_lookup_alter_eq, Hi. pose proof Hh as Hh'. unfold hit in Hh'. bool_prop. split_and!; try done. by left.
  - split; [intros m Hm; by rewrite list_lookup_insert_ne|]. exists i, (Inode dv n 1 0 (dino i)).
    rewrite list_lookup_insert_eq by (by eapply lookup_lt_Some). cbn. split_and!; try done; [lia|]. right. by split_and!.
Qed.

(** The cache and the references the kernel holds, an index for each. *)
Record cache_ok k (refs : list nat) : Prop := {
  co_count j i : icache k !! j = Some i -> iref i = Z.of_nat (count_occ Nat.eq_dec refs j);
  co_in j : j ∈ refs -> is_Some (icache k !! j);
  co_unique j j' i i' : icache k !! j = Some i -> icache k !! j' = Some i' -> 0 < iref i -> 0 < iref i' ->
    idev i = idev i' -> inum i = inum i' -> j = j'
}.

Lemma cache_ok_same k k' refs : same_ids k k' -> cache_ok k refs -> cache_ok k' refs.
Proof.
  intros [Hs _] [H1 H2 H3]. split.
  - intros j i' Hj. destruct (Forall2_lookup_r _ _ _ _ _ Hs Hj) as (i & Hi & (_ & _ & ->)). by apply H1.
  - intros j Hj. destruct (H2 j Hj) as [i Hi]. destruct (Forall2_lookup_l _ _ _ _ _ Hs Hi) as (i' & ? & _). by exists i'.
  - intros j j' i i' Hj Hj' Hr Hr' Hd Hn.
    destruct (Forall2_lookup_r _ _ _ _ _ Hs Hj) as (x & Hx & (E1 & E2 & E3)).
    destruct (Forall2_lookup_r _ _ _ _ _ Hs Hj') as (x' & Hx' & (E1' & E2' & E3')).
    apply (H3 j j' x x'); (done || congruence || lia).
Qed.

(** A change of the references by one at [j]. *)
Lemma cache_ok_ref k refs refs' j f : cache_ok k refs -> is_Some (icache k !! j) ->
  (forall m, m <> j -> count_occ Nat.eq_dec refs' m = count_occ Nat.eq_dec refs m) ->
  (forall i, icache k !! j = Some i -> f (iref i) = Z.of_nat (count_occ Nat.eq_dec refs' j) /\
     (0 < f (iref i) -> 0 < iref i)) ->
  cache_ok (upd_ref j f k) refs'.
Proof.
  intros [H1 H2 H3] Hj Hc Hf.
  assert (Hl : forall m i', icache (upd_ref j f k) !! m = Some i' -> exists i, icache k !! m = Some i /\
    idev i' = idev i /\ inum i' = inum i /\ iref i' = if decide (m = j) then f (iref i) else iref i).
  { intros m i'. cbn [upd_ref icache]. rewrite list_lookup_alter. case_decide as Hm; subst.
    - intros (i & Hi & ->)%fmap_Some. exists i. by rewrite decide_True.
    - intros Hi. exists i'. by rewrite decide_False. }
  split.
  - intros m i' Hm. destruct (Hl m i' Hm) as (i & Hi & _ & _ & ->). case_decide as Hd; [subst; by apply Hf|].
    rewrite Hc by done. by apply H1.
  - intros m Hm. apply list_elem_of_In, (count_occ_In Nat.eq_dec) in Hm. cbn [upd_ref icache]. rewrite list_lookup_alter.
    case_decide as Hd; [subst; rewrite fmap_is_Some; done|]. apply H2. apply list_elem_of_In, (count_occ_In Nat.eq_dec).
    rewrite <- Hc by done. done.
  - intros m m' i i' Hm Hm' Hr Hr' Hd Hn.
    destruct (Hl m i Hm) as (x & Hx & E1 & E2 & E3), (Hl m' i' Hm') as (x' & Hx' & E1' & E2' & E3').
    apply (H3 m m' x x'); try done; try congruence.
    + destruct (decide (m = j)) as [->|]; [apply (Hf x Hx)|]; lia.
    + destruct (decide (m' = j)) as [->|]; [apply (Hf x' Hx')|]; lia.
Qed.

Lemma count_middle (l1 l2 : list nat) j m :
  count_occ Nat.eq_dec (l1 ++ j :: l2) m = ((if decide (j = m) then 1 else 0) + count_occ Nat.eq_dec (l1 ++ l2) m)%nat.
Proof. rewrite !count_occ_app. cbn [count_occ]. destruct (Nat.eq_dec j m), (decide (j = m)); (done || lia). Qed.

Lemma keeps_readi_loop fuel : forall ip off n tot, keeps same_ids (readi_loop (E:=E) fuel ip off n tot).
Proof. induction fuel as [|f IH]; intros ip off n tot; cbn [readi_loop]; keep. Qed.

Lemma keeps_writei_loop fuel : forall ip src off n tot, keeps same_ids (writei_loop (E:=E) fuel ip src off n tot).
Proof. induction fuel as [|f IH]; intros ip src off n tot; cbn [writei_loop]; keep. Qed.

Section steps.
Context {S : Type} (h : forall o, M S (op_ret o)).
Context (devread : Z -> option (nat -> Z -> prog (fsk E) (Z * list Z)))
        (devwrite : Z -> option (nat -> list Z -> prog (fsk E) Z)).
Context (Hread : forall m f ip n, devread m = Some f -> keeps same_ids (f ip n))
        (Hwrite : forall m f ip bs, devwrite m = Some f -> keeps same_ids (f ip bs)).

Lemma keeps_readi ip off n : keeps same_ids (readi devread ip off n).
Proof.
  unfold readi. apply keeps_bind; [exact _|apply keeps_get; keep|]. intros i.
  destruct (_ =? _); [destruct (_ || _); [keep|]; destruct (devread (d_major (dino i))) as [f|] eqn:Ef; [|keep]|].
  { by eapply Hread. }
  pose proof keeps_readi_loop. destruct (_ || _); keep.
Qed.

Lemma keeps_writei ip src off : keeps same_ids (writei devwrite ip src off).
Proof.
  unfold writei. apply keeps_bind; [exact _|apply keeps_get; keep|]. intros i.
  destruct (_ =? _); [destruct (_ || _); [keep|]; destruct (devwrite (d_major (dino i))) as [f|] eqn:Ef; [|keep]|].
  { by eapply Hwrite. }
  pose proof keeps_writei_loop. destruct (_ || _); keep.
Qed.

(** The functions of fs.c called one after another, in any order, by code
    that calls [idup] and [iput] on references it holds. *)
Inductive cstep : S * fsk E * list nat -> S * fsk E * list nat -> Prop :=
| cs_iget dv n s k refs j s' k' : run h (iget dv n) (s, k) = Ok j (s', k') -> cstep (s, k, refs) (s', k', j :: refs)
| cs_idup j s k refs j' s' k' : j ∈ refs -> run h (idup j) (s, k) = Ok j' (s', k') -> cstep (s, k, refs) (s', k', j' :: refs)
| cs_iput l1 j l2 s k s' k' : run h (iput j) (s, k) = Ok tt (s', k') -> cstep (s, k, l1 ++ j :: l2) (s', k', l1 ++ l2)
| cs_ilock j s k refs s' k' : run h (ilock j) (s, k) = Ok tt (s', k') -> cstep (s, k, refs) (s', k', refs)
| cs_iunlock j s k refs s' k' : run h (iunlock j) (s, k) = Ok tt (s', k') -> cstep (s, k, refs) (s', k', refs)
| cs_iupdate j s k refs s' k' : run h (iupdate j) (s, k) = Ok tt (s', k') -> cstep (s, k, refs) (s', k', refs)
| cs_readi j off n r s k refs s' k' : run h (readi devread j off n) (s, k) = Ok r (s', k') -> cstep (s, k, refs) (s', k', refs)
| cs_writei j src off r s k refs s' k' : run h (writei devwrite j src off) (s, k) = Ok r (s', k') -> cstep (s, k, refs) (s', k', refs).

(** Which inode an entry holds. *)
Definition holds k (j : nat) (dv n : Z) : Prop := exists i, icache k !! j = Some i /\ idev i = dv /\ inum i = n.

Lemma same_ids_holds k k' j dv n : same_ids k k' -> holds k j dv n -> holds k' j dv n.
Proof.
  intros [Hs _] (i & Hi & <- & <-). destruct (Forall2_lookup_l _ _ _ _ _ Hs Hi) as (i' & Hi' & (? & ? & _)). by exists i'.
Qed.

Lemma upd_ref_holds k f m j dv n : holds k j dv n -> holds (upd_ref m f k) j dv n.
Proof.
  intros (i & Hi & Hd & Hn). unfold holds. cbn [upd_ref icache]. rewrite list_lookup_alter, Hi.
  case_decide; [subst m; rewrite Hi|]; eexists; by split_and!.
Qed.

(** Each step keeps the counts, and the inodes of the entries referenced. *)
Definition step_ok (x y : S * fsk E * list nat) : Prop := cache_ok x.1.2 x.2 ->
  cache_ok y.1.2 y.2 /\ forall j dv n, j ∈ x.2 -> holds x.1.2 j dv n -> holds y.1.2 j dv n.

Lemma step_ok_same s s' k k' refs : same_ids k k' -> step_ok (s, k, refs) (s', k', refs).
Proof.
  intros Hs Hc. cbn [fst snd] in *. split; [by eapply cache_ok_same|]. intros j dv n _. by apply same_ids_holds.
Qed.

Lemma iget_ok s k refs j s' k' dv n : run h (iget dv n) (s, k) = Ok j (s', k') -> step_ok (s, k, refs) (s', k', j :: refs).
Proof.
  intros Hr Hc. cbn [fst snd] in *. destruct (iget_ids _ _ _ _ _ _ _ _ _ Hr) as (i & Hi & _ & [[Hh ->]|(H0 & Hall & ->)]).
  - split; [|intros m ? ? _; apply upd_ref_holds]. apply (cache_ok_ref k refs); [done|by exists i|..].
    + intros m Hm. cbn [count_occ]. by destruct (Nat.eq_dec j m).
    + intros i' Hi'. rewrite Hi in Hi'. injection Hi' as <-. rewrite (co_count _ _ Hc j i Hi). cbn [count_occ].
      destruct (Nat.eq_dec j j); [|done]. split; [lia|]. unfold hit in Hh. bool_prop.
      rewrite (co_count _ _ Hc j i Hi) in *. lia.
  - assert (Hnin : j ∉ refs).
    { intros Hin%list_elem_of_In. apply (count_occ_In Nat.eq_dec) in Hin. rewrite (co_count _ _ Hc j i Hi) in H0. lia. }
    assert (Hlt : (j < length (icache k))%nat) by (by eapply lookup_lt_Some).
    split.
    + split; cbn [icache].
      * intros m i'. destruct (decide (j = m)) as [<-|Hne].
        -- rewrite list_lookup_insert_eq by done. intros [= <-]. cbn [iref count_occ].
           destruct (Nat.eq_dec j j); [|done]. rewrite (co_count _ _ Hc j i Hi) in H0. lia.
        -- rewrite list_lookup_insert_ne by done. cbn [count_occ]. destruct (Nat.eq_dec j m); [done|]. apply Hc.
      * intros m [->|Hm]%elem_of_cons; [rewrite list_lookup_insert_eq by done; by eexists|].
        rewrite lookup_lt_is_Some, length_insert, <- lookup_lt_is_Some. by apply Hc.
      * intros m m' x x'. rewrite Forall_lookup in Hall.
        destruct (decide (j = m)) as [<-|Hne], (decide (j = m')) as [<-|Hne']; try done;
          rewrite ?list_lookup_insert_eq, ?list_lookup_insert_ne by done.
        -- intros [= <-] Hx' _ Hr' Hd Hn. cbn in Hd, Hn. pose proof (Hall _ _ Hx') as Hf.
           unfold hit in Hf. rewrite !andb_false_iff, Z.ltb_ge, !Z.eqb_neq in Hf. exfalso. intuition congruence || lia.
        -- intros Hx [= <-] Hr' _ Hd Hn. cbn in Hd, Hn. pose proof (Hall _ _ Hx) as Hf.
           unfold hit in Hf. rewrite !andb_false_iff, Z.ltb_ge, !Z.eqb_neq in Hf. exfalso. intuition congruence || lia.
        -- apply Hc.
    + intros m dv' n' Hm (x & Hx & ? & ?). exists x. cbn [icache]. rewrite list_lookup_insert_ne; [done|]. by intros <-.
Qed.

Lemma cstep_ok x y : cstep x y -> step_ok x y.
Proof.
  destruct 1 as [dv n s k refs j s' k' Hr|j s k refs j' s' k' Hin Hr|l1 j l2 s k s' k' Hr| | | | |].
  - by eapply iget_ok.
  - intros Hc. cbn [fst snd] in *. apply idup_ids in Hr as [-> ->]. split; [|intros m ? ? _; apply upd_ref_holds].
    assert (Hpos : (0 < count_occ Nat.eq_dec refs j)%nat) by (by apply (count_occ_In Nat.eq_dec), list_elem_of_In).
    apply (cache_ok_ref k refs); [done|by apply Hc| |].
    + intros m Hm. cbn [count_occ]. by destruct (Nat.eq_dec j m).
    + intros i Hi. rewrite (co_count _ _ Hc j i Hi). cbn [count_occ]. destruct (Nat.eq_dec j j); [lia|done].
  - intros Hc. cbn [fst snd] in *. apply iput_ids in Hr. split.
    + eapply cache_ok_same; [exact Hr|]. apply (cache_ok_ref k (l1 ++ j :: l2)); [done|apply Hc; set_solver|..].
      * intros m Hm. rewrite count_middle. by rewrite decide_False.
      * intros i Hi. rewrite (co_count _ _ Hc j i Hi), count_middle, decide_True by done. lia.
    + intros m dv n _ Hh. eapply same_ids_holds; [exact Hr|]. by apply upd_ref_holds.
  - apply step_ok_same. by eapply keeps_ilock.
  - apply step_ok_same. by eapply keeps_iunlock.
  - apply step_ok_same. by eapply keeps_iupdate.
  - apply step_ok_same. by eapply keeps_readi.
  - apply step_ok_same. by eapply keeps_writei.
Qed.

(** The cache at boot: no references. *)
Definition icache0 k : Prop := Forall (fun i => iref i = 0) (icache k).

Lemma cache_ok_init k : icache0 k -> cache_ok k [].
Proof.
  intros H0. unfold icache0 in H0. rewrite Forall_lookup in H0. split.
  - intros j i Hi. by rewrite (H0 j i Hi).
  - by intros j ?%elem_of_nil.
  - intros j j' i i' Hi Hi' Hr. rewrite (H0 j i Hi) in Hr. lia.
Qed.
End steps.
End icache.

(** C13. However the functions of fs.c are called, starting from an inode
    cache without references, the count of every entry is the number of
    references handed out for it, no two referenced entries hold the same
    inode, and a call never changes which inode an entry that is referenced
    holds: a pointer from [iget] stays valid until its [iput]. *)
Theorem icache_references {E S} (h : forall o, M S (op_ret o)) devread devwrite s (k : fsk E) x :
  (forall m f ip n, devread m = Some f -> keeps same_ids (f ip n)) ->
  (forall m f ip bs, devwrite m = Some f -> keeps same_ids (f ip bs)) ->
  icache0 k -> rtc (cstep h devread devwrite) (s, k, []) x ->
  let '(_, k', refs) := x in
  (forall j i, icache k' !! j = Some i -> iref i = Z.of_nat (count_occ Nat.eq_dec refs j)) /\
  (forall j j' i i', icache k' !! j = Some i -> icache k' !! j' = Some i' -> 0 < iref i -> 0 < iref i' ->
     idev i = idev i' -> inum i = inum i' -> j = j') /\
  (forall y j dv n, cstep h devread devwrite x y -> j ∈ refs -> holds k' j dv n -> holds y.1.2 j dv n).
Proof.
  intros Hrd Hwr H0 Hr.
  assert (Hok : cache_ok x.1.2 x.2).
  { apply (rtc_invariant _ (fun x => cache_ok x.1.2 x.2) _ _) with (2 := Hr); [|by apply cache_ok_init].
    intros y z Hy Hst. by apply (cstep_ok h devread devwrite Hrd Hwr y z Hst). }
  destruct x as [[s' k'] refs]. cbn [fst snd] in *. split_and!; [apply Hok..|].
  intros y j dv n Hst Hj Hh. by apply (cstep_ok h devread devwrite Hrd Hwr _ y Hst Hok).
Qed.

(** Two references to one inode, one of them dropped. *)
Definition demo_icache : fsk unit := FsK (replicate NINODE inode0) tt.
Definition demo_h (o : op) : M unit (op_ret o) := match o with OBread _ _ => fun s => Ok [] s | _ => fun s => Ok tt s end.

Lemma icache_references_witness :
  exists k' i, rtc (cstep demo_h (fun _ => None) (fun _ => None)) (tt, demo_icache, []) (tt, k', [0%nat]) /\
    icache k' !! 0%nat = Some i /\ idev i = 1 /\ inum i = 7 /\ iref i = Z.of_nat (count_occ Nat.eq_dec [0%nat] 0%nat).
Proof.
  assert (Hr : exists k', rtc (cstep demo_h (fun _ => None) (fun _ => None)) (tt, demo_icache, []) (tt, k', [0%nat]) /\
    exists i, icache k' !! 0%nat = Some i /\ idev i = 1 /\ inum i = 7).
  { eexists. split.
    - eapply rtc_l; [apply (cs_iget _ _ _ 1 7); vm_compute; reflexivity|].
      eapply rtc_l; [apply (cs_idup _ _ _ 0%nat); [set_solver|vm_compute; reflexivity]|].
      eapply rtc_l; [apply (cs_iput _ _ _ [] 0%nat [0%nat]); vm_compute; reflexivity|]. apply rtc_refl.
    - vm_compute. by eexists. }
  destruct Hr as (k' & Hr & i & Hi & Hd & Hn). exists k', i. split_and!; try done.
  refine (proj1 (icache_references demo_h (fun _ => None) (fun _ => None) tt demo_icache (tt, k', [0%nat]) _ _ _ Hr) 0%nat i Hi);
    [done|done|]. vm_compute. repeat constructor.
Defined.
