(* ===== verification/FsDir.v ===== *)
(** * Directories and path names

    [dirlookup], [dirlink] and [skipelem] of Fs.v against the meaning of a
    directory: a file that is a list of 16-byte entries. *)

From stdpp Require Import base numbers list gmap strings.
From Stdlib Require Import ZArith Lia.
From S2P Require Import Prelude Disk Bio Log Blk Fs FsSpec Icache.

Local Open Scope Z_scope.
Local Open Scope prog_scope.

(** ** Names *)

(** The C string in the first [n] bytes of a buffer. *)
Fixpoint cname (n : nat) (s : list Z) : list Z :=
  match n, s with
  | S n', c :: s' => if c =? 0 then [] else c :: cname n' s'
  | _, _ => []
  end.

Lemma strncmp_zero n : forall s t, strncmp n s t = 0 <-> cname n s = cname n t.
Proof.
  induction n as [|n IH]; intros s t; [done|]. cbn [strncmp cname].
  destruct s as [|c s], t as [|d t]; cbn [head tail default negb andb Z.eqb from_option id]; [done| | |].
  - destruct (Z.eqb_spec d 0); split; intros; (lia || congruence || done).
  - destruct (Z.eqb_spec c 0) as [->|]; cbn [negb andb]; split; intros; (lia || congruence || done).
  - destruct (Z.eqb_spec c 0) as [->|Hc]; cbn [negb andb].
    + destruct (Z.eqb_spec d 0) as [->|]; split; intros; (lia || congruence || done).
    + destruct (Z.eqb_spec c d) as [->|Hn].
      * destruct (Z.eqb_spec d 0); [done|]. rewrite IH. split; [by intros ->|by intros [= ->]].
      * destruct (Z.eqb_spec d 0); split; intros; (lia || congruence || done).
Qed.

(** A name as [skipelem] makes it. *)
Definition name_ok (name : list Z) : Prop :=
  name <> [] /\ (length name <= 14)%nat /\ Forall (fun c => 0 < c < 256) name.

Lemma cname_pad name : Forall (fun c => 0 < c < 256) name -> forall n m,
  cname n (take n (name ++ replicate m 0)) = take n name.
Proof.
  induction 1 as [|c name Hc Hn IH]; intros n m.
  - destruct n, m; done.
  - destruct n; [done|]. cbn [app take cname]. destruct (Z.eqb_spec c 0); [lia|]. by rewrite IH.
Qed.

Lemma cname_id name : Forall (fun c => 0 < c < 256) name -> forall n, cname n name = take n name.
Proof.
  induction 1 as [|c name Hc Hn IH]; intros n; [by destruct n|].
  destruct n; [done|]. cbn [take cname]. destruct (Z.eqb_spec c 0); [lia|]. by rewrite IH.
Qed.

(** ** Entries *)

Definition entry (c : list Z) (off : Z) : list Z := slice (Z.to_nat off) 16 c.

(** An entry in use whose name, up to its NUL, is [name] cut to 14 bytes. *)
Definition matches (name c : list Z) (off : Z) : bool :=
  negb (de_inum (entry c off) =? 0) && bool_decide (cname 14 name = cname 14 (de_name (entry c off))).

(** [namecmp] compares names in that sense. *)
Lemma namecmp_zero s t : (namecmp s t =? 0) = bool_decide (cname 14 s = cname 14 t).
Proof.
  apply eq_true_iff_eq. rewrite Z.eqb_eq, bool_decide_eq_true. apply (strncmp_zero 14).
Qed.

(** The first of [n] entries from [off] on that has the name. *)
Fixpoint find_from (n : nat) (name c : list Z) (off : Z) : option Z :=
  match n with
  | O => None
  | S n' => if matches name c off then Some off else find_from n' name c (off + DIRENT)
  end.

(** The first free one, or the end. *)
Fixpoint free_from (n : nat) (c : list Z) (off : Z) : Z :=
  match n with
  | O => off
  | S n' => if de_inum (entry c off) =? 0 then off else free_from n' c (off + DIRENT)
  end.

Definition entries (c : list Z) : nat := (length c / 16)%nat.
Definition dir_find (name c : list Z) : option Z := find_from (entries c) name c 0.
(** The inode number a directory has for a name. *)
Definition dir_inum (name c : list Z) : option Z := (fun off => de_inum (entry c off)) <$> dir_find name c.
Definition dir_slot (c : list Z) : Z := free_from (entries c) c 0.

(** A directory's contents after [dirlink]. *)
Definition dir_add (name : list Z) (n : Z) (c : list Z) : list Z :=
  splice (Z.to_nat (dir_slot c)) (dirent_bytes name n) c.

Lemma length_dirent name n : length (dirent_bytes name n) = 16%nat.
Proof. unfold dirent_bytes. rewrite length_app, length_le_enc, length_take, length_app, length_replicate. lia. Qed.

Lemma dirent_inum name n : 0 <= n < 65536 -> de_inum (dirent_bytes name n) = n.
Proof.
  intros Hn. unfold de_inum, get_le, dirent_bytes, slice. rewrite drop_0, take_app_le, take_ge by (rewrite length_le_enc; lia).
  rewrite le_dec_enc. by apply Z.mod_small.
Qed.

Lemma dirent_name name n : de_name (dirent_bytes name n) = take 14 (name ++ replicate 14 0).
Proof.
  unfold de_name, slice, dirent_bytes. rewrite drop_app_length' by (by rewrite length_le_enc).
  rewrite take_ge; [done|]. rewrite length_take. lia.
Qed.

Lemma free_from_spec c : forall n off, exists j, (j <= n)%nat /\ free_from n c off = off + DIRENT * Z.of_nat j /\
  (forall m, (m < j)%nat -> de_inum (entry c (off + DIRENT * Z.of_nat m)) <> 0) /\
  ((j < n)%nat -> de_inum (entry c (off + DIRENT * Z.of_nat j)) = 0).
Proof.
  induction n as [|n IH]; intros off; cbn [free_from].
  { exists 0%nat. split_and!; [lia|unfold DIRENT; lia|lia|lia]. }
  destruct (Z.eqb_spec (de_inum (entry c off)) 0) as [H0|H0].
  { exists 0%nat. rewrite Z.mul_0_r, Z.add_0_r. split_and!; [lia|done|lia|done]. }
  destruct (IH (off + DIRENT)) as (j & Hj & -> & H1 & H2). exists (S j). split_and!; [lia|unfold DIRENT; lia| |].
  - intros [|m] Hm; [by rewrite Z.mul_0_r, Z.add_0_r|].
    replace (off + DIRENT * Z.of_nat (S m)) with (off + DIRENT + DIRENT * Z.of_nat m) by (unfold DIRENT; lia). apply H1. lia.
  - intros Hlt. replace (off + DIRENT * Z.of_nat (S j)) with (off + DIRENT + DIRENT * Z.of_nat j) by (unfold DIRENT; lia).
    apply H2. lia.
Qed.

(** Lookups in two directories that agree on what matches. *)
Lemma find_from_ext name c c' : forall n off,
  (forall m, (m < n)%nat -> matches name c (off + DIRENT * Z.of_nat m) = matches name c' (off + DIRENT * Z.of_nat m)) ->
  find_from n name c off = find_from n name c' off.
Proof.
  induction n as [|n IH]; intros off Hm; [done|]. cbn [find_from].
  pose proof (Hm 0%nat ltac:(lia)) as H0. rewrite Z.mul_0_r, Z.add_0_r in H0. rewrite H0.
  case_match; [done|]. apply IH. intros m Hlt.
  replace (off + DIRENT + DIRENT * Z.of_nat m) with (off + DIRENT * Z.of_nat (S m)) by (unfold DIRENT; lia). apply Hm. lia.
Qed.

Lemma find_from_some name c : forall n off r, find_from n name c off = Some r ->
  exists j, (j < n)%nat /\ r = off + DIRENT * Z.of_nat j /\ matches name c r = true.
Proof.
  induction n as [|n IH]; intros off r; cbn [find_from]; [done|]. destruct (matches name c off) eqn:Em.
  - intros [= <-]. exists 0%nat. split_and!; [lia|unfold DIRENT; lia|done].
  - intros H. apply IH in H as (j & Hj & -> & Hm). exists (S j). split_and!; [lia|unfold DIRENT; lia|].
    done.
Qed.

Lemma find_from_none name c : forall n off,
  find_from n name c off = None <-> forall m, (m < n)%nat -> matches name c (off + DIRENT * Z.of_nat m) = false.
Proof.
  induction n as [|n IH]; intros off; cbn [find_from]; [split; [lia|done]|].
  destruct (matches name c off) eqn:Em.
  - split; [done|]. intros H. specialize (H 0%nat ltac:(lia)). rewrite Z.mul_0_r, Z.add_0_r in H. congruence.
  - rewrite IH. split.
    + intros H [|m] Hm; [by rewrite Z.mul_0_r, Z.add_0_r|].
      replace (off + DIRENT * Z.of_nat (S m)) with (off + DIRENT + DIRENT * Z.of_nat m) by (unfold DIRENT; lia). apply H. lia.
    + intros H m Hm.
      replace (off + DIRENT + DIRENT * Z.of_nat m) with (off + DIRENT * Z.of_nat (S m)) by (unfold DIRENT; lia). apply H. lia.
Qed.

Lemma splice_end {A} (bs d : list A) : splice (length d) bs d = d ++ bs.
Proof. unfold splice. rewrite take_ge by lia. by rewrite drop_ge, app_nil_r by lia. Qed.

(** The entries after a new one has been put at the [j]-th place. *)
Lemma entry_splice c e j m : (length c mod 16 = 0)%nat -> length e = 16%nat -> (j <= entries c)%nat -> (m <= entries c)%nat ->
  (m < entries c \/ j = entries c)%nat ->
  entry (splice (16 * j) e c) (0 + DIRENT * Z.of_nat m) =
  if decide (m = j) then e else entry c (0 + DIRENT * Z.of_nat m).
Proof.
  intros Hc He Hj Hm Hmj. unfold entries in *. unfold entry, DIRENT.
  replace (Z.to_nat (0 + 16 * Z.of_nat m)) with (16 * m)%nat by lia.
  assert (Hlen : (length c = 16 * (length c / 16))%nat) by (pose proof (Nat.div_mod_eq (length c) 16); lia).
  destruct (decide (j < length c / 16)%nat) as [Hlt|Hge].
  - case_decide as Hd; [subst; apply slice_splice_same; lia|]. apply slice_splice_disj; lia.
  - replace j with (length c / 16)%nat in * by lia. rewrite <- Hlen. rewrite splice_end. unfold slice.
    case_decide as Hd.
    + subst m. rewrite <- Hlen, drop_app_length, take_ge by lia. done.
    + rewrite drop_app_le by lia. rewrite take_app_le by (rewrite length_drop; lia). done.
Qed.

Lemma entries_splice c e j : (length c mod 16 = 0)%nat -> length e = 16%nat -> (j <= entries c)%nat ->
  entries (splice (16 * j) e c) = if decide (j = entries c) then S (entries c) else entries c.
Proof.
  intros Hc He Hj. unfold entries in *.
  assert (Hlen : (length c = 16 * (length c / 16))%nat) by (pose proof (Nat.div_mod_eq (length c) 16); lia).
  case_decide as Hd.
  - subst j. rewrite <- Hlen, splice_end, length_app, He.
    replace (length c + 16)%nat with (length c + 1 * 16)%nat by lia. rewrite Nat.div_add by lia. lia.
  - rewrite length_splice; [done|]. lia.
Qed.

Lemma dir_slot_spec c : exists j, (j <= entries c)%nat /\ dir_slot c = DIRENT * Z.of_nat j /\
  ((j < entries c)%nat -> de_inum (entry c (0 + DIRENT * Z.of_nat j)) = 0).
Proof. destruct (free_from_spec c (entries c) 0) as (j & ? & ? & ? & ?). by exists j. Qed.

Lemma find_from_skip name c : forall n j off, (j < n)%nat ->
  (forall m, (m < j)%nat -> matches name c (off + DIRENT * Z.of_nat m) = false) ->
  matches name c (off + DIRENT * Z.of_nat j) = true ->
  find_from n name c off = Some (off + DIRENT * Z.of_nat j).
Proof.
  induction n as [|n IH]; intros j off Hj Hm Hj'; [lia|]. cbn [find_from]. destruct j as [|j].
  - rewrite Z.mul_0_r, Z.add_0_r in *. by rewrite Hj'.
  - pose proof (Hm 0%nat ltac:(lia)) as H0. rewrite Z.mul_0_r, Z.add_0_r in H0. rewrite H0.
    assert (He : forall m, off + DIRENT * Z.of_nat (S m) = off + DIRENT + DIRENT * Z.of_nat m) by (unfold DIRENT; lia).
    rewrite He in *. apply IH; [lia| |done]. intros m Hlt. rewrite <- He. apply Hm. lia.
Qed.

Lemma find_from_more name c n off : find_from (S n) name c off =
  match find_from n name c off with
  | Some r => Some r
  | None => if matches name c (off + DIRENT * Z.of_nat n) then Some (off + DIRENT * Z.of_nat n) else None
  end.
Proof.
  revert off. induction n as [|n IH]; intros off.
  - cbn [find_from]. by rewrite Z.mul_0_r, Z.add_0_r.
  - cbn [find_from] in *. destruct (matches name c off); [done|]. rewrite IH.
    by replace (off + DIRENT + DIRENT * Z.of_nat n) with (off + DIRENT * Z.of_nat (S n)) by (unfold DIRENT; lia).
Qed.

(** The new name is found, and every other name as before. *)
Lemma dir_add_same name n c : name_ok name -> 0 < n < 65536 -> (length c mod 16 = 0)%nat -> dir_find name c = None ->
  dir_inum name (dir_add name n c) = Some n.
Proof.
  intros (Hne & Hlen & Hch) Hn Hc Hnone. destruct (dir_slot_spec c) as (j & Hj & Hs & Hfree).
  unfold dir_inum, dir_find, dir_add in *. rewrite Hs.
  replace (Z.to_nat (DIRENT * Z.of_nat j)) with (16 * j)%nat by (unfold DIRENT; lia).
  pose proof (length_dirent name n) as He. rewrite entries_splice by done.
  assert (Hent : forall m, (m <= j)%nat -> entry (splice (16 * j) (dirent_bytes name n) c) (0 + DIRENT * Z.of_nat m) =
    if decide (m = j) then dirent_bytes name n else entry c (0 + DIRENT * Z.of_nat m)).
  { intros m Hm. apply entry_splice; (done || lia). }
  rewrite (find_from_skip name _ _ j 0).
  - cbn [fmap option_fmap option_map]. rewrite (Hent j), decide_True by lia. rewrite dirent_inum by lia. done.
  - case_decide; lia.
  - intros m Hm. unfold matches. rewrite (Hent m), decide_False by lia.
    rewrite find_from_none in Hnone. apply Hnone. lia.
  - unfold matches. rewrite (Hent j), decide_True by lia. rewrite dirent_inum, dirent_name by lia.
    apply andb_true_iff. split; [apply negb_true_iff, Z.eqb_neq; lia|]. apply bool_decide_eq_true.
    by rewrite cname_pad, cname_id.
Qed.

Lemma dir_add_other name name' n c : name_ok name -> 0 < n < 65536 -> (length c mod 16 = 0)%nat ->
  cname 14 name' <> cname 14 name -> dir_inum name' (dir_add name n c) = dir_inum name' c.
Proof.
  intros (Hne & Hlen & Hch) Hn Hc Hdiff. destruct (dir_slot_spec c) as (j & Hj & Hs & Hfree).
  unfold dir_inum, dir_find, dir_add. rewrite Hs.
  replace (Z.to_nat (DIRENT * Z.of_nat j)) with (16 * j)%nat by (unfold DIRENT; lia).
  pose proof (length_dirent name n) as He. rewrite entries_splice by done.
  set (c' := splice (16 * j) (dirent_bytes name n) c).
  assert (Hent : forall m, (m < entries c \/ j = entries c)%nat -> (m <= entries c)%nat ->
    entry c' (0 + DIRENT * Z.of_nat m) =
    if decide (m = j) then dirent_bytes name n else entry c (0 + DIRENT * Z.of_nat m)).
  { intros m Hm Hm'. apply entry_splice; (done || lia). }
  assert (Hnew : forall m, m = j -> (m < entries c \/ j = entries c)%nat -> matches name' c' (0 + DIRENT * Z.of_nat m) = false).
  { intros m -> Hm. unfold matches. rewrite (Hent j), decide_True by (done || lia).
    rewrite dirent_inum, dirent_name by lia. apply andb_false_iff. right. apply bool_decide_eq_false.
    rewrite cname_pad by done. rewrite <- cname_id by done. done. }
  assert (Hsame : find_from (entries c) name' c' 0 = find_from (entries c) name' c 0).
  { apply find_from_ext. intros m Hm. destruct (decide (m = j)) as [->|Hmj].
    - rewrite Hnew by (done || lia). symmetry. unfold matches. rewrite Hfree by lia. done.
    - unfold matches. by rewrite (Hent m), decide_False by lia. }
  assert (Hfind : find_from (if decide (j = entries c) then S (entries c) else entries c) name' c' 0 =
    find_from (entries c) name' c 0).
  { case_decide as Hd; [|done]. rewrite find_from_more, Hsame.
    destruct (find_from (entries c) name' c 0); [done|]. by rewrite Hnew by lia. }
  rewrite Hfind. destruct (find_from (entries c) name' c 0) as [r|] eqn:Er; [|done]. cbn [fmap option_fmap option_map]. f_equal.
  apply find_from_some in Er as (m & Hm & -> & Hmt). rewrite Hent by lia. rewrite decide_False; [done|].
  intros ->. unfold matches in Hmt. rewrite Hfree in Hmt by lia. done.
Qed.

(** ** [dirlookup] and [dirlink] *)

Section dirs.
Context (L : layout) (sb : superblock) {E : Type} (Hgeo : fsgeo L sb).
Context (devread : Z -> option (nat -> Z -> prog (fsk E) (Z * list Z)))
        (devwrite : Z -> option (nat -> list Z -> prog (fsk E) Z)).
Implicit Types (b : bstate) (k : fsk E).

(** A directory: a file of whole entries. *)
Record dir_ok b (d : dinode) : Prop := {
  dk_file : file_ok L sb b d;
  dk_type : d_type d = T_DIR;
  dk_size : d_size d mod DIRENT = 0
}.

(** The state in which the functions of this section are called. *)
Record dir_state (dp : nat) (i : inode) b k : Prop := {
  ds_ip : icache k !! dp = Some i;
  ds_dev : idev i = ldev L;
  ds_disk : fsdisk L sb b;
  ds_dir : dir_ok b (dino i);
  ds_locked : locked b = ∅;
  ds_dirty : (size (dirties b) <= 9)%nat
}.

Lemma content_entries b d : dir_ok b d ->
  Z.of_nat (entries (content L b d)) = d_size d / DIRENT /\ (length (content L b d) mod 16 = 0)%nat.
Proof.
  intros [H1 H2 H3]. pose proof (length_content L b d (proj1 (fo_size _ _ _ _ H1))) as Hl.
  pose proof (fo_size _ _ _ _ H1) as Hs. unfold entries, DIRENT in *.
  rewrite Nat2Z.inj_div, Hl. split; [done|]. apply Nat2Z.inj. by rewrite Nat2Z.inj_mod, Hl.
Qed.

(** Reading one entry. *)
Lemma wp_entry dp i off b k (Q : Z * list Z -> bstate -> fsk E -> Prop) : dir_state dp i b k ->
  0 <= off -> off mod DIRENT = 0 -> off < d_size (dino i) -> Q (DIRENT, entry (content L b (dino i)) off) b k ->
  wp L (readi devread dp off DIRENT) Q b k.
Proof.
  intros [H1 H2 H3 [D1 D2 D3] H5 H6] Ho Hm Hlt HQ. pose proof (fo_size _ _ _ _ D1) as Hs.
  unfold MAXFILE, NDIRECT, NINDIRECT, BSIZE in Hs. unfold DIRENT in *.
  apply (wp_readi L sb Hgeo devread devwrite dp i); try done; [lia|lia|]. cbv zeta.
  replace (16 `min` (d_size (dino i) - off)) with 16 by divlia. exact HQ.
Qed.

Lemma wp_dirlookup_loop dp i name b k (Q : option (nat * Z) -> bstate -> fsk E -> Prop) : dir_state dp i b k ->
  let c := content L b (dino i) in
  forall n off fuel, 0 <= off -> off mod DIRENT = 0 -> off + DIRENT * Z.of_nat n = d_size (dino i) -> (n < fuel)%nat ->
  match find_from n name c off with
  | None => Q None b k
  | Some r => wp L (iget (idev i) (de_inum (entry c r))) (fun ip b k => Q (Some (ip, r)) b k) b k
  end ->
  wp L (dirlookup_loop devread fuel dp name off) Q b k.
Proof.
  intros Hd c. induction n as [|n IH]; intros off fuel Ho Hm Hend Hf HQ;
    (destruct fuel as [|f]; [lia|]); cbn [dirlookup_loop]; apply wp_bind, (wp_getip L dp i); try apply Hd.
  - destruct (Z.ltb_spec off (d_size (dino i))); [unfold DIRENT in *; lia|]. by apply wp_ret.
  - destruct (Z.ltb_spec off (d_size (dino i))); [|unfold DIRENT in *; lia].
    apply wp_bind, (wp_entry dp i); try done. rewrite Z.eqb_refl. cbn [negb]. fold c.
    assert (Hnext : match find_from n name c (off + DIRENT) with
      | None => Q None b k
      | Some r => wp L (iget (idev i) (de_inum (entry c r))) (fun ip b k => Q (Some (ip, r)) b k) b k
      end -> wp L (dirlookup_loop devread f dp name (off + DIRENT)) Q b k).
    { apply IH; unfold DIRENT in *; (lia || divlia). }
    cbn [find_from] in HQ. unfold matches in HQ. destruct (Z.eqb_spec (de_inum (entry c off)) 0); [by apply Hnext|].
    cbn [negb andb] in HQ. rewrite <- namecmp_zero in HQ. destruct (namecmp name (de_name (entry c off)) =? 0); [|by apply Hnext].
    by apply wp_bind.
Qed.

Lemma wp_dirlookup dp i name b k (Q : option (nat * Z) -> bstate -> fsk E -> Prop) : dir_state dp i b k ->
  let c := content L b (dino i) in
  match dir_find name c with
  | None => Q None b k
  | Some r => wp L (iget (idev i) (de_inum (entry c r))) (fun ip b k => Q (Some (ip, r)) b k) b k
  end ->
  wp L (dirlookup devread dp name) Q b k.
Proof.
  intros Hd c HQ. pose proof (ds_dir _ _ _ _ Hd) as Hdir. destruct (content_entries _ _ Hdir) as [He _].
  pose proof (fo_size _ _ _ _ (dk_file _ _ Hdir)) as Hs. pose proof (dk_size _ _ Hdir) as Hm.
  unfold dirlookup. apply wp_bind, (wp_getip L dp i); [apply Hd|]. rewrite (dk_type _ _ Hdir). rewrite Z.eqb_refl. cbn [negb].
  apply (wp_dirlookup_loop dp i name b k Q Hd (entries c)); try done.
  - unfold c. rewrite He. unfold DIRENT in *. divlia.
  - unfold dir_fuel. fold c in He. unfold DIRENT in *. divlia.
Qed.

Lemma wp_dirlink_scan dp i b k (Q : Z -> bstate -> fsk E -> Prop) : dir_state dp i b k ->
  let c := content L b (dino i) in
  forall n off fuel, 0 <= off -> off mod DIRENT = 0 -> off + DIRENT * Z.of_nat n = d_size (dino i) -> (n < fuel)%nat ->
  Q (free_from n c off) b k -> wp L (dirlink_scan devread fuel dp off) Q b k.
Proof.
  intros Hd c. induction n as [|n IH]; intros off fuel Ho Hm Hend Hf HQ;
    (destruct fuel as [|f]; [lia|]); cbn [dirlink_scan]; apply wp_bind, (wp_getip L dp i); try apply Hd.
  - destruct (Z.ltb_spec off (d_size (dino i))); [unfold DIRENT in *; lia|]. by apply wp_ret.
  - destruct (Z.ltb_spec off (d_size (dino i))); [|unfold DIRENT in *; lia].
    apply wp_bind, (wp_entry dp i); try done. rewrite Z.eqb_refl. cbn [negb]. fold c.
    cbn [free_from] in HQ. destruct (Z.eqb_spec (de_inum (entry c off)) 0); [by apply wp_ret|].
    apply IH; unfold DIRENT in *; (lia || divlia || done).
Qed.

(** [dirlink] of a name that is not there adds an entry. *)
Lemma wp_dirlink dp i name n b k (Q : Z -> bstate -> fsk E -> Prop) : dir_state dp i b k ->
  let c := content L b (dino i) in
  0 <= inum i < sb_ninodes sb -> dinode_ok (dino i) -> dir_find name c = None ->
  dir_slot c + DIRENT <= MAXFILE * Z.of_nat BSIZE ->
  room b (sum_list_with (price L b (dino i)) (blocks (dir_slot c) DIRENT) + 1) ->
  avail L sb b (sum_list_with (lack L b (dino i)) (blocks (dir_slot c) DIRENT)) ->
  (forall b' d', written L sb b i b' d' (dir_slot c) (dirent_bytes name n) -> Q 0 b' (kset dp d' k)) ->
  wp L (dirlink devread devwrite dp name n) Q b k.
Proof.
  intros Hd c Hn Hok Hnone Hmax Hr Hav HQ. pose proof (ds_dir _ _ _ _ Hd) as Hdir.
  destruct (content_entries _ _ Hdir) as [He _]. pose proof (dk_size _ _ Hdir) as Hm.
  pose proof (fo_size _ _ _ _ (dk_file _ _ Hdir)) as Hs.
  unfold dirlink. apply wp_bind, (wp_dirlookup dp i); [done|]. fold c. rewrite Hnone.
  apply wp_bind, (wp_getip L dp i); [apply Hd|].
  apply wp_bind, (wp_dirlink_scan dp i b k _ Hd (entries c)); try done.
  { unfold c. rewrite He. unfold DIRENT in *. divlia. }
  { unfold dir_fuel. fold c in He. unfold DIRENT in *. divlia. }
  change (free_from (entries c) (content L b (dino i)) 0) with (dir_slot c).
  destruct (dir_slot_spec c) as (j & Hj & Hsl & _). fold c in He.
  assert (Hlen : Z.of_nat (length (dirent_bytes name n)) = DIRENT) by (by rewrite length_dirent).
  apply wp_bind, (wp_writei L sb Hgeo devwrite dp i); try apply Hd; try done.
  - rewrite Hsl. unfold DIRENT in *. divlia.
  - by rewrite Hlen.
  - by rewrite Hlen.
  - by rewrite Hlen.
  - intros b' d' Hw. rewrite Hlen, Z.eqb_refl. cbn [negb]. apply wp_ret. by apply HQ.
Qed.
End dirs.

(** ** Paths *)

(** The pieces of a path between its slashes, and those that are not empty. *)
Fixpoint split_path (path : list Z) : list (list Z) :=
  match path with
  | [] => [[]]
  | c :: p =>
      if c =? slash then [] :: split_path p
      else match split_path p with x :: xs => (c :: x) :: xs | [] => [[c]] end
  end.

Definition elements (path : list Z) : list (list Z) := filter (.≠ []) (split_path path).

(** The names [skipelem] yields, called until it returns 0. *)
Fixpoint walk (fuel : nat) (path : list Z) : option (list (list Z)) :=
  match fuel with
  | O => None
  | S f =>
      match skipelem path with
      | None => Some []
      | Some (name, rest) => x ← walk f rest; Some (name :: x)
      end
  end.

Lemma split_path_cons p : exists x xs, split_path p = x :: xs.
Proof. destruct p as [|c p]; cbn [split_path]; [eauto|]. destruct (c =? slash); [eauto|]. destruct (split_path p); eauto. Qed.

Lemma elements_skip p : elements (skip_slashes p) = elements p.
Proof.
  induction p as [|c p IH]; [done|]. cbn [skip_slashes]. destruct (c =? slash) eqn:Ec; [|done].
  rewrite IH. unfold elements. cbn [split_path]. rewrite Ec. by rewrite filter_cons_False by (by intros []).
Qed.

Lemma path_elem_spec p : forall s r, path_elem p = (s, r) -> p = s ++ r /\
  elements p = (if decide (s = []) then elements r else s :: elements r) /\
  (s = [] -> p = [] \/ exists p', p = slash :: p').
Proof.
  assert (Hgen : forall p s r, path_elem p = (s, r) -> p = s ++ r /\
    exists xs, split_path p = s :: xs /\ elements r = filter (.≠ []) xs).
  { clear p. induction p as [|c p IH]; intros s r; cbn [path_elem].
    - intros [= <- <-]. split; [done|]. exists []. done.
    - destruct (c =? slash) eqn:Ec.
      + intros [= <- <-]. split; [done|]. cbn [split_path]. rewrite Ec. eexists. split; [done|].
        unfold elements. cbn [split_path]. rewrite Ec. by rewrite filter_cons_False by (by intros []).
      + destruct (path_elem p) as [s' r'] eqn:Ep. intros [= <- <-]. destruct (IH _ _ eq_refl) as (-> & xs & Hx & Hr).
        split; [done|]. exists xs. cbn [split_path]. rewrite Ec, Hx. done. }
  intros s r H. destruct (Hgen _ _ _ H) as (-> & xs & Hx & Hr). split_and!; [done| |].
  - unfold elements at 1. rewrite Hx. case_decide as Hs.
    + subst. by rewrite filter_cons_False by (by intros []).
    + by rewrite filter_cons_True, Hr.
  - intros ->. destruct r as [|c r]; [by left|right]. cbn [app path_elem] in H.
    destruct (Z.eqb_spec c slash) as [->|]; [by eexists|]. by destruct (path_elem r).
Qed.

Lemma skip_slashes_head p : match skip_slashes p with c :: _ => c <> slash | [] => True end /\
  (length (skip_slashes p) <= length p)%nat.
Proof.
  induction p as [|c p [IH1 IH2]]; [done|]. cbn [skip_slashes]. destruct (Z.eqb_spec c slash); [|done].
  split; [done|]. cbn [length]. lia.
Qed.

Lemma walk_elements : forall fuel p, (length p < fuel)%nat ->
  walk fuel p = Some ((fun s => take 14 s) <$> elements p).
Proof.
  induction fuel as [|f IH]; intros p Hl; [lia|]. cbn [walk]. unfold skipelem.
  destruct (skip_slashes_head p) as [Hh Hle]. rewrite <- (elements_skip p).
  destruct (skip_slashes p) as [|c q] eqn:Eq; [done|].
  destruct (path_elem (c :: q)) as [s r] eqn:Ep. destruct (path_elem_spec _ _ _ Ep) as (Happ & Hel & Hs).
  rewrite Hel. case_decide as Hd.
  { exfalso. destruct (Hs Hd) as [?|[? [= ? _]]]; done. }
  assert (Hlr : (length r < length (c :: q))%nat).
  { rewrite Happ, length_app. destruct s; [done|]. cbn [length]. lia. }
  destruct (skip_slashes_head r) as [_ Hler].
  rewrite IH by lia. rewrite elements_skip. cbn [fmap list_fmap]. simpl. do 2 f_equal.
  change (Z.to_nat DIRSIZ) with 14%nat. destruct (Z.leb_spec DIRSIZ (Z.of_nat (length s))); [done|].
  unfold DIRSIZ in *. by rewrite take_ge by lia.
Qed.

(** ** The promises *)

(** C14. [skipelem], called until it returns 0, yields exactly the non-empty
    pieces of the path between its slashes, in order, each cut to 14 bytes;
    it does so within one call more than the path has characters. *)
Theorem path_elements path : walk (S (length path)) path = Some ((fun s => take 14 s) <$> elements path).
Proof. apply walk_elements. lia. Qed.

Lemma wp_iget L {E} dv n b (k : fsk E) (Q : nat -> bstate -> fsk E -> Prop) :
  Exists (fun i => iref i = 0) (icache k) ->
  (forall j k', referenced k k' j dv n -> Q j b k') -> wp L (iget dv n) Q b k.
Proof.
  intros He HQ. unfold wp. destruct (run (block_op L) (iget dv n) (b, k)) as [j [b' k']|msg|c s] eqn:Er.
  - destruct (iget_referenced _ _ _ _ _ _ _ _ _ Er) as [-> Hj]. by apply HQ.
  - unfold iget in Er. cbn [run fst snd] in Er. pose proof (iget_scan_spec dv n (icache k) 0 None) as Hs.
    destruct (iget_scan (icache k) 0 dv n None) as [[r|]|[r|]]; try done.
    + destruct Hs as (? & ? & [=] & _).
    + destruct Hs as [_ [[_ Hall]|(? & ? & [=] & _)]]. specialize (Hall eq_refl).
      apply Exists_exists in He as (i & Hi & H0). rewrite Forall_forall in Hall. by apply (Hall i Hi).
  - unfold iget in Er. cbn [run fst snd] in Er. by destruct (iget_scan (icache k) 0 dv n None) as [[r|]|[r|]].
Qed.

(** C12. [dirlookup] finds the first entry of the directory with the name and
    gives a reference to the inode it names, and returns 0 exactly when there
    is none.  The reference is counted: the cache entry returned has the
    inode, with a count one higher than before, an entry that was free
    being taken only when no other has the inode; every other entry and the
    file system are unchanged. *)
Theorem dirlookup_spec L sb {E} devread dp i name b (k : fsk E) : fsgeo L sb -> dir_state L sb dp i b k ->
  Exists (fun i => iref i = 0) (icache k) ->
  let c := content L b (dino i) in
  exists r k', run (block_op L) (dirlookup devread dp name) (b, k) = Ok r (b, k') /\
    match r with
    | None => dir_find name c = None /\ k' = k
    | Some (j, off) => dir_find name c = Some off /\ referenced k k' j (idev i) (de_inum (entry c off))
    end.
Proof.
  intros Hgeo Hd Hfree c.
  assert (Hw : wp L (dirlookup devread dp name) (fun r b' k' => b' = b /\ match r with
    | None => dir_find name c = None /\ k' = k
    | Some (j, off) => dir_find name c = Some off /\ referenced k k' j (idev i) (de_inum (entry c off))
    end) b k).
  { apply (wp_dirlookup L sb Hgeo devread (fun _ => None) dp i name b k _ Hd). fold c. destruct (dir_find name c) as [r|] eqn:Er; [|done].
    apply wp_iget; [done|]. intros j k' Hh. done. }
  apply wp_run in Hw as (r & b' & k' & Hr & -> & Hm). by exists r, k'.
Qed.

(** C11. [dirlink] of a name that a directory does not have returns 0; the
    directory then has the inode number for the name, and for every other
    name what it had before, whether the new entry reuses a free one or makes
    the directory longer. *)
Theorem dirlink_spec L sb {E} devread devwrite dp i name n b (k : fsk E) : fsgeo L sb -> dir_state L sb dp i b k ->
  let c := content L b (dino i) in
  0 <= inum i < sb_ninodes sb -> dinode_ok (dino i) -> name_ok name -> 0 < n < 65536 -> dir_find name c = None ->
  dir_slot c + DIRENT <= MAXFILE * Z.of_nat BSIZE ->
  room b (sum_list_with (price L b (dino i)) (blocks (dir_slot c) DIRENT) + 1) ->
  avail L sb b (sum_list_with (lack L b (dino i)) (blocks (dir_slot c) DIRENT)) ->
  exists b' d', run (block_op L) (dirlink devread devwrite dp name n) (b, k) = Ok 0 (b', kset dp d' k) /\
    dir_ok L sb b' d' /\ dir_inum name (content L b' d') = Some n /\
    forall name', cname 14 name' <> cname 14 name -> dir_inum name' (content L b' d') = dir_inum name' c.
Proof.
  intros Hgeo Hd c Hn Hok Hname Hnr Hnone Hmax Hr Hav.
  assert (Hw : wp L (dirlink devread devwrite dp name n) (fun r b' k' => r = 0 /\ exists d', k' = kset dp d' k /\
    written L sb b i b' d' (dir_slot c) (dirent_bytes name n)) b k).
  { apply (wp_dirlink L sb Hgeo devread devwrite dp i); try done. intros b' d' Hw. split; [done|]. by exists d'. }
  apply wp_run in Hw as (r & b' & k' & Hrun & -> & d' & -> & Hw). exists b', d'. split; [done|].
  pose proof (ds_dir _ _ _ _ _ _ Hd) as Hdir. destruct (content_entries _ _ _ _ Hdir) as [He Hc].
  assert (Hcont : content L b' d' = dir_add name n c) by (apply (wn_content _ _ _ _ _ _ _ _ Hw)).
  split_and!.
  - destruct (wn_attr _ _ _ _ _ _ _ _ Hw) as (Ht & _). split; [apply Hw|rewrite Ht; apply Hdir|].
    pose proof (wn_file _ _ _ _ _ _ _ _ Hw) as Hf. pose proof (length_content L b' d' (proj1 (fo_size _ _ _ _ Hf))) as Hl.
    rewrite <- Hl, Hcont. unfold dir_add. destruct (dir_slot_spec c) as (j & Hj & -> & _).
    replace (Z.to_nat (DIRENT * Z.of_nat j)) with (16 * j)%nat by (unfold DIRENT; lia).
    unfold splice. rewrite !length_app, length_take, length_drop, length_dirent.
    unfold entries, DIRENT in *. fold c in Hc. pose proof (Nat.div_mod_eq (length c) 16). rewrite Hc in *.
    set (q := (length c / 16)%nat) in *. replace (length c) with (16 * q)%nat by lia. divlia.
  - rewrite Hcont. by apply dir_add_same.
  - intros name' Hne. rewrite Hcont. by apply dir_add_other.
Qed.
