(* ===== verification/FsProps.v ===== *)
(** * The promises of the file system

    Reading and writing files, allocation of blocks, and what can go wrong, on
    the block store of Blk.v; a small file system on which they are
    evaluated. *)

From stdpp Require Import base numbers list gmap strings.
From Stdlib Require Import ZArith Lia.
From S2P Require Import Prelude Disk Bio Log Blk Fs FsSpec Icache FsDir.

Local Open Scope Z_scope.
Local Open Scope prog_scope.

(** ** A small file system

    24 blocks: superblock 1, inodes 2 and 3, bitmap 4, data 5 to 13, log 14 to
    23.  Block 5 holds the directory entry of the name [.] for inode 1. *)
Module Small.

Definition L : layout := Layout 1 14 10.
Definition sb : superblock := SuperBlock 24 9 8 10.
Definition pad (l : list Z) : list Z := l ++ replicate (BSIZE - length l) 0.
Definition sb_block : list Z := pad (le_enc 4 24 ++ le_enc 4 9 ++ le_enc 4 8 ++ le_enc 4 10).
Definition blk (used : Z) (n : Z) : list Z :=
  if n =? 1 then sb_block
  else if n =? 4 then pad (le_enc 3 used)
  else if n =? 5 then pad (dirent_bytes [46] 1)
  else replicate BSIZE 0.

(** The disk, with the bits [used] set in the bitmap, in a transaction. *)
Definition disk (used : Z) : bstate :=
  BState (list_to_map ((fun n => ((1, n), blk used n)) <$> seqZ 0 14)) ∅ ∅ true.
Definition b0 : bstate := disk 63.

(** Inode 1, of 16 bytes. *)
Definition dino1 (type : Z) : dinode := DInode type 0 0 1 16 (5 :: replicate 12 0).
Definition inode1 (type : Z) : inode := Inode 1 1 1 3 (dino1 type).
Definition k0 (type : Z) : fsk unit := FsK (inode1 type :: replicate 49 inode0) tt.

Lemma geo : fsgeo L sb.
Proof. split; vm_compute; repeat split; congruence. Qed.

Lemma seqZ_check (P : Z -> bool) lo n : forallb P (seqZ lo n) = true -> forall m, lo <= m < lo + n -> P m = true.
Proof. intros H m Hm. rewrite forallb_forall in H. apply H, list_elem_of_In, elem_of_seqZ. lia. Qed.

Lemma disk_ok : fsdisk L sb b0.
Proof.
  split.
  - intros n Hn.
    assert (Hc : forallb (fun n => Nat.eqb (length (default [] (img b0 !! (1, n)))) BSIZE) (seqZ 0 14) = true)
      by (vm_compute; reflexivity).
    apply (seqZ_check _ _ _ Hc), Nat.eqb_eq in Hn.
    change (ldev L) with 1. destruct (img b0 !! (1, n)) as [x|]; [by exists x|done].
  - vm_compute. reflexivity.
  - intros n Hn Hu. assert (Hc : forallb (fun n => used L sb b0 n || (5 <=? n)) (seqZ 0 14) = true)
      by (vm_compute; reflexivity).
    apply (seqZ_check _ _ _ Hc) in Hn. rewrite Hu in Hn. apply Z.leb_le in Hn. exact Hn.
Qed.

Lemma places type s : valid s = true -> place L b0 (dino1 type) s = if decide (s = Top 0) then 5 else 0.
Proof.
  induction s as [n|s IH n]; intros Hs.
  - apply valid_top in Hs. cbn [place dino1 d_addrs].
    assert (Hc : forallb (fun n => aget 0 (5 :: replicate 12 0) n =? if decide (Top n = Top 0) then 5 else 0) (seqZ 0 13) = true)
      by (vm_compute; reflexivity).
    by apply (seqZ_check _ _ _ Hc), Z.eqb_eq in Hs.
  - destruct (valid_sub _ _ Hs) as [Hin _]. cbn [place]. rewrite IH by (by apply inner_valid).
    rewrite decide_False by (intros ->; by vm_compute in Hin). done.
Qed.

Lemma file type : type <> T_DEV -> file_ok L sb b0 (dino1 type).
Proof.
  intros Ht. split.
  - split; [done| |].
    + intros s Hs. rewrite places by done. case_decide; [|done]. intros _. split; vm_compute; [split; congruence|reflexivity].
    + intros s s' Hs Hs'. rewrite !places by done. repeat case_decide; congruence.
  - intros bn H0 Hb. replace bn with 0 by (unfold BSIZE in *; cbn in Hb; lia). change (slot_of 0) with (Top 0).
    rewrite places by done. by rewrite decide_True.
  - unfold MAXFILE, NDIRECT, NINDIRECT, BSIZE. simpl. lia.
  - done.
Qed.

Lemma dinode_fit type : - 2 ^ 15 <= type < 2 ^ 15 -> dinode_ok (dino1 type).
Proof. intros Ht. split; cbn [dino1 d_type d_major d_minor d_nlink d_size d_addrs]; try lia; [done|]. repeat constructor; lia. Qed.

Lemma free : avail L sb b0 3.
Proof.
  exists {[6; 7; 8]}. split; [vm_compute; lia|]. intros n Hn.
  assert (n = 6 \/ n = 7 \/ n = 8) as [->|[-> | ->]] by set_solver; split; (simpl; lia) || by vm_compute.
Qed.

Lemma dir : dir_state L sb 0 (inode1 T_DIR) b0 (k0 T_DIR).
Proof. split; [done|done|apply disk_ok| |done|vm_compute; lia]. split; [by apply file|done|done]. Qed.

End Small.

(** ** Files *)

(** C9. [writei] of bytes that fit the file's maximal size, the log and the
    free blocks, at an offset within the file, returns their number.  The
    file's contents are then the old ones with the bytes put in at the offset,
    its inode on the disk agrees with the one in memory when it did before,
    and no other file and no other inode changes.  (The transaction needs one
    sector for the inode, one for a block that is there, and two, five or
    seven for a new block that is direct, indirect or doubly indirect.) *)
Theorem writei_spec L sb {E} devwrite ip i src off b (k : fsk E) : fsgeo L sb ->
  icache k !! ip = Some i -> idev i = ldev L -> 0 <= inum i < sb_ninodes sb -> dinode_ok (dino i) ->
  fsdisk L sb b -> file_ok L sb b (dino i) -> locked b = ∅ -> 0 <= off <= d_size (dino i) ->
  off + Z.of_nat (length src) <= MAXFILE * Z.of_nat BSIZE ->
  room b (sum_list_with (price L b (dino i)) (blocks off (Z.of_nat (length src))) + 1) ->
  avail L sb b (sum_list_with (lack L b (dino i)) (blocks off (Z.of_nat (length src)))) ->
  exists b' d', run (block_op L) (writei devwrite ip src off) (b, k) = Ok (Z.of_nat (length src)) (b', kset ip d' k) /\
    file_ok L sb b' d' /\ content L b' d' = splice (Z.to_nat off) src (content L b (dino i)) /\
    (disk_dinode L b (inum i) = dino i -> disk_dinode L b' (inum i) = d') /\
    (forall m, 0 <= m < sb_ninodes sb -> m <> inum i -> disk_dinode L b' m = disk_dinode L b m) /\
    forall d2, file_ok L sb b d2 -> disjoint_files L b (dino i) d2 ->
      file_ok L sb b' d2 /\ content L b' d2 = content L b d2.
Proof.
  intros Hgeo Hi Hd Hn Hok Hb Hf Hlk Ho Hmax Hr Hav.
  assert (Hw : wp L (writei devwrite ip src off) (fun r b' k' => r = Z.of_nat (length src) /\
    exists d', k' = kset ip d' k /\ written L sb b i b' d' off src) b k).
  { apply (wp_writei L sb Hgeo devwrite ip i); try done. intros b' d' Hw. split; [done|]. by exists d'. }
  apply wp_run in Hw as (r & b' & k' & Hrun & -> & d' & -> & Hw). exists b', d'.
  destruct Hw as [W1 W2 W3 W4 W5 W6 W7 W8 W9]. split_and!; try done.
  intros d2 H1 H2. by destruct (W7 d2 H1 H2) as (? & ? & _).
Qed.

Lemma writei_spec_witness : exists b' d',
  run (block_op Small.L) (writei (fun _ => None) 0 [104; 105] 16) (Small.b0, Small.k0 T_FILE) =
    Ok 2 (b', kset 0 d' (Small.k0 T_FILE)) /\ content Small.L b' d' = content Small.L Small.b0 (Small.dino1 T_FILE) ++ [104; 105].
Proof.
  destruct (writei_spec Small.L Small.sb (fun _ => None) 0 (Small.inode1 T_FILE) [104; 105] 16 Small.b0 (Small.k0 T_FILE))
    as (b' & d' & Hr & _ & Hc & _);
    [apply Small.geo|done|done|simpl; lia|by apply Small.dinode_fit|apply Small.disk_ok|by apply Small.file|done|simpl; lia
    |unfold MAXFILE, NDIRECT, NINDIRECT, BSIZE; simpl; lia|split; [done|vm_compute; lia]|exists ∅; split; [vm_compute; lia|set_solver]|].
  exists b', d'. split; [exact Hr|]. rewrite Hc. vm_compute. reflexivity.
Defined.

(** C10. [readi] at an offset within a file returns the bytes of its
    contents, as many as there are up to the number asked for, and changes
    neither the disk nor the kernel's state. *)
Theorem readi_spec L sb {E} devread ip i off n b (k : fsk E) : fsgeo L sb ->
  icache k !! ip = Some i -> idev i = ldev L -> fsdisk L sb b -> file_ok L sb b (dino i) -> locked b = ∅ ->
  (size (dirties b) <= 9)%nat -> 0 <= off <= d_size (dino i) -> 0 <= n -> off + n < 2 ^ 32 ->
  let m := Z.min n (d_size (dino i) - off) in
  run (block_op L) (readi devread ip off n) (b, k) =
    Ok (m, slice (Z.to_nat off) (Z.to_nat m) (content L b (dino i))) (b, k).
Proof.
  intros Hgeo Hi Hd Hb Hf Hlk Hs Ho Hn Hof m.
  assert (Hw : wp L (readi devread ip off n) (fun r b' k' =>
    r = (m, slice (Z.to_nat off) (Z.to_nat m) (content L b (dino i))) /\ b' = b /\ k' = k) b k).
  { by apply (wp_readi L sb Hgeo devread (fun _ => None) ip i). }
  by apply wp_run in Hw as (r & b' & k' & -> & -> & -> & ->).
Qed.

Lemma readi_spec_witness : exists r,
  run (block_op Small.L) (readi (fun _ => None) 0 2 100) (Small.b0, Small.k0 T_FILE) = Ok (14, r) (Small.b0, Small.k0 T_FILE) /\
  take 2 r = [46; 0].
Proof.
  eexists. split.
  - apply (readi_spec Small.L Small.sb (fun _ => None) 0 (Small.inode1 T_FILE) 2 100 Small.b0 (Small.k0 T_FILE));
      [apply Small.geo|done|done|apply Small.disk_ok|by apply Small.file|done|vm_compute; lia|simpl; lia|lia|lia].
  - vm_compute. reflexivity.
Defined.

(** The error returns of [readi] and [writei] leave disk and kernel as
    they are: an offset beyond the end of the file, an offset and a length
    whose sum overflows 32 bits, a write beyond the maximal file size, and a
    device without a driver. *)
Theorem io_errors {S E} (h : forall o, M S (op_ret o)) devread devwrite ip i off n src s (k : fsk E) :
  icache k !! ip = Some i -> n = Z.of_nat (length src) ->
  (d_type (dino i) = T_DEV /\ (d_major (dino i) < 0 \/ NDEV <= d_major (dino i) \/
     devread (d_major (dino i)) = None /\ devwrite (d_major (dino i)) = None) \/
   d_type (dino i) <> T_DEV /\ (d_size (dino i) < off \/ u32 (off + n) < off) ->
   run h (readi devread ip off n) (s, k) = Ok (-1, []) (s, k) /\
   run h (writei devwrite ip src off) (s, k) = Ok (-1) (s, k)) /\
  (d_type (dino i) <> T_DEV /\ MAXFILE * Z.of_nat BSIZE < u32 (off + n) ->
   run h (writei devwrite ip src off) (s, k) = Ok (-1) (s, k)).
Proof.
  intros Hi ->. unfold readi, writei. rewrite !run_pbind. cbn [getip run fst snd]. rewrite Hi. cbn [default from_option id].
  split.
  - intros [[Ht Hm]|[Ht Ho]].
    + destruct (Z.eqb_spec (d_type (dino i)) T_DEV); [|done].
      destruct (Z.ltb_spec (d_major (dino i)) 0), (Z.leb_spec NDEV (d_major (dino i))); try done.
      destruct Hm as [?|[?|[-> ->]]]; [lia|lia|done].
    + destruct (Z.eqb_spec (d_type (dino i)) T_DEV); [done|].
      destruct (Z.ltb_spec (d_size (dino i)) off), (Z.ltb_spec (u32 (off + Z.of_nat (length src))) off); try done.
      lia.
  - intros [Ht Hm]. destruct (Z.eqb_spec (d_type (dino i)) T_DEV); [done|].
    destruct (_ || _); [done|]. destruct (Z.ltb_spec (MAXFILE * Z.of_nat BSIZE) (u32 (off + Z.of_nat (length src)))); [done|lia].
Qed.

Lemma io_errors_witness :
  run (block_op Small.L) (readi (fun _ => None) 0 17 3) (Small.b0, Small.k0 T_FILE) = Ok (-1, []) (Small.b0, Small.k0 T_FILE).
Proof.
  apply (io_errors (block_op Small.L) (fun _ => None) (fun _ => None) 0 (Small.inode1 T_FILE) 17 3 [1; 2; 3] Small.b0
    (Small.k0 T_FILE)); [done|done|]. right. split; [done|]. left. simpl. lia.
Defined.

(** ** Directories *)

Lemma dirlookup_spec_witness : exists j k',
  run (block_op Small.L) (dirlookup (fun _ => None) 0 [46]) (Small.b0, Small.k0 T_DIR) = Ok (Some (j, 0)) (Small.b0, k') /\
  referenced (Small.k0 T_DIR) k' j 1 1.
Proof.
  destruct (dirlookup_spec Small.L Small.sb (fun _ => None) 0 (Small.inode1 T_DIR) [46] Small.b0 (Small.k0 T_DIR) Small.geo Small.dir)
    as (r & k' & Hr & Hm).
  { apply Exists_exists. exists inode0. split; [|done]. set_solver. }
  destruct r as [[j off]|].
  - destruct Hm as [Hf Hh]. vm_compute in Hf. injection Hf as <-. exists j, k'. split; [exact Hr|]. exact Hh.
  - destruct Hm as [Hf _]. vm_compute in Hf. discriminate Hf.
Defined.

Lemma dirlink_spec_witness : exists b' d',
  run (block_op Small.L) (dirlink (fun _ => None) (fun _ => None) 0 [97; 98] 3) (Small.b0, Small.k0 T_DIR) =
    Ok 0 (b', kset 0 d' (Small.k0 T_DIR)) /\ dir_inum [97; 98] (content Small.L b' d') = Some 3.
Proof.
  destruct (dirlink_spec Small.L Small.sb (fun _ => None) (fun _ => None) 0 (Small.inode1 T_DIR) [97; 98] 3 Small.b0 (Small.k0 T_DIR)
    Small.geo Small.dir) as (b' & d' & Hr & _ & Hi & _);
    [simpl; lia|by apply Small.dinode_fit|split_and!; [done|simpl; lia|repeat constructor]|lia|vm_compute; reflexivity
    |vm_compute; congruence|split; [done|vm_compute; lia]|exists ∅; split; [vm_compute; lia|set_solver]|].
  exists b', d'. split; [exact Hr|exact Hi].
Defined.

(** ** Blocks *)

Section blocks.
Context (L : layout) (sb : superblock) {E : Type} (Hgeo : fsgeo L sb).
Implicit Types (b : bstate) (k : fsk E).

Lemma wp_bfree n b k (Q : unit -> bstate -> fsk E -> Prop) : fsdisk L sb b -> lockok L sb b -> room b 1 ->
  0 <= n < lstart L -> used L sb b n = true ->
  Q tt (setblock L b (bmblock sb n) (clrbit (blockof L b (bmblock sb n)) (n mod BPB))) k -> wp L (bfree (ldev L) n) Q b k.
Proof.
  intros Hb Hl Hr Hn Hu HQ. pose proof (fg_log _ _ Hgeo). pose proof (dstart_lstart L sb Hgeo). pose proof (bmblock_range L sb Hgeo n ltac:(lia)).
  unfold bfree. apply wp_bind, (wp_readsb L sb Hgeo); [done|done|destruct Hr; lia|].
  eapply (wp_modify L sb Hgeo (bmblock sb n) _ _ Ret); [|done|lia| |done| |exact HQ].
  - cbn beta. unfold used in Hu. fold (bmblock sb n). by rewrite Hu.
  - intros [Hk _]%Hl. lia.
  - rewrite length_clrbit. apply (length_blockof L sb); (done || lia).
Qed.

Lemma fsdisk_clrbit n b : fsdisk L sb b -> dstart sb <= n < lstart L ->
  fsdisk L sb (setblock L b (bmblock sb n) (clrbit (blockof L b (bmblock sb n)) (n mod BPB))).
Proof.
  intros Hb Hn. pose proof (fg_log _ _ Hgeo). pose proof (dstart_lstart L sb Hgeo). pose proof (bmblock_range L sb Hgeo n ltac:(lia)).
  apply (fsdisk_bitmap L sb Hgeo); [done|lia|rewrite length_clrbit; apply (length_blockof L sb); (done || lia)|].
  intros m Hm. rewrite (used_clrbit L sb Hgeo) by (done || lia). destruct (decide (n = m)) as [->|Hne]; [right; lia|].
  rewrite bool_decide_false by done. by left.
Qed.

(** A block that is free already. *)
Lemma bfree_free n b k : fsdisk L sb b -> lockok L sb b -> room b 1 -> 0 <= n < lstart L -> used L sb b n = false ->
  run (block_op L) (bfree (ldev L) n) (b, k) = Panic "freeing free block".
Proof.
  intros Hb Hl [Ha Hr] Hn Hu. pose proof (fg_log _ _ Hgeo). pose proof (dstart_lstart L sb Hgeo). pose proof (bmblock_range L sb Hgeo n ltac:(lia)).
  unfold bfree. rewrite run_pbind.
  assert (W1 : wp L (readsb (ldev L)) (fun r b' k' => r = sb /\ b' = b /\ k' = k) b k) by (apply (wp_readsb L sb Hgeo); (done || lia)).
  apply wp_run in W1 as (r & b' & k' & -> & -> & -> & ->). rewrite run_pbind.
  assert (W2 : wp L (bread (ldev L) (bmblock sb n)) (fun r _ _ => r = blockof L b (bmblock sb n)) b k).
  { apply (wp_bread L _ _ (blockof L b (bmblock sb n))); [apply (block_sector L sb); (done || lia)| | |done].
    - intros [Hk _]%Hl. lia.
    - right. pose proof (size_union_le (locked b) (dirties b)). unfold NBUF. lia. }
  apply wp_run in W2 as (r & b' & k' & E2 & ->). fold (bmblock sb n). rewrite E2. unfold used in Hu. by rewrite Hu.
Qed.

End blocks.

(** C15. [balloc] and [bfree] keep the bitmap.  When a data block is free,
    [balloc] returns the lowest one, filled with zeros and marked used, and
    changes no other block but the bitmap, in which every other block stays
    as it was.  [bfree] of it then gives the old bitmap back, and
    [bfree] of it once more panics. *)
Theorem balloc_bfree L sb {E} m b (k : fsk E) : fsgeo L sb -> fsdisk L sb b -> lockok L sb b -> room b 3 ->
  0 <= m < lstart L -> used L sb b m = false ->
  exists n b1 b2, run (block_op L) (balloc (ldev L)) (b, k) = Ok n (b1, k) /\ first_free L sb b n /\ fsdisk L sb b1 /\
    blockof L b1 n = replicate BSIZE 0 /\
    (forall j, 0 <= j < sb_size sb -> used L sb b1 j = bool_decide (n = j) || used L sb b j) /\
    (forall j, j <> n -> j <> bmblock sb n -> blockof L b1 j = blockof L b j) /\
    run (block_op L) (bfree (ldev L) n) (b1, k) = Ok tt (b2, k) /\
    (forall j, 0 <= j < sb_size sb -> used L sb b2 j = used L sb b j) /\
    (forall j, j <> n -> j <> bmblock sb n -> blockof L b2 j = blockof L b j) /\
    run (block_op L) (bfree (ldev L) n) (b2, k) = Panic "freeing free block".
Proof.
  intros Hgeo Hb Hl Hr Hm Hu. pose proof (fg_log _ _ Hgeo). destruct (avail_first L sb b 0) as [n Hn].
  { exists {[m]}. split; [by rewrite size_singleton|]. by intros j ->%elem_of_singleton. }
  pose proof (first_free_data L sb b n Hb Hn) as Hd. pose proof (dstart_lstart L sb Hgeo). pose proof (bmblock_range L sb Hgeo n ltac:(lia)) as Hbm.
  assert (Hb1 : fsdisk L sb (alloc L sb b n)) by (by apply fsdisk_alloc).
  assert (Hu1 : forall j, 0 <= j < sb_size sb -> used L sb (alloc L sb b n) j = bool_decide (n = j) || used L sb b j) by (intros; by apply used_alloc).
  assert (Hl1 : lockok L sb (alloc L sb b n)).
  { intros j Hj. destruct (Hl j Hj) as [Hj1 Hj2]. split; [done|]. rewrite Hu1, Hj2 by lia. apply orb_true_r. }
  assert (Hr1 : room (alloc L sb b n) 1).
  { destruct Hr as [_ Hr]. split; [done|]. cbn [alloc dirties locked].
    pose proof (size_union_le ({[(ldev L, n)]} : gset (Z * Z)) ({[(ldev L, bmblock sb n)]} ∪ dirties b)).
    pose proof (size_union_le ({[(ldev L, bmblock sb n)]} : gset (Z * Z)) (dirties b)). rewrite !size_singleton in *. lia. }
  assert (Hun : used L sb (alloc L sb b n) n = true) by (rewrite Hu1 by lia; by rewrite bool_decide_true).
  set (b2 := setblock L (alloc L sb b n) (bmblock sb n) (clrbit (blockof L (alloc L sb b n) (bmblock sb n)) (n mod BPB))).
  assert (W1 : wp L (balloc (ldev L)) (fun r b' k' => r = n /\ b' = alloc L sb b n /\ k' = k) b k).
  { apply (wp_balloc L sb Hgeo b n); try done. destruct Hr as [Ha Hr]. split; [done|lia]. }
  assert (W2 : wp L (bfree (ldev L) n) (fun _ b' k' => b' = b2 /\ k' = k) (alloc L sb b n) k) by (apply (wp_bfree L sb Hgeo); (done || lia)).
  apply wp_run in W1 as (r1 & b1 & k1 & E1 & -> & -> & ->). apply wp_run in W2 as ([] & b' & k2 & E2 & -> & ->).
  assert (Hu2 : forall j, 0 <= j < sb_size sb -> used L sb b2 j = used L sb b j).
  { intros j Hj. unfold b2. rewrite (used_clrbit L sb Hgeo) by (done || lia). rewrite Hu1 by done.
    destruct (decide (n = j)) as [->|Hne]; [|by rewrite bool_decide_false by done].
    rewrite bool_decide_true by done. cbn. symmetry. apply Hn. }
  exists n, (alloc L sb b n), b2. split_and!; try done.
  - rewrite blockof_alloc by lia. by rewrite decide_True.
  - intros j H1 H2. rewrite blockof_alloc by done. by rewrite decide_False by congruence.
  - intros j H1 H2. unfold b2. rewrite blockof_set, decide_False by congruence. rewrite blockof_alloc by done. by rewrite decide_False by congruence.
  - apply (bfree_free L sb Hgeo); [|intros j Hj; destruct (Hl j Hj) as [Hj1 Hj2]; split; [done|rewrite Hu2 by lia; done]| |lia|rewrite Hu2 by lia; apply Hn].
    + apply (fsdisk_clrbit L sb Hgeo); (done || lia).
    + destruct Hr1 as [_ Hr1]. split; [done|]. unfold b2. cbn [setblock alloc dirties locked] in *.
      replace ({[(ldev L, bmblock sb n)]} ∪ ({[(ldev L, n)]} ∪ ({[(ldev L, bmblock sb n)]} ∪ dirties b)))
        with ({[(ldev L, n)]} ∪ ({[(ldev L, bmblock sb n)]} ∪ dirties b)) by set_solver. done.
Qed.

Lemma balloc_bfree_witness : exists b1, run (block_op Small.L) (balloc 1) (Small.b0, Small.k0 T_FILE) = Ok 6 (b1, Small.k0 T_FILE) /\
  used Small.L Small.sb b1 6 = true.
Proof.
  destruct (balloc_bfree Small.L Small.sb 6 Small.b0 (Small.k0 T_FILE) Small.geo Small.disk_ok) as (n & b1 & b2 & H1 & (H2 & H3 & H4) & _ & _ & Hu & _).
  - intros n Hn. by apply elem_of_empty in Hn.
  - split; [reflexivity|vm_compute; lia].
  - simpl. lia.
  - vm_compute. reflexivity.
  - assert (n = 6) as ->.
    { destruct (Z.lt_trichotomy n 6) as [Hlt|[->|Hgt]]; [|done|specialize (H4 6 ltac:(lia)); vm_compute in H4; discriminate H4].
      assert (Hc : forallb (used Small.L Small.sb Small.b0) (seqZ 0 6) = true) by (vm_compute; reflexivity).
      rewrite (Small.seqZ_check _ _ _ Hc n) in H3 by lia. discriminate H3. }
    exists b1. split; [exact H1|]. rewrite Hu by (simpl; lia). reflexivity.
Defined.

(** ** Two defects *)

(** The disk of [Small] when its data blocks are full, with the log's blocks
    not marked in the bitmap, as mkfs.c leaves them, and a header in the
    log. *)
Definition full_disk : Memide.disk :=
  Memide.ideinit (concat ((fun n => if n =? 14 then Small.pad [7] else Small.blk 16383 n) <$> seqZ 0 24)).
Definition full_store : store Memide.disk :=
  Store (Bio bcache0 full_disk) (Log 14 10 true 1 (LogHeader 0 (replicate 10 0))).

(** When every data block is in use, [balloc] does not run out of
    blocks: it hands out the first block of the log, the log's header, whose
    bit mkfs leaves clear, and zeroes it.  The program reads block 14 before
    and after. *)
Lemma balloc_takes_log : log_start (lg full_store) = 14 /\
  exists s, run kernel_op
    (let! x := bread 1 14 in brelse 1 14 >>> let! n := balloc 1 in let! y := bread 1 14 in Ret (x, n, y)) (full_store, Small.k0 T_FILE) =
    Ok (Small.pad [7], 14, replicate BSIZE 0) (s, Small.k0 T_FILE).
Proof. split; [done|]. eexists. vm_compute. reflexivity. Qed.

(** A file with a block behind the doubly indirect block: block 6 is the
    doubly indirect block, 7 an index block, 8 the data. *)
Definition dbl_disk : bstate :=
  BState (<[(1, 6) := Small.pad (le_enc 4 7)]> (<[(1, 7) := Small.pad (le_enc 4 8)]> (img (Small.disk 511)))) ∅ ∅ true.
Definition dbl_inode : inode :=
  Inode 1 1 1 3 (DInode T_FILE 0 0 0 ((NDIRECT + NINDIRECT) * 512 + 1) (5 :: replicate 11 0 ++ [6])).

(** [itrunc] frees the direct block of the file but none of the blocks
    behind its doubly indirect address, and leaves that address in the inode
    it writes to the disk: the blocks stay marked used for ever. *)
Theorem itrunc_leaks : exists b' k', run (block_op Small.L) (itrunc 0) (dbl_disk, FsK [dbl_inode] tt) = Ok tt (b', k') /\
  used Small.L Small.sb b' 5 = false /\ Forall (fun n => used Small.L Small.sb b' n = true) [6; 7; 8] /\
  d_size (disk_dinode Small.L b' 1) = 0 /\ aget 0 (d_addrs (disk_dinode Small.L b' 1)) 12 = 6.
Proof.
  set (r := run _ _ _).
  assert (Hc : match r with
    | Ok _ (b', _) => negb (used Small.L Small.sb b' 5) && forallb (used Small.L Small.sb b') [6; 7; 8] &&
        (d_size (disk_dinode Small.L b' 1) =? 0) && (aget 0 (d_addrs (disk_dinode Small.L b' 1)) 12 =? 6)
    | _ => false
    end = true) by (vm_compute; reflexivity).
  clearbody r. destruct r as [[] [b' k']| |]; [|done..]. cbn [forallb] in Hc. bool_prop. exists b', k'.
  split_and!; try done. by repeat constructor.
Qed.
