(* ===== verification/Mkfs.v ===== *)
(** * The file-system builder (mkfs.c)

    The host program that makes the disk image the kernel boots from.  The
    image is the sectors of the output file; the input files are given as
    their names and the chunks that [read] returns.  The theorem: the image is
    a file system in the sense of FsSpec.v, in which every file can be found
    by its name and has its contents. *)

From stdpp Require Import base numbers list gmap strings.
From Stdlib Require Import ZArith Lia.
From S2P Require Import Prelude Disk Log Blk Kstring Fs FsSpec FsDir.

Local Open Scope Z_scope.
Local Open Scope kernel_scope.

(** [nblocks], [nlog], [ninodes] and [size]. *)
Record geometry : Type := Geometry { nblocks : Z; nlog : Z; ninodes : Z; fssize : Z }.
Definition default_geometry : geometry := Geometry 20985 LOGSIZE 200 21029.

(** The output file, by sectors, and the counters. *)
Record mkfs : Type := MkFs {
  sects : gmap Z (list Z); freeblock : Z; usedblocks : Z; freeinode : Z
}.

Definition set_sects (f : gmap Z (list Z) -> gmap Z (list Z)) (s : mkfs) : mkfs :=
  MkFs (f (sects s)) (freeblock s) (usedblocks s) (freeinode s).

(** The host is little-endian, as Intel's machines are. *)
Definition xshort (x : Z) : Z := u16 x.
Definition xint (x : Z) : Z := u32 x.

Definition assert (c : bool) : M mkfs unit := if c then ret tt else panic "assert".

(** Seeking and transfers of whole sectors succeed within the file; a read
    beyond its end is short. *)
Definition wsect (sec : Z) (buf : list Z) : M mkfs unit := modify (set_sects <[sec := buf]>).
Definition rsect (sec : Z) : M mkfs (list Z) := fun s =>
  match sects s !! sec with Some x => Ok x s | None => Panic "read" end.

Definition i2b (inum : Z) : Z := u32 (inum / IPB + 2).

Definition winode (inum : Z) (ip : dinode) : M mkfs unit :=
  let bn := i2b inum in
  let* buf := rsect bn in
  wsect bn (enc_dinode (doff inum) ip buf).

Definition rinode (inum : Z) : M mkfs dinode :=
  let bn := i2b inum in
  let* buf := rsect bn in
  ret (dec_dinode (doff inum) buf).

Definition ialloc (type : Z) : M mkfs Z :=
  let* s := gets id in
  let inum := freeinode s in
  modify (fun s => MkFs (sects s) (freeblock s) (usedblocks s) (u32 (freeinode s + 1))) ;;;
  winode inum (DInode (s16 (xshort type)) 0 0 (xshort 1) (xint 0) (replicate 13 0)) ;;;
  ret inum.

(** [freeblock++] and [usedblocks++]. *)
Definition take_block : M mkfs Z :=
  let* s := gets id in
  modify (fun s => MkFs (sects s) (u32 (freeblock s + 1)) (u32 (usedblocks s + 1)) (freeinode s)) ;;;
  ret (freeblock s).

(** The block of the file for its block [fbn], with the inode; [indirect] has
    room for NINDIRECT words, and an access beyond it is an error. *)
Definition iappend_block (fbn : Z) (din : dinode) : M mkfs (Z * dinode) :=
  if fbn <? NDIRECT then
    let* din :=
      (if xint (aget 0 (d_addrs din) fbn) =? 0 then
         let* b := take_block in ret (set_addr fbn (xint b) din)
       else ret din) in
    ret (xint (aget 0 (d_addrs din) fbn), din)
  else
    let* din :=
      (if xint (aget 0 (d_addrs din) NDIRECT) =? 0 then
         let* b := take_block in ret (set_addr NDIRECT (xint b) din)
       else ret din) in
    let ind := xint (aget 0 (d_addrs din) NDIRECT) in
    let* indirect := rsect ind in
    if NINDIRECT <=? fbn - NDIRECT then panic "indirect"
    else
      let o := Z.to_nat (4 * (fbn - NDIRECT)) in
      let* indirect :=
        (if get_le 4 o indirect =? 0 then
           let* b := take_block in
           let indirect := put_le 4 o (xint b) indirect in
           wsect ind indirect ;;;
           ret indirect
         else ret indirect) in
      ret (xint (get_le 4 o indirect), din).

Fixpoint iappend_loop (fuel : nat) (din : dinode) (off : Z) (p : list Z) : M mkfs (dinode * Z) :=
  match fuel with
  | O => panic "fuel"
  | S f =>
      let n := Z.of_nat (length p) in
      if 0 <? n then
        let fbn := off / 512 in
        assert (fbn <? MAXFILE) ;;;
        let* r := iappend_block fbn din in
        let '(x, din) := r in
        let n1 := Z.min n ((fbn + 1) * 512 - off) in
        let* buf := rsect x in
        wsect x (splice (Z.to_nat (off - fbn * 512)) (take (Z.to_nat n1) p) buf) ;;;
        iappend_loop f din (off + n1) (drop (Z.to_nat n1) p)
      else ret (din, off)
  end.

(** Each round but the first and the last fills a sector. *)
Definition iappend (inum : Z) (p : list Z) : M mkfs unit :=
  let* din := rinode inum in
  let* r := iappend_loop (length p / 512 + 3) din (xint (d_size din)) p in
  let '(din, off) := r in
  winode inum (set_size (xint off) din).

(** The first [used] bits set. *)
Definition balloc_bits (used : Z) : list Z :=
  fold_left (fun buf i => setbit buf (Z.of_nat i)) (seq 0 (Z.to_nat used)) (replicate 512 0).

Definition balloc (g : geometry) (used : Z) : M mkfs unit :=
  assert (used <? 512 * 8) ;;;
  wsect (ninodes g / IPB + 3) (balloc_bits used).

(** [for(i = 0; i < n; i++) wsect(i, zeroes)]. *)
Definition zero_sects (n : Z) : M mkfs unit :=
  modify (set_sects (fun m => fold_left (fun m i => <[Z.of_nat i := replicate 512 0]> m) (seq 0 (Z.to_nat n)) m)).

(** A directory entry, cleared first; [strncpy] of the name. *)
Definition add_entry (dir inum : Z) (name : list Z) : M mkfs unit :=
  iappend dir (dirent_bytes name (xshort inum)).

Fixpoint append_chunks (inum : Z) (chunks : list (list Z)) : M mkfs unit :=
  match chunks with
  | [] => ret tt
  | c :: chunks => iappend inum c ;;; append_chunks inum chunks
  end.

(** The name without a leading underscore. *)
Definition strip (name : list Z) : list Z :=
  match name with c :: n => if c =? 95 then n else name | [] => [] end.

(** One file of the command line: its name and, if it can be opened, its
    contents. *)
Definition add_file (rootino : Z) (f : list Z * option (list (list Z))) : M mkfs unit :=
  assert (negb (bool_decide (47 ∈ f.1))) ;;;
  match f.2 with
  | None => panic "open"
  | Some chunks =>
      let* inum := ialloc T_FILE in
      add_entry rootino inum (strip f.1) ;;;
      append_chunks inum chunks
  end.

Fixpoint add_files (rootino : Z) (fs : list (list Z * option (list (list Z)))) : M mkfs unit :=
  match fs with
  | [] => ret tt
  | f :: fs => add_file rootino f ;;; add_files rootino fs
  end.

Definition sb_block (g : geometry) : list Z :=
  put_le 4 12 (xint (nlog g)) (put_le 4 8 (xint (ninodes g)) (put_le 4 4 (xint (nblocks g))
    (put_le 4 0 (xint (fssize g)) (replicate 512 0)))).

Definition main (g : geometry) (files : list (list Z * option (list (list Z)))) : M mkfs unit :=
  let bitblocks := fssize g / (512 * 8) + 1 in
  let used := ninodes g / IPB + 3 + bitblocks in
  modify (fun s => MkFs (sects s) used used (freeinode s)) ;;;
  assert (nblocks g + used + nlog g =? fssize g) ;;;
  zero_sects (nblocks g + used + nlog g) ;;;
  wsect 1 (sb_block g) ;;;
  let* rootino := ialloc T_DIR in
  assert (rootino =? ROOTINO) ;;;
  add_entry rootino rootino [46] ;;;
  add_entry rootino rootino [46; 46] ;;;
  add_files rootino files ;;;
  let* din := rinode rootino in
  let off := xint (d_size din) in
  let off := (off / 512 + 1) * 512 in
  winode rootino (set_size (xint off) din) ;;;
  let* s := gets id in
  balloc g (usedblocks s).

Definition mkfs_start : mkfs := MkFs ∅ 0 0 1.

(** ** The image as a block store

    While mkfs runs, the bitmap on the image is not written yet.  [b] is the
    block store that has the image's blocks and the bitmap that mkfs will
    write in the end: the first [freeblock] blocks are in use. *)

Section image.
Context (g : geometry).
Local Abbreviation L := (Layout 1 (fssize g - nlog g) (nlog g)).
Local Abbreviation sb := (SuperBlock (fssize g) (nblocks g) (ninodes g) (nlog g)).
Context (Hgeo : fsgeo L sb) (Hshort : ninodes g <= 65536).
Implicit Types (b : bstate) (m : mkfs) (d : dinode).

Definition bitmap (n : Z) : Prop := exists j, 0 <= j < fssize g /\ bmblock sb j = n.

Record built m b : Prop := Built {
  bu_disk : fsdisk L sb b;
  bu_sects n : 0 <= n < lstart L -> ~ bitmap n -> sects m !! n = Some (blockof L b n);
  bu_bitmap n : bitmap n -> sects m !! n = Some (replicate BSIZE 0);
  bu_used n : 0 <= n < fssize g -> used L sb b n = (n <? freeblock m);
  bu_zero n : freeblock m <= n < lstart L -> blockof L b n = replicate BSIZE 0;
  bu_range : dstart sb <= freeblock m <= lstart L;
  bu_count : usedblocks m = freeblock m;
  bu_locked : locked b = ∅
}.

Lemma geo_bounds : 4 <= dstart sb <= lstart L /\ lstart L <= fssize g < 2 ^ 31.
Proof.
  pose proof (dstart_lstart L sb Hgeo). pose proof (fg_log _ _ Hgeo). pose proof (fg_size _ _ Hgeo). simpl in *. lia.
Qed.

Lemma data_bitmap n : dstart sb <= n -> ~ bitmap n.
Proof. intros Hn (j & Hj & He). by apply (data_not_bitmap L sb Hgeo n j) in He. Qed.

Lemma built_free m b : built m b -> freeblock m < lstart L -> first_free L sb b (freeblock m).
Proof.
  intros Hb Hf. pose proof geo_bounds. pose proof (bu_range _ _ Hb). split; [lia|].
  split; [rewrite (bu_used _ _ Hb) by lia; apply Z.ltb_irrefl|].
  intros n Hn. rewrite (bu_used _ _ Hb) by lia. apply Z.ltb_lt; lia.
Qed.

(** [take_block] is [balloc] of the kernel. *)
Lemma built_take m b : built m b -> freeblock m < lstart L ->
  exists m', take_block m = Ok (freeblock m) m' /\ built m' (alloc L sb b (freeblock m)) /\
    sects m' = sects m /\ freeblock m' = freeblock m + 1 /\ freeinode m' = freeinode m.
Proof.
  intros Hb Hf. pose proof geo_bounds as Hg. pose proof (bu_range _ _ Hb) as Hr.
  pose proof (built_free _ _ Hb Hf) as Hff. pose proof (bu_disk _ _ Hb) as Hd.
  eexists. split; [reflexivity|]. cbn [sects freeblock freeinode]. rewrite (u32_id (freeblock m + 1)) by lia.
  split; [|done]. constructor; cbn [sects freeblock usedblocks].
  - by apply fsdisk_alloc.
  - intros n Hn Hnb. rewrite (bu_sects _ _ Hb) by done. f_equal.
    destruct (decide (n = freeblock m)) as [->|Hne].
    + rewrite (blockof_alloc_new L sb Hgeo) by done. apply (bu_zero _ _ Hb). lia.
    + symmetry. apply (blockof_alloc_frame L sb Hgeo); try done. intros j Hj He. apply Hnb. by exists j.
  - apply (bu_bitmap _ _ Hb).
  - intros n Hn. rewrite (used_alloc L sb Hgeo) by done. rewrite (bu_used _ _ Hb) by done.
    destruct (bool_decide_reflect (freeblock m = n)) as [->|]; simpl; lia.
  - intros n Hn. rewrite (blockof_alloc_frame L sb Hgeo); try done; [|lia|].
    + apply (bu_zero _ _ Hb). lia.
    + intros j Hj He. apply (data_bitmap n); [lia|]. by exists j.
  - lia.
  - rewrite (bu_count _ _ Hb). apply u32_id. lia.
  - apply Hb.
Qed.

(** Writing a sector that is in use and not of the bitmap. *)
Lemma built_wsect m b n x : built m b -> 1 < n < freeblock m -> ~ bitmap n -> length x = BSIZE ->
  built (set_sects <[n := x]> m) (setblock L b n x).
Proof.
  intros Hb Hn Hnb Hx. pose proof geo_bounds as Hg. pose proof (bu_range _ _ Hb) as Hr.
  assert (Hne : forall j, 0 <= j < sb_size sb -> bmblock sb j <> n) by (intros j Hj He; apply Hnb; by exists j).
  constructor; cbn [sects set_sects freeblock usedblocks].
  - apply (fsdisk_set L sb Hgeo); [apply Hb|lia|done|done].
  - intros k Hk Hkb. rewrite blockof_set. case_decide as E; [subst; apply lookup_insert_eq|].
    rewrite lookup_insert_ne by done. by apply Hb.
  - intros k Hk. rewrite lookup_insert_ne by (intros ->; done). by apply Hb.
  - intros k Hk. rewrite used_set by done. by apply Hb.
  - intros k Hk. rewrite blockof_set, decide_False by lia. by apply Hb.
  - done.
  - apply Hb.
  - apply Hb.
Qed.

(** ** Blocks of a file *)

(** The slot [s] has a block; if it had none it has a new one, and nothing
    else has changed. *)
Record ensured m b d (s : slot) m' b' d' : Prop := Ensured {
  en_nz : place L b' d' s <> 0;
  en_grows : grows L sb b d b' d';
  en_data s' : leaf s' = true -> fblock L b' d' s' = fblock L b d s';
  en_same : d' = d \/ place L b d s = 0;
  en_built : built m' b';
  en_inodes : freeinode m' = freeinode m;
  en_place s' : valid s' = true -> s' <> s -> place L b' d' s' = place L b d s';
  en_free : freeblock m' = freeblock m + (if place L b d s =? 0 then 1 else 0)
}.

Lemma ensured_refl m b d s : built m b -> iwf L sb b d -> place L b d s <> 0 -> ensured m b d s m b d.
Proof.
  intros Hb Hw Hp. split; try done; [apply grows_refl; [apply Hb|done]|by left|].
  rewrite (proj2 (Z.eqb_neq _ _) Hp). lia.
Qed.

Lemma ensured_filled m b d s m' b' d' n : built m b -> iwf L sb b d -> filled L sb b d b' d' s n ->
  built m' b' -> freeinode m' = freeinode m -> freeblock m' = freeblock m + 1 -> ensured m b d s m' b' d'.
Proof.
  intros Hb Hw Hf Hb' Hi Hn. pose proof (fi_empty _ _ _ _ _ _ _ _ Hf) as H0.
  pose proof (first_free_data _ _ _ _ (bu_disk _ _ Hb) (fi_free _ _ _ _ _ _ _ _ Hf)). pose proof geo_bounds.
  split; try done.
  - rewrite (fi_place _ _ _ _ _ _ _ _ Hf), decide_True by (done || apply Hf). lia.
  - eapply filled_grows; try done. apply Hb.
  - eapply filled_data; try done. apply Hb.
  - by right.
  - intros s' Hs' Hne. by rewrite (fi_place _ _ _ _ _ _ _ _ Hf), decide_False.
  - rewrite H0. simpl. done.
Qed.

Lemma place_range b d s : iwf L sb b d -> valid s = true -> 0 <= place L b d s < 2 ^ 32 /\
  (place L b d s <> 0 -> dstart sb <= place L b d s < lstart L).
Proof.
  intros Hw Hs. pose proof geo_bounds. destruct (decide (place L b d s = 0)) as [->|Hne]; [lia|].
  destruct (iw_used _ _ _ _ Hw s Hs Hne). lia.
Qed.

Lemma place_free m b d s : built m b -> iwf L sb b d -> valid s = true -> place L b d s <> 0 ->
  dstart sb <= place L b d s < freeblock m.
Proof.
  intros Hb Hw Hs Hne. destruct (iw_used _ _ _ _ Hw s Hs Hne) as [Hr Hu]. pose proof geo_bounds.
  rewrite (bu_used _ _ Hb) in Hu by lia. lia.
Qed.

Lemma ensure_top m b d i : built m b -> iwf L sb b d -> 0 <= i < 13 ->
  freeblock m + (if place L b d (Top i) =? 0 then 1 else 0) <= lstart L ->
  exists m' b' d',
    (if xint (aget 0 (d_addrs d) i) =? 0 then let* n := take_block in ret (set_addr i (xint n) d) else ret d) m = Ok d' m' /\
    ensured m b d (Top i) m' b' d'.
Proof.
  intros Hb Hw Hi Hf. change (aget 0 (d_addrs d) i) with (place L b d (Top i)).
  destruct (place_range b d (Top i) Hw) as [Hr _]; [by apply valid_top|].
  unfold xint. rewrite u32_id by done. destruct (Z.eqb_spec (place L b d (Top i)) 0) as [H0|H0].
  - destruct (built_take m b Hb) as (m' & Ht & Hb' & _ & Hfb & Hfi); [lia|].
    pose proof geo_bounds. pose proof (bu_range _ _ Hb).
    unfold bind. rewrite Ht. rewrite u32_id by lia. do 3 eexists. split; [done|].
    eapply ensured_filled; [done|done| |done|done|done].
    apply (filled_top L sb Hgeo); [apply Hb|done|done|done|]. apply built_free; [done|lia].
  - exists m, b, d. split; [done|]. by apply ensured_refl.
Qed.

Lemma ensure_sub m b d i : built m b -> iwf L sb b d -> 0 <= i < NINDIRECT -> place L b d (Top NDIRECT) <> 0 ->
  freeblock m + (if place L b d (Sub (Top NDIRECT) i) =? 0 then 1 else 0) <= lstart L ->
  let ind := place L b d (Top NDIRECT) in let o := Z.to_nat (4 * i) in
  exists m' b' y,
    (let* indirect := rsect ind in
     if get_le 4 o indirect =? 0 then
       let* n := take_block in
       let indirect := put_le 4 o (xint n) indirect in
       wsect ind indirect ;;; ret indirect
     else ret indirect) m = Ok y m' /\
    get_le 4 o y = place L b' d (Sub (Top NDIRECT) i) /\
    ensured m b d (Sub (Top NDIRECT) i) m' b' d.
Proof.
  intros Hb Hw Hi Hp Hf ind o. pose proof geo_bounds as Hg. pose proof (bu_range _ _ Hb) as Hrg.
  assert (Hv : valid (Sub (Top NDIRECT) i) = true).
  { unfold valid, leaf. apply orb_true_iff. left. unfold NINDIRECT in *. rewrite !andb_true_iff, Z.eqb_eq. lia. }
  pose proof (place_free m b d (Top NDIRECT) Hb Hw ltac:(by apply valid_top) Hp) as Hind. fold ind in Hind.
  assert (Hnb : ~ bitmap ind) by (apply data_bitmap; lia).
  assert (Hsec : sects m !! ind = Some (blockof L b ind)) by (apply (bu_sects _ _ Hb); [lia|done]).
  assert (Hlen : length (blockof L b ind) = BSIZE) by (eapply length_blockof; [apply Hb|lia]).
  assert (Hw0 : get_le 4 o (blockof L b ind) = place L b d (Sub (Top NDIRECT) i)).
  { change (place L b d (Sub (Top NDIRECT) i)) with (word L b ind i). unfold word.
    rewrite (proj2 (Z.eqb_neq ind 0)) by lia. done. }
  unfold bind at 1, rsect at 1. rewrite Hsec, Hw0.
  destruct (Z.eqb_spec (place L b d (Sub (Top NDIRECT) i)) 0) as [H0|H0].
  - pose proof (built_free m b Hb ltac:(lia)) as Hff.
    destruct (built_take m b Hb) as (m' & Ht & Hb' & Hs' & Hfb & Hfi); [lia|].
    unfold bind. rewrite Ht. unfold xint. rewrite (u32_id (freeblock m)) by lia.
    cbn [wsect modify ret].
    pose proof (filled_sub L sb Hgeo b d (Top NDIRECT) i (freeblock m) (bu_disk _ _ Hb) Hw Hv Hp ltac:(by rewrite <- H0) Hff) as Hfill.
    fold ind o in Hfill. do 3 eexists. split; [done|]. split.
    + rewrite (fi_place _ _ _ _ _ _ _ _ Hfill), decide_True by done.
      rewrite (get_put_word _ i i) by (done || lia). by rewrite decide_True.
    + eapply ensured_filled; [done|done|exact Hfill| |done|done].
      apply built_wsect; [done|lia|done|]. by apply length_put_word.
  - eexists m, b, _. split; [done|]. split; [done|]. by apply ensured_refl.
Qed.

(** The blocks of a file of [off] bytes, with its indirect block. *)
Definition nblk (off : Z) : Z := (off + 511) / 512.
Definition bcost (off : Z) : Z := nblk off + (if NDIRECT <? nblk off then 1 else 0).

(** The largest file mkfs can make, in blocks: it does not use the doubly
    indirect block. *)
Definition maxblk : Z := NDIRECT + NINDIRECT.

(** The blocks below [off] are there, and no others. *)
Definition tight b d (off : Z) : Prop :=
  (forall bn, 0 <= bn < maxblk -> (place L b d (slot_of bn) <> 0) <-> (bn * 512 < off)) /\
  ((place L b d (Top NDIRECT) <> 0) <-> (NDIRECT * 512 < off)).

(** What [iappend_block] does at offset [off]. *)
Record blocked m b d (off x : Z) m' b' d' : Prop := Blocked {
  bl_place : place L b' d' (slot_of (off / 512)) = x;
  bl_nz : x <> 0;
  bl_grows : grows L sb b d b' d';
  bl_data s : leaf s = true -> fblock L b' d' s = fblock L b d s;
  bl_same : d' = d \/ place L b d (slot_of (off / 512)) = 0;
  bl_built : built m' b';
  bl_inodes : freeinode m' = freeinode m;
  bl_free : freeblock m' = freeblock m + (bcost (off + 1) - bcost off);
  bl_tight off' : off < off' <= (off / 512 + 1) * 512 -> tight b' d' off'
}.

Lemma tight_step b d b' d' off off' : 0 <= off -> off / 512 < maxblk -> tight b d off ->
  (forall s, valid s = true -> s <> slot_of (off / 512) -> s <> Top NDIRECT -> place L b' d' s = place L b d s) ->
  place L b' d' (slot_of (off / 512)) <> 0 ->
  (place L b' d' (Top NDIRECT) <> 0 <-> place L b d (Top NDIRECT) <> 0 \/ NDIRECT <= off / 512) ->
  off < off' <= (off / 512 + 1) * 512 -> tight b' d' off'.
Proof.
  intros Ho Hm [Ht1 Ht2] Hp Hnz Htop Hoff. unfold maxblk, NDIRECT, NINDIRECT in *. split.
  - intros bn Hbn. unfold maxblk, NDIRECT, NINDIRECT in Hbn. destruct (decide (bn = off / 512)) as [->|Hne].
    + split; [intros _; divlia|done].
    + rewrite Hp.
      * rewrite Ht1 by done. divlia.
      * apply leaf_valid, slot_of_leaf. unfold MAXFILE, NDIRECT, NINDIRECT. lia.
      * intros E. apply Hne. apply slot_of_inj; [lia|divlia|done].
      * unfold slot_of, NDIRECT, NINDIRECT. destruct (Z.ltb_spec bn 11); [intros [=]; lia|]. by case_match.
  - rewrite Htop, Ht2. unfold NDIRECT. divlia.
Qed.

Lemma blocked_cost off : 0 <= off -> off / 512 < maxblk ->
  bcost (off + 1) - bcost off =
  (if off mod 512 =? 0 then 1 else 0) + (if off =? NDIRECT * 512 then 1 else 0).
Proof.
  intros Ho Hm. unfold bcost, nblk, maxblk, NDIRECT, NINDIRECT in *.
  destruct (Z.eqb_spec (off mod 512) 0), (Z.eqb_spec off (11 * 512)), (Z.ltb_spec 11 ((off + 1 + 511) / 512)),
    (Z.ltb_spec 11 ((off + 511) / 512)); divlia.
Qed.

Lemma tight_at b d off : 0 <= off -> off / 512 < maxblk -> tight b d off ->
  (place L b d (slot_of (off / 512)) =? 0) = (off mod 512 =? 0).
Proof.
  intros Ho Hm [Ht _]. specialize (Ht (off / 512)). unfold maxblk, NDIRECT, NINDIRECT in *.
  destruct (Z.eqb_spec (place L b d (slot_of (off / 512))) 0), (Z.eqb_spec (off mod 512) 0); try done; divlia.
Qed.

Lemma direct_ok m b d off : built m b -> iwf L sb b d -> tight b d off -> 0 <= off -> off / 512 < NDIRECT ->
  freeblock m + (bcost (off + 1) - bcost off) <= lstart L ->
  exists m' b' d' x, iappend_block (off / 512) d m = Ok (x, d') m' /\ blocked m b d off x m' b' d'.
Proof.
  intros Hb Hw Ht Ho Hd Hf.
  assert (Hm : off / 512 < maxblk) by (unfold maxblk, NDIRECT, NINDIRECT in *; lia).
  assert (Hfbn : 0 <= off / 512) by (apply Z.div_pos; lia).
  assert (Hs : slot_of (off / 512) = Top (off / 512)) by (unfold slot_of; by rewrite (proj2 (Z.ltb_lt _ _) Hd)).
  assert (Hc : bcost (off + 1) - bcost off = if off mod 512 =? 0 then 1 else 0).
  { rewrite blocked_cost by done. rewrite (proj2 (Z.eqb_neq off _)); [lia|]. unfold NDIRECT in *. divlia. }
  rewrite <- (tight_at b d off Ho Hm Ht) in Hc.
  unfold iappend_block. rewrite (proj2 (Z.ltb_lt _ _) Hd).
  destruct (ensure_top m b d (off / 512)) as (m' & b' & d' & Hrun & He); [done|done|unfold NDIRECT in *; lia|rewrite <- Hs; lia|].
  unfold bind at 1. rewrite Hrun. unfold ret at 1.
  pose proof (ex_wf _ _ _ _ _ _ (en_grows _ _ _ _ _ _ _ He)) as Hw'.
  change (aget 0 (d_addrs d') (off / 512)) with (place L b' d' (Top (off / 512))).
  unfold xint. rewrite u32_id by (apply place_range; [done|apply valid_top; unfold NDIRECT in *; lia]).
  do 4 eexists. split; [done|]. rewrite <- Hs in *. destruct He as [E1 E2 E3 E4 E5 E6 E7 E8].
  split; try done; [by rewrite E8, Hc|]. intros off' Hoff'. apply (tight_step b d b' d' off); try done.
  - intros s Hv Hne _. by apply E7.
  - destruct (decide (off / 512 = NDIRECT)); [lia|]. rewrite E7; [split; [by left|]|by apply valid_top|rewrite Hs; congruence].
    intros [|]; [done|lia].
Qed.

Lemma indirect_ok m b d off : built m b -> iwf L sb b d -> tight b d off -> 0 <= off -> NDIRECT <= off / 512 < maxblk ->
  freeblock m + (bcost (off + 1) - bcost off) <= lstart L ->
  exists m' b' d' x, iappend_block (off / 512) d m = Ok (x, d') m' /\ blocked m b d off x m' b' d'.
Proof.
  intros Hb Hw Ht Ho [Hd Hm] Hf.
  assert (Hs : slot_of (off / 512) = Sub (Top NDIRECT) (off / 512 - NDIRECT)).
  { unfold slot_of. rewrite (proj2 (Z.ltb_ge _ _) Hd). unfold maxblk in Hm. by rewrite (proj2 (Z.ltb_lt _ _)) by lia. }
  set (i := off / 512 - NDIRECT) in *.
  assert (Hi : 0 <= i < NINDIRECT) by (unfold i, maxblk in *; lia).
  assert (Hv : valid (Sub (Top NDIRECT) i) = true).
  { rewrite <- Hs. apply leaf_valid, slot_of_leaf. unfold MAXFILE, maxblk, NDIRECT, NINDIRECT in *. lia. }
  rewrite blocked_cost, <- (tight_at b d off Ho Hm Ht), Hs in Hf by done.
  assert (Htop : (place L b d (Top NDIRECT) =? 0) = (off =? NDIRECT * 512)).
  { destruct Ht as [_ Ht]. unfold NDIRECT in *.
    destruct (Z.eqb_spec (place L b d (Top 11)) 0), (Z.eqb_spec off (11 * 512)); try done; divlia. }
  rewrite <- Htop in Hf. unfold iappend_block. rewrite (proj2 (Z.ltb_ge _ _) Hd).
  destruct (ensure_top m b d NDIRECT) as (m1 & b1 & d1 & Hrun & He1); [done|done|done| |].
  { destruct (_ =? 0), (_ =? 0); lia. }
  unfold bind at 1. rewrite Hrun. destruct He1 as [E1 E2 E3 E4 E5 E6 E7 E8].
  pose proof (ex_wf _ _ _ _ _ _ E2) as Hw1. pose proof (E7 _ Hv ltac:(done)) as Hsub.
  change (aget 0 (d_addrs d1) NDIRECT) with (place L b1 d1 (Top NDIRECT)).
  unfold xint at 1 2. rewrite u32_id by (by apply place_range).
  destruct (ensure_sub m1 b1 d1 i) as (m2 & b2 & y & Hrun2 & Hy & He2); [done|done|done|done|rewrite Hsub, E8; lia|].
  cbn zeta in Hrun2. unfold bind at 1 in Hrun2. unfold bind at 1.
  destruct (rsect (place L b1 d1 (Top NDIRECT)) m1) as [z m1'| |]; try done.
  rewrite (proj2 (Z.leb_gt NINDIRECT _)) by (unfold i in Hi; lia). fold i.
  unfold bind at 1. rewrite Hrun2, Hy. destruct He2 as [G1 G2 G3 G4 G5 G6 G7 G8].
  pose proof (ex_wf _ _ _ _ _ _ G2) as Hw2. unfold xint. rewrite u32_id by (by apply place_range).
  do 4 eexists. split; [done|]. split; rewrite ?Hs; try done.
  - by eapply grows_trans.
  - intros s Hl. by rewrite G3, E3.
  - destruct E4 as [->|E4]; [by left|right]. change (word L b (place L b d (Top NDIRECT)) i = 0). by rewrite E4.
  - by rewrite G6.
  - rewrite G8, E8, Hsub, blocked_cost, <- (tight_at b d off Ho Hm Ht), Hs, Htop by done. lia.
  - intros off' Hoff'. apply (tight_step b d b2 d1 off); rewrite ?Hs; try done.
    + intros s Hs' Hn1 Hn2. by rewrite G7, E7.
    + rewrite G7 by done. split; [by right|done].
Qed.

Lemma iappend_block_ok m b d off : built m b -> iwf L sb b d -> tight b d off -> 0 <= off -> off / 512 < maxblk ->
  freeblock m + (bcost (off + 1) - bcost off) <= lstart L ->
  exists m' b' d' x, iappend_block (off / 512) d m = Ok (x, d') m' /\ blocked m b d off x m' b' d'.
Proof.
  intros Hb Hw Ht Ho Hm Hf. destruct (Z.lt_ge_cases (off / 512) NDIRECT).
  - by apply direct_ok.
  - by apply indirect_ok.
Qed.

Lemma bcost_mono x y : x <= y -> bcost x <= bcost y.
Proof.
  intros H. unfold bcost. assert (nblk x <= nblk y) by (apply Z.div_le_mono; lia).
  destruct (Z.ltb_spec NDIRECT (nblk x)), (Z.ltb_spec NDIRECT (nblk y)); lia.
Qed.

Lemma bcost_block off n : 0 <= off -> 0 < n -> off mod 512 + n <= 512 -> bcost (off + n) = bcost (off + 1).
Proof.
  intros Ho Hn Hfit. unfold bcost. replace (nblk (off + n)) with (nblk (off + 1)); [done|]. unfold nblk. divlia.
Qed.

(** The bytes [p] are appended at [off] to the file [d]. *)
Record appended m b d (off : Z) (p : list Z) m' b' d' : Prop := Appended {
  ap_wrote : wrote L sb b d b' d' off p;
  ap_built : built m' b';
  ap_tight : tight b' d' (off + Z.of_nat (length p));
  ap_inodes : freeinode m' = freeinode m;
  ap_free : freeblock m' = freeblock m + (bcost (off + Z.of_nat (length p)) - bcost off)
}.

(** One round: [bs] goes into the block of [off]. *)
Lemma append_round m b d off bs : built m b -> iwf L sb b d -> tight b d off -> 0 <= off -> off / 512 < maxblk ->
  bs <> [] -> off mod 512 + Z.of_nat (length bs) <= 512 ->
  freeblock m + (bcost (off + Z.of_nat (length bs)) - bcost off) <= lstart L ->
  exists x d' m1 m2 b2 buf, iappend_block (off / 512) d m = Ok (x, d') m1 /\ rsect x m1 = Ok buf m1 /\
    wsect x (splice (Z.to_nat (off - off / 512 * 512)) bs buf) m1 = Ok tt m2 /\ appended m b d off bs m2 b2 d'.
Proof.
  intros Hb Hw Ht Ho Hm Hbs Hfit Hf.
  assert (Hn : 0 < Z.of_nat (length bs)) by (destruct bs; [done|cbn [length]; lia]).
  rewrite bcost_block in Hf by done.
  destruct (iappend_block_ok m b d off Hb Hw Ht Ho Hm Hf) as (m1 & b1 & d1 & x & Hrun & [B1 B2 B3 B4 B5 B6 B7 B8 B9]).
  assert (Hbn : 0 <= off / 512 < MAXFILE).
  { unfold MAXFILE, maxblk, NDIRECT, NINDIRECT in *. split; [apply Z.div_pos; lia|lia]. }
  pose proof (leaf_valid _ (slot_of_leaf _ Hbn)) as Hv. pose proof (ex_wf _ _ _ _ _ _ B3) as Hw1.
  pose proof (place_free m1 b1 d1 _ B6 Hw1 Hv ltac:(by rewrite B1)) as Hx. rewrite B1 in Hx.
  pose proof geo_bounds. pose proof (bu_range _ _ B6).
  assert (Hnb : ~ bitmap x) by (apply data_bitmap; lia).
  assert (Hlen : length (blockof L b1 x) = BSIZE) by (eapply length_blockof; [apply B6|lia]).
  pose proof (Z.mod_pos_bound off 512 ltac:(lia)) as Hom.
  replace (off - off / 512 * 512) with (off mod 512) by (rewrite Z.mod_eq by lia; lia).
  assert (Hl2 : length (splice (Z.to_nat (off mod 512)) bs (blockof L b1 x)) = BSIZE).
  { rewrite length_splice; [done|]. rewrite Hlen. unfold BSIZE. lia. }
  exists x, d1, m1. do 2 eexists. exists (blockof L b1 x). split; [done|]. split.
  { unfold rsect. by rewrite (bu_sects _ _ B6) by (done || lia). }
  split; [done|].
  assert (Hwr : wrote L sb b d (setblock L b1 x (splice (Z.to_nat (off mod 512)) bs (blockof L b1 x))) d1 off bs).
  { apply (wrote_block L sb Hgeo b d b1 d1); try done. by destruct Hbn. }
  split; try done.
  - apply built_wsect; try done. lia.
  - destruct (B9 (off + Z.of_nat (length bs))) as [T1 T2]; [divlia|].
    assert (Hpl : forall s, valid s = true -> place L (setblock L b1 x (splice (Z.to_nat (off mod 512)) bs (blockof L b1 x))) d1 s = place L b1 d1 s).
    { intros s Hs. rewrite <- B1. apply (place_set L sb b1 d1); [done|by apply slot_of_leaf|by rewrite B1|done]. }
    split; [|by rewrite Hpl].
    intros bn Hbn'. rewrite Hpl; [by apply T1|]. apply leaf_valid, slot_of_leaf.
    unfold MAXFILE, maxblk, NDIRECT, NINDIRECT in *. lia.
  - cbn [freeblock set_sects]. by rewrite B8, (bcost_block off (Z.of_nat (length bs))).
Qed.

Lemma appended_nil m b d off : built m b -> iwf L sb b d -> tight b d off -> appended m b d off [] m b d.
Proof.
  intros Hb Hw Ht. split; cbn [length]; rewrite ?Z.add_0_r; try done; [|lia].
  apply wrote_nil; [apply Hb|done].
Qed.

Lemma appended_app m b d off p m1 b1 d1 q m2 b2 d2 : iwf L sb b d -> 0 <= off ->
  off + Z.of_nat (length (p ++ q)) <= maxblk * 512 ->
  appended m b d off p m1 b1 d1 -> appended m1 b1 d1 (off + Z.of_nat (length p)) q m2 b2 d2 ->
  appended m b d off (p ++ q) m2 b2 d2.
Proof.
  intros Hw Ho Hmax [A1 A2 A3 A4 A5] [B1 B2 B3 B4 B5]. split; rewrite ?length_app, ?Nat2Z.inj_add, ?Z.add_assoc; try done.
  - eapply (wrote_app L sb Hgeo); try done. unfold maxblk, MAXFILE, NDIRECT, NINDIRECT, BSIZE in *. lia.
  - congruence.
  - lia.
Qed.

Lemma iappend_loop_ok fuel : forall m b d off p, built m b -> iwf L sb b d -> tight b d off -> 0 <= off ->
  off + Z.of_nat (length p) <= maxblk * 512 -> (0 < fuel)%nat ->
  (0 < Z.of_nat (length p) -> (off mod 512 + Z.of_nat (length p) + 511) / 512 < Z.of_nat fuel) ->
  freeblock m + (bcost (off + Z.of_nat (length p)) - bcost off) <= lstart L ->
  exists m' b' d', iappend_loop fuel d off p m = Ok (d', off + Z.of_nat (length p)) m' /\ appended m b d off p m' b' d'.
Proof.
  induction fuel as [|f IH]; intros m b d off p Hb Hw Ht Ho Hmax Hpos Hfuel Hf; [lia|].
  cbn [iappend_loop]. destruct (Z.ltb_spec 0 (Z.of_nat (length p))) as [Hn|Hn].
  2: { destruct p; [|cbn [length] in Hn; lia]. cbn [length]. rewrite Z.add_0_r. do 3 eexists. split; [done|]. by apply appended_nil. }
  pose proof (Z.mod_pos_bound off 512 ltac:(lia)) as Hom.
  assert (Hm : off / 512 < maxblk) by divlia.
  set (n1 := Z.min (Z.of_nat (length p)) ((off / 512 + 1) * 512 - off)).
  assert (Hn1 : 0 < n1 <= Z.of_nat (length p) /\ off mod 512 + n1 <= 512) by (unfold n1; divlia).
  set (bs := take (Z.to_nat n1) p). set (q := drop (Z.to_nat n1) p).
  assert (Hlb : Z.of_nat (length bs) = n1) by (unfold bs; rewrite length_take; lia).
  assert (Hlq : Z.of_nat (length q) = Z.of_nat (length p) - n1) by (unfold q; rewrite length_drop; lia).
  assert (Hp : bs ++ q = p) by apply take_drop.
  pose proof (bcost_mono (off + n1) (off + Z.of_nat (length p)) ltac:(lia)).
  destruct (append_round m b d off bs) as (x & d' & m1 & m2 & b2 & buf & H1 & H2 & H3 & Hap); try done.
  { intros E. rewrite E in Hlb. simpl in Hlb. lia. }
  { lia. }
  { rewrite Hlb. lia. }
  rewrite (proj2 (Z.ltb_lt _ _)) by (unfold MAXFILE, maxblk, NDIRECT, NINDIRECT in *; lia). cbn [assert].
  unfold bind at 1. cbn [ret]. unfold bind at 1. rewrite H1. unfold bind at 1. rewrite H2. unfold bind at 1. rewrite H3.
  destruct (IH m2 b2 d' (off + n1) q) as (m' & b' & d2 & Hrun & Hap2); try done.
  - apply Hap.
  - apply (ex_wf _ _ _ _ _ _ (wr_grows _ _ _ _ _ _ _ _ (ap_wrote _ _ _ _ _ _ _ _ Hap))).
  - rewrite <- Hlb. apply Hap.
  - lia.
  - lia.
  - specialize (Hfuel Hn). clear - Hfuel Hn Hom Ho. divlia.
  - rewrite Hlq. specialize (Hfuel Hn). clear - Hfuel Hn1 Hom Ho. unfold n1 in *. divlia.
  - rewrite (ap_free _ _ _ _ _ _ _ _ Hap), Hlb, Hlq. replace (off + n1 + (Z.of_nat (length p) - n1)) with (off + Z.of_nat (length p)) by lia. lia.
  - rewrite Hrun. replace (off + n1 + Z.of_nat (length q)) with (off + Z.of_nat (length p)) by lia.
    exists m', b', d2. split; [done|]. rewrite <- Hp.
    eapply appended_app; try done; [by rewrite Hp|]. by rewrite Hlb.
Qed.

(** ** Inodes *)

Lemma winode_ok m b n d : built m b -> 0 <= n < ninodes g -> dinode_ok d ->
  exists m' x, winode n d m = Ok tt m' /\ built m' (setblock L b (IBLOCK n) x) /\
    disk_dinode L (setblock L b (IBLOCK n) x) n = d /\
    (forall k, 0 <= k < ninodes g -> k <> n ->
       disk_dinode L (setblock L b (IBLOCK n) x) k = disk_dinode L b k) /\
    freeblock m' = freeblock m /\ freeinode m' = freeinode m.
Proof.
  intros Hb Hn Hok. destruct (IBLOCK_range L sb Hgeo n Hn) as (He & Hr & Hnb).
  pose proof geo_bounds. pose proof (bu_range _ _ Hb). pose proof (doff_range n) as Hdo.
  assert (Hnbm : ~ bitmap (IBLOCK n)) by (intros (j & Hj & Hbj); by apply (Hnb j)).
  assert (Hlen : length (blockof L b (IBLOCK n)) = BSIZE) by (eapply length_blockof; [apply Hb|lia]).
  assert (Hle : length (enc_dinode (doff n) d (blockof L b (IBLOCK n))) = BSIZE).
  { rewrite length_enc_dinode; [done|apply Hok|lia]. }
  unfold winode. change (i2b n) with (IBLOCK n). unfold bind, rsect.
  rewrite (bu_sects _ _ Hb) by (done || lia).
  do 2 eexists. split; [reflexivity|]. split; [apply built_wsect; (done || lia)|].
  split; [|split; [|done]].
  - unfold disk_dinode. rewrite blockof_set, decide_True by done. apply dinode_roundtrip; [done|lia].
  - intros k Hk Hne. unfold disk_dinode. rewrite blockof_set. case_decide as Heq; [|done]. rewrite <- Heq.
    pose proof (doff_range k). apply dinode_other; [lia|lia|apply Hok|]. apply doff_disj; [lia|lia|done|].
    destruct (IBLOCK_range L sb Hgeo _ Hk) as (Hem & _). lia.
Qed.

Lemma rinode_ok m b n : built m b -> 0 <= n < ninodes g -> rinode n m = Ok (disk_dinode L b n) m.
Proof.
  intros Hb Hn. destruct (IBLOCK_range L sb Hgeo n Hn) as (He & Hr & Hnb). pose proof geo_bounds.
  unfold rinode. change (i2b n) with (IBLOCK n). unfold bind, rsect. rewrite (bu_sects _ _ Hb); [done|lia|].
  intros (j & Hj & Hbj). by apply (Hnb j).
Qed.

(** ** The files

    [fs] lists the type and the contents of the inodes 1, 2, ... *)

Definition ino (k : nat) : Z := Z.of_nat k + 1.

Record is_file b (n : Z) (tc : Z * list Z) : Prop := IsFile {
  if_dinode : dinode_ok (disk_dinode L b n);
  if_ok : file_ok L sb b (disk_dinode L b n);
  if_type : d_type (disk_dinode L b n) = tc.1;
  if_content : content L b (disk_dinode L b n) = tc.2;
  if_tight : tight b (disk_dinode L b n) (d_size (disk_dinode L b n));
  if_blank p : d_size (disk_dinode L b n) <= p < MAXFILE * 512 -> fbyte L b (disk_dinode L b n) p = 0
}.

Definition total (fs : list (Z * list Z)) : Z :=
  Z.of_nat (sum_list_with (fun tc => Z.to_nat (bcost (Z.of_nat (length tc.2)))) fs).

Record fsys m b (fs : list (Z * list Z)) : Prop := FSys {
  fy_built : built m b;
  fy_count : freeinode m = 1 + Z.of_nat (length fs);
  fy_room : freeinode m <= ninodes g;
  fy_file k tc : fs !! k = Some tc -> is_file b (ino k) tc;
  fy_apart k k' : (k < length fs)%nat -> (k' < length fs)%nat -> k <> k' ->
    disjoint_files L b (disk_dinode L b (ino k)) (disk_dinode L b (ino k'));
  fy_free : freeblock m = dstart sb + total fs
}.

Lemma is_file_size b n tc : is_file b n tc -> d_size (disk_dinode L b n) = Z.of_nat (length tc.2).
Proof. intros [H1 H2 H3 H4 H5 H6]. rewrite <- H4. symmetry. apply length_content. apply H2. Qed.

Lemma bcost_nonneg x : 0 <= x -> 0 <= bcost x.
Proof. intros. unfold bcost, nblk. assert (0 <= (x + 511) / 512) by (apply Z.div_pos; lia). case_match; lia. Qed.

Lemma total_insert fs k t c p : fs !! k = Some (t, c) ->
  total (<[k := (t, c ++ p)]> fs) =
  total fs + (bcost (Z.of_nat (length c) + Z.of_nat (length p)) - bcost (Z.of_nat (length c))).
Proof.
  intros Hk. pose proof (take_drop_middle _ _ _ Hk) as E. rewrite (insert_take_drop fs k (t, c ++ p)) by (by eapply lookup_lt_Some).
  rewrite <- E at 3. unfold total. rewrite !sum_list_with_app. cbn [sum_list_with snd].
  rewrite length_app, !Nat2Z.inj_add.
  pose proof (bcost_nonneg (Z.of_nat (length c))). pose proof (bcost_nonneg (Z.of_nat (length c) + Z.of_nat (length p))). lia.
Qed.

(** A change of the block store that leaves the blocks of a file alone. *)
Definition untouched b b' d : Prop :=
  (forall s, valid s = true -> place L b d s <> 0 -> blockof L b' (place L b d s) = blockof L b (place L b d s)) /\
  (forall j, 0 <= j < sb_size sb -> used L sb b j = true -> used L sb b' j = true).

Lemma untouched_place b b' d : untouched b b' d -> forall s, valid s = true -> place L b' d s = place L b d s.
Proof. intros [H _]. apply place_frame. intros s Hs. by apply H, inner_valid. Qed.

Lemma tight_place b d b' d' off : (forall s, valid s = true -> place L b' d' s = place L b d s) ->
  tight b d off -> tight b' d' off.
Proof.
  intros Hp [T1 T2]. split; [|by rewrite Hp].
  intros bn Hbn. rewrite Hp; [by apply T1|]. apply leaf_valid, slot_of_leaf.
  unfold MAXFILE, maxblk, NDIRECT, NINDIRECT in *. lia.
Qed.

Lemma untouched_byte b b' d p : untouched b b' d -> 0 <= p < MAXFILE * 512 -> fbyte L b' d p = fbyte L b d p.
Proof.
  intros Hu Hp. pose proof (untouched_place _ _ _ Hu) as Hpl. unfold fbyte, fblock.
  assert (Hv : valid (slot_of (p / Z.of_nat BSIZE)) = true).
  { apply leaf_valid, slot_of_leaf. unfold BSIZE. divlia. }
  rewrite Hpl by done. destruct (Z.eqb_spec (place L b d (slot_of (p / Z.of_nat BSIZE))) 0); [done|].
  by rewrite (proj1 Hu).
Qed.

Lemma is_file_frame b b' n tc : is_file b n tc -> disk_dinode L b' n = disk_dinode L b n ->
  untouched b b' (disk_dinode L b n) -> is_file b' n tc.
Proof.
  intros [H1 H2 H3 H4 H5 H6] Hd Hu.
  destruct (file_frame L sb Hgeo b b' _ H2 (proj1 Hu) (proj2 Hu)) as (G1 & G2 & G3).
  split; rewrite Hd; try done; [by rewrite G2|by eapply tight_place|].
  intros p Hp. rewrite (untouched_byte b b'); [by apply H6|done|]. pose proof (fo_size _ _ _ _ H2). lia.
Qed.

Lemma disjoint_sym b d d2 : disjoint_files L b d d2 -> disjoint_files L b d2 d.
Proof. intros Hd s s' Hs Hs' H0 He. apply (Hd s' s); [done|done|congruence|done]. Qed.

(** Another file's blocks stay while a tree grows. *)
Lemma grows_untouched b d b' d' d2 : grows L sb b d b' d' -> file_ok L sb b d2 -> disjoint_files L b d d2 ->
  untouched b b' d2.
Proof.
  intros Hg Ho Hdj. pose proof geo_bounds as Hgb. pose proof (fo_wf _ _ _ _ Ho) as Hw2.
  split; [|apply (ex_used _ _ _ _ _ _ Hg)].
  intros s Hs H0. destruct (iw_used _ _ _ _ Hw2 s Hs H0) as [? ?].
  apply (ex_frame _ _ _ _ _ _ Hg); [lia|done| |].
  - intros j. apply (data_not_bitmap L sb Hgeo). lia.
  - intros s' Hs' He. apply (Hdj s' s); [done|done|lia|done].
Qed.

(** Writing a sector of inodes. *)
Lemma meta_untouched b n x d : 0 <= n < ninodes g -> iwf L sb b d -> untouched b (setblock L b (IBLOCK n) x) d.
Proof.
  intros Hn Hw. destruct (IBLOCK_range L sb Hgeo n Hn) as (_ & Hr & Hnb). split.
  - intros s Hs H0. destruct (iw_used _ _ _ _ Hw s Hs H0). by rewrite blockof_set, decide_False by lia.
  - intros j Hj. by rewrite used_set.
Qed.

Lemma untouched_trans b b1 b2 d : untouched b b1 d -> untouched b1 b2 d -> untouched b b2 d.
Proof.
  intros A B. split.
  - intros s Hs H0. rewrite <- (untouched_place _ _ _ A s Hs) in *. rewrite (proj1 B) by done.
    pose proof (proj1 A s Hs) as HA. rewrite <- (untouched_place _ _ _ A s Hs) in HA. by apply HA.
  - intros j Hj Hu. by apply B, A.
Qed.

(** One inode changes, the others do not. *)
Lemma fsys_change m b fs k t c m' b' : fsys m b fs -> (k < length fs)%nat -> built m' b' ->
  freeinode m' = freeinode m ->
  (forall j, (j < length fs)%nat -> j <> k -> disk_dinode L b' (ino j) = disk_dinode L b (ino j) /\
     untouched b b' (disk_dinode L b (ino j)) /\
     disjoint_files L b' (disk_dinode L b' (ino k)) (disk_dinode L b (ino j))) ->
  is_file b' (ino k) (t, c) -> freeblock m' = dstart sb + total (<[k := (t, c)]> fs) ->
  fsys m' b' (<[k := (t, c)]> fs).
Proof.
  intros [Hb Hcnt Hroom Hfile Hap Hfr] Hk Hb' Hfi Ho Hf Hfree. split; try done.
  - by rewrite length_insert, Hfi.
  - by rewrite Hfi.
  - intros j tc Hj. destruct (decide (j = k)) as [->|Hne].
    + rewrite list_lookup_insert_eq in Hj by done. by injection Hj as <-.
    + rewrite list_lookup_insert_ne in Hj by done. destruct (Ho j) as (Hd & Hu & _); [by eapply lookup_lt_Some|done|].
      eapply is_file_frame; [by apply Hfile|done|done].
  - intros j j' Hj Hj' Hjj. rewrite length_insert in Hj, Hj'.
    destruct (decide (j = k)) as [->|Hne]; [|destruct (decide (j' = k)) as [->|Hne']].
    + destruct (Ho j') as (Hd & _ & Hdj); [done|done|]. by rewrite Hd.
    + destruct (Ho j) as (Hd & _ & Hdj); [done|done|]. rewrite Hd. by apply disjoint_sym.
    + destruct (Ho j) as (Hd & Hu & _), (Ho j') as (Hd' & Hu' & _); try done. rewrite Hd, Hd'.
      eapply disjoint_place; [by apply untouched_place|by apply untouched_place|]. by apply Hap.
Qed.

Lemma dinode_grown b d b' d' off : dinode_ok d -> grows L sb b d b' d' -> 0 <= off < 2 ^ 32 ->
  dinode_ok (set_size off d').
Proof.
  intros [D1 D2 D3 D4 D5 D6 D7] Hg Ho. destruct (ex_attr _ _ _ _ _ _ Hg) as [l Hl]. pose proof (ex_wf _ _ _ _ _ _ Hg) as Hw.
  split; cbn [set_size d_type d_major d_minor d_nlink d_size d_addrs]; try (rewrite Hl; done); [done|apply Hw|].
  by eapply iwf_addrs.
Qed.

(** The appended bytes in the file, once its inode is written. *)
Lemma appended_file m b n t c p m1 b1 d1 x : is_file b n (t, c) -> 0 <= n < ninodes g -> locked b = ∅ -> fsdisk L sb b ->
  let off := Z.of_nat (length c) in let len := Z.of_nat (length p) in
  0 < len -> off + len <= maxblk * 512 -> appended m b (disk_dinode L b n) off p m1 b1 d1 ->
  let b2 := setblock L b1 (IBLOCK n) x in let d2 := set_size (off + len) d1 in
  fsdisk L sb b2 -> disk_dinode L b2 n = d2 -> dinode_ok d2 ->
  (forall j, 0 <= j < ninodes g -> j <> n -> disk_dinode L b2 j = disk_dinode L b1 j) ->
  is_file b2 n (t, c ++ p) /\
  (forall j, 0 <= j < ninodes g -> j <> n -> disk_dinode L b2 j = disk_dinode L b j) /\
  forall d, file_ok L sb b d -> disjoint_files L b (disk_dinode L b n) d ->
    untouched b b2 d /\ disjoint_files L b2 d2 d.
Proof.
  intros Hfk Hn Hlk Hb off len Hlp Hmax [A1 A2 A3 A4 A5] b2 d2 Hb2 Hd2 Hok2 Ho. pose proof (is_file_size _ _ _ Hfk) as Hsz. cbn [snd] in Hsz.
  destruct Hfk as [F1 F2 F3 F4 F5 F6]. cbn [fst snd] in *. set (d0 := disk_dinode L b n) in *.
  pose proof (fo_wf _ _ _ _ F2) as Hw0. pose proof (wr_grows _ _ _ _ _ _ _ _ A1) as Hg. pose proof (ex_wf _ _ _ _ _ _ Hg) as Hw1.
  assert (Hmax2 : off + len <= MAXFILE * 512) by (unfold maxblk, MAXFILE, NDIRECT, NINDIRECT in *; lia).
  destruct (written_longer L sb Hgeo b (Inode 1 n 0 0 d0) b1 d1 off p x) as [W1 W2 W3 W4 W5 W6 W7 W8 W9];
    cbn [dino inum] in *; try done; try (unfold BSIZE; fold len; lia).
  assert (Hu : untouched b1 b2 d1) by (by apply meta_untouched).
  split; [|split; [done|]].
  - split; rewrite Hd2; cbn [fst snd]; try done.
    + destruct W4 as [W4 _]. exact (eq_trans W4 F3).
    + etrans; [exact W3|]. rewrite F4. unfold off. rewrite Nat2Z.id. apply splice_end.
    + cbn [d2 set_size d_size]. eapply tight_place; [|exact A3]. intros s Hs. unfold d2. rewrite place_size. by apply untouched_place.
    + intros q Hq. cbn [d2 set_size d_size] in Hq.
      assert (E : fbyte L b2 d2 q = fbyte L b2 d1 q) by (unfold fbyte, fblock, d2; by rewrite place_size).
      rewrite E, (untouched_byte b1 b2 d1) by (done || lia). rewrite (wr_byte _ _ _ _ _ _ _ _ A1) by (unfold BSIZE; lia).
      rewrite decide_False by (fold len; lia). apply F6. lia.
  - intros d Hd Hdj. split; [|by apply W7].
    eapply untouched_trans; [by eapply grows_untouched|]. apply meta_untouched; [done|].
    apply (grows_other L sb Hgeo _ _ _ _ _ Hw0 Hg Hd Hdj).
Qed.

Lemma iappend_ok m b fs k t c p : fsys m b fs -> fs !! k = Some (t, c) -> p <> [] ->
  Z.of_nat (length c) + Z.of_nat (length p) <= maxblk * 512 ->
  dstart sb + total (<[k := (t, c ++ p)]> fs) <= lstart L ->
  exists m' b', iappend (ino k) p m = Ok tt m' /\ fsys m' b' (<[k := (t, c ++ p)]> fs).
Proof.
  intros Hfs Hk Hp Hmax Hf. pose proof (fy_built _ _ _ Hfs) as Hb. pose proof (lookup_lt_Some _ _ _ Hk) as Hklt.
  assert (Hn : 0 <= ino k < ninodes g).
  { pose proof (fy_count _ _ _ Hfs). pose proof (fy_room _ _ _ Hfs). unfold ino. lia. }
  pose proof (fy_file _ _ _ Hfs _ _ Hk) as Hfk. pose proof (is_file_size _ _ _ Hfk) as Hsz. cbn [snd] in Hsz.
  assert (Hlp : 0 < Z.of_nat (length p)) by (destruct p; [done|cbn [length]; lia]).
  assert (Hlim : Z.of_nat (length c) + Z.of_nat (length p) < 2 ^ 32) by (unfold maxblk, NDIRECT, NINDIRECT in *; lia).
  rewrite (total_insert _ _ _ _ _ Hk) in Hf.
  unfold iappend. unfold bind at 1. rewrite (rinode_ok m b) by done. unfold xint at 1.
  rewrite u32_id by (rewrite Hsz; lia). rewrite Hsz.
  destruct (iappend_loop_ok (length p / 512 + 3) m b (disk_dinode L b (ino k)) (Z.of_nat (length c)) p) as (m1 & b1 & d1 & Hrun & A);
    try done; [apply (fo_wf _ _ _ _ (if_ok _ _ _ Hfk))|rewrite <- Hsz; apply Hfk|lia|lia| |rewrite (fy_free _ _ _ Hfs); lia|].
  { intros _. rewrite Nat2Z.inj_add, Nat2Z.inj_div. divlia. }
  unfold bind at 1. rewrite Hrun. unfold xint. rewrite u32_id by lia.
  pose proof (dinode_grown _ _ _ _ (Z.of_nat (length c) + Z.of_nat (length p)) (if_dinode _ _ _ Hfk)
    (wr_grows _ _ _ _ _ _ _ _ (ap_wrote _ _ _ _ _ _ _ _ A)) ltac:(lia)) as Hok2.
  destruct (winode_ok m1 b1 (ino k) _ (ap_built _ _ _ _ _ _ _ _ A) Hn Hok2) as (m2 & x & Hrun2 & Hb2 & Hd2 & Hothers & Hfb & Hfi).
  rewrite Hrun2. exists m2, (setblock L b1 (IBLOCK (ino k)) x). split; [done|].
  destruct (appended_file m b (ino k) t c p m1 b1 d1 x Hfk Hn (bu_locked _ _ Hb) (bu_disk _ _ Hb) Hlp Hmax A (bu_disk _ _ Hb2) Hd2 Hok2 Hothers)
    as (G1 & G2 & G3).
  apply (fsys_change m b); try done.
  - rewrite Hfi. apply A.
  - intros j Hj Hne. split; [apply G2; pose proof (fy_count _ _ _ Hfs); pose proof (fy_room _ _ _ Hfs); unfold ino; lia|].
    destruct (lookup_lt_is_Some_2 fs j Hj) as [tc Htc]. rewrite Hd2. apply G3.
    + apply (fy_file _ _ _ Hfs _ _ Htc).
    + by apply (fy_apart _ _ _ Hfs).
  - rewrite Hfb, (ap_free _ _ _ _ _ _ _ _ A), (fy_free _ _ _ Hfs), (total_insert _ _ _ _ _ Hk). lia.
Qed.

(** An inode without blocks. *)
Definition fresh (t : Z) : dinode := DInode t 0 0 1 0 (replicate 13 0).

Lemma fresh_place b t s : place L b (fresh t) s = 0.
Proof.
  induction s as [n|s IH n]; cbn [place]; [|by rewrite IH].
  unfold aget, fresh. cbn [d_addrs]. case_decide; [|done]. destruct (replicate 13 0 !! Z.to_nat n) eqn:E; [|done].
  by apply lookup_replicate in E as [-> _].
Qed.

Lemma fresh_dinode t : t = T_DIR \/ t = T_FILE -> dinode_ok (fresh t).
Proof.
  intros Ht. split; cbn [fresh d_type d_major d_minor d_nlink d_size d_addrs]; try lia; try done.
  - destruct Ht as [->| ->]; unfold T_DIR, T_FILE; lia.
  - apply Forall_replicate. lia.
Qed.

Lemma fresh_file b n t : t = T_DIR \/ t = T_FILE -> disk_dinode L b n = fresh t -> is_file b n (t, []).
Proof.
  intros Ht Hd. split; rewrite ?Hd; cbn [fst snd]; try done.
  - by apply fresh_dinode.
  - split; [split| | |]; try done.
    + intros s _ H0. by rewrite fresh_place in H0.
    + intros s s' _ _ H0. by rewrite fresh_place in H0.
    + intros bn H1 H2. unfold BSIZE in H2. cbn [fresh d_size] in H2. lia.
    + destruct Ht as [->| ->]; done.
  - cbn [fresh d_size]. split; [intros bn Hbn|]; rewrite fresh_place; (split; [done|unfold NDIRECT; lia]).
  - intros p Hp. unfold fbyte, fblock. rewrite fresh_place. cbn [Z.eqb]. unfold aget. case_decide; [|done].
    destruct (replicate BSIZE 0 !! Z.to_nat (p mod Z.of_nat BSIZE)) eqn:E; [|done]. by apply lookup_replicate in E as [-> _].
Qed.

Lemma fresh_apart b t d : disjoint_files L b (fresh t) d.
Proof. intros s s' _ _ H0. by rewrite fresh_place in H0. Qed.

Lemma total_snoc fs t : total (fs ++ [(t, [])]) = total fs.
Proof.
  unfold total. rewrite sum_list_with_app. replace (sum_list_with _ [(t, [])]) with 0%nat by done. lia.
Qed.

Lemma ialloc_ok m b fs t : fsys m b fs -> t = T_DIR \/ t = T_FILE -> freeinode m + 1 <= ninodes g ->
  exists m' b', ialloc t m = Ok (ino (length fs)) m' /\ fsys m' b' (fs ++ [(t, [])]).
Proof.
  intros [Hb Hcnt Hroom Hfile Hap Hfr] Ht Hi.
  assert (Hn : 0 <= ino (length fs) < ninodes g) by (unfold ino; lia).
  unfold ialloc. unfold bind at 1. cbn [gets id]. replace (freeinode m) with (ino (length fs)) by (unfold ino; lia).
  unfold bind at 1. cbn [modify].
  set (m0 := MkFs _ _ _ _). assert (Hb0 : built m0 b) by (destruct Hb; by split).
  assert (Ed : DInode (s16 (xshort t)) 0 0 (xshort 1) (xint 0) (replicate 13 0) = fresh t).
  { unfold fresh. f_equal. by destruct Ht as [->| ->]. }
  rewrite Ed. destruct (winode_ok m0 b (ino (length fs)) (fresh t)) as (m1 & x & Hrun & Hb1 & Hd & Ho & Hfb & Hfi); [done|done| |].
  { by apply fresh_dinode. }
  unfold bind at 1. rewrite Hrun. exists m1, (setblock L b (IBLOCK (ino (length fs))) x). split; [done|].
  assert (Hold : forall j tc, fs !! j = Some tc -> disk_dinode L (setblock L b (IBLOCK (ino (length fs))) x) (ino j) =
    disk_dinode L b (ino j) /\ is_file (setblock L b (IBLOCK (ino (length fs))) x) (ino j) tc).
  { intros j tc Hj. pose proof (lookup_lt_Some _ _ _ Hj) as Hjlt. pose proof (Hfile _ _ Hj) as Hfj.
    assert (Hdj : disk_dinode L (setblock L b (IBLOCK (ino (length fs))) x) (ino j) = disk_dinode L b (ino j))
      by (apply Ho; unfold ino in *; lia).
    split; [done|]. eapply is_file_frame; [done|done|]. apply meta_untouched; [done|]. apply (fo_wf _ _ _ _ (if_ok _ _ _ Hfj)). }
  split; try done.
  - rewrite Hfi, length_app. cbn [freeinode m0 length]. rewrite u32_id by lia. lia.
  - rewrite Hfi. cbn [freeinode m0]. rewrite u32_id by lia. lia.
  - intros j tc [Hj|[Hj1 Hj2]]%lookup_app_Some; [by apply Hold|].
    destruct (j - length fs)%nat eqn:Ej; [|done]. injection Hj2 as <-. replace j with (length fs) by lia.
    by apply fresh_file.
  - intros j j' Hj Hj' Hne. rewrite length_app in Hj, Hj'. cbn [length] in Hj, Hj'.
    destruct (decide (j = length fs)) as [->|Hj1]; [rewrite Hd; apply fresh_apart|].
    destruct (decide (j' = length fs)) as [->|Hj2]; [rewrite Hd; apply disjoint_sym, fresh_apart|].
    destruct (lookup_lt_is_Some_2 fs j ltac:(lia)) as [tc Htc], (lookup_lt_is_Some_2 fs j' ltac:(lia)) as [tc' Htc'].
    destruct (Hold _ _ Htc) as [-> _], (Hold _ _ Htc') as [-> _].
    eapply disjoint_place; [| |apply Hap; [lia|lia|done]].
    + apply untouched_place, meta_untouched; [done|]. apply (fo_wf _ _ _ _ (if_ok _ _ _ (Hfile _ _ Htc))).
    + apply untouched_place, meta_untouched; [done|]. apply (fo_wf _ _ _ _ (if_ok _ _ _ (Hfile _ _ Htc'))).
  - rewrite Hfb, total_snoc. exact Hfr.
Qed.

(** ** The files of the command line *)

Lemma total_mono fs k t c c' : fs !! k = Some (t, c) -> (length c <= length c')%nat ->
  total fs <= total (<[k := (t, c')]> fs).
Proof.
  intros Hk Hl. rewrite <- (list_insert_id fs k (t, c)) at 1 by done.
  rewrite !insert_take_drop by (by eapply lookup_lt_Some). unfold total. rewrite !sum_list_with_app. cbn [sum_list_with snd].
  pose proof (bcost_mono (Z.of_nat (length c)) (Z.of_nat (length c')) ltac:(lia)). lia.
Qed.

Lemma append_chunks_ok chunks : forall m b fs k t c, fsys m b fs -> fs !! k = Some (t, c) ->
  Forall (fun p => p <> []) chunks -> Z.of_nat (length (c ++ concat chunks)) <= maxblk * 512 ->
  dstart sb + total (<[k := (t, c ++ concat chunks)]> fs) <= lstart L ->
  exists m' b', append_chunks (ino k) chunks m = Ok tt m' /\ fsys m' b' (<[k := (t, c ++ concat chunks)]> fs).
Proof.
  induction chunks as [|p chunks IH]; intros m b fs k t c Hfs Hk Hch Hmax Hf; cbn [append_chunks concat] in *.
  { rewrite app_nil_r in *. exists m, b. rewrite list_insert_id by done. done. }
  apply Forall_cons in Hch as [Hp Hch]. pose proof (lookup_lt_Some _ _ _ Hk) as Hklt.
  assert (Hk1 : <[k := (t, c ++ p)]> fs !! k = Some (t, c ++ p)) by (by apply list_lookup_insert_eq).
  rewrite app_assoc in *.
  assert (E : <[k := (t, (c ++ p) ++ concat chunks)]> (<[k := (t, c ++ p)]> fs) = <[k := (t, (c ++ p) ++ concat chunks)]> fs)
    by apply list_insert_insert_eq.
  rewrite <- E in Hf. rewrite !length_app in Hmax.
  destruct (iappend_ok m b fs k t c p) as (m1 & b1 & Hrun & Hfs1); [done|done|done|lia| |].
  { etrans; [|exact Hf]. apply Zplus_le_compat_l. eapply total_mono; [exact Hk1|]. rewrite !length_app. lia. }
  destruct (IH m1 b1 (<[k := (t, c ++ p)]> fs) k t (c ++ p)) as (m2 & b2 & Hrun2 & Hfs2); try done.
  { rewrite !length_app. lia. }
  exists m2, b2. unfold bind. rewrite Hrun. split; [done|]. by rewrite E in Hfs2.
Qed.

Lemma xshort_ino k : ino k < ninodes g -> xshort (ino k) = ino k.
Proof. intros H. unfold xshort. apply u16_id. unfold ino in *. lia. Qed.

(** A file that can be opened, with a name mkfs accepts and contents it can
    store. *)
Record input_ok (f : list Z * option (list (list Z))) : Prop := InputOk {
  in_name : 47 ∉ f.1;
  in_open : exists chunks, f.2 = Some chunks /\ Forall (fun p => p <> []) chunks /\
    Z.of_nat (length (concat chunks)) <= maxblk * 512
}.

Definition bytes_of (f : list Z * option (list (list Z))) : list Z := concat (default [] f.2).

Lemma add_file_ok m b r fl f : fsys m b ((T_DIR, r) :: fl) -> input_ok f -> freeinode m + 1 <= ninodes g ->
  Z.of_nat (length r) + 16 <= maxblk * 512 ->
  let fs' := (T_DIR, r ++ dirent_bytes (strip f.1) (ino (S (length fl)))) :: fl ++ [(T_FILE, bytes_of f)] in
  dstart sb + total fs' <= lstart L ->
  exists m' b', add_file (ino 0) f m = Ok tt m' /\ fsys m' b' fs'.
Proof.
  intros Hfs [Hn (chunks & Hc & Hne & Hmax)] Hi Hr fs' Hf. unfold add_file, bytes_of in *. rewrite Hc in *. cbn [default from_option id] in *.
  rewrite bool_decide_false by done. unfold bind at 1. cbn [negb assert ret].
  destruct (ialloc_ok m b _ T_FILE Hfs) as (m1 & b1 & Hrun1 & Hfs1); [by right|done|].
  unfold bind at 1. rewrite Hrun1. unfold add_entry. cbn [length].
  assert (Hino : ino (S (length fl)) < ninodes g).
  { pose proof (fy_count _ _ _ Hfs1) as Hc1. pose proof (fy_room _ _ _ Hfs1). rewrite length_app in Hc1. cbn [length] in Hc1. unfold ino. lia. }
  rewrite xshort_ino by done. set (e := dirent_bytes _ _) in *.
  assert (He : length e = 16%nat) by apply length_dirent.
  set (fs1 := ((T_DIR, r) :: fl) ++ [(T_FILE, [])]) in *.
  assert (E1 : <[0%nat := (T_DIR, r ++ e)]> fs1 = (T_DIR, r ++ e) :: fl ++ [(T_FILE, [])]) by done.
  assert (E2 : <[S (length fl) := (T_FILE, [] ++ concat chunks)]> (<[0%nat := (T_DIR, r ++ e)]> fs1) = fs').
  { rewrite E1. unfold fs'. rewrite Hc. change (<[S (length fl) := ?x]> (?a :: ?l)) with (a :: <[length fl := x]> l).
    by rewrite insert_app_r_alt, Nat.sub_diag by lia. }
  assert (Hk : <[0%nat := (T_DIR, r ++ e)]> fs1 !! S (length fl) = Some (T_FILE, [])).
  { rewrite E1. change ((?a :: ?l) !! S (length fl)) with (l !! length fl). by rewrite lookup_app_r, Nat.sub_diag by lia. }
  rewrite <- E2 in Hf.
  destruct (iappend_ok m1 b1 fs1 0 T_DIR r e) as (m2 & b2 & Hrun2 & Hfs2); [done|done| |lia| |].
  { intros E0. by rewrite E0 in He. }
  { etrans; [|exact Hf]. apply Zplus_le_compat_l. eapply total_mono; [exact Hk|]. cbn. lia. }
  unfold bind at 1. rewrite Hrun2.
  destruct (append_chunks_ok chunks m2 b2 _ (S (length fl)) T_FILE [] Hfs2 Hk) as (m3 & b3 & Hrun3 & Hfs3); [done|done|done|].
  exists m3, b3. split; [done|]. by rewrite <- E2.
Qed.

(** The root directory's entries for the files, the first with inode [k + 1]. *)
Fixpoint dir_of (k : nat) (files : list (list Z * option (list (list Z)))) : list Z :=
  match files with
  | [] => []
  | f :: files => dirent_bytes (strip f.1) (ino k) ++ dir_of (S k) files
  end.

Definition regular (f : list Z * option (list (list Z))) : Z * list Z := (T_FILE, bytes_of f).

Lemma length_dir_of files : forall k, length (dir_of k files) = (16 * length files)%nat.
Proof. induction files as [|f files IH]; intros k; [done|]. cbn [dir_of length]. rewrite length_app, length_dirent, IH. lia. Qed.

Lemma total_cons_app t r r' fl fl2 : (length r <= length r')%nat -> total ((t, r) :: fl) <= total ((t, r') :: fl ++ fl2).
Proof.
  intros Hl. unfold total. cbn [sum_list_with snd]. rewrite sum_list_with_app.
  pose proof (bcost_mono (Z.of_nat (length r)) (Z.of_nat (length r')) ltac:(lia)). lia.
Qed.

Lemma add_files_ok files : forall m b r fl, fsys m b ((T_DIR, r) :: fl) -> Forall input_ok files ->
  freeinode m + Z.of_nat (length files) <= ninodes g ->
  Z.of_nat (length r) + 16 * Z.of_nat (length files) <= maxblk * 512 ->
  let fs' := (T_DIR, r ++ dir_of (S (length fl)) files) :: fl ++ (regular <$> files) in
  dstart sb + total fs' <= lstart L ->
  exists m' b', add_files (ino 0) files m = Ok tt m' /\ fsys m' b' fs'.
Proof.
  induction files as [|f files IH]; intros m b r fl Hfs Hin Hi Hr fs' Hf; cbn [add_files].
  { exists m, b. unfold fs'. cbn [dir_of fmap list_fmap]. by rewrite !app_nil_r. }
  apply Forall_cons in Hin as [Hin1 Hin2]. cbn [length] in *.
  set (r1 := r ++ dirent_bytes (strip f.1) (ino (S (length fl)))).
  assert (Hl1 : length r1 = (length r + 16)%nat) by (unfold r1; by rewrite length_app, length_dirent).
  assert (E : fs' = (T_DIR, r1 ++ dir_of (S (length (fl ++ [regular f]))) files) :: (fl ++ [regular f]) ++ (regular <$> files)).
  { unfold fs', r1. cbn [dir_of fmap list_fmap]. rewrite <- !app_assoc, length_app. cbn [length app].
    by replace (length fl + 1)%nat with (S (length fl)) by lia. }
  rewrite E in *.
  destruct (add_file_ok m b r fl f Hfs Hin1) as (m1 & b1 & Hrun & Hfs1); [lia|lia| |].
  { etrans; [|exact Hf]. apply Zplus_le_compat_l. apply total_cons_app. rewrite !length_app, length_dirent. fold r1. rewrite Hl1. lia. }
  fold r1 in Hfs1. unfold bind. rewrite Hrun. apply (IH m1 b1 r1 (fl ++ [regular f])); try done; [|lia].
  rewrite (fy_count _ _ _ Hfs1). rewrite (fy_count _ _ _ Hfs) in Hi. cbn [length] in *. rewrite length_app. cbn [length]. lia.
Qed.

(** ** The bitmap *)

Lemma balloc_bits_spec n : (n <= 4096)%nat ->
  let bits := fold_left (fun buf i => setbit buf (Z.of_nat i)) (seq 0 n) (replicate 512 0) in
  length bits = BSIZE /\ forall i, 0 <= i < BPB -> testbit bits i = (i <? Z.of_nat n).
Proof.
  induction n as [|n IH]; intros Hn bits.
  - split; [done|]. intros i Hi. unfold bits. cbn [seq fold_left]. rewrite testbit_spec.
    assert (Hz : aget 0 (replicate 512 0) (i / 8) = 0).
    { unfold aget. case_decide; [|done]. destruct (replicate 512 0 !! Z.to_nat (i / 8)) eqn:E; [|done].
      by apply lookup_replicate in E as [-> _]. }
    rewrite Hz, Z.bits_0. symmetry. apply Z.ltb_ge. lia.
  - destruct (IH ltac:(lia)) as [Hl Ht]. unfold bits. rewrite seq_S, fold_left_app. cbn [fold_left Nat.add].
    split; [by rewrite length_setbit|]. intros i Hi. rewrite testbit_setbit by (done || unfold BPB; lia).
    rewrite Ht by done. case_bool_decide; destruct (Z.ltb_spec i (Z.of_nat n)), (Z.ltb_spec i (Z.of_nat (S n))); try done; lia.
Qed.

(** Sectors as a block store of the kernel. *)
Definition store (s : gmap Z (list Z)) : bstate := BState (kmap (fun n => (1, n)) s) ∅ ∅ false.

Lemma store_lookup s n : img (store s) !! (1, n) = s !! n.
Proof. unfold store. cbn [img]. apply (lookup_kmap (fun n => (1, n)) s n). Qed.

Lemma blockof_store s n : blockof L (store s) n = default [] (s !! n).
Proof. unfold blockof. cbn [ldev]. by rewrite store_lookup. Qed.

Definition bm0 : Z := ninodes g / IPB + 3.

Lemma bmblock_store n : 0 <= n < fssize g -> bmblock sb n = n / BPB + bm0.
Proof. intros Hn. rewrite (bmblock_eq L sb Hgeo) by done. unfold bm0. cbn [sb_ninodes]. lia. Qed.

Lemma store_used s F n : s !! bm0 = Some (balloc_bits F) -> 0 <= F < BPB ->
  (forall k, bitmap k -> k <> bm0 -> s !! k = Some (replicate BSIZE 0)) -> 0 <= n < fssize g ->
  used L sb (store s) n = (n <? F).
Proof.
  intros H0 HF Hz Hn. unfold used. rewrite blockof_store, bmblock_store by done.
  assert (Hm : 0 <= n mod BPB < BPB) by (apply Z.mod_pos_bound; unfold BPB; lia).
  destruct (decide (n / BPB = 0)) as [E|E].
  - rewrite E, Z.add_0_l, H0. cbn [default from_option id].
    destruct (balloc_bits_spec (Z.to_nat F)) as [_ Ht]; [unfold BPB in HF; lia|]. cbn zeta in Ht.
    unfold balloc_bits. rewrite Ht by done. rewrite Z2Nat.id by lia.
    replace (n mod BPB) with n by (unfold BPB in *; divlia). done.
  - rewrite Hz; [|exists n; split; [done|by apply bmblock_store]|lia]. cbn [default from_option id].
    destruct (balloc_bits_spec 0) as [_ Ht]; [lia|]. cbn in Ht.
    change (replicate BSIZE 0) with (replicate 512 0). cbn [replicate]. rewrite Ht by done.
    change (Z.of_nat 0) with 0. rewrite (proj2 (Z.ltb_ge _ _)) by lia. symmetry. apply Z.ltb_ge. unfold BPB in *. divlia.
Qed.

Lemma bm0_bitmap : bitmap bm0.
Proof. pose proof geo_bounds. exists 0. split; [lia|]. rewrite bmblock_store by lia. rewrite Z.div_0_l by done. done. Qed.

Lemma length_balloc_bits F : 0 <= F <= BPB -> length (balloc_bits F) = BSIZE.
Proof. intros HF. unfold balloc_bits. apply balloc_bits_spec. unfold BPB in HF. lia. Qed.

Lemma bitmap_range n : bitmap n -> 3 <= n < dstart sb.
Proof. intros (j & Hj & <-). by apply (bmblock_range L sb Hgeo). Qed.

#[local] Instance bitmap_dec n : Decision (bitmap n).
Proof.
  refine (cast_if (decide (bm0 <= n <= (fssize g - 1) / BPB + bm0))).
  - exists (Z.max 0 ((n - bm0) * BPB)). pose proof geo_bounds.
    assert (H1 : 0 <= (n - bm0) * BPB < fssize g) by (unfold BPB in *; divlia).
    split; [lia|]. rewrite bmblock_store by lia. rewrite Z.max_r by lia. rewrite Z.div_mul by (unfold BPB; lia). lia.
  - intros (j & Hj & <-). rewrite bmblock_store in n0 by done. unfold BPB in *. apply n0. divlia.
Defined.

(** What the kernel finds on the image once the bitmap is written. *)
Lemma built_store m b : built m b -> freeblock m < BPB ->
  let b' := store (<[bm0 := balloc_bits (freeblock m)]> (sects m)) in
  fsdisk L sb b' /\ (forall n, 0 <= n < lstart L -> ~ bitmap n -> blockof L b' n = blockof L b n) /\
  (forall n, 0 <= n < fssize g -> used L sb b' n = used L sb b n).
Proof.
  intros Hb HF b'. pose proof geo_bounds as Hgb. pose proof (bu_range _ _ Hb) as Hr.
  assert (Hbl : forall n, 0 <= n < lstart L -> ~ bitmap n -> (<[bm0 := balloc_bits (freeblock m)]> (sects m)) !! n = Some (blockof L b n)).
  { intros n Hn Hnb. rewrite lookup_insert_ne by (intros <-; apply Hnb, bm0_bitmap). by apply Hb. }
  assert (Hu : forall n, 0 <= n < fssize g -> used L sb b' n = used L sb b n).
  { intros n Hn. rewrite (bu_used _ _ Hb) by done. apply store_used; [by rewrite lookup_insert_eq|lia| |done].
    intros k Hk Hne. rewrite lookup_insert_ne by done. by apply Hb. }
  assert (Hbo : forall n, 0 <= n < lstart L -> ~ bitmap n -> blockof L b' n = blockof L b n).
  { intros n Hn Hnb. unfold b'. rewrite blockof_store, Hbl by done. done. }
  split; [|done]. split.
  - intros n Hn. cbn [ldev]. unfold b'. rewrite store_lookup. destruct (decide (bitmap n)) as [Hbn|Hbn].
    + destruct (decide (n = bm0)) as [->|Hne].
      * rewrite lookup_insert_eq. eexists. split; [done|]. apply length_balloc_bits. lia.
      * rewrite lookup_insert_ne, (bu_bitmap _ _ Hb) by done. eexists. split; [done|]. by rewrite length_replicate.
    + rewrite Hbl by done. eexists. split; [done|]. eapply length_blockof; [apply Hb|done].
  - rewrite Hbo; [apply Hb|lia|]. intros Hbn%bitmap_range. lia.
  - intros n Hn. rewrite Hu by lia. by apply Hb.
Qed.

(** ** The empty file system *)

Context (Hfit : nblocks g + dstart sb + nlog g = fssize g) (Hnonneg : 0 <= nblocks g).

Lemma zero_lookup n k : 0 <= k < Z.of_nat n ->
  fold_left (fun (m : gmap Z (list Z)) i => <[Z.of_nat i := replicate 512 0]> m) (seq 0 n) ∅ !! k = Some (replicate BSIZE 0).
Proof.
  induction n as [|n IH]; intros Hk; [lia|]. rewrite seq_S, fold_left_app. cbn [fold_left Nat.add].
  destruct (decide (k = Z.of_nat n)) as [->|Hne]; [apply lookup_insert_eq|].
  rewrite lookup_insert_ne by done. apply IH. lia.
Qed.

Lemma sb_block_ok : length (sb_block g) = BSIZE /\ dec_superblock (sb_block g) = sb.
Proof.
  pose proof geo_bounds. pose proof (fg_inodes _ _ Hgeo) as Hi. pose proof (fg_lsize _ _ Hgeo) as Hl. cbn in Hi, Hl.
  assert (H4 : 0 <= nlog g < 2 ^ 32 /\ 0 <= ninodes g < 2 ^ 32 /\ 0 <= nblocks g < 2 ^ 32 /\ 0 <= fssize g < 2 ^ 32)
    by (unfold LOGSIZE in Hl; lia). destruct H4 as (H1 & H2 & H3 & H5).
  unfold sb_block, xint. rewrite !u32_id by done.
  assert (Hz : length (replicate 512 0) = BSIZE) by apply length_replicate. revert Hz. generalize (replicate 512 0).
  intros z Hz. unfold BSIZE in *. split; [dsz|].
  unfold dec_superblock. f_equal.
  - rewrite !get_put_le_disj by dsz. rewrite get_put_le by dsz. by apply Z.mod_small.
  - rewrite !get_put_le_disj by dsz. rewrite get_put_le by dsz. by apply Z.mod_small.
  - rewrite get_put_le_disj by dsz. rewrite get_put_le by dsz. by apply Z.mod_small.
  - rewrite get_put_le by dsz. by apply Z.mod_small.
Qed.

Definition empty_fs : mkfs :=
  MkFs (<[1 := sb_block g]> (fold_left (fun (s : gmap Z (list Z)) i => <[Z.of_nat i := replicate 512 0]> s) (seq 0 (Z.to_nat (fssize g))) ∅))
    (dstart sb) (dstart sb) 1.

Lemma empty_lookup n : 0 <= n < fssize g -> n <> 1 -> sects empty_fs !! n = Some (replicate BSIZE 0).
Proof. intros Hn H1. cbn [sects empty_fs]. rewrite lookup_insert_ne by done. apply zero_lookup. lia. Qed.

Lemma empty_built : dstart sb < BPB -> 1 <= ninodes g -> exists b, fsys empty_fs b [].
Proof.
  intros Hd Hni. pose proof geo_bounds as Hgb. destruct sb_block_ok as [Hsl Hsd].
  set (b := store (<[bm0 := balloc_bits (dstart sb)]> (sects empty_fs))).
  assert (Hbm : 3 <= bm0 < dstart sb) by apply bitmap_range, bm0_bitmap.
  assert (Hbo : forall n, n <> bm0 -> blockof L b n = default [] (sects empty_fs !! n)).
  { intros n Hne. unfold b. rewrite blockof_store. by rewrite lookup_insert_ne by done. }
  assert (Hu : forall n, 0 <= n < fssize g -> used L sb b n = (n <? dstart sb)).
  { intros n Hn. apply store_used; [by rewrite lookup_insert_eq|lia| |done].
    intros k Hk Hne. rewrite lookup_insert_ne by done. apply empty_lookup; apply bitmap_range in Hk; lia. }
  assert (H1 : sects empty_fs !! 1 = Some (sb_block g)) by apply lookup_insert_eq.
  assert (Hlk : forall n, 0 <= n < fssize g -> exists x, sects empty_fs !! n = Some x /\ length x = BSIZE).
  { intros n Hn. destruct (decide (n = 1)) as [->|Hne]; [by eexists|]. rewrite empty_lookup by done. eexists. split; [done|apply length_replicate]. }
  exists b. split; cbn [length freeinode empty_fs]; [|lia|lia|done|intros; lia|unfold total; cbn; lia].
  split; cbn [freeblock usedblocks empty_fs]; [split| | |done| |lia|done|done].
  - intros n Hn. cbn [ldev]. unfold b. rewrite store_lookup. destruct (decide (n = bm0)) as [->|Hne].
    + rewrite lookup_insert_eq. eexists. split; [done|]. apply length_balloc_bits. lia.
    + rewrite lookup_insert_ne by done. apply Hlk. lia.
  - by rewrite Hbo, H1 by lia.
  - intros n Hn Hf. rewrite Hu in Hf by lia. lia.
  - intros n Hn Hnb. rewrite Hbo by (intros ->; apply Hnb, bm0_bitmap).
    destruct (Hlk n) as (x & -> & _); [lia|done].
  - intros n Hn%bitmap_range. apply empty_lookup; lia.
  - intros n Hn. rewrite Hbo, empty_lookup by lia. done.
Qed.

(** ** The whole image *)

Definition root_dir (files : list (list Z * option (list (list Z)))) : list Z :=
  dirent_bytes [46] 1 ++ dirent_bytes [46; 46] 1 ++ dir_of 1 files.
Definition all_files (files : list (list Z * option (list (list Z)))) : list (Z * list Z) :=
  (T_DIR, root_dir files) :: (regular <$> files).

Lemma length_root files : length (root_dir files) = (32 + 16 * length files)%nat.
Proof. unfold root_dir. rewrite !length_app, !length_dirent, length_dir_of. lia. Qed.

(** The command line fits the geometry: enough inodes, enough blocks, and no
    more than one block of the bitmap. *)
Record fits (files : list (list Z * option (list (list Z)))) : Prop := Fits {
  ft_input : Forall input_ok files;
  ft_inodes : 2 + Z.of_nat (length files) <= ninodes g;
  ft_dir : Z.of_nat (length (root_dir files)) < maxblk * 512;
  ft_blocks : dstart sb + total (all_files files) <= lstart L;
  ft_bitmap : dstart sb + total (all_files files) < BPB
}.

Definition main_files (files : list (list Z * option (list (list Z)))) : M mkfs unit :=
  let* rootino := ialloc T_DIR in
  assert (rootino =? ROOTINO) ;;;
  add_entry rootino rootino [46] ;;;
  add_entry rootino rootino [46; 46] ;;;
  add_files rootino files.

(** [main] is the empty file system, the files, the size of the root
    directory and the bitmap. *)
Lemma main_split files : main g files mkfs_start =
  (main_files files ;;;
   let* din := rinode ROOTINO in
   winode ROOTINO (set_size (xint ((xint (d_size din) / 512 + 1) * 512)) din) ;;;
   let* s := gets id in balloc g (usedblocks s)) empty_fs.
Proof.
  assert (Hd : ninodes g / IPB + 3 + (fssize g / (512 * 8) + 1) = dstart sb).
  { unfold dstart. cbn [sb_size sb_ninodes]. change BPB with (512 * 8). lia. }
  unfold main. rewrite Hd, Hfit, Z.eqb_refl.
  unfold bind at 1 2 3 4. cbn [modify mkfs_start assert ret zero_sects wsect set_sects sects freeblock usedblocks freeinode].
  change (set_sects _ _) with empty_fs. unfold main_files, bind.
  destruct (ialloc T_DIR empty_fs) as [r s| |]; try done.
  unfold assert. destruct (Z.eqb_spec r ROOTINO) as [->|]; [|done]. unfold ret.
  repeat (match goal with |- context [match ?x with Ok _ _ => _ | _ => _ end] => destruct x; try done end).
Qed.

Lemma main_files_ok files : fits files -> exists m b, main_files files empty_fs = Ok tt m /\ fsys m b (all_files files).
Proof.
  intros [H1 H2 H3 H4 H5]. rewrite length_root in H3. pose proof geo_bounds.
  destruct empty_built as (b0 & Hfs0); [unfold total in *; lia|lia|].
  unfold main_files. destruct (ialloc_ok _ _ _ T_DIR Hfs0) as (m1 & b1 & Hr1 & Hfs1); [by left|cbn [freeinode empty_fs]; lia|].
  unfold bind at 1. rewrite Hr1. cbn [length app]. change (ino 0 =? ROOTINO) with true. unfold bind at 1. cbn [assert ret].
  unfold add_entry. change (xshort (ino 0)) with 1.
  set (e1 := dirent_bytes [46] 1). set (e2 := dirent_bytes [46; 46] 1).
  assert (He1 : length e1 = 16%nat) by apply length_dirent. assert (He2 : length e2 = 16%nat) by apply length_dirent.
  assert (Hle : forall r, (length r <= length (root_dir files))%nat -> dstart sb + total [(T_DIR, r)] <= lstart L).
  { intros r Hr. etrans; [|exact H4]. apply Zplus_le_compat_l. unfold all_files. by apply (total_cons_app T_DIR r (root_dir files) []). }
  rewrite length_root in Hle.
  destruct (iappend_ok m1 b1 _ 0 T_DIR [] e1 Hfs1) as (m2 & b2 & Hr2 & Hfs2); [done|by destruct e1|cbn [length]; lia| |].
  { change (dstart sb + total [(T_DIR, e1)] <= lstart L). apply Hle. lia. }
  unfold bind at 1. rewrite Hr2. change (fsys m2 b2 [(T_DIR, e1)]) in Hfs2.
  destruct (iappend_ok m2 b2 _ 0 T_DIR e1 e2 Hfs2) as (m3 & b3 & Hr3 & Hfs3); [done|by destruct e2|lia| |].
  { change (dstart sb + total [(T_DIR, e1 ++ e2)] <= lstart L). apply Hle. rewrite length_app. lia. }
  unfold bind at 1. rewrite Hr3. change (fsys m3 b3 [(T_DIR, e1 ++ e2)]) in Hfs3.
  destruct (add_files_ok files m3 b3 (e1 ++ e2) [] Hfs3) as (m4 & b4 & Hr4 & Hfs4); [done| | | |].
  - rewrite (fy_count _ _ _ Hfs3). cbn. lia.
  - rewrite length_app. lia.
  - cbn [length app]. rewrite <- app_assoc. exact H4.
  - exists m4, b4. split; [exact Hr4|]. cbn [length app] in Hfs4. by rewrite <- app_assoc in Hfs4.
Qed.

(** *** Names in the root directory *)

Definition dirents (es : list (list Z * Z)) : list Z := concat ((fun e => dirent_bytes e.1 e.2) <$> es).

Fixpoint names (k : nat) (files : list (list Z * option (list (list Z)))) : list (list Z * Z) :=
  match files with
  | [] => []
  | f :: files => (strip f.1, ino k) :: names (S k) files
  end.

Lemma dir_of_names files : forall k, dir_of k files = dirents (names k files).
Proof. induction files as [|f files IH]; intros k; [done|]. cbn [dir_of names]. rewrite IH. done. Qed.

Lemma names_lookup files : forall k j, names k files !! j = (fun f => (strip f.1, ino (k + j))) <$> files !! j.
Proof.
  induction files as [|f0 files IH]; intros k j; [done|]. destruct j as [|j]; cbn [names].
  - by rewrite Nat.add_0_r.
  - change (names (S k) files !! j = (fun f => (strip f.1, ino (k + S j))) <$> files !! j). by rewrite IH, Nat.add_succ_comm.
Qed.

Lemma entry_dirents es : forall j e tl, es !! j = Some e ->
  entry (dirents es ++ tl) (0 + DIRENT * Z.of_nat j) = dirent_bytes e.1 e.2 /\ (S j <= entries (dirents es ++ tl))%nat.
Proof.
  induction es as [|e0 es IH]; intros j e tl Hj; [done|]. unfold dirents. cbn [fmap list_fmap concat]. fold (dirents es).
  rewrite <- app_assoc. pose proof (length_dirent e0.1 e0.2) as Hl. unfold entry, entries, DIRENT in *. destruct j as [|j].
  - injection Hj as ->. split.
    + change (Z.to_nat (0 + 16 * Z.of_nat 0)) with 0%nat. unfold slice. rewrite drop_0, take_app_le, take_ge by lia. done.
    + rewrite length_app, Hl. replace (16 + length (dirents es ++ tl))%nat with (1 * 16 + length (dirents es ++ tl))%nat by lia.
      rewrite Nat.div_add_l by lia. lia.
  - destruct (IH j e tl Hj) as [E Hn]. split.
    + rewrite <- E. unfold slice. replace (Z.to_nat (0 + 16 * Z.of_nat (S j))) with (16 + Z.to_nat (0 + 16 * Z.of_nat j))%nat by lia.
      rewrite <- drop_drop, drop_app_length' by done. done.
    + rewrite length_app, Hl. replace (16 + length (dirents es ++ tl))%nat with (1 * 16 + length (dirents es ++ tl))%nat by lia.
      rewrite Nat.div_add_l by lia. lia.
Qed.

(** The characters of a C string. *)
Definition chars_ok (name : list Z) : Prop := Forall (fun c => 0 < c < 256) name.

Lemma entry_matches name e : chars_ok name -> chars_ok e.1 -> 0 < e.2 < 65536 ->
  negb (de_inum (dirent_bytes e.1 e.2) =? 0) && bool_decide (cname 14 name = cname 14 (de_name (dirent_bytes e.1 e.2))) =
  bool_decide (take 14 name = take 14 e.1).
Proof.
  intros Hc He Hn. rewrite dirent_inum, dirent_name by lia. rewrite (proj2 (Z.eqb_neq e.2 0)) by lia. cbn [negb andb].
  by rewrite cname_pad, cname_id by done.
Qed.

(** The first entry with a name is the one found. *)
Lemma dirents_find es tl j name n : es !! j = Some (name, n) -> (forall i e, es !! i = Some e -> chars_ok e.1 /\ 0 < e.2 < 65536) ->
  (forall i e, (i < j)%nat -> es !! i = Some e -> take 14 e.1 <> take 14 name) ->
  dir_inum name (dirents es ++ tl) = Some n.
Proof.
  intros Hj Hok Hne. destruct (entry_dirents es j _ tl Hj) as [Ej Hn]. destruct (Hok _ _ Hj) as [Hc Hnn]. cbn [fst snd] in *.
  assert (Hlt : (j < length es)%nat) by (by eapply lookup_lt_Some).
  unfold dir_inum, dir_find. rewrite (find_from_skip name _ _ j 0).
  - cbn [fmap option_fmap option_map]. rewrite Ej, dirent_inum by lia. done.
  - lia.
  - intros i Hi. destruct (lookup_lt_is_Some_2 es i ltac:(lia)) as [e He]. destruct (Hok _ _ He) as [Hce Hne'].
    unfold matches. rewrite (proj1 (entry_dirents es i e tl He)), entry_matches by done.
    apply bool_decide_eq_false. intros E. by apply (Hne i e Hi He).
  - unfold matches. rewrite Ej. pose proof (entry_matches name (name, n) Hc Hc Hnn) as E. cbn [fst snd] in E. rewrite E. by apply bool_decide_eq_true.
Qed.

(** *** The size of the root directory and the bitmap *)

(** The root directory with entries [r], its size rounded to a block. *)
Record padded b (r : list Z) : Prop := Padded {
  pd_wf : iwf L sb b (disk_dinode L b ROOTINO);
  pd_type : d_type (disk_dinode L b ROOTINO) = T_DIR;
  pd_size : d_size (disk_dinode L b ROOTINO) = (Z.of_nat (length r) / 512 + 1) * 512;
  pd_tight : tight b (disk_dinode L b ROOTINO) (Z.of_nat (length r));
  pd_byte p : 0 <= p < MAXFILE * 512 -> fbyte L b (disk_dinode L b ROOTINO) p = aget 0 r p
}.

Lemma iwf_untouched b b' d : iwf L sb b d -> untouched b b' d -> iwf L sb b' d.
Proof.
  intros [H1 H2 H3] Hu. pose proof (untouched_place _ _ _ Hu) as Hp. pose proof geo_bounds. split; [done| |].
  - intros s Hs Hne. rewrite Hp in * by done. destruct (H2 s Hs Hne) as [Hr Hus]. split; [done|].
    apply (proj2 Hu); [cbn [sb_size]; lia|done].
  - intros s s' Hs Hs' Hne He. rewrite !Hp in * by done. by apply H3.
Qed.

Lemma padded_frame b b' r : padded b r -> disk_dinode L b' ROOTINO = disk_dinode L b ROOTINO ->
  untouched b b' (disk_dinode L b ROOTINO) -> padded b' r.
Proof.
  intros [H1 H2 H3 H4 H5] Hd Hu. split; rewrite Hd; try done.
  - by eapply iwf_untouched.
  - eapply tight_place; [|done]. by apply untouched_place.
  - intros p Hp. rewrite (untouched_byte b b') by done. by apply H5.
Qed.

Lemma is_file_byte b n tc p : is_file b n tc -> 0 <= p < MAXFILE * 512 ->
  fbyte L b (disk_dinode L b n) p = aget 0 tc.2 p.
Proof.
  intros Hf Hp. pose proof (is_file_size _ _ _ Hf) as Hs. destruct (decide (p < d_size (disk_dinode L b n))) as [Hlt|Hge].
  - rewrite <- (if_content _ _ _ Hf). unfold content, aget. rewrite decide_True by lia.
    rewrite list_lookup_fmap, lookup_seqZ_lt by lia. cbn. f_equal. lia.
  - rewrite (if_blank _ _ _ Hf) by lia. unfold aget. case_decide; [|done].
    by rewrite lookup_ge_None_2 by lia.
Qed.

Lemma content_padded b r : padded b r -> Z.of_nat (length r) < maxblk * 512 ->
  exists z, content L b (disk_dinode L b ROOTINO) = r ++ replicate z 0.
Proof.
  intros [H1 H2 H3 H4 H5] Hr. unfold content. rewrite H3. set (S := (_ + 1) * 512).
  assert (HS : Z.of_nat (length r) < S <= maxblk * 512) by (unfold S, maxblk, NDIRECT, NINDIRECT in *; divlia).
  unfold maxblk, MAXFILE, NDIRECT, NINDIRECT in *.
  exists (Z.to_nat S - length r)%nat. apply list_eq. intros i. rewrite list_lookup_fmap.
  destruct (decide (Z.of_nat i < S)) as [Hi|Hi].
  - rewrite lookup_seqZ_lt by lia. cbn [fmap option_fmap option_map]. rewrite Z.add_0_l, H5 by lia.
    unfold aget. rewrite decide_True, Nat2Z.id by lia. destruct (decide (i < length r)%nat) as [Hl|Hl].
    + rewrite lookup_app_l by done. destruct (lookup_lt_is_Some_2 r i Hl) as [x ->]. done.
    + rewrite lookup_app_r, lookup_replicate_2 by lia. by rewrite lookup_ge_None_2 by lia.
  - rewrite lookup_seqZ_ge by lia. symmetry. apply lookup_ge_None_2. rewrite length_app, length_replicate. lia.
Qed.

(** What mkfs leaves on the disk, in terms of the block store. *)
Record image b (r : list Z) (fl : list (Z * list Z)) : Prop := Image {
  im_root : padded b r;
  im_file k tc : fl !! k = Some tc -> is_file b (ino (S k)) tc;
  im_apart k k' : (k < S (length fl))%nat -> (k' < S (length fl))%nat -> k <> k' ->
    disjoint_files L b (disk_dinode L b (ino k)) (disk_dinode L b (ino k'))
}.

Lemma image_frame b b' r fl : image b r fl ->
  (forall k, (k < S (length fl))%nat -> disk_dinode L b' (ino k) = disk_dinode L b (ino k)) ->
  (forall d, iwf L sb b d -> untouched b b' d) -> image b' r fl.
Proof.
  intros [H1 H2 H3] Hd Hu.
  assert (Hw : forall k, (k < S (length fl))%nat -> iwf L sb b (disk_dinode L b (ino k))).
  { intros [|k] Hk; [apply H1|]. destruct (lookup_lt_is_Some_2 fl k ltac:(lia)) as [tc Htc]. apply (if_ok _ _ _ (H2 _ _ Htc)). }
  split.
  - eapply padded_frame; [done|apply (Hd 0%nat); lia|]. apply Hu, (Hw 0%nat). lia.
  - intros k tc Hk. assert (S k < S (length fl))%nat by (apply lookup_lt_Some in Hk; lia).
    eapply is_file_frame; [by apply H2|by apply Hd|]. by apply Hu, Hw.
  - intros k k' Hk Hk' Hne. rewrite !Hd by done. eapply disjoint_place; [| |by apply H3].
    + by apply untouched_place, Hu, Hw.
    + by apply untouched_place, Hu, Hw.
Qed.

Lemma root_size m b r fl : fsys m b ((T_DIR, r) :: fl) -> Z.of_nat (length r) < maxblk * 512 ->
  exists m' b',
    (let* din := rinode ROOTINO in winode ROOTINO (set_size (xint ((xint (d_size din) / 512 + 1) * 512)) din)) m = Ok tt m' /\
    built m' b' /\ freeblock m' = freeblock m /\ image b' r fl.
Proof.
  intros [Hb Hc Hroom Hfile Hap Hfree] Hr. pose proof (Hfile 0%nat _ eq_refl) as Hf0.
  pose proof (is_file_size _ _ _ Hf0) as Hsz. cbn [length snd] in *. change (ino 0) with ROOTINO in *.
  assert (Hn : 0 <= ROOTINO < ninodes g) by (unfold ROOTINO; lia).
  unfold bind. rewrite (rinode_ok _ _ _ Hb Hn). set (d := disk_dinode L b ROOTINO) in *. unfold maxblk, NDIRECT, NINDIRECT in Hr.
  unfold xint. rewrite Hsz, (u32_id (Z.of_nat (length r))), u32_id by divlia. set (d' := set_size _ d).
  assert (Hok : dinode_ok d') by (destruct (if_dinode _ _ _ Hf0); split; try done; cbn [d' set_size d_size]; divlia).
  destruct (winode_ok m b ROOTINO d' Hb Hn Hok) as (m' & x & Hrun & Hb' & Hd' & Ho & Hfb & _).
  set (b' := setblock _ _ _ _) in *. exists m', b'. split; [done|]. split; [done|]. split; [done|].
  assert (Hu : forall d, iwf L sb b d -> untouched b b' d) by (intros d1; by apply meta_untouched).
  assert (Hud : untouched b b' d) by (apply Hu; apply (if_ok _ _ _ Hf0)).
  assert (Hw : iwf L sb b' d) by (eapply iwf_untouched; [|done]; apply (if_ok _ _ _ Hf0)).
  assert (Hp : forall s, place L b' d' s = place L b' d s) by (intros s; apply place_size).
  assert (Hk : forall k, (k < length fl)%nat -> disk_dinode L b' (ino (S k)) = disk_dinode L b (ino (S k)) /\
    iwf L sb b (disk_dinode L b (ino (S k)))).
  { intros k Hk. destruct (lookup_lt_is_Some_2 fl k Hk) as [tc Htc]. split; [apply Ho; unfold ino, ROOTINO; lia|].
    apply (if_ok _ _ _ (Hfile (S k) tc Htc)). }
  split.
  - split; rewrite ?Hd'; try done; [|apply Hf0| |].
    + destruct Hw as [W1 W2 W3]. split; [done| |]; intros s; rewrite ?Hp; [apply W2|]. intros s'. rewrite Hp. apply W3.
    + eapply tight_place; [|rewrite <- Hsz; apply Hf0]. intros s Hs. rewrite Hp. by apply untouched_place.
    + intros p Hpr. change (fbyte L b' d' p) with (fbyte L b' (set_size (d_size d') d) p).
      replace (fbyte L b' (set_size (d_size d') d) p) with (fbyte L b' d p) by (unfold fbyte, fblock; by rewrite place_size).
      rewrite (untouched_byte b b') by done. by apply (is_file_byte b ROOTINO (T_DIR, r)).
  - intros k tc Htc. destruct (Hk k ltac:(by eapply lookup_lt_Some)) as [Hdk Hwk].
    eapply is_file_frame; [by apply (Hfile (S k))|done|by apply Hu].
  - assert (Hpl : forall k s, (k < S (length fl))%nat -> valid s = true ->
      place L b' (disk_dinode L b' (ino k)) s = place L b (disk_dinode L b (ino k)) s).
    { intros [|k] s Hl Hs; [change (ino 0) with ROOTINO; rewrite Hd', Hp; by apply untouched_place|].
      destruct (Hk k ltac:(lia)) as [-> Hwk]. apply untouched_place; [by apply Hu|done]. }
    intros k k' H1 H2 Hne s s' Hs Hs'. rewrite !Hpl by done. by apply (Hap k k').
Qed.

(** The blocks the kernel finds on the finished image. *)
Lemma image_store m b r fl : built m b -> freeblock m < BPB -> Z.of_nat (S (length fl)) < ninodes g -> image b r fl ->
  image (store (<[bm0 := balloc_bits (freeblock m)]> (sects m))) r fl.
Proof.
  intros Hb HF Hl Him. destruct (built_store m b Hb HF) as (_ & Hbo & Hu). set (b' := store _) in *.
  pose proof geo_bounds as Hgb. apply (image_frame b b'); [done| |].
  - intros k Hk. assert (Hn : 0 <= ino k < ninodes g) by (unfold ino; lia).
    destruct (IBLOCK_range L sb Hgeo _ Hn) as (He & Hr & Hnb). unfold disk_dinode. rewrite Hbo; [done|lia|].
    intros (j & Hj & Hbj). by apply (Hnb j).
  - intros d Hw. split.
    + intros s Hs Hne. destruct (iw_used _ _ _ _ Hw s Hs Hne) as [Hr _]. apply Hbo; [lia|]. apply data_bitmap. lia.
    + intros j Hj Hus. by rewrite Hu.
Qed.

Lemma main_ok files : fits files ->
  exists m, main g files mkfs_start = Ok tt m /\ fsdisk L sb (store (sects m)) /\
    image (store (sects m)) (root_dir files) (regular <$> files) /\
    (forall n, 0 <= n < fssize g -> used L sb (store (sects m)) n = (n <? dstart sb + total (all_files files))).
Proof.
  intros Hft. destruct (main_files_ok files Hft) as (m1 & b1 & Hr1 & Hfs). pose proof (fy_free _ _ _ Hfs) as Hfr.
  destruct (root_size m1 b1 _ _ Hfs (ft_dir _ Hft)) as (m2 & b2 & Hr2 & Hb2 & Hf2 & Him).
  assert (HF : freeblock m2 < BPB) by (rewrite Hf2, Hfr; apply Hft).
  assert (Hl : Z.of_nat (S (length (regular <$> files))) < ninodes g)
    by (rewrite length_fmap; pose proof (ft_inodes _ Hft); lia).
  rewrite main_split. unfold bind at 1. rewrite Hr1. unfold bind in Hr2 |- *.
  destruct (rinode ROOTINO m1) as [din m1'| |]; try done. rewrite Hr2. unfold gets, id.
  unfold balloc, bind. rewrite (bu_count _ _ Hb2). change (512 * 8) with BPB. rewrite (proj2 (Z.ltb_lt _ _) HF). cbn [assert ret].
  eexists. split; [reflexivity|]. cbn [set_sects sects]. fold bm0.
  destruct (built_store m2 b2 Hb2 HF) as (Hd & _ & Hu). split; [done|]. split; [by apply (image_store m2 b2)|].
  intros n Hn. rewrite Hu, (bu_used _ _ Hb2), Hf2, Hfr by done. done.
Qed.

(** The names of the files differ, as the kernel compares them. *)
Record named (files : list (list Z * option (list (list Z)))) : Prop := Named {
  na_chars : Forall (fun f => chars_ok f.1) files;
  na_distinct : NoDup (take 14 <$> ([46] :: [46; 46] :: ((fun f => strip f.1) <$> files)))
}.

Lemma strip_chars name : chars_ok name -> chars_ok (strip name).
Proof. intros H. destruct H as [|c name Hc H]; [constructor|]. unfold strip. case_match; [done|by constructor]. Qed.

(** A file is found under its name. *)
Lemma root_find files z k f : named files -> 1 + Z.of_nat (length files) < 65536 -> files !! k = Some f ->
  dir_inum (strip f.1) (root_dir files ++ replicate z 0) = Some (ino (S k)).
Proof.
  intros [Hc Hd] Hl Hk. set (es := ([46], 1) :: ([46; 46], 1) :: names 1 files).
  assert (Hes : fst <$> es = [46] :: [46; 46] :: ((fun f => strip f.1) <$> files)).
  { unfold es. cbn [fmap list_fmap fst]. do 2 f_equal. generalize 1%nat. clear. induction files as [|f files IH]; intros n; [done|].
    cbn [names fmap list_fmap fst]. by rewrite IH. }
  assert (Hn : forall i e, es !! i = Some e -> chars_ok e.1 /\ 0 < e.2 < 65536).
  { intros [|[|i]] e He; [injection He as <-; cbn; split; [repeat constructor|]; lia..|].
    change (names 1 files !! i = Some e) in He. rewrite names_lookup in He. apply fmap_Some in He as (f' & Hi & ->). cbn [fst snd]. split.
    - apply strip_chars. rewrite Forall_forall in Hc. apply Hc. by eapply list_elem_of_lookup_2.
    - apply lookup_lt_Some in Hi. unfold ino. lia. }
  assert (Hek : es !! S (S k) = Some (strip f.1, ino (S k))).
  { change (names 1 files !! k = Some (strip f.1, ino (S k))). by rewrite names_lookup, Hk. }
  replace (root_dir files) with (dirents es) by (unfold root_dir, es, dirents; cbn [fmap list_fmap concat fst snd]; by rewrite dir_of_names).
  apply (dirents_find es _ (S (S k))); [done|done|].
  intros i e Hi He E. rewrite <- Hes, <- list_fmap_compose in Hd.
  assert (i = S (S k)); [|lia]. eapply (NoDup_lookup _ _ _ (take 14 e.1) Hd).
  - rewrite list_lookup_fmap, He. done.
  - rewrite list_lookup_fmap, Hek. cbn. by rewrite E.
Qed.

Lemma root_dense b r : padded b r -> Z.of_nat (length r) < maxblk * 512 -> Z.of_nat (length r) mod 16 = 0 ->
  let root := disk_dinode L b ROOTINO in let off := Z.of_nat (length r) in
  (off mod 512 <> 0 -> dir_ok L sb b root) /\
  (off mod 512 = 0 -> place L b root (slot_of (off / 512)) = 0 /\ off / 512 * 512 < d_size root).
Proof.
  intros [H1 H2 H3 [H4 _] H5] Hr Hm root off. fold root off in H1, H2, H3, H4, H5 |- *. fold off in Hr, Hm. split.
  - intros Hne. split; [split; [done| | |by rewrite H2]|done|].
    + intros bn Hbn Hlt. unfold BSIZE in Hlt. rewrite H3 in Hlt. apply H4; divlia.
    + rewrite H3. unfold MAXFILE, maxblk, NDIRECT, NINDIRECT, BSIZE in *. divlia.
    + rewrite H3. unfold DIRENT. rewrite Z.mul_comm. apply Z.mod_divide; [done|]. exists ((off / 512 + 1) * 32). lia.
  - intros He. rewrite H3. split; [|lia]. destruct (Z.eq_dec (place L b root (slot_of (off / 512))) 0) as [|Hne]; [done|].
    apply H4 in Hne; divlia.
Qed.

(** C16. mkfs builds a file system.  When the geometry adds up and the files fit,
    the program ends; the kernel then finds a superblock, blocks of the right
    size and a bitmap with exactly the metadata and the blocks taken marked
    used; every file of the command line is a regular file with the bytes
    read, no two files share a block, and in the root directory each name,
    without its underscore, gives its inode.  The root directory is one the
    kernel can use, unless its entries fill whole blocks: then its size
    includes a block that was never allocated. *)
Theorem mkfs_image files : fits files ->
  exists m, main g files mkfs_start = Ok tt m /\
    let b := store (sects m) in let root := disk_dinode L b ROOTINO in
    let off := 16 * (2 + Z.of_nat (length files)) in
    fsdisk L sb b /\
    (forall n, 0 <= n < fssize g -> used L sb b n = (n <? dstart sb + total (all_files files))) /\
    (forall k f, files !! k = Some f ->
       let d := disk_dinode L b (Z.of_nat k + 2) in
       file_ok L sb b d /\ d_type d = T_FILE /\ content L b d = bytes_of f /\
       (named files -> dir_inum (strip f.1) (content L b root) = Some (Z.of_nat k + 2))) /\
    (forall k k', (k <= length files)%nat -> (k' <= length files)%nat -> k <> k' ->
       disjoint_files L b (disk_dinode L b (Z.of_nat k + 1)) (disk_dinode L b (Z.of_nat k' + 1))) /\
    (off mod 512 <> 0 -> dir_ok L sb b root) /\
    (off mod 512 = 0 -> place L b root (slot_of (off / 512)) = 0 /\ off / 512 * 512 < d_size root).
Proof.
  intros Hft. destruct (main_ok files Hft) as (m & Hrun & Hd & [Hroot Hfile Hap] & Hu).
  exists m. split; [done|]. set (b := store (sects m)) in *. intros b0 root off. subst b0.
  pose proof (length_root files) as Hl. assert (Ho : off = Z.of_nat (length (root_dir files))) by (unfold off; lia).
  split; [done|]. split; [done|]. split; [|split].
  - intros k f Hk. cbv zeta. assert (Hf : is_file b (ino (S k)) (regular f)) by (apply Hfile; by rewrite list_lookup_fmap, Hk).
    replace (Z.of_nat k + 2) with (ino (S k)) in * by (unfold ino; lia).
    split; [apply (if_ok _ _ _ Hf)|]. split; [apply (if_type _ _ _ Hf)|]. split; [apply (if_content _ _ _ Hf)|].
    intros Hn. destruct (content_padded b _ Hroot (ft_dir _ Hft)) as [z Hz]. unfold root. rewrite Hz.
    apply root_find; [done| |done]. pose proof (ft_inodes _ Hft). lia.
  - intros k k' Hk Hk' Hne. apply Hap; rewrite ?length_fmap; (done || lia).
  - rewrite Ho. apply root_dense; [done|apply Hft|]. rewrite <- Ho. unfold off. rewrite Z.mul_comm. apply Z.mod_mul. done.
Qed.

End image.

(** An image of the default geometry with the files _init and README. *)
Definition two_files : list (list Z * option (list (list Z))) :=
  [([95; 105; 110; 105; 116], Some [replicate 512 7; replicate 512 8; [9]]); ([82; 69; 65; 68; 77; 69], Some [[1; 2; 3]])].

Lemma mkfs_image_witness :
  let g := default_geometry in
  fits g two_files /\ exists m, main g two_files mkfs_start = Ok tt m /\
    dir_ok (Layout 1 21019 10) (SuperBlock 21029 20985 200 10) (store (sects m))
      (disk_dinode (Layout 1 21019 10) (store (sects m)) ROOTINO).
Proof.
  assert (Hg : fsgeo (Layout 1 21019 10) (SuperBlock 21029 20985 200 10)).
  { split; cbn; unfold LOGSIZE; try lia. vm_compute. done. }
  assert (Hf : fits default_geometry two_files).
  { split; [|done|vm_compute; done|vm_compute; done|vm_compute; done].
    repeat constructor; cbn; try set_solver; eexists; (split; [reflexivity|]); split; try (repeat constructor; done); vm_compute; done. }
  split; [done|].
  destruct (mkfs_image default_geometry Hg ltac:(done) ltac:(done) ltac:(done) two_files Hf) as (m & Hr & H).
  exists m. split; [exact Hr|]. apply H. vm_compute. done.
Defined.
