(* ===== verification/Vm.v ===== *)
(** * Page tables (vm.c)

    A page directory is a page of 1024 words, each of which may point to a
    page table of 1024 entries.  They lie in the memory the page allocator of
    Kalloc.v gives out, and the functions of vm.c read and write them there. *)

From stdpp Require Import base numbers list gmap strings.
From Stdlib Require Import ZArith Lia.
From S2P Require Import Prelude Kstring Kalloc.

Local Open Scope Z_scope.
Local Open Scope kernel_scope.

Definition PTE_P : Z := 1.
Definition PTE_W : Z := 2.
Definition PTE_U : Z := 4.
Definition NPDENTRIES : Z := 1024.
Definition NPTENTRIES : Z := 1024.
Definition EXTMEM : Z := 1048576.
Definition KERNLINK : Z := KERNBASE + EXTMEM.
Definition DEVSPACE : Z := 4261412864.

Definition PDX (va : Z) : Z := Z.land (Z.shiftr va 22) 1023.
Definition PTX (va : Z) : Z := Z.land (Z.shiftr va 12) 1023.
Definition PTE_ADDR (pte : Z) : Z := Z.land pte (u32 (Z.lnot 4095)).
Definition PTE_FLAGS (pte : Z) : Z := Z.land pte 4095.

Definition ld (a : Z) : M kmem Z := gets (fun s => load4 (km s) a).
Definition setmem (f : mem -> mem) : M kmem unit :=
  modify (fun s => Kmem (f (km s)) (freelist s) (use_lock s)).
Definition st (a w : Z) : M kmem unit := setmem (fun m => store4 m a w).

Section vm.
(** [kend] and [kdata] are the addresses of the linker's symbols [end] and
    [data]. *)
Context (kend kdata : Z).

(** The address of the entry, or 0. *)
Definition walkpgdir (pgdir va : Z) (alloc : bool) : M kmem Z :=
  let pde := pgdir + 4 * PDX va in
  let* e := ld pde in
  if fhas e PTE_P then ret (p2v (PTE_ADDR e) + 4 * PTX va)
  else if negb alloc then ret 0
  else
    let* pgtab := kalloc in
    if pgtab =? 0 then ret 0
    else
      setmem (fun m => memset m pgtab 0 PGSIZE) ;;;
      st pde (Z.lor (Z.lor (Z.lor (v2p pgtab) PTE_P) PTE_W) PTE_U) ;;;
      ret (pgtab + 4 * PTX va).

(** The loop of [mappages], for at most [fuel] pages. *)
Fixpoint mappages_loop (fuel : nat) (pgdir a last pa perm : Z) : M kmem Z :=
  match fuel with
  | O => panic "fuel"
  | S f =>
      let* pte := walkpgdir pgdir a true in
      if pte =? 0 then ret (-1)
      else
        let* e := ld pte in
        if fhas e PTE_P then panic "remap"
        else
          st pte (Z.lor (Z.lor pa perm) PTE_P) ;;;
          if a =? last then ret 0
          else mappages_loop f pgdir (u32 (a + PGSIZE)) last (u32 (pa + PGSIZE)) perm
  end.

Definition mappages (pgdir va size pa perm : Z) : M kmem Z :=
  let a := PGROUNDDOWN va in
  let last := PGROUNDDOWN (u32 (va + size - 1)) in
  mappages_loop (S (Z.to_nat (u32 (last - a) / PGSIZE))) pgdir a last pa perm.

(** [kmap]: virtual address, physical start and end, permissions. *)
Definition kmap : list (Z * Z * Z * Z) :=
  [ (KERNBASE, 0, EXTMEM, PTE_W);
    (KERNLINK, v2p KERNLINK, v2p kdata, 0);
    (kdata, v2p kdata, PHYSTOP, PTE_W);
    (DEVSPACE, DEVSPACE, 0, PTE_W) ].

Fixpoint setupkvm_loop (pgdir : Z) (l : list (Z * Z * Z * Z)) : M kmem Z :=
  match l with
  | [] => ret pgdir
  | (virt, ps, pe, perm) :: l =>
      let* r := mappages pgdir virt (u32 (pe - ps)) ps perm in
      if r <? 0 then ret 0 else setupkvm_loop pgdir l
  end.

Definition setupkvm : M kmem Z :=
  let* pgdir := kalloc in
  if pgdir =? 0 then ret 0
  else
    setmem (fun m => memset m pgdir 0 PGSIZE) ;;;
    if DEVSPACE <? p2v PHYSTOP then panic "PHYSTOP too high"
    else setupkvm_loop pgdir kmap.

(** [inituvm]: [mem] is not checked; [init] is the address of the code. *)
Definition inituvm (pgdir init sz : Z) : M kmem unit :=
  if PGSIZE <=? sz then panic "inituvm: more than a page"
  else
    let* page := kalloc in
    setmem (fun m => memset m page 0 PGSIZE) ;;;
    let* _ := mappages pgdir 0 PGSIZE (v2p page) (Z.lor PTE_W PTE_U) in
    setmem (fun m => memmove m page init sz).

(** The loop of [deallocuvm]; [a] may wrap around. *)
Fixpoint deallocuvm_loop (fuel : nat) (pgdir a oldsz : Z) : M kmem unit :=
  match fuel with
  | O => panic "fuel"
  | S f =>
      if a <? oldsz then
        let* pte := walkpgdir pgdir a false in
        if pte =? 0 then
          deallocuvm_loop f pgdir (u32 (u32 (a + (NPTENTRIES - 1) * PGSIZE) + PGSIZE)) oldsz
        else
          let* e := ld pte in
          (if fhas e PTE_P then
             if PTE_ADDR e =? 0 then panic "kfree"
             else kfree kend (p2v (PTE_ADDR e)) ;;; st pte 0
           else ret tt) ;;;
          deallocuvm_loop f pgdir (u32 (a + PGSIZE)) oldsz
      else ret tt
  end.

Definition deallocuvm (pgdir oldsz newsz : Z) : M kmem Z :=
  if oldsz <=? newsz then ret oldsz
  else
    deallocuvm_loop (S (Z.to_nat (oldsz / PGSIZE + 1))) pgdir (PGROUNDUP newsz) oldsz ;;;
    ret newsz.

Fixpoint allocuvm_loop (fuel : nat) (pgdir a oldsz newsz : Z) : M kmem Z :=
  match fuel with
  | O => panic "fuel"
  | S f =>
      if a <? newsz then
        let* page := kalloc in
        if page =? 0 then deallocuvm pgdir newsz oldsz ;;; ret 0
        else
          setmem (fun m => memset m page 0 PGSIZE) ;;;
          let* _ := mappages pgdir a PGSIZE (v2p page) (Z.lor PTE_W PTE_U) in
          allocuvm_loop f pgdir (a + PGSIZE) oldsz newsz
      else ret newsz
  end.

Definition allocuvm (pgdir oldsz newsz : Z) : M kmem Z :=
  if KERNBASE <=? newsz then ret 0
  else if newsz <? oldsz then ret oldsz
  else allocuvm_loop (S (Z.to_nat (newsz / PGSIZE + 1))) pgdir (PGROUNDUP oldsz) oldsz newsz.

Fixpoint freevm_loop (pgdir : Z) (js : list nat) : M kmem unit :=
  match js with
  | [] => ret tt
  | i :: js =>
      let* e := ld (pgdir + 4 * Z.of_nat i) in
      (if fhas e PTE_P then kfree kend (p2v (PTE_ADDR e)) else ret tt) ;;;
      freevm_loop pgdir js
  end.

Definition freevm (pgdir : Z) : M kmem unit :=
  if pgdir =? 0 then panic "freevm: no pgdir"
  else
    deallocuvm pgdir KERNBASE 0 ;;;
    freevm_loop pgdir (seq 0 (Z.to_nat NPDENTRIES)) ;;;
    kfree kend pgdir.

Definition clearpteu (pgdir uva : Z) : M kmem unit :=
  let* pte := walkpgdir pgdir uva false in
  if pte =? 0 then panic "clearpteu"
  else let* e := ld pte in st pte (fclr e PTE_U).

Fixpoint copyuvm_loop (fuel : nat) (pgdir d i sz : Z) : M kmem Z :=
  match fuel with
  | O => panic "fuel"
  | S f =>
      if i <? sz then
        let* pte := walkpgdir pgdir i false in
        if pte =? 0 then panic "copyuvm: pte should exist"
        else
          let* e := ld pte in
          if negb (fhas e PTE_P) then panic "copyuvm: page not present"
          else
            let* page := kalloc in
            if page =? 0 then freevm d ;;; ret 0
            else
              setmem (fun m => memmove m page (p2v (PTE_ADDR e)) PGSIZE) ;;;
              let* r := mappages d i PGSIZE (v2p page) (PTE_FLAGS e) in
              if r <? 0 then freevm d ;;; ret 0
              else copyuvm_loop f pgdir d (u32 (i + PGSIZE)) sz
      else ret d
  end.

Definition copyuvm (pgdir sz : Z) : M kmem Z :=
  let* d := setupkvm in
  if d =? 0 then ret 0
  else copyuvm_loop (S (Z.to_nat (sz / PGSIZE + 1))) pgdir d 0 sz.

(** [uva2ka] reads the entry without a check that there is one. *)
Definition uva2ka (pgdir uva : Z) : M kmem Z :=
  let* pte := walkpgdir pgdir uva false in
  let* e := ld pte in
  if negb (fhas e PTE_P) then ret 0
  else if negb (fhas e PTE_U) then ret 0
  else ret (p2v (PTE_ADDR e)).

(** The bytes [bs] at [a]. *)
Fixpoint store_bytes (m : mem) (a : Z) (bs : list Z) : mem :=
  match bs with
  | [] => m
  | b :: bs => store_bytes (upd m a b) (a + 1) bs
  end.

(** [copyout]: [bs] are the [len] bytes at [p]. *)
Fixpoint copyout_loop (fuel : nat) (pgdir va : Z) (bs : list Z) : M kmem Z :=
  match fuel with
  | O => panic "fuel"
  | S f =>
      match bs with
      | [] => ret 0
      | _ =>
          let va0 := PGROUNDDOWN va in
          let* pa0 := uva2ka pgdir va0 in
          if pa0 =? 0 then ret (-1)
          else
            let n := Z.to_nat (Z.min (PGSIZE - (va - va0)) (Z.of_nat (length bs))) in
            setmem (fun m => store_bytes m (pa0 + (va - va0)) (take n bs)) ;;;
            copyout_loop f pgdir (u32 (va0 + PGSIZE)) (drop n bs)
      end
  end.

Definition copyout (pgdir va : Z) (bs : list Z) : M kmem Z :=
  copyout_loop (S (length bs)) pgdir va bs.


(** ** What a page directory maps *)

Definition pde (m : mem) (pg i : Z) : Z := load4 m (pg + 4 * i).
Definition tab (m : mem) (pg i : Z) : Z := p2v (PTE_ADDR (pde m pg i)).
(** The entry of the page of [va]; 0 when there is no page table. *)
Definition pte (m : mem) (pg va : Z) : Z :=
  if fhas (pde m pg (PDX va)) PTE_P then load4 m (tab m pg (PDX va) + 4 * PTX va) else 0.
(** The kernel address of the page of [va]. *)
Definition frame (m : mem) (pg va : Z) : Z := p2v (PTE_ADDR (pte m pg va)).
Definition mapped (m : mem) (pg va : Z) : bool := fhas (pte m pg va) PTE_P.
(** The byte at [va]. *)
Definition ubyte (m : mem) (pg va : Z) : Z := m (frame m pg va + va mod PGSIZE).

Lemma PDX_div va : 0 <= va < 2 ^ 32 -> PDX va = va / 4194304.
Proof.
  intros H. unfold PDX. rewrite Z.shiftr_div_pow2 by lia. change 1023 with (Z.ones 10).
  rewrite Z.land_ones by lia. change (2 ^ 22) with 4194304. change (2 ^ 10) with 1024. divlia.
Qed.

Lemma PTX_div va : 0 <= va < 2 ^ 32 -> PTX va = (va / 4096) mod 1024.
Proof.
  intros H. unfold PTX. rewrite Z.shiftr_div_pow2 by lia. change 1023 with (Z.ones 10).
  rewrite Z.land_ones by lia. done.
Qed.

Lemma PDX_range va : 0 <= PDX va < 1024.
Proof. unfold PDX. change 1023 with (Z.ones 10). rewrite Z.land_ones by lia. apply Z.mod_pos_bound. lia. Qed.

Lemma PTX_range va : 0 <= PTX va < 1024.
Proof. unfold PTX. change 1023 with (Z.ones 10). rewrite Z.land_ones by lia. apply Z.mod_pos_bound. lia. Qed.

Lemma vpn_eq va va' : 0 <= va < 2 ^ 32 -> 0 <= va' < 2 ^ 32 -> PDX va = PDX va' -> PTX va = PTX va' ->
  va / PGSIZE = va' / PGSIZE.
Proof. intros H H'. rewrite !PDX_div, !PTX_div by done. unfold PGSIZE. intros. divlia. Qed.

Lemma pte_same m pg va va' : 0 <= va < 2 ^ 32 -> 0 <= va' < 2 ^ 32 -> va / PGSIZE = va' / PGSIZE ->
  pte m pg va = pte m pg va'.
Proof.
  intros H H' He. unfold pte. replace (PDX va') with (PDX va); [replace (PTX va') with (PTX va); [done|]|].
  - rewrite !PTX_div by done. unfold PGSIZE in He. by rewrite He.
  - rewrite !PDX_div by done. unfold PGSIZE in He. divlia.
Qed.

Lemma load4_range m a : mem_ok m -> 0 <= load4 m a < 2 ^ 32.
Proof.
  intros Hm. unfold load4. pose proof (Hm a). pose proof (Hm (a + 1)). pose proof (Hm (a + 2)). pose proof (Hm (a + 3)).
  change (2 ^ 8) with 256. change (2 ^ 16) with 65536. change (2 ^ 24) with 16777216. lia.
Qed.

Lemma load4_store4_ne m a b w : a + 4 <= b \/ b + 4 <= a -> load4 (store4 m a w) b = load4 m b.
Proof. intros H. apply load4_ext. intros x Hx. rewrite store4_bytes, decide_False by lia. done. Qed.

(** The address and the flags of an entry [pa | perm]. *)
Lemma pte_parts pa f : 0 <= pa < 2 ^ 32 -> pa mod PGSIZE = 0 -> 0 <= f < 4096 ->
  PTE_ADDR (Z.lor pa f) = pa /\ PTE_FLAGS (Z.lor pa f) = f /\ 0 <= Z.lor pa f < 2 ^ 32.
Proof.
  intros Hpa Hm Hf. assert (Hadd : Z.lor pa f = pa + f).
  { assert (Hl : Z.land pa f = 0).
    { apply Z.bits_inj_iff'. intros j Hj. rewrite Z.land_spec, Z.bits_0. destruct (decide (j < 12)).
      - assert (Z.testbit pa j = false) as ->; [|done]. replace pa with (pa / PGSIZE * 2 ^ 12) by (unfold PGSIZE in *; change (2 ^ 12) with 4096; divlia).
        by rewrite Z.mul_pow2_bits_low.
      - assert (Z.testbit f j = false) as ->; [|apply andb_false_r]. replace f with (f mod 2 ^ 12) by (apply Z.mod_small; change (2 ^ 12) with 4096; lia).
        rewrite Z.mod_pow2_bits_high by lia. done. }
    pose proof (Z.add_lor_land pa f). lia. }
  rewrite Hadd. unfold PGSIZE in Hm.
  assert (Hr : 0 <= pa + f < 2 ^ 32) by (change (2 ^ 32) with 4294967296 in *; divlia).
  split_and!; [| |lia|lia].
  - unfold PTE_ADDR. change 4095 with (PGSIZE - 1). rewrite pground_mask by done. unfold PGSIZE. divlia.
  - unfold PTE_FLAGS. change 4095 with (Z.ones 12). rewrite Z.land_ones by lia. change (2 ^ 12) with 4096. divlia.
Qed.

Lemma fhas_flags pa f k : 0 <= pa < 2 ^ 32 -> pa mod PGSIZE = 0 -> 0 <= f < 4096 -> 0 <= k < 12 ->
  fhas (Z.lor pa f) (2 ^ k) = Z.testbit f k.
Proof.
  intros Hpa Hm Hf Hk. rewrite fhas_bit by lia. rewrite Z.lor_spec.
  assert (Z.testbit pa k = false) as ->; [|done].
  replace pa with (pa / PGSIZE * 2 ^ 12) by (unfold PGSIZE in *; change (2 ^ 12) with 4096; divlia).
  rewrite Z.mul_pow2_bits_low by lia. done.
Qed.

Lemma page_phys v : page_ok kend v -> p2v (v2p v) = v /\ 0 <= v2p v < 2 ^ 32 /\ v2p v mod PGSIZE = 0.
Proof.
  intros (Hm & _ & Hr). unfold p2v, v2p, u32, KERNBASE, PHYSTOP, PGSIZE in *. change (2 ^ 32) with 4294967296. split_and!; divlia.
Qed.

(** ** Page tables in the pages the allocator gave out *)

(** The page directory [pg] and its tables, with the free pages [l]. *)
Record ptinv (s : kmem) (pg : Z) (l : list Z) : Prop := {
  pt_k : kinv kend s l;
  pt_pg : page_ok kend pg;
  pt_free : pg ∉ l;
  pt_tab i : 0 <= i < 1024 -> fhas (pde (km s) pg i) PTE_P = true ->
    page_ok kend (tab (km s) pg i) /\ ~ tab (km s) pg i ∈ l /\ tab (km s) pg i <> pg;
  pt_inj i j : 0 <= i < 1024 -> 0 <= j < 1024 -> fhas (pde (km s) pg i) PTE_P = true ->
    fhas (pde (km s) pg j) PTE_P = true -> tab (km s) pg i = tab (km s) pg j -> i = j
}.

(** A table of [pg]. *)
Definition istab m pg q : Prop := exists i, 0 <= i < 1024 /\ fhas (pde m pg i) PTE_P = true /\ tab m pg i = q.

(** The number of tables for the indices [I]. *)
Definition tabs (m : mem) (pg : Z) (I : list Z) : nat := length (filter (fun i => fhas (pde m pg i) PTE_P = true) I).
Definition idx_ok (I : list Z) : Prop := NoDup I /\ forall i, i ∈ I -> 0 <= i < 1024.

Lemma tabs_same m m' pg I : (forall i, i ∈ I -> pde m' pg i = pde m pg i) -> tabs m' pg I = tabs m pg I.
Proof.
  unfold tabs. induction I as [|i I IH]; intros H; [done|]. rewrite !filter_cons, H by (by left).
  case_decide; cbn [length]; rewrite IH; (done || by intros j Hj; apply H; right).
Qed.

Lemma tabs_add m m' pg I i : NoDup I -> i ∈ I -> (forall j, j ∈ I -> j <> i -> pde m' pg j = pde m pg j) ->
  fhas (pde m pg i) PTE_P = false -> fhas (pde m' pg i) PTE_P = true -> tabs m' pg I = S (tabs m pg I).
Proof.
  intros Hnd Hi Ho H0 H1. induction Hnd as [|j I Hj Hnd IH]; [by apply elem_of_nil in Hi|]. unfold tabs. rewrite !filter_cons.
  destruct (decide (j = i)) as [->|Hne].
  - rewrite H0, H1, decide_True, decide_False by done. cbn [length]. f_equal. apply tabs_same.
    intros k Hk. apply Ho; [by right|]. by intros ->.
  - rewrite Ho by (done || by left). unfold tabs in IH.
    assert (E : length (filter (fun k => fhas (pde m' pg k) PTE_P = true) I) =
      S (length (filter (fun k => fhas (pde m pg k) PTE_P = true) I))).
    { apply IH; [by apply elem_of_cons in Hi as [?|]|]. intros k Hk. apply Ho. by right. }
    case_decide; cbn [length]; lia.
Qed.

Lemma tabs_full m pg I i : (length I <= tabs m pg I)%nat -> i ∈ I -> fhas (pde m pg i) PTE_P = true.
Proof.
  unfold tabs. induction I as [|j I IH]; intros Hl Hi; [by apply elem_of_nil in Hi|]. rewrite filter_cons in Hl.
  pose proof (length_filter (fun k => fhas (pde m pg k) PTE_P = true) I). cbn [length] in Hl. case_decide as Hj; cbn [length] in Hl; [|lia].
  apply elem_of_cons in Hi as [->|Hi]; [done|]. apply IH; [lia|done].
Qed.

(** Writes to one page leave words of another alone. *)
Lemma page_word p q a b : page_ok kend p -> page_ok kend q -> p <> q -> 0 <= a < 1024 -> 0 <= b < 1024 ->
  p + 4 * a + 4 <= q + 4 * b \/ q + 4 * b + 4 <= p + 4 * a.
Proof. intros (Hp & _) (Hq & _) Hne Ha Hb. unfold PGSIZE in *. divlia. Qed.

Lemma page_out p q x : page_ok kend p -> page_ok kend q -> p <> q -> q <= x < q + PGSIZE -> ~ (p <= x < p + PGSIZE).
Proof. intros Hp Hq Hne. by apply (page_disjoint kend). Qed.

Lemma load4_memset m p a : page_ok kend p -> 0 <= a < 1024 -> load4 (memset m p 0 PGSIZE) (p + 4 * a) = 0.
Proof.
  intros Hp Ha. unfold load4. rewrite !memset_spec by (unfold PGSIZE; lia). rewrite !decide_True by (unfold PGSIZE; lia).
  done.
Qed.

Lemma load4_memset_ne m p q a : page_ok kend p -> page_ok kend q -> p <> q -> 0 <= a < 1024 ->
  load4 (memset m p 0 PGSIZE) (q + 4 * a) = load4 m (q + 4 * a).
Proof.
  intros Hp Hq Hne Ha. apply load4_ext. intros x Hx. rewrite memset_spec, decide_False; [done| |unfold PGSIZE; lia].
  apply (page_out p q); try done. unfold PGSIZE. lia.
Qed.

Lemma kinv_mem s l m : kinv kend s l -> mem_ok m ->
  (forall p x, p ∈ l -> p <= x < p + 4 -> m x = km s x) -> kinv kend (Kmem m (freelist s) (use_lock s)) l.
Proof. intros [H1 H2 H3 H4] Hm Hx. split; cbn [km freelist]; try done. by eapply flist_ext. Qed.


(** A write inside page [q] keeps the free list. *)
Lemma kinv_page s l q m : kinv kend s l -> page_ok kend q -> ~ q ∈ l -> mem_ok m ->
  (forall x, ~ (q <= x < q + PGSIZE) -> m x = km s x) -> kinv kend (Kmem m (freelist s) (use_lock s)) l.
Proof.
  intros Hk Hq Hl Hm Hx. apply kinv_mem; [done|done|]. intros p x Hp Hpx. apply Hx.
  pose proof (ki_pages _ _ _ Hk) as Hall. rewrite Forall_forall in Hall.
  apply (page_out q p); [done|by apply Hall|by intros ->|unfold PGSIZE; lia].
Qed.

Lemma store4_out m a w x : ~ (a <= x < a + 4) -> store4 m a w x = m x.
Proof. intros H. rewrite store4_bytes. by rewrite decide_False. Qed.

(** A write of a table entry. *)
Lemma ptinv_entry s pg l i j w : ptinv s pg l -> 0 <= i < 1024 -> 0 <= j < 1024 ->
  fhas (pde (km s) pg i) PTE_P = true -> let m := store4 (km s) (tab (km s) pg i + 4 * j) w in
  ptinv (Kmem m (freelist s) (use_lock s)) pg l /\ forall n, 0 <= n < 1024 -> pde m pg n = pde (km s) pg n.
Proof.
  intros [P1 P2 P3 P4 P5] Hi Hj Hp m. destruct (P4 i Hi Hp) as (Ht & Htl & Htp).
  assert (Hpde : forall n, 0 <= n < 1024 -> pde m pg n = pde (km s) pg n).
  { intros n Hn. apply load4_store4_ne. by apply page_word. }
  split; [|done]. split; cbn [km].
  - apply (kinv_page s l (tab (km s) pg i)); try done; [apply store4_ok; apply P1|].
    intros x Hx. apply store4_out. unfold PGSIZE in Hx. lia.
  - done.
  - done.
  - intros n Hn. unfold tab. rewrite Hpde by done. by apply P4.
  - intros n n' Hn Hn'. unfold tab. rewrite !Hpde by done. by apply P5.
Qed.

(** [walkpgdir] with [alloc]: the address of the entry, with a fresh table if
    needed; what the directory maps does not change. *)
Record walked (s : kmem) (pg va : Z) (l : list Z) (r : Z) (s' : kmem) (l' : list Z) : Prop := {
  wk_inv : ptinv s' pg l';
  wk_free : l' = l \/ exists p, l = p :: l' /\ istab (km s') pg p;
  wk_pde : fhas (pde (km s') pg (PDX va)) PTE_P = true;
  wk_addr : r = tab (km s') pg (PDX va) + 4 * PTX va;
  wk_nz : r <> 0;
  wk_pte v : pte (km s') pg v = pte (km s) pg v;
  wk_tabs q : istab (km s) pg q -> istab (km s') pg q;
  wk_new q : istab (km s') pg q -> istab (km s) pg q \/ q ∈ l;
  wk_count I : idx_ok I -> PDX va ∈ I -> (length l + tabs (km s) pg I = length l' + tabs (km s') pg I)%nat;
  wk_out q x : page_ok kend q -> ~ q ∈ l -> q <> pg -> q <= x < q + PGSIZE -> km s' x = km s x
}.

Lemma tab_addr_nz s pg l i j : ptinv s pg l -> 0 <= i < 1024 -> 0 <= j -> fhas (pde (km s) pg i) PTE_P = true ->
  tab (km s) pg i + 4 * j <> 0.
Proof. intros Hp Hi Hj Hpr. destruct (pt_tab _ _ _ Hp i Hi Hpr) as (Hok & _). pose proof (page_ok_range _ _ Hok). lia. Qed.

(** The directory after a fresh table [p] has been put in for [i]. *)
Lemma fresh_table s pg p l i : ptinv s pg (p :: l) -> 0 <= i < 1024 -> fhas (pde (km s) pg i) PTE_P = false ->
  freelist s = p -> load4 (km s) p = freelist (Kmem (km s) (load4 (km s) p) (use_lock s)) ->
  let e := Z.lor (v2p p) 7 in
  let m := store4 (memset (km s) p 0 PGSIZE) (pg + 4 * i) e in
  ptinv (Kmem m (load4 (km s) p) (use_lock s)) pg l /\ tab m pg i = p /\ fhas (pde m pg i) PTE_P = true /\
  (forall n, 0 <= n < 1024 -> n <> i -> pde m pg n = pde (km s) pg n) /\ (forall v, pte m pg v = pte (km s) pg v) /\
  forall q x, page_ok kend q -> ~ q ∈ p :: l -> q <> pg -> q <= x < q + PGSIZE -> m x = km s x.
Proof.
  intros Hpt Hi Hnp Hf _ e m. pose proof Hpt as [P1 P2 P3 P4 P5].
  pose proof (ki_pages _ _ _ P1) as Hall. apply Forall_cons in Hall as [Hpok Hall].
  pose proof (ki_nodup _ _ _ P1) as Hnd. apply NoDup_cons in Hnd as [Hpl Hnd].
  assert (Hppg : p <> pg) by (intros ->; apply P3; by left).
  destruct (page_phys p Hpok) as (Hpv & Hpr & Hpm).
  destruct (pte_parts (v2p p) 7 Hpr Hpm ltac:(lia)) as (He1 & _ & He3). fold e in He1, He3.
  assert (Hpi : pde m pg i = e) by (apply load4_store4; lia).
  assert (Htab : tab m pg i = p) by (unfold tab; rewrite Hpi, He1; done).
  assert (Hpr' : fhas (pde m pg i) PTE_P = true).
  { rewrite Hpi. change PTE_P with (2 ^ 0). by apply (fhas_flags (v2p p) 7 0 Hpr Hpm); lia. }
  assert (Hpn : forall n, 0 <= n < 1024 -> n <> i -> pde m pg n = pde (km s) pg n).
  { intros n Hn Hne. unfold pde, m. rewrite load4_store4_ne by lia. by apply load4_memset_ne. }
  assert (Hword : forall q j, page_ok kend q -> 0 <= j < 1024 -> q <> p -> q <> pg -> load4 m (q + 4 * j) = load4 (km s) (q + 4 * j)).
  { intros q j Hq Hj H1 H2. unfold m. rewrite load4_store4_ne by (by apply page_word). by apply load4_memset_ne. }
  assert (Hout : forall q x, page_ok kend q -> ~ q ∈ p :: l -> q <> pg -> q <= x < q + PGSIZE -> m x = km s x).
  { intros q x Hq Hql Hqp Hx. unfold m. rewrite store4_out.
    - rewrite memset_spec, decide_False; [done|apply (page_out p q); try done; set_solver|unfold PGSIZE; lia].
    - intros Hx'. apply (page_out pg q x P2 Hq ltac:(done) Hx). unfold PGSIZE. lia. }
  split_and!; try done.
  - split; cbn [km].
    + destruct P1 as [K1 K2 K3 K4]. split; cbn [km freelist]; try done.
      * apply store4_ok, memset_ok; [done|unfold PGSIZE; lia].
      * destruct K2 as [_ K2]. eapply flist_ext; [|exact K2]. intros q x Hq Hx. rewrite Forall_forall in Hall.
        unfold m. rewrite store4_out.
        -- rewrite memset_spec, decide_False; [done|apply (page_out p q); try done; [by apply Hall|by intros ->|unfold PGSIZE; lia]|unfold PGSIZE; lia].
        -- intros Hx'. apply (page_out pg q x P2 (Hall q Hq)); [intros ->; apply P3; by right|unfold PGSIZE; lia|unfold PGSIZE; lia].
    + done.
    + intros Hin. apply P3. by right.
    + intros n Hn Hpr2. destruct (decide (n = i)) as [->|Hne]; [by rewrite Htab|].
      unfold tab in *. rewrite Hpn in * by done. destruct (P4 n Hn Hpr2) as (? & Hnl & ?). split_and!; [done| |done].
      intros Hin. apply Hnl. by right.
    + intros n n' Hn Hn' Hp1 Hp2 He. destruct (decide (n = i)) as [->|Hne], (decide (n' = i)) as [->|Hne']; [done|..].
      * exfalso. rewrite Htab in He. unfold tab in He. rewrite Hpn in He, Hp2 by done. destruct (P4 n' Hn' Hp2) as (_ & Hnl & _).
        apply Hnl. unfold tab. rewrite <- He. by left.
      * exfalso. rewrite Htab in He. unfold tab in He. rewrite Hpn in He, Hp1 by done. destruct (P4 n Hn Hp1) as (_ & Hnl & _).
        apply Hnl. unfold tab. rewrite He. by left.
      * unfold tab in He. rewrite !Hpn in * by done. by apply P5.
  - intros v. unfold pte. destruct (decide (PDX v = i)) as [Hv|Hv].
    + rewrite Hv, Hpr', Hnp, Htab. unfold m. pose proof (PTX_range v).
      rewrite load4_store4_ne by (by apply page_word). by apply load4_memset.
    + pose proof (PDX_range v). pose proof (PTX_range v). unfold tab. rewrite Hpn by done.
      destruct (fhas (pde (km s) pg (PDX v)) PTE_P) eqn:Ep; [|done].
      destruct (P4 _ (PDX_range v) Ep) as (Hok & Hnl & Hnp'). apply Hword; try done.
      intros He. apply Hnl. unfold tab. rewrite He. by left.
Qed.

Lemma walk_ok s pg l va : ptinv s pg l ->
  exists r s', walkpgdir pg va true s = Ok r s' /\
    (r = 0 /\ l = [] /\ s' = s /\ fhas (pde (km s) pg (PDX va)) PTE_P = false \/ exists l', walked s pg va l r s' l').
Proof.
  intros Hpt. pose proof (PDX_range va) as Hd. pose proof (PTX_range va) as Ht.
  unfold walkpgdir, ld, bind, gets. change (load4 (km s) (pg + 4 * PDX va)) with (pde (km s) pg (PDX va)).
  destruct (fhas (pde (km s) pg (PDX va)) PTE_P) eqn:Ep.
  { eexists _, s. split; [done|]. right. exists l. split; try done; [by left| |by left].
    by eapply tab_addr_nz; [..|lia|]. }
  cbn [negb]. pose proof (pt_k _ _ _ Hpt) as Hk. destruct (kalloc_ok kend s l Hk) as (p & s1 & E & Hm & Hc).
  rewrite E. destruct Hc as [(-> & -> & ->)|(l' & -> & Hp & Hk')].
  { exists 0, s. split; [done|]. by left. }
  pose proof (page_ok_range _ _ Hp). destruct (Z.eqb_spec p 0); [lia|].
  rewrite <- !(Z.lor_assoc (v2p p)). change (Z.lor (Z.lor PTE_P PTE_W) PTE_U) with 7.
  unfold kalloc in E. destruct (Z.eqb_spec (freelist s) 0); [injection E; lia|]. injection E as Hf <-.
  destruct (fresh_table s pg p l' (PDX va) Hpt Hd Ep Hf eq_refl) as (F1 & F2 & F3 & F4 & F5 & F6).
  subst p. eexists _, _. split; [reflexivity|]. right. exists l'.
  unfold st, setmem, modify. cbn [km freelist use_lock] in *.
  split; cbn [km]; try done.
  - right. eexists. split; [done|]. by exists (PDX va).
  - by rewrite F2.
  - lia.
  - intros q (i & Hi & Hpr & Hq). destruct (decide (i = PDX va)) as [->|]; [congruence|]. exists i.
    unfold tab. rewrite F4 by done. done.
  - intros q (i & Hi & Hpr & Hq). destruct (decide (i = PDX va)) as [->|Hne].
    + right. rewrite <- Hq, F2. by left.
    + left. exists i. unfold tab in *. rewrite F4 in * by done. done.
  - intros I [Hnd HI] Hin. rewrite (tabs_add (km s) (store4 _ _ _) pg I (PDX va)); try done; [cbn [length]; lia|].
    intros j Hj Hne. apply F4; [by apply HI|done].
Qed.


Lemma lor_range k a b : 0 <= k -> 0 <= a < 2 ^ k -> 0 <= b < 2 ^ k -> 0 <= Z.lor a b < 2 ^ k.
Proof.
  intros Hk Ha Hb. assert (He : Z.lor a b = Z.lor a b mod 2 ^ k).
  { symmetry. apply Z.bits_inj_iff'. intros j Hj. destruct (decide (j < k)).
    - by rewrite Z.mod_pow2_bits_low.
    - rewrite Z.mod_pow2_bits_high by lia. rewrite Z.lor_spec.
      rewrite <- (Z.mod_small a (2 ^ k)), <- (Z.mod_small b (2 ^ k)) by done.
      by rewrite !Z.mod_pow2_bits_high by lia. }
  rewrite He. apply Z.mod_pos_bound. lia.
Qed.

(** After a write of [w] to the entry of [va]. *)
Lemma pte_write s pg l va w v : ptinv s pg l -> 0 <= va < 2 ^ 32 -> 0 <= v < 2 ^ 32 -> 0 <= w < 2 ^ 32 ->
  fhas (pde (km s) pg (PDX va)) PTE_P = true ->
  pte (store4 (km s) (tab (km s) pg (PDX va) + 4 * PTX va) w) pg v =
  if decide (v / PGSIZE = va / PGSIZE) then w else pte (km s) pg v.
Proof.
  intros Hpt Hva Hv Hw Hp. pose proof (PDX_range va) as D1. pose proof (PTX_range va) as T1.
  pose proof (PDX_range v) as D2. pose proof (PTX_range v) as T2.
  destruct (ptinv_entry s pg l (PDX va) (PTX va) w Hpt D1 T1 Hp) as [_ Hpde].
  set (m := store4 _ _ _) in *. unfold pte at 1. unfold tab. rewrite Hpde by done.
  destruct (pt_tab _ _ _ Hpt _ D1 Hp) as (O1 & _ & N1). case_decide as He.
  - assert (PDX v = PDX va) as -> by (rewrite !PDX_div by done; unfold PGSIZE in He; divlia).
    assert (PTX v = PTX va) as -> by (rewrite !PTX_div by done; unfold PGSIZE in He; by rewrite He).
    rewrite Hp. by apply load4_store4.
  - unfold pte. destruct (fhas (pde (km s) pg (PDX v)) PTE_P) eqn:Ep; [|done].
    change (p2v (PTE_ADDR (pde (km s) pg (PDX v)))) with (tab (km s) pg (PDX v)).
    destruct (pt_tab _ _ _ Hpt _ D2 Ep) as (O2 & _ & N2). apply load4_store4_ne.
    destruct (decide (PDX v = PDX va)) as [Hd|Hd].
    + rewrite Hd. assert (PTX v <> PTX va) by (intros Ht; apply He; by apply vpn_eq). lia.
    + apply page_word; try done. intros Ht. apply Hd. symmetry. by apply (pt_inj _ _ _ Hpt).
Qed.

(** User memory: each mapped page below [KERNBASE] has a page of its own. *)
Record uinv (s : kmem) (pg : Z) (l : list Z) : Prop := {
  ui_pt : ptinv s pg l;
  ui_page va : 0 <= va < KERNBASE -> mapped (km s) pg va = true ->
    page_ok kend (frame (km s) pg va) /\ ~ frame (km s) pg va ∈ l /\ frame (km s) pg va <> pg /\
    ~ istab (km s) pg (frame (km s) pg va);
  ui_inj va va' : 0 <= va < KERNBASE -> 0 <= va' < KERNBASE -> mapped (km s) pg va = true ->
    mapped (km s) pg va' = true -> frame (km s) pg va = frame (km s) pg va' -> va / PGSIZE = va' / PGSIZE
}.

(** A page nobody uses. *)
Record unused (s : kmem) (pg : Z) (l : list Z) (p : Z) : Prop := {
  un_ok : page_ok kend p;
  un_free : ~ p ∈ l;
  un_pg : p <> pg;
  un_tab : ~ istab (km s) pg p;
  un_user va : 0 <= va < KERNBASE -> mapped (km s) pg va = true -> frame (km s) pg va <> p
}.

Lemma PGROUNDDOWN_id a : 0 <= a < 2 ^ 32 -> a mod PGSIZE = 0 -> PGROUNDDOWN a = a.
Proof. intros Ha Hm. unfold PGROUNDDOWN. rewrite pground_mask by done. lia. Qed.

(** Mapping one page. *)
Record mapped1 (s : kmem) (pg va e : Z) (l : list Z) (s' : kmem) (l' : list Z) : Prop := {
  m1_inv : ptinv s' pg l';
  m1_free : l' = l \/ exists p, l = p :: l' /\ istab (km s') pg p;
  m1_pte v : 0 <= v < 2 ^ 32 -> pte (km s') pg v = if decide (v / PGSIZE = va / PGSIZE) then e else pte (km s) pg v;
  m1_tabs q : istab (km s) pg q -> istab (km s') pg q;
  m1_new q : istab (km s') pg q -> istab (km s) pg q \/ q ∈ l;
  m1_count I : idx_ok I -> PDX va ∈ I -> (length l + tabs (km s) pg I = length l' + tabs (km s') pg I)%nat;
  m1_out q x : page_ok kend q -> ~ q ∈ l -> q <> pg -> ~ istab (km s) pg q -> q <= x < q + PGSIZE -> km s' x = km s x
}.

Lemma map_page s pg l va pa perm : ptinv s pg l -> 0 <= va -> va + PGSIZE <= 2 ^ 32 -> va mod PGSIZE = 0 ->
  mapped (km s) pg va = false -> 0 <= pa < 2 ^ 32 -> pa mod PGSIZE = 0 -> 0 <= perm < 4096 ->
  exists r s', mappages pg va PGSIZE pa perm s = Ok r s' /\
    (r = -1 /\ l = [] /\ s' = s /\ fhas (pde (km s) pg (PDX va)) PTE_P = false \/ r = 0 /\ exists l', mapped1 s pg va (Z.lor pa (Z.lor perm PTE_P)) l s' l').
Proof.
  intros Hpt Hva Hend Hal Hnm Hpa Hpm Hperm. unfold mappages.
  assert (Hva32 : 0 <= va < 2 ^ 32) by (unfold PGSIZE in *; lia).
  assert (Hlast : PGROUNDDOWN (u32 (va + PGSIZE - 1)) = va).
  { unfold PGROUNDDOWN. rewrite u32_id by (unfold PGSIZE in *; lia). rewrite pground_mask by (unfold PGSIZE in *; lia).
    unfold PGSIZE in *. divlia. }
  rewrite Hlast, PGROUNDDOWN_id by done. rewrite Z.sub_diag. cbn [Z.to_nat Nat.add mappages_loop u32].
  change (Z.to_nat (u32 0 / PGSIZE)) with 0%nat. cbn [mappages_loop].
  destruct (walk_ok s pg l va Hpt) as (r & s1 & E & [(-> & -> & -> & Hab)|(l' & Hw)]).
  { exists (-1), s. unfold bind. rewrite E. split; [done|]. by left. }
  destruct Hw as [W1 W2 W3 W4 W5 W6 W7 W8 WC W9]. unfold bind. rewrite E.
  destruct (Z.eqb_spec r 0); [done|]. unfold ld, gets.
  assert (Hent : load4 (km s1) r = pte (km s) pg va) by (rewrite <- W6, W4; unfold pte; by rewrite W3).
  rewrite Hent. unfold mapped in Hnm. rewrite Hnm. rewrite Z.eqb_refl.
  rewrite <- Z.lor_assoc. set (e := Z.lor pa (Z.lor perm PTE_P)).
  assert (Hf : 0 <= Z.lor perm PTE_P < 4096).
  { apply (lor_range 12); unfold PTE_P; change (2 ^ 12) with 4096; lia. }
  destruct (pte_parts pa _ Hpa Hpm Hf) as (_ & _ & Her). fold e in Her.
  exists 0. unfold st, setmem, modify. cbn [km freelist use_lock]. eexists. split; [done|]. right. split; [done|]. exists l'.
  destruct (ptinv_entry s1 pg l' (PDX va) (PTX va) e W1 (PDX_range va) (PTX_range va) W3) as [I1 I2].
  rewrite <- W4 in I1, I2.
  assert (Htabs : forall q, istab (store4 (km s1) r e) pg q <-> istab (km s1) pg q).
  { intros q. unfold istab, tab. split; intros (j & Hj & Hp & Hq); exists j; rewrite I2 in * by done; done. }
  split; cbn [km]; try done.
  - destruct W2 as [->|(p & -> & Hp)]; [by left|right]. exists p. split; [done|]. by apply Htabs.
  - intros v Hv. rewrite W4, (pte_write s1 pg l' va e v) by done. by rewrite W6.
  - intros q Hq. by apply Htabs, W7.
  - intros q Hq%Htabs. by apply W8.
  - intros I HI Hin. rewrite (tabs_same (km s1) (store4 _ _ _) pg I); [by apply WC|]. intros j Hj. by apply I2, HI.
  - intros q x Hq Hql Hqp Hqt Hx. rewrite store4_out; [by apply (W9 q)|].
    destruct (pt_tab _ _ _ W1 _ (PDX_range va) W3) as (Ht & _ & _).
    assert (Hqne : tab (km s1) pg (PDX va) <> q).
    { intros He. destruct (W8 q) as [?|?]; [|done|done]. exists (PDX va). split; [apply PDX_range|done]. }
    intros Hx'. apply (page_out (tab (km s1) pg (PDX va)) q x Ht Hq Hqne Hx). pose proof (PTX_range va).
    unfold PGSIZE. lia.
Qed.


Definition page_of (va : Z) : Z := va - va mod PGSIZE.

(** The pages [new] have been added to the user memory of [pg], with the flags
    [F] and the bytes [B]. *)
Record grown (s : kmem) (pg : Z) (l : list Z) (s' : kmem) (l' : list Z) (new : list Z) (F B : Z -> Z) : Prop := {
  gr_inv : uinv s' pg l';
  gr_count I : idx_ok I -> (forall a, a ∈ new -> PDX a ∈ I) ->
    (length l + tabs (km s) pg I = length l' + tabs (km s') pg I + length new)%nat;
  gr_free p : p ∈ l' -> p ∈ l;
  gr_lost p : p ∈ l -> p ∈ l' \/ istab (km s') pg p \/
    exists va, 0 <= va < KERNBASE /\ page_of va ∈ new /\ frame (km s') pg va = p;
  gr_keep q : istab (km s) pg q -> istab (km s') pg q;
  gr_new va : 0 <= va < KERNBASE -> page_of va ∈ new ->
    mapped (km s') pg va = true /\ PTE_FLAGS (pte (km s') pg va) = F va /\ ubyte (km s') pg va = B va /\
    frame (km s') pg va ∈ l;
  gr_old va : 0 <= va < 2 ^ 32 -> ~ page_of va ∈ new -> pte (km s') pg va = pte (km s) pg va;
  gr_tabs q : istab (km s') pg q -> istab (km s) pg q \/ q ∈ l;
  gr_out q x : page_ok kend q -> ~ q ∈ l -> q <> pg -> ~ istab (km s) pg q -> q <= x < q + PGSIZE -> km s' x = km s x
}.

Lemma user32 va : 0 <= va < KERNBASE -> 0 <= va < 2 ^ 32.
Proof. unfold KERNBASE. lia. Qed.

Lemma grown_refl s pg l F B : uinv s pg l -> grown s pg l s l [] F B.
Proof. intros H. split; try done; [by left|by intros va _ ?%elem_of_nil|by left]. Qed.

(** Old bytes stay. *)
Lemma grown_byte s pg l s' l' new F B va : uinv s pg l -> grown s pg l s' l' new F B -> 0 <= va < KERNBASE ->
  ~ page_of va ∈ new -> mapped (km s) pg va = true -> ubyte (km s') pg va = ubyte (km s) pg va.
Proof.
  intros Hu Hg Hva Hn Hm. destruct (ui_page _ _ _ Hu va Hva Hm) as (H1 & H2 & H3 & H4).
  unfold ubyte, frame. rewrite (gr_old _ _ _ _ _ _ _ _ Hg) by (done || by apply user32).
  apply (gr_out _ _ _ _ _ _ _ _ Hg (frame (km s) pg va)); try done. unfold frame.
  pose proof (Z.mod_pos_bound va PGSIZE ltac:(unfold PGSIZE; lia)). lia.
Qed.

Lemma grown_trans s pg l s1 l1 n1 s2 l2 n2 F B : uinv s pg l -> (forall a, a ∈ n1 -> ~ a ∈ n2) ->
  grown s pg l s1 l1 n1 F B -> grown s1 pg l1 s2 l2 n2 F B -> grown s pg l s2 l2 (n1 ++ n2) F B.
Proof.
  intros Hu Hd HA HB. pose proof HA as [A1 A2 A3 AL AK A4 A5 A6 A7]. pose proof HB as [B1 B2 B3 BL BK B4 B5 B6 B7]. split; try done.
  - intros I HI Hin. rewrite length_app. specialize (A2 I HI). specialize (B2 I HI).
    assert (H1 : forall a, a ∈ n1 -> PDX a ∈ I) by (intros a Ha; apply Hin; set_solver).
    assert (H2 : forall a, a ∈ n2 -> PDX a ∈ I) by (intros a Ha; apply Hin; set_solver).
    specialize (A2 H1). specialize (B2 H2). lia.
  - auto.
  - intros p Hp. destruct (AL p Hp) as [Hp1|[Hp1|(va & Hva & Hn & Hf)]].
    + destruct (BL p Hp1) as [?|[?|(va & Hva & Hn & Hf)]]; [by left|right; by left|]. right; right. exists va. set_solver.
    + right; left. by apply BK.
    + right; right. exists va. split; [done|]. split; [set_solver|]. unfold frame in *. rewrite B5; [done|by apply user32|by apply Hd].
  - auto.
  - intros va Hva [H1|H2]%elem_of_app.
    + destruct (A4 va Hva H1) as (P1 & P2 & P3 & P4).
      assert (Hn2 : ~ page_of va ∈ n2) by (by apply Hd). unfold mapped, frame in *.
      rewrite B5 by (done || by apply user32). split_and!; [done|done| |done].
      by rewrite (grown_byte s1 pg l1 s2 l2 n2 F B).
    + destruct (B4 va Hva H2) as (P1 & P2 & P3 & P4). split_and!; auto.
  - intros va Hva Hn. rewrite B5, A5; [done|done|set_solver|done|set_solver].
  - intros q Hq. destruct (B6 q Hq) as [Hq1|Hq1]; [by apply A6|right; by apply A3].
  - intros q x Hq Hql Hqp Hqt Hx. rewrite (B7 q x); [by apply (A7 q x)|done| |done| |done].
    + intros Hin. by apply Hql, A3.
    + intros Hin. by destruct (A6 q Hin).
Qed.

Lemma page_of_div va a : a mod PGSIZE = 0 -> (va / PGSIZE = a / PGSIZE <-> page_of va = a).
Proof. intros Ha. unfold page_of, PGSIZE in *. split; intros; divlia. Qed.

(** The first free page taken and filled. *)
Lemma fill_page s pg p l m : ptinv s pg (p :: l) -> mem_ok m -> (forall x, ~ (p <= x < p + PGSIZE) -> m x = km s x) ->
  ptinv (Kmem m (load4 (km s) p) (use_lock s)) pg l /\
  (forall i, 0 <= i < 1024 -> pde m pg i = pde (km s) pg i) /\ (forall q, istab m pg q <-> istab (km s) pg q) /\
  (forall v, pte m pg v = pte (km s) pg v).
Proof.
  intros [P1 P2 P3 P4 P5] Hm Hx. pose proof (ki_pages _ _ _ P1) as Hall. apply Forall_cons in Hall as [Hpok Hall].
  pose proof (ki_nodup _ _ _ P1) as Hnd. apply NoDup_cons in Hnd as [Hpl Hnd].
  assert (Hout : forall q x, page_ok kend q -> q <> p -> q <= x < q + PGSIZE -> m x = km s x).
  { intros q x Hq Hqp Hqx. apply Hx. by apply (page_out p q). }
  assert (Hw : forall q a, page_ok kend q -> q <> p -> 0 <= a < 1024 -> load4 m (q + 4 * a) = load4 (km s) (q + 4 * a)).
  { intros q a Hq Hqp Ha. apply load4_ext. intros x Hxa. apply (Hout q); try done. unfold PGSIZE. lia. }
  assert (Hppg : pg <> p) by (intros ->; apply P3; by left).
  assert (Hpde : forall n, 0 <= n < 1024 -> pde m pg n = pde (km s) pg n) by (intros n Hn; by apply Hw).
  assert (Hnp : forall n, 0 <= n < 1024 -> fhas (pde (km s) pg n) PTE_P = true -> tab (km s) pg n <> p).
  { intros n Hn Hp He. destruct (P4 n Hn Hp) as (_ & Hnl & _). apply Hnl. rewrite He. by left. }
  split_and!.
  - split; cbn [km]; [|done|intros H; apply P3; by right| |].
    + destruct P1 as [K1 K2 K3 K4]. split; cbn [km freelist]; try done.
      destruct K2 as [_ K2]. eapply flist_ext; [|exact K2]. intros q x Hq Hqx. rewrite Forall_forall in Hall.
      apply (Hout q); [by apply Hall|by intros ->|unfold PGSIZE; lia].
    + intros n Hn. unfold tab. rewrite Hpde by done. intros Hp. destruct (P4 n Hn Hp) as (? & Hnl & ?).
      split_and!; [done| |done]. intros Hin. apply Hnl. by right.
    + intros n n' Hn Hn'. unfold tab. rewrite !Hpde by done. by apply P5.
  - done.
  - intros q. unfold istab, tab. split; intros (j & Hj & Hp & Hq); exists j; rewrite Hpde in * by done; done.
  - intros v. unfold pte, tab. rewrite Hpde by apply PDX_range. destruct (fhas (pde (km s) pg (PDX v)) PTE_P) eqn:Ep; [|done].
    apply Hw; [apply (P4 _ (PDX_range v) Ep)|by apply Hnp; [apply PDX_range|]|apply PTX_range].
Qed.

(** A page [p] of no other use entered at [a] of the user memory. *)
Lemma uinv_enter s pg l p a e s' l' : uinv s pg l -> ptinv s' pg l' -> page_ok kend p -> ~ p ∈ l' -> p <> pg ->
  ~ istab (km s') pg p -> a mod PGSIZE = 0 -> PTE_ADDR e = v2p p ->
  (forall va, 0 <= va < KERNBASE -> mapped (km s) pg va = true -> frame (km s) pg va <> p) ->
  (forall q, q ∈ l' -> q ∈ l) -> (forall q, istab (km s') pg q -> istab (km s) pg q \/ q ∈ l) ->
  (forall v, 0 <= v < 2 ^ 32 -> pte (km s') pg v = if decide (v / PGSIZE = a / PGSIZE) then e else pte (km s) pg v) ->
  uinv s' pg l'.
Proof.
  intros [Hpt Hup Hui] Hpt' Hok Hpl Hpp Hpt2 Hal He Hnu Hfree Hnew Hpte. destruct (page_phys p Hok) as (Hpv & _).
  assert (Hfp : forall va, 0 <= va < KERNBASE -> va / PGSIZE = a / PGSIZE -> frame (km s') pg va = p).
  { intros va Hva Hpa. unfold frame. rewrite Hpte, decide_True by (done || by apply user32). by rewrite He. }
  assert (Hold : forall va, 0 <= va < KERNBASE -> va / PGSIZE <> a / PGSIZE -> mapped (km s') pg va = true ->
    mapped (km s) pg va = true /\ frame (km s') pg va = frame (km s) pg va).
  { intros va Hva Hpa Hm. unfold mapped, frame in *. rewrite Hpte, decide_False in * by (done || by apply user32). done. }
  split; [done| |].
  - intros va Hva Hm. destruct (decide (va / PGSIZE = a / PGSIZE)) as [Hpa|Hpa]; [by rewrite Hfp|].
    destruct (Hold va Hva Hpa Hm) as [Hm0 ->]. destruct (Hup va Hva Hm0) as (U1 & U2 & U3 & U4).
    split_and!; [done|by intros ?%Hfree|done|]. intros Ht. by destruct (Hnew _ Ht).
  - intros va va' Hva Hva' Hm Hm' Hf.
    destruct (decide (va / PGSIZE = a / PGSIZE)) as [Hpa|Hpa], (decide (va' / PGSIZE = a / PGSIZE)) as [Hpa'|Hpa'].
    + congruence.
    + exfalso. destruct (Hold va' Hva' Hpa' Hm') as [Hm0 E]. rewrite Hfp, E in Hf by done. by apply (Hnu va').
    + exfalso. destruct (Hold va Hva Hpa Hm) as [Hm0 E]. rewrite (Hfp va'), E in Hf by done. by apply (Hnu va).
    + destruct (Hold va Hva Hpa Hm) as [Hm0 E], (Hold va' Hva' Hpa' Hm') as [Hm0' E']. rewrite E, E' in Hf. by apply Hui.
Qed.

(** One fresh page mapped at [a], with the contents that [m] gives it. *)
Lemma grow_page s pg p l1 a f m F B : uinv s pg (p :: l1) -> 0 <= a -> a + PGSIZE <= KERNBASE -> a mod PGSIZE = 0 ->
  mapped (km s) pg a = false -> l1 <> [] \/ fhas (pde (km s) pg (PDX a)) PTE_P = true -> 0 <= f < 4096 ->
  mem_ok m -> (forall x, ~ (p <= x < p + PGSIZE) -> m x = km s x) ->
  (forall va, page_of va = a -> F va = Z.lor f PTE_P /\ B va = m (p + va mod PGSIZE)) ->
  exists s' l', mappages pg a PGSIZE (v2p p) f (Kmem m (load4 (km s) p) (use_lock s)) = Ok 0 s' /\
    grown s pg (p :: l1) s' l' [a] F B.
Proof.
  intros Hu Ha Hend Hal Hnm Hl1 Hf Hm Hx HFB. pose proof Hu as [Hpt Hup Hui]. pose proof Hpt as [P1 P2 P3 P4 P5].
  pose proof (ki_pages _ _ _ P1) as Hall. apply Forall_cons in Hall as [Hpok Hall].
  pose proof (ki_nodup _ _ _ P1) as Hnd. apply NoDup_cons in Hnd as [Hpl Hnd].
  assert (Hppg : p <> pg) by (intros ->; apply P3; by left). destruct (page_phys p Hpok) as (Hpv & Hpr & Hpm).
  assert (Hf' : 0 <= Z.lor f PTE_P < 4096) by (apply (lor_range 12); unfold PTE_P; change (2 ^ 12) with 4096; lia).
  destruct (fill_page s pg p l1 m Hpt Hm Hx) as (Hpt1 & Hpde & Htab & Hpte). set (s1 := Kmem m _ _) in *.
  destruct (map_page s1 pg l1 a (v2p p) f) as (r & s' & E & [(-> & -> & _ & Hab)|(-> & l' & [M1 M2 M3 MT M4 MC M5])]);
    try done; [unfold KERNBASE in Hend; lia|unfold mapped; cbn [s1 km]; by rewrite Hpte| |].
  { exfalso. cbn [s1 km] in Hab. rewrite Hpde in Hab by apply PDX_range. destruct Hl1; [done|congruence]. }
  exists s', l'. split; [done|]. set (e := Z.lor (v2p p) (Z.lor f PTE_P)) in *.
  destruct (pte_parts (v2p p) _ Hpr Hpm Hf') as (E1 & E2 & E3). fold e in E1, E2, E3.
  assert (Hfree : forall q, q ∈ l' -> q ∈ l1) by (destruct M2 as [->|(q' & -> & _)]; set_solver).
  assert (Hpnt : ~ istab (km s) pg p).
  { intros (j & Hj & Hp & Hq). destruct (P4 j Hj Hp) as (_ & Hnl & _). apply Hnl. rewrite Hq. by left. }
  assert (Hpnt' : ~ istab (km s') pg p) by (intros Ht; destruct (M4 p Ht) as [?%Htab|?]; done).
  assert (Hnew : forall va, 0 <= va < KERNBASE -> page_of va = a -> pte (km s') pg va = e).
  { intros va Hva Hpa. rewrite M3, decide_True by (by apply user32 || by apply page_of_div). done. }
  assert (Hpte' : forall v, 0 <= v < 2 ^ 32 -> pte (km s') pg v = if decide (v / PGSIZE = a / PGSIZE) then e else pte (km s) pg v).
  { intros v Hv. rewrite M3 by done. case_decide; [done|]. apply Hpte. }
  split.
  - apply (uinv_enter s pg (p :: l1) p a e); try done; [by intros ?%Hfree| | |].
    + intros va Hva Hmp He. destruct (Hup va Hva Hmp) as (_ & U2 & _). apply U2. rewrite He. by left.
    + intros q Hq. right. by apply Hfree.
    + intros q Hq. destruct (M4 q Hq) as [?%Htab|?]; [by left|right; by right].
  - intros I HI Hin. assert (Hc := MC I HI (Hin a ltac:(by left))).
    assert (He : tabs (km s1) pg I = tabs (km s) pg I) by (apply tabs_same; intros j Hj; by apply Hpde, HI).
    rewrite He in Hc. cbn [length]. lia.
  - intros q Hq. right. by apply Hfree.
  - intros q [->|Hq]%elem_of_cons.
    + right; right. exists a. split; [unfold PGSIZE in *; lia|]. assert (Hpa : page_of a = a) by (unfold page_of; lia).
      split; [rewrite Hpa; by left|]. unfold frame. rewrite Hnew, E1 by (done || unfold PGSIZE in *; lia). done.
    + destruct M2 as [->|(q' & -> & Hq')]; [by left|]. apply elem_of_cons in Hq as [->|Hq]; [right; by left|by left].
  - intros q Hq. by apply MT, Htab.
  - intros va Hva Hpa. apply list_elem_of_singleton in Hpa. destruct (HFB va Hpa) as [HF HB].
    unfold mapped, ubyte, frame. rewrite Hnew, E1, E2, Hpv by done. split_and!; [|done| |by left].
    + change (fhas e (2 ^ 0) = true). unfold e. rewrite fhas_flags by (done || lia).
      rewrite Z.lor_spec. apply orb_true_r.
    + rewrite HB. pose proof (Z.mod_pos_bound va PGSIZE ltac:(unfold PGSIZE; lia)).
      rewrite (M5 p); [done|done|done|done|cbn [s1 km]; by rewrite Htab|lia].
  - intros va Hva Hpa. rewrite Hpte' by done. rewrite decide_False; [done|]. rewrite page_of_div by done.
    intros He. apply Hpa. rewrite He. by left.
  - intros q Hq. destruct (M4 q Hq) as [?%Htab|?]; [by left|right; by right].
  - intros q x Hq Hql Hqp Hqt Hqx.
    rewrite (M5 q x); [cbn [s1 km]; apply Hx, (page_out p q); set_solver|done|set_solver|done|cbn [s1 km]; by rewrite Htab|done].
Qed.

(** Taking the first free page. *)
Lemma kalloc_cons s p l : kinv kend s (p :: l) ->
  kalloc s = Ok p (Kmem (km s) (load4 (km s) p) (use_lock s)) /\ p <> 0 /\ page_ok kend p.
Proof.
  intros [K1 [K2 _] K3 K4]. apply Forall_cons in K4 as [Hp _]. pose proof (page_ok_range _ _ Hp).
  unfold kalloc. rewrite K2. destruct (Z.eqb_spec p 0); [lia|]. split_and!; [done|done|done].
Qed.

Lemma pages_disj a n x : x ∈ pages (a + PGSIZE) n -> x <> a.
Proof. intros Hx. unfold pages in Hx. apply list_elem_of_fmap in Hx as (j & -> & _). unfold PGSIZE. lia. Qed.

(** The free pages and tables suffice for [n] pages. *)
Definition enough (s : kmem) (pg : Z) (l I : list Z) (n : nat) : Prop :=
  idx_ok I /\ (length I + n <= length l + tabs (km s) pg I)%nat.

Lemma enough_first s pg l I n a : enough s pg l I (S n) -> PDX a ∈ I ->
  exists p l1, l = p :: l1 /\ (l1 <> [] \/ fhas (pde (km s) pg (PDX a)) PTE_P = true).
Proof.
  intros [HI Hn] Ha. pose proof (length_filter (fun i => fhas (pde (km s) pg i) PTE_P = true) I) as Hle. unfold tabs in Hn.
  destruct l as [|p l1]; cbn [length] in Hn; [lia|]. exists p, l1. split; [done|]. destruct l1; [right|by left].
  apply (tabs_full _ _ I); [|done]. unfold tabs. cbn [length] in Hn. lia.
Qed.

Lemma enough_next s pg l I n s1 l1 a F B : enough s pg l I (S n) -> PDX a ∈ I -> grown s pg l s1 l1 [a] F B ->
  enough s1 pg l1 I n.
Proof.
  intros [HI Hn] Ha Hg. split; [done|]. pose proof (gr_count _ _ _ _ _ _ _ _ Hg I HI) as Hc. cbn [length] in Hc.
  rewrite Hc in Hn by (intros ? ->%list_elem_of_singleton; done). lia.
Qed.

Lemma allocuvm_loop_ok pg oldsz newsz I : newsz < KERNBASE -> forall fuel n s l a, uinv s pg l -> 0 <= a -> a mod PGSIZE = 0 ->
  a + PGSIZE * (Z.of_nat n - 1) < newsz <= a + PGSIZE * Z.of_nat n \/ n = 0%nat /\ newsz <= a ->
  (n < fuel)%nat -> enough s pg l I n -> (forall x, x ∈ pages a n -> PDX x ∈ I) ->
  (forall va, 0 <= va < KERNBASE -> page_of va ∈ pages a n -> mapped (km s) pg va = false) ->
  exists s' l', allocuvm_loop fuel pg a oldsz newsz s = Ok newsz s' /\
    grown s pg l s' l' (pages a n) (fun _ => 7) (fun _ => 0).
Proof.
  intros Hk. induction fuel as [|f IH]; intros n s l a Hu Ha Hal Hn Hf Hl HI Hm; [lia|]. cbn [allocuvm_loop].
  destruct n as [|n].
  { destruct (Z.ltb_spec a newsz); [unfold PGSIZE in *; lia|]. exists s, l. split; [done|]. by apply grown_refl. }
  destruct (Z.ltb_spec a newsz); [|unfold PGSIZE in *; lia].
  assert (Hfit : a + PGSIZE <= KERNBASE) by (unfold PGSIZE, KERNBASE in *; divlia).
  assert (Hpa : page_of a = a) by (unfold page_of; lia). rewrite pages_S in Hm, HI |- *.
  destruct (enough_first s pg l I n a Hl) as (p & l1 & -> & Hl1); [apply HI; by left|].
  destruct (kalloc_cons s p l1 (pt_k _ _ _ (ui_pt _ _ _ Hu))) as (Ek & Hpz & Hpok).
  unfold bind at 1. rewrite Ek. destruct (Z.eqb_spec p 0); [lia|].
  destruct (grow_page s pg p l1 a 6 (memset (km s) p 0 PGSIZE) (fun _ => 7) (fun _ => 0) Hu Ha Hfit Hal) as (s1 & l' & E & Hg);
    [|done|done| | | |].
  { apply Hm; [unfold PGSIZE in *; lia|]. rewrite Hpa. by left. }
  { apply memset_ok; [apply (ui_pt _ _ _ Hu)|unfold PGSIZE; lia]. }
  { intros x Hx. rewrite memset_spec, decide_False by (done || unfold PGSIZE; lia). done. }
  { intros va _. pose proof (Z.mod_pos_bound va PGSIZE ltac:(unfold PGSIZE; lia)).
    rewrite memset_spec, decide_True by (unfold PGSIZE in *; lia). done. }
  unfold bind at 1, setmem, modify. cbn [km freelist use_lock]. unfold bind at 1.
  change (Z.lor PTE_W PTE_U) with 6. rewrite E.
  destruct (IH n s1 l' (a + PGSIZE)) as (s' & l2' & E' & Hg'); try done.
  - apply Hg.
  - unfold PGSIZE. lia.
  - unfold PGSIZE in *. divlia.
  - destruct Hn as [Hn|[? _]]; [|done]. destruct n; [right; split; [done|unfold PGSIZE in *; lia]|left; unfold PGSIZE in *; lia].
  - lia.
  - eapply enough_next; [done| |done]. apply HI. by left.
  - intros x Hx. apply HI. by right.
  - intros va Hva Hin. unfold mapped. rewrite (gr_old _ _ _ _ _ _ _ _ Hg); [apply Hm; [done|by right]|by apply user32|].
    intros He%list_elem_of_singleton. by apply (pages_disj _ _ _ Hin).
  - exists s', l2'. split; [done|]. apply (grown_trans s pg (p :: l1) s1 l' [a] s' l2' (pages (a + PGSIZE) n)); try done.
    intros x ->%list_elem_of_singleton Hin. by destruct (pages_disj _ _ _ Hin).
Qed.

(** ** The promises of the page tables *)

(** [mappages] of a page that is not mapped enters it with the given
    address and flags, or returns -1 when a page table is needed and memory
    has run out; it changes no other mapping, and no page but the directory,
    its tables and, for a new table, the first free page; it panics when the
    page is mapped already. *)
Theorem mappages_spec s pg l va pa perm : ptinv s pg l -> 0 <= va -> va + PGSIZE <= 2 ^ 32 -> va mod PGSIZE = 0 ->
  0 <= pa < 2 ^ 32 -> pa mod PGSIZE = 0 -> 0 <= perm < 4096 ->
  if mapped (km s) pg va then exists s', mappages pg va PGSIZE pa perm s = Panic s' /\ s' = "remap"%string
  else exists r s', mappages pg va PGSIZE pa perm s = Ok r s' /\
    (r = -1 /\ l = [] /\ s' = s \/
     r = 0 /\ exists l', ptinv s' pg l' /\ (l' = l \/ exists p, l = p :: l') /\
       (forall v, 0 <= v < 2 ^ 32 -> pte (km s') pg v =
          if decide (v / PGSIZE = va / PGSIZE) then Z.lor pa (Z.lor perm PTE_P) else pte (km s) pg v) /\
       forall q x, page_ok kend q -> ~ q ∈ l -> q <> pg -> ~ istab (km s) pg q -> q <= x < q + PGSIZE -> km s' x = km s x).
Proof.
  intros Hpt Hva Hend Hal Hpa Hpm Hperm. destruct (mapped (km s) pg va) eqn:Hm.
  - eexists. split; [|reflexivity]. unfold mappages.
    assert (Hlast : PGROUNDDOWN (u32 (va + PGSIZE - 1)) = va).
    { unfold PGROUNDDOWN. rewrite u32_id by (unfold PGSIZE in *; lia). rewrite pground_mask by (unfold PGSIZE in *; lia).
      unfold PGSIZE in *. divlia. }
    rewrite Hlast, PGROUNDDOWN_id by (unfold PGSIZE in *; lia). rewrite Z.sub_diag.
    change (Z.to_nat (u32 0 / PGSIZE)) with 0%nat. cbn [mappages_loop]. unfold bind, walkpgdir, ld, bind, gets.
    unfold mapped, pte, pde in Hm. destruct (fhas (load4 (km s) (pg + 4 * PDX va)) PTE_P) eqn:Ep; [|done].
    assert (Hnz := tab_addr_nz s pg l (PDX va) (PTX va) Hpt (PDX_range va) (proj1 (PTX_range va)) Ep).
    unfold tab, pde in Hnz, Hm. cbn [ret]. unfold ret. destruct (Z.eqb_spec (p2v (PTE_ADDR (load4 (km s) (pg + 4 * PDX va))) + 4 * PTX va) 0); [done|].
    by rewrite Hm.
  - destruct (map_page s pg l va pa perm Hpt Hva Hend Hal Hm Hpa Hpm Hperm) as (r & s' & E & [(-> & -> & -> & _)|(-> & l' & [M1 M2 M3 MT M4 MC M5])]);
      [exists (-1), s|exists 0, s']; (split; [done|]); [by left|right]. split; [done|]. exists l'. split_and!; try done.
    destruct M2 as [->|(p & -> & _)]; [by left|right]. by exists p.
Qed.

(** C19. [allocuvm], given two free pages for each page it adds, returns the
    new size.  Every page of the new range is then mapped, user-writable and
    zero, and has a page of its own; the rest of the process's memory, its
    mappings and every page that is not its directory or one of its page
    tables are as before. *)
Theorem allocuvm_spec s pg l oldsz newsz : uinv s pg l -> 0 <= oldsz <= newsz -> newsz < KERNBASE ->
  let n := Z.to_nat ((newsz - PGROUNDUP oldsz + PGSIZE - 1) / PGSIZE) in
  let new := pages (PGROUNDUP oldsz) n in
  (2 * n <= length l)%nat ->
  (forall va, 0 <= va < KERNBASE -> page_of va ∈ new -> mapped (km s) pg va = false) ->
  exists s' l', allocuvm pg oldsz newsz s = Ok newsz s' /\ uinv s' pg l' /\
    (forall va, 0 <= va < KERNBASE -> page_of va ∈ new ->
       mapped (km s') pg va = true /\ PTE_FLAGS (pte (km s') pg va) = 7 /\ ubyte (km s') pg va = 0) /\
    (forall va, 0 <= va < KERNBASE -> ~ page_of va ∈ new -> pte (km s') pg va = pte (km s) pg va /\
       (mapped (km s) pg va = true -> ubyte (km s') pg va = ubyte (km s) pg va)) /\
    forall q x, page_ok kend q -> ~ q ∈ l -> q <> pg -> ~ istab (km s) pg q -> q <= x < q + PGSIZE -> km s' x = km s x.
Proof.
  intros Hu Ho Hk n new Hl Hm. destruct (PGROUNDUP_ok oldsz) as [Hal Hr]; [lia|unfold PGSIZE, KERNBASE in *; lia|].
  unfold allocuvm. destruct (Z.leb_spec KERNBASE newsz); [lia|]. destruct (Z.ltb_spec newsz oldsz); [lia|].
  destruct (allocuvm_loop_ok pg oldsz newsz (remove_dups (PDX <$> new)) Hk (S (Z.to_nat (newsz / PGSIZE + 1))) n s l (PGROUNDUP oldsz)) as (s' & l' & E & Hg); try done.
  - lia.
  - unfold n. unfold PGSIZE in *. destruct (decide (newsz <= PGROUNDUP oldsz)); [right; split; divlia|left; divlia].
  - unfold n. unfold PGSIZE in *. divlia.
  - split; [split; [apply NoDup_remove_dups|]|].
    + intros i Hi. rewrite elem_of_remove_dups in Hi. apply list_elem_of_fmap in Hi as (a & -> & _). apply PDX_range.
    + assert (length (remove_dups (PDX <$> new)) <= n)%nat; [|lia].
      assert (Hln : length (PDX <$> new) = n) by (unfold new, pages; by rewrite !length_fmap, length_seq).
      transitivity (length (PDX <$> new)); [|lia]. apply submseteq_length, NoDup_submseteq; [apply NoDup_remove_dups|].
      intros i Hi. by apply elem_of_remove_dups.
  - intros x Hx. apply elem_of_remove_dups, list_elem_of_fmap. by exists x.
  - exists s', l'. split_and!; [done|apply Hg| | |apply Hg].
    + intros va Hva Hnew. destruct (gr_new _ _ _ _ _ _ _ _ Hg va Hva Hnew) as (? & ? & ? & _). done.
    + intros va Hva Hnew. split; [apply (gr_old _ _ _ _ _ _ _ _ Hg); [by apply user32|done]|]. intros Hmp. by eapply grown_byte.
Qed.

End vm.


(** ** An example: an empty directory and two free pages *)

Definition demo_vm : kmem :=
  Kmem (store4 (fun _ => 0) (demo_end + 4096) (demo_end + 8192)) (demo_end + 4096) true.
Definition demo_free : list Z := [demo_end + 4096; demo_end + 8192].

Lemma demo_pde i : 0 <= i < 1024 -> pde (km demo_vm) demo_end i = 0.
Proof. intros Hi. unfold pde, demo_vm. cbn [km]. rewrite load4_store4_ne by (unfold demo_end; lia). done. Qed.

Lemma demo_ptinv : ptinv demo_end demo_vm demo_end demo_free.
Proof.
  split.
  - split; cbn [km demo_vm freelist].
    + apply store4_ok. intros x. lia.
    + unfold demo_free. cbn [flist]. split_and!; [done|by vm_compute|by vm_compute].
    + unfold demo_free. repeat constructor; set_solver by (unfold demo_end; lia).
    + repeat constructor; vm_compute; intuition discriminate.
  - vm_compute; intuition discriminate.
  - unfold demo_free, demo_end. set_solver by lia.
  - intros i Hi. rewrite demo_pde by done. discriminate.
  - intros i j Hi Hj. rewrite demo_pde by done. discriminate.
Qed.

Lemma demo_unmapped va : mapped (km demo_vm) demo_end va = false.
Proof. unfold mapped, pte. rewrite demo_pde by apply PDX_range. done. Qed.

Lemma demo_uinv : uinv demo_end demo_vm demo_end demo_free.
Proof.
  split; [apply demo_ptinv|intros va _|intros va va' _ _]; rewrite demo_unmapped; discriminate.
Qed.

Lemma mappages_spec_witness : exists s', mappages demo_end 8192 PGSIZE 20480 6 demo_vm = Ok 0 s' /\
  pte (km s') demo_end 8192 = 20487.
Proof.
  pose proof (mappages_spec demo_end demo_vm demo_end demo_free 8192 20480 6 demo_ptinv ltac:(lia)
    ltac:(unfold PGSIZE; lia) eq_refl ltac:(lia) eq_refl ltac:(lia)) as H.
  rewrite demo_unmapped in H. destruct H as (r & s' & E & [(_ & H & _)|(-> & l' & _ & _ & H & _)]); [discriminate H|].
  exists s'. split; [exact E|]. rewrite H by lia. by rewrite decide_True.
Defined.

Lemma allocuvm_spec_witness : exists s' l', allocuvm demo_end demo_end 0 4096 demo_vm = Ok 4096 s' /\
  uinv demo_end s' demo_end l' /\ mapped (km s') demo_end 100 = true /\ ubyte (km s') demo_end 100 = 0.
Proof.
  destruct (allocuvm_spec demo_end demo_vm demo_end demo_free 0 4096 demo_uinv ltac:(lia) ltac:(unfold KERNBASE; lia))
    as (s' & l' & E & Hu & Hn & _).
  - vm_compute. lia.
  - intros va _ _. apply demo_unmapped.
  - exists s', l'. split; [exact E|]. split; [exact Hu|]. destruct (Hn 100) as (H1 & _ & H2); [unfold KERNBASE; lia| |by split].
    vm_compute. by left.
Defined.
