(* ===== verification/VmCopy.v ===== *)
(** * Address spaces (setupkvm, copyuvm and freevm of vm.c)

    What a new page directory maps, that a copy made for [fork] is equal to
    the original and shares no page with it, and that a directory that is
    freed gives all its pages back. *)

From stdpp Require Import base numbers list gmap strings.
From Stdlib Require Import ZArith Lia.
From S2P Require Import Prelude Kstring Kalloc Vm.

Local Open Scope Z_scope.
Local Open Scope kernel_scope.

Section vmcopy.
(** [end] and [data] of kernel.ld; [data] is aligned there. *)
Context (kend kdata : Z).
Context (Hdata : KERNLINK < kdata < KERNBASE + PHYSTOP) (Haligned : kdata mod PGSIZE = 0).
Implicit Types (s : kmem) (pg : Z) (l I : list Z).

(** ** Mapping a range *)

(** The directory [pg] has grown by tables, from the free pages [l]. *)
Record extended s pg l s' l' I : Prop := Extended {
  xt_inv : ptinv kend s' pg l';
  xt_free p : p ∈ l' -> p ∈ l;
  xt_lost p : p ∈ l -> p ∈ l' \/ istab (km s') pg p;
  xt_keep q : istab (km s) pg q -> istab (km s') pg q;
  xt_tabs q : istab (km s') pg q -> istab (km s) pg q \/ q ∈ l;
  xt_count : (length l + tabs (km s) pg I = length l' + tabs (km s') pg I)%nat;
  xt_out q x : page_ok kend q -> ~ q ∈ l -> q <> pg -> ~ istab (km s) pg q -> q <= x < q + PGSIZE -> km s' x = km s x
}.

Lemma extended_refl s pg l I : ptinv kend s pg l -> extended s pg l s l I.
Proof. intros H. split; try done; by left. Qed.

Lemma extended_trans s pg l s1 l1 s2 l2 I : extended s pg l s1 l1 I -> extended s1 pg l1 s2 l2 I ->
  extended s pg l s2 l2 I.
Proof.
  intros [A1 A2 AL AK A3 A4 A5] [B1 B2 BL BK B3 B4 B5]. split; [done|auto| |auto| |lia|].
  - intros p Hp. destruct (AL p Hp) as [Hp1|Hp1]; [by apply BL|right; by apply BK].
  - intros q Hq. destruct (B3 q Hq) as [?|?]; [by apply A3|right; by apply A2].
  - intros q x Hq Hl Hp Ht Hx. rewrite (B5 q x), (A5 q x); try done; [by intros ?%A2|].
    intros Hi. by destruct (A3 q Hi).
Qed.

(** What [pg] maps once the [size] bytes from [a] on are mapped to [pa]. *)
Definition with_range (old : Z -> Z) (a size pa f v : Z) : Z :=
  if decide (a <= v < a + size) then Z.lor (pa + (page_of v - a)) (Z.lor f PTE_P) else old v.

(** One round of [mappages]. *)
Lemma mappages_loop_step f pg a last pa perm s s1 : mappages_loop 1 pg a a pa perm s = Ok 0 s1 ->
  mappages_loop (S f) pg a last pa perm s =
  (if a =? last then ret 0 else mappages_loop f pg (u32 (a + PGSIZE)) last (u32 (pa + PGSIZE)) perm) s1.
Proof.
  cbn [mappages_loop]. unfold bind. destruct (walkpgdir pg a true s) as [r s0| |]; [|done|done].
  destruct (r =? 0); [done|]. unfold ld, gets. destruct (fhas _ PTE_P); [done|]. unfold st, setmem, modify.
  rewrite Z.eqb_refl. intros [= <-]. by destruct (a =? last).
Qed.

Lemma mappages_one pg a pa perm : 0 <= a -> a + PGSIZE <= 2 ^ 32 -> a mod PGSIZE = 0 ->
  mappages pg a PGSIZE pa perm = mappages_loop 1 pg a a pa perm.
Proof.
  intros Ha Hend Hal. unfold mappages. assert (Hlast : PGROUNDDOWN (u32 (a + PGSIZE - 1)) = a).
  { unfold PGROUNDDOWN. rewrite u32_id by (unfold PGSIZE in *; lia). rewrite pground_mask by (unfold PGSIZE in *; lia).
    unfold PGSIZE in *. divlia. }
  rewrite Hlast, PGROUNDDOWN_id by (unfold PGSIZE in *; lia). by rewrite Z.sub_diag.
Qed.

Lemma in_first v a n : a mod PGSIZE = 0 ->
  (a <= v < a + PGSIZE * Z.of_nat (S n)) <-> (v / PGSIZE = a / PGSIZE) \/ (a + PGSIZE <= v < a + PGSIZE + PGSIZE * Z.of_nat n).
Proof. intros Ha. unfold PGSIZE in *. split; intros; divlia. Qed.

Lemma map_first s pg l a pa f I : idx_ok I -> 0 <= f < 4096 -> ptinv kend s pg l -> 0 <= a -> a + PGSIZE <= 2 ^ 32 ->
  a mod PGSIZE = 0 -> 0 <= pa < 2 ^ 32 -> pa mod PGSIZE = 0 -> mapped (km s) pg a = false -> PDX a ∈ I ->
  (length I <= length l + tabs (km s) pg I)%nat ->
  exists s' l', mappages_loop 1 pg a a pa f s = Ok 0 s' /\ extended s pg l s' l' I /\
    forall v, 0 <= v < 2 ^ 32 -> pte (km s') pg v = if decide (v / PGSIZE = a / PGSIZE) then Z.lor pa (Z.lor f PTE_P) else pte (km s) pg v.
Proof.
  intros HI Hf Hpt Ha Hend Hal Hpa Hpm Hm Hin Hc.
  destruct (map_page kend s pg l a pa f Hpt Ha Hend Hal Hm Hpa Hpm Hf) as (r & s' & E & Hr).
  rewrite mappages_one in E by done. destruct Hr as [(-> & -> & _ & Hab)|(-> & l' & [M1 M2 M3 MT M4 MC M5])].
  - exfalso. cbn [length] in Hc. by rewrite (tabs_full (km s) pg I (PDX a)) in Hab by (done || lia).
  - exists s', l'. split; [done|]. split; [|done]. split; try done; [| |by apply MC].
    + intros p Hp. destruct M2 as [->|(q & -> & _)]; [done|by right].
    + intros p Hp. destruct M2 as [->|(q & -> & Hq)]; [by left|]. apply elem_of_cons in Hp as [->|Hp]; [by right|by left].
Qed.

Lemma map_range pg f I : idx_ok I -> 0 <= f < 4096 -> forall n fuel s l a pa, ptinv kend s pg l ->
  0 <= a -> a mod PGSIZE = 0 -> a + PGSIZE * Z.of_nat (S n) <= 2 ^ 32 ->
  0 <= pa -> pa mod PGSIZE = 0 -> pa + PGSIZE * Z.of_nat (S n) <= 2 ^ 32 -> (n < fuel)%nat ->
  (forall v, a <= v < a + PGSIZE * Z.of_nat (S n) -> mapped (km s) pg v = false /\ PDX v ∈ I) ->
  (length I <= length l + tabs (km s) pg I)%nat ->
  exists s' l', mappages_loop fuel pg a (a + PGSIZE * Z.of_nat n) pa f s = Ok 0 s' /\ extended s pg l s' l' I /\
    forall v, 0 <= v < 2 ^ 32 -> pte (km s') pg v = with_range (pte (km s) pg) a (PGSIZE * Z.of_nat (S n)) pa f v.
Proof.
  intros HI Hf. induction n as [|n IH]; intros fuel s l a pa Hpt Ha Hal Hend Hpa Hpm Hpe Hfu Hv Hc;
    (destruct fuel as [|fuel]; [lia|]);
    (destruct (map_first s pg l a pa f I) as (s1 & l1 & E & Hx & Hp); try done; try (apply Hv); try (unfold PGSIZE in *; lia)).
  - exists s1, l1. split; [|split; [done|]].
    + rewrite (mappages_loop_step _ _ _ _ _ _ _ _ E). replace (a + PGSIZE * Z.of_nat 0) with a by lia. by rewrite Z.eqb_refl.
    + intros v Hv32. rewrite Hp by done. unfold with_range.
      repeat case_decide; try done; [|exfalso; unfold PGSIZE in *; divlia|exfalso; unfold PGSIZE in *; divlia].
      f_equal. unfold page_of, PGSIZE in *. divlia.
  - destruct (IH fuel s1 l1 (a + PGSIZE) (pa + PGSIZE)) as (s' & l' & E' & Hx' & Hp'); try (unfold PGSIZE in *; divlia).
    + apply Hx.
    + intros v Hvr. destruct (Hv v) as [Hm Hin]; [unfold PGSIZE in *; lia|]. split; [|done]. unfold mapped in *.
      rewrite Hp by (unfold PGSIZE in *; lia). rewrite decide_False; [done|]. unfold PGSIZE in *. divlia.
    + pose proof (xt_count _ _ _ _ _ _ Hx). lia.
    + exists s', l'. split; [|split; [by eapply extended_trans|]].
      * rewrite (mappages_loop_step _ _ _ _ _ _ _ _ E). destruct (Z.eqb_spec a (a + PGSIZE * Z.of_nat (S n))); [unfold PGSIZE in *; lia|].
        rewrite !u32_id by (unfold PGSIZE in *; lia). by replace (a + PGSIZE * Z.of_nat (S n)) with (a + PGSIZE + PGSIZE * Z.of_nat n) by lia.
      * intros v Hv32. rewrite Hp' by done. unfold with_range. rewrite Hp by done. pose proof (in_first v a (S n) Hal) as Hif.
        destruct (decide (v / PGSIZE = a / PGSIZE)) as [Hve|Hve].
        -- rewrite decide_False by (unfold PGSIZE in *; divlia). rewrite decide_True by tauto. f_equal. unfold page_of, PGSIZE in *. divlia.
        -- destruct (decide (a + PGSIZE <= v < a + PGSIZE + PGSIZE * Z.of_nat (S n))); [rewrite decide_True by tauto; f_equal; lia|].
           by rewrite decide_False by tauto.
Qed.

(** [mappages] of a range of whole pages. *)
Lemma mappages_range s pg l va size pa f I : idx_ok I -> 0 <= f < 4096 -> ptinv kend s pg l ->
  0 < size -> size mod PGSIZE = 0 -> 0 <= va -> va mod PGSIZE = 0 -> va + size <= 2 ^ 32 ->
  0 <= pa -> pa mod PGSIZE = 0 -> pa + size <= 2 ^ 32 ->
  (forall v, va <= v < va + size -> mapped (km s) pg v = false /\ PDX v ∈ I) ->
  (length I <= length l + tabs (km s) pg I)%nat ->
  exists s' l', mappages pg va size pa f s = Ok 0 s' /\ extended s pg l s' l' I /\
    forall v, 0 <= v < 2 ^ 32 -> pte (km s') pg v = with_range (pte (km s) pg) va size pa f v.
Proof.
  intros HI Hf Hpt Hsz Hsm Hva Hal Hend Hpa Hpm Hpe Hv Hc. unfold mappages. set (n := Z.to_nat (size / PGSIZE - 1)).
  assert (Hn : size = PGSIZE * Z.of_nat (S n)) by (unfold n, PGSIZE in *; divlia). rewrite Hn in *. clear Hn Hsm Hsz.
  rewrite (u32_id (va + _ - 1)) by (unfold PGSIZE in *; lia). rewrite (PGROUNDDOWN_id va) by (unfold PGSIZE in *; lia).
  assert (Hl : PGROUNDDOWN (va + PGSIZE * Z.of_nat (S n) - 1) = va + PGSIZE * Z.of_nat n).
  { unfold PGROUNDDOWN. rewrite pground_mask by (unfold PGSIZE in *; lia). unfold PGSIZE in *. divlia. }
  rewrite Hl. replace (va + PGSIZE * Z.of_nat n - va) with (PGSIZE * Z.of_nat n) by lia.
  rewrite u32_id by (unfold PGSIZE in *; lia). apply (map_range pg f I HI Hf n _ s l); try done.
  unfold PGSIZE. rewrite Z.mul_comm, Z.div_mul by lia. lia.
Qed.

(** ** The kernel's part *)

(** The entry of an address of the kernel; 0 for the others. *)
Definition kpte (v : Z) : Z :=
  if decide (KERNBASE <= v < KERNBASE + PHYSTOP) then
    Z.lor (page_of v - KERNBASE) (if decide (KERNLINK <= v < kdata) then PTE_P else Z.lor PTE_W PTE_P)
  else if decide (DEVSPACE <= v) then Z.lor (page_of v) (Z.lor PTE_W PTE_P)
  else 0.

(** The entries of the directory for the kernel: 56 for memory and 8 for
    devices. *)
Definition kidx : list Z := seqZ 512 56 ++ seqZ 1016 8.

Lemma kidx_mem v : (KERNBASE <= v < KERNBASE + PHYSTOP) \/ (DEVSPACE <= v < 2 ^ 32) -> PDX v ∈ kidx.
Proof.
  intros Hv. unfold KERNBASE, PHYSTOP, DEVSPACE in Hv. rewrite PDX_div by lia. unfold kidx.
  apply elem_of_app. rewrite !elem_of_seqZ. destruct Hv; [left|right]; divlia.
Qed.

Lemma kpte_kernel v : 0 <= v < 2 ^ 32 -> fhas (kpte v) PTE_U = false.
Proof.
  intros Hv. unfold kpte. pose proof (Z.mod_pos_bound v PGSIZE ltac:(unfold PGSIZE; lia)).
  change PTE_U with (2 ^ 2). repeat case_decide; [| | |done]; unfold page_of, KERNBASE, PHYSTOP, DEVSPACE, PGSIZE in *;
    (rewrite fhas_flags; [done|divlia|unfold PGSIZE; divlia|by vm_compute|lia]).
Qed.

(** A directory without entries in a fresh page. *)
Lemma new_dir s d l : kinv kend s (d :: l) ->
  let m := memset (km s) d 0 PGSIZE in
  ptinv kend (Kmem m (load4 (km s) d) (use_lock s)) d l /\ (forall i, 0 <= i < 1024 -> pde m d i = 0) /\
  (forall v, pte m d v = 0) /\ (forall q x, page_ok kend q -> ~ q ∈ d :: l -> q <= x < q + PGSIZE -> m x = km s x).
Proof.
  intros [K1 [K2 K2'] K3 K4] m. apply Forall_cons in K4 as [Hd K4]. apply NoDup_cons in K3 as [Hdl K3].
  assert (Hpde : forall i, 0 <= i < 1024 -> pde m d i = 0) by (intros i Hi; by apply (load4_memset kend)).
  assert (Hm : forall q x, page_ok kend q -> q <> d -> q <= x < q + PGSIZE -> m x = km s x).
  { intros q x Hq Hne Hx. unfold m. rewrite memset_spec, decide_False; [done|by apply (page_out kend d q)|unfold PGSIZE; lia]. }
  split_and!; try done.
  - split; cbn [km freelist]; [|done|done| |]; [|intros i Hi; rewrite Hpde by done; done|intros i j Hi Hj; rewrite Hpde by done; done].
    split; cbn [km freelist]; try done; [apply memset_ok; [done|unfold PGSIZE; lia]|].
    eapply flist_ext; [|exact K2']. intros q x Hq Hx. rewrite Forall_forall in K4.
    apply (Hm q); [by apply K4|by intros ->|unfold PGSIZE; lia].
  - intros v. unfold pte. rewrite Hpde by apply PDX_range. done.
  - intros q x Hq Hql. apply Hm; [done|]. intros ->. apply Hql. by left.
Qed.

Lemma tabs_none m pg I : (forall i, i ∈ I -> fhas (pde m pg i) PTE_P = false) -> tabs m pg I = 0%nat.
Proof.
  unfold tabs. induction I as [|i I IH]; intros H; [done|]. rewrite filter_cons, H by (by left). cbn.
  apply IH. intros j Hj. apply H. by right.
Qed.

(** One entry of [kmap]. *)
Lemma kmap_entry s d l I old virt size ps pe perm rest : idx_ok I -> (forall i, i ∈ kidx -> i ∈ I) -> ptinv kend s d l ->
  (length I <= length l + tabs (km s) d I)%nat -> (forall v, 0 <= v < 2 ^ 32 -> pte (km s) d v = old v) -> 0 <= perm < 4096 ->
  u32 (pe - ps) = size -> 0 < size -> size mod PGSIZE = 0 -> virt mod PGSIZE = 0 -> ps mod PGSIZE = 0 -> 0 <= ps -> ps + size <= 2 ^ 32 ->
  (forall v, virt <= v < virt + size -> old v = 0 /\ (KERNBASE <= v < KERNBASE + PHYSTOP \/ DEVSPACE <= v < 2 ^ 32)) ->
  exists s' l', setupkvm_loop d ((virt, ps, pe, perm) :: rest) s = setupkvm_loop d rest s' /\ extended s d l s' l' I /\
    (length I <= length l' + tabs (km s') d I)%nat /\
    forall v, 0 <= v < 2 ^ 32 -> pte (km s') d v = with_range old virt size ps perm v.
Proof.
  intros HI Hk Hpt Hc Hold Hperm Hsz Hs0 Hsm Hv Hp Hps Hpe Hr. pose proof (Hr virt) as Hr0. pose proof (Hr (virt + size - 1)) as Hr1.
  unfold KERNBASE, PHYSTOP, DEVSPACE in Hr0, Hr1.
  destruct (mappages_range s d l virt size ps perm I) as (s' & l' & E & Hx & Hpte); try done; [lia|lia| |].
  - intros v Hvr. destruct (Hr v Hvr) as [H0 Hin]. unfold mapped. split; [|by apply Hk, kidx_mem].
    rewrite Hold, H0; [done|]. unfold KERNBASE, PHYSTOP, DEVSPACE in Hin. lia.
  - exists s', l'. split; [|split; [done|split]].
    + cbn [setupkvm_loop]. unfold bind. by rewrite Hsz, E.
    + pose proof (xt_count _ _ _ _ _ _ Hx). lia.
    + intros v Hv32. rewrite Hpte by done. unfold with_range. by rewrite Hold.
Qed.

(** The four ranges of [kmap] make up [kpte]. *)
Lemma kranges_kpte v : 0 <= v < 2 ^ 32 ->
  with_range (with_range (with_range (with_range (fun _ => 0)
    KERNBASE EXTMEM 0 PTE_W) KERNLINK (kdata - KERNLINK) EXTMEM 0)
    kdata (KERNBASE + PHYSTOP - kdata) (kdata - KERNBASE) PTE_W) DEVSPACE (2 ^ 32 - DEVSPACE) DEVSPACE PTE_W v = kpte v.
Proof.
  intros Hv. unfold with_range, kpte. unfold KERNLINK, EXTMEM, DEVSPACE, PHYSTOP, KERNBASE, PGSIZE in *.
  repeat case_decide; try done; try (exfalso; lia); f_equal; lia.
Qed.

(** The side conditions of an entry. *)
Local Ltac kmap_side :=
  first [done | lia | (rewrite u32_id by lia; lia) | (unfold PGSIZE; divlia)
        | (intros v Hv; unfold DEVSPACE, PHYSTOP, KERNBASE; split; [unfold with_range; repeat case_decide; (done || lia)|lia])].

(** [setupkvm], given a page for the directory and enough for its tables. *)
Lemma setupkvm_ok s l I : idx_ok I -> (forall i, i ∈ kidx -> i ∈ I) -> kinv kend s l -> (S (length I) <= length l)%nat ->
  exists d s' l', setupkvm kdata s = Ok d s' /\ ptinv kend s' d l' /\ d ∈ l /\ (forall p, p ∈ l' -> p ∈ l) /\
    (forall p, p ∈ l -> p ∈ l' \/ p = d \/ istab (km s') d p) /\
    (forall q, istab (km s') d q -> q ∈ l) /\ (length l = S (length l' + tabs (km s') d I))%nat /\
    (forall v, 0 <= v < 2 ^ 32 -> pte (km s') d v = kpte v) /\
    forall q x, page_ok kend q -> ~ q ∈ l -> q <= x < q + PGSIZE -> km s' x = km s x.
Proof.
  intros HI Hk Hkinv Hl. destruct l as [|d l]; [cbn [length] in Hl; lia|]. cbn [length] in Hl.
  destruct (kalloc_cons kend s d l Hkinv) as (Ek & Hdz & Hdok). destruct (new_dir s d l Hkinv) as (Hpt & Hpde & Hpte & Hout).
  set (m := memset (km s) d 0 PGSIZE) in *. set (s0 := Kmem m _ _) in *.
  assert (Ht0 : tabs (km s0) d I = 0%nat).
  { apply tabs_none. intros i Hi. cbn [s0 km]. by rewrite Hpde by (by apply HI). }
  unfold setupkvm, bind at 1. rewrite Ek. destruct (Z.eqb_spec d 0); [done|].
  unfold bind at 1, setmem, modify. cbn [km freelist use_lock]. fold m s0. change (DEVSPACE <? p2v PHYSTOP) with false. cbn iota.
  unfold kmap.
  assert (Hv1 : v2p KERNLINK = EXTMEM) by done.
  pose proof Hdata as Hkd.
  assert (Hv2 : v2p kdata = kdata - KERNBASE) by (apply u32_id; unfold KERNLINK, KERNBASE, EXTMEM, PHYSTOP in *; lia).
  rewrite Hv1, Hv2. pose proof Haligned as Hal. pose proof kranges_kpte as Hkr.
  unfold KERNLINK, EXTMEM, DEVSPACE, PHYSTOP, KERNBASE, PTE_W, PGSIZE in Hkd, Hal, Hkr |- *.
  destruct (kmap_entry s0 d l I (fun _ => 0) 2147483648 1048576 0 1048576 2
    [(2147483648 + 1048576, 1048576, kdata - 2147483648, 0); (kdata, kdata - 2147483648, 234881024, 2); (4261412864, 4261412864, 0, 2)])
    as (s1 & l1 & -> & Hx1 & Hc1 & Hp1); [kmap_side..|].
  destruct (kmap_entry s1 d l1 I _ (2147483648 + 1048576) (kdata - 2148532224) 1048576 (kdata - 2147483648) 0
    [(kdata, kdata - 2147483648, 234881024, 2); (4261412864, 4261412864, 0, 2)] HI Hk (xt_inv _ _ _ _ _ _ Hx1) Hc1 Hp1)
    as (s2 & l2 & -> & Hx2 & Hc2 & Hp2); [kmap_side..|].
  destruct (kmap_entry s2 d l2 I _ kdata (2382364672 - kdata) (kdata - 2147483648) 234881024 2
    [(4261412864, 4261412864, 0, 2)] HI Hk (xt_inv _ _ _ _ _ _ Hx2) Hc2 Hp2)
    as (s3 & l3 & -> & Hx3 & Hc3 & Hp3); [kmap_side..|].
  destruct (kmap_entry s3 d l3 I _ 4261412864 33554432 4261412864 0 2
    [] HI Hk (xt_inv _ _ _ _ _ _ Hx3) Hc3 Hp3)
    as (s4 & l4 & -> & Hx4 & Hc4 & Hp4); [kmap_side..|].
  pose proof (extended_trans _ _ _ _ _ _ _ _ (extended_trans _ _ _ _ _ _ _ _ (extended_trans _ _ _ _ _ _ _ _ Hx1 Hx2) Hx3) Hx4) as [X1 X2 XL XK X3 X4 X5].
  assert (Htab : forall q, ~ istab (km s0) d q).
  { intros q (i & Hi & Hpr & _). cbn [s0 km] in Hpr. by rewrite Hpde in Hpr. }
  exists d, s4, l4. split; [done|]. split; [done|]. split; [by left|]. split; [|split; [|split; [|split; [|split]]]].
  - intros p Hp. right. by apply X2.
  - intros p [->|Hp]%elem_of_cons; [by right; left|]. destruct (XL p Hp); auto.
  - intros q Hq. destruct (X3 q Hq) as [Hi|Hi]; [by destruct (Htab q)|by right].
  - cbn [length]. rewrite Ht0 in X4. lia.
  - intros v Hv. rewrite Hp4, <- Hkr by done. unfold with_range. repeat case_decide; (done || lia).
  - intros q x Hq Hql Hx. rewrite (X5 q x); [by apply (Hout q)|done| |by intros ->; apply Hql; left|done|done].
    intros Hin. apply Hql. by right.
Qed.

(** ** Copies *)

(** Pages that were not free in [s] are as they were. *)
Definition untouched s l s' : Prop :=
  forall q x, page_ok kend q -> ~ q ∈ l -> q <= x < q + PGSIZE -> km s' x = km s x.

Lemma dir_same s s' pg l : ptinv kend s pg l -> untouched s l s' ->
  (forall i, 0 <= i < 1024 -> pde (km s') pg i = pde (km s) pg i) /\ (forall v, pte (km s') pg v = pte (km s) pg v) /\
  (forall q, istab (km s') pg q <-> istab (km s) pg q).
Proof.
  intros [P1 P2 P3 P4 P5] Hs.
  assert (Hw : forall q a, page_ok kend q -> ~ q ∈ l -> 0 <= a < 1024 -> load4 (km s') (q + 4 * a) = load4 (km s) (q + 4 * a)).
  { intros q a Hq Hl Ha. apply load4_ext. intros x Hx. apply (Hs q); [done|done|unfold PGSIZE; lia]. }
  assert (Hpde : forall i, 0 <= i < 1024 -> pde (km s') pg i = pde (km s) pg i) by (intros i Hi; by apply Hw).
  split_and!; [done| |].
  - intros v. unfold pte, tab. rewrite Hpde by apply PDX_range. destruct (fhas _ PTE_P) eqn:Ep; [|done].
    destruct (P4 _ (PDX_range v) Ep) as (Hok & Hnl & _). apply Hw; [done|done|apply PTX_range].
  - intros q. unfold istab, tab. split; intros (j & Hj & Hp & Hq); exists j; rewrite Hpde in * by done; done.
Qed.

Lemma user_same s s' pg l va : uinv kend s pg l -> untouched s l s' -> 0 <= va < KERNBASE -> mapped (km s) pg va = true ->
  ubyte (km s') pg va = ubyte (km s) pg va.
Proof.
  intros [Hpt Hup _] Hs Hva Hm. destruct (dir_same s s' pg l Hpt Hs) as (_ & Hpte & _).
  destruct (Hup va Hva Hm) as (U1 & U2 & _). unfold ubyte, frame in *. rewrite Hpte. apply (Hs _ _ U1 U2).
  pose proof (Z.mod_pos_bound va PGSIZE ltac:(unfold PGSIZE; lia)). lia.
Qed.

Lemma uinv_same s s' pg l l' : uinv kend s pg l -> untouched s l s' -> kinv kend s' l' -> (forall p, p ∈ l' -> p ∈ l) ->
  uinv kend s' pg l'.
Proof.
  intros [Hpt Hup Hui] Hs Hk Hl. destruct (dir_same s s' pg l Hpt Hs) as (Hpde & Hpte & Htab). destruct Hpt as [P1 P2 P3 P4 P5].
  split; [split; [done|done|by intros ?%Hl| |]| |].
  - intros i Hi. unfold tab. rewrite Hpde by done. intros Hp. destruct (P4 i Hi Hp) as (? & Hn & ?). split_and!; [done|by intros ?%Hl|done].
  - intros i j Hi Hj. unfold tab. rewrite !Hpde by done. by apply P5.
  - intros va Hva. unfold mapped, frame. rewrite Hpte, Htab. intros Hm. destruct (Hup va Hva Hm) as (? & Hn & ?).
    split; [done|]. split; [by intros ?%Hl|done].
  - intros va va' Hva Hva'. unfold mapped, frame. rewrite !Hpte. by apply Hui.
Qed.

Lemma walk_read s pg va : walkpgdir pg va false s =
  Ok (if fhas (pde (km s) pg (PDX va)) PTE_P then tab (km s) pg (PDX va) + 4 * PTX va else 0) s.
Proof. unfold walkpgdir, bind, ld, gets, pde, tab. by destruct (fhas _ PTE_P). Qed.

Lemma flags_present e : 0 <= e -> fhas e PTE_P = true -> 0 <= PTE_FLAGS e < 4096 /\ Z.lor (PTE_FLAGS e) PTE_P = PTE_FLAGS e.
Proof.
  intros He Hp. unfold PTE_FLAGS. change 4095 with (Z.ones 12). split.
  { rewrite Z.land_ones by lia. apply Z.mod_pos_bound. lia. }
  change PTE_P with (2 ^ 0) in *. rewrite fhas_bit in Hp by lia. apply Z.bits_inj_iff'. intros j Hj.
  rewrite Z.lor_spec, Z.land_spec, Z.pow2_bits_eqb by lia.
  destruct (Z.eqb_spec 0 j) as [<-|]; [|by rewrite orb_false_r]. by rewrite Hp.
Qed.

Lemma pte_page s pg va a : 0 <= va < KERNBASE -> page_of va = a -> pte (km s) pg va = pte (km s) pg a.
Proof.
  intros Hva Hpa. pose proof (Z.mod_pos_bound va PGSIZE ltac:(unfold PGSIZE; lia)).
  apply pte_same; unfold page_of, KERNBASE, PGSIZE in *; [lia|divlia|divlia].
Qed.

(** While the copy [d] of [pg] is made: [s0] and [l0] are the state and the
    free pages at the start. *)
Record copying s0 l0 d s l : Prop := Copying {
  cp_inv : uinv kend s d l;
  cp_free p : p ∈ l -> p ∈ l0;
  cp_lost p : p ∈ l0 -> p ∈ l \/ p = d \/ istab (km s) d p \/
    exists va, 0 <= va < KERNBASE /\ mapped (km s) d va = true /\ frame (km s) d va = p;
  cp_dir : d ∈ l0;
  cp_tabs q : istab (km s) d q -> q ∈ l0;
  cp_same : untouched s0 l0 s
}.

Lemma copying_grown s0 l0 d s l s1 l1 new F B : copying s0 l0 d s l -> grown kend s d l s1 l1 new F B ->
  (forall a, a ∈ new -> mapped (km s) d a = false /\ 0 <= a < KERNBASE) -> copying s0 l0 d s1 l1.
Proof.
  intros [C1 C2 CL C3 C4 C5] [G1 G2 G3 GL GK G4 G5 G6 G7] Hnew. split; [done|auto| |done| |].
  - intros p Hp. destruct (CL p Hp) as [Hp1|[?|[?|(va & Hva & Hm & Hf)]]]; [|by auto|right; right; left; by apply GK|].
    + destruct (GL p Hp1) as [?|[?|(va & Hva & Hn & Hf)]]; [by left|by auto|].
      right; right; right. exists va. destruct (G4 va Hva Hn) as (Hm & _). done.
    + right; right; right. exists va. split; [done|]. unfold mapped, frame in *. rewrite G5; [done|by apply user32|].
      intros Hn. destruct (Hnew _ Hn) as [Hm' Hr]. unfold mapped in Hm'.
      rewrite <- (pte_page s d va (page_of va)), Hm in Hm' by done. done.
  - intros q Hq. destruct (G6 q Hq) as [?|?]; auto.
  - intros q x Hq Hl Hx. rewrite (G7 q x), (C5 q x); try done; [by intros ?%C2|by intros ->|by intros ?%C4].
Qed.

Definition pflags s pg (va : Z) : Z := PTE_FLAGS (pte (km s) pg va).

(** One page is copied. *)
Lemma copy_step s0 l0 pg d s l f sz i I n : uinv kend s0 pg l0 -> copying s0 l0 d s l -> 0 <= i < sz -> sz < KERNBASE ->
  i mod PGSIZE = 0 -> mapped (km s0) pg i = true -> mapped (km s) d i = false -> enough s d l I (S n) -> PDX i ∈ I ->
  exists s1 l1, copyuvm_loop kend (S f) pg d i sz s = copyuvm_loop kend f pg d (i + PGSIZE) sz s1 /\
    grown kend s d l s1 l1 [i] (pflags s0 pg) (ubyte (km s0) pg).
Proof.
  intros Hu0 Hc Hi Hsz Hal Hmp Hnm Hen Hin. pose proof Hc as [C1 C2 CL C3 C4 C5].
  destruct (dir_same s0 s pg l0 (ui_pt _ _ _ _ Hu0) C5) as (Hpde & Hpte & _).
  assert (Hik : i + PGSIZE <= KERNBASE) by (unfold PGSIZE, KERNBASE in *; divlia).
  destruct (ui_page _ _ _ _ Hu0 i ltac:(lia) Hmp) as (U1 & U2 & _).
  destruct (enough_first s d l I n i Hen Hin) as (p & l1 & -> & Hl1).
  pose proof (pt_k _ _ _ _ (ui_pt _ _ _ _ C1)) as Hk. destruct (kalloc_cons kend s p l1 Hk) as (Ek & Hpz & Hpok).
  set (e := pte (km s) pg i). assert (He : e = pte (km s0) pg i) by apply Hpte.
  assert (Hpr : fhas e PTE_P = true) by (rewrite He; done).
  assert (He0 : 0 <= e) by (unfold e, pte; case_match; [apply load4_range, Hk|lia]).
  destruct (flags_present e He0 Hpr) as [Hfr Hfl].
  assert (Hpd : fhas (pde (km s) pg (PDX i)) PTE_P = true) by (unfold e, pte in Hpr; by destruct (fhas (pde (km s) pg (PDX i)) PTE_P)).
  assert (Hfp : p <> frame (km s0) pg i) by (intros ->; apply U2, C2; by left).
  set (src := p2v (PTE_ADDR e)). assert (Hsrc : src = frame (km s0) pg i) by (unfold src, frame; by rewrite He).
  set (m := memmove (km s) p src PGSIZE).
  assert (Hm : forall x, m x = if decide (p <= x < p + PGSIZE) then km s (x - p + src) else km s x).
  { intros x. apply memmove_ok; [apply Hk|unfold PGSIZE; lia]. }
  destruct (grow_page kend s d p l1 i (PTE_FLAGS e) m (pflags s0 pg) (ubyte (km s0) pg) C1) as (s1 & l' & E & Hg);
    [lia|done|done|done|done|done| | | |].
  { intros x. rewrite Hm. case_decide; apply Hk. }
  { intros x Hx. rewrite Hm, decide_False by done. done. }
  { intros va Hva. pose proof (Z.mod_pos_bound va PGSIZE ltac:(unfold PGSIZE; lia)) as Hvm.
    assert (Hvk : 0 <= va < KERNBASE) by (unfold page_of, PGSIZE in *; lia). unfold pflags, ubyte, frame.
    rewrite (pte_page s0 pg va i), <- He, Hfl by done. split; [done|]. fold src. rewrite Hm, decide_True by lia.
    rewrite <- (C5 src); [f_equal; lia|by rewrite Hsrc|by rewrite Hsrc|lia]. }
  exists s1, l'. split; [|done]. cbn [copyuvm_loop]. rewrite (proj2 (Z.ltb_lt _ _) (proj2 Hi)).
  unfold bind at 1. rewrite walk_read, Hpd.
  assert (Hnz : tab (km s) pg (PDX i) + 4 * PTX i <> 0).
  { rewrite Hpde in Hpd by apply PDX_range. unfold tab. rewrite Hpde by apply PDX_range.
    apply (tab_addr_nz kend s0 pg l0); [apply Hu0|apply PDX_range|apply PTX_range|done]. }
  rewrite (proj2 (Z.eqb_neq _ _) Hnz). unfold bind at 1, ld, gets.
  replace (load4 (km s) (tab (km s) pg (PDX i) + 4 * PTX i)) with e by (unfold e, pte; by rewrite Hpd).
  rewrite Hpr. cbn [negb]. unfold bind at 1. rewrite Ek, (proj2 (Z.eqb_neq _ _) Hpz).
  unfold bind at 1, setmem, modify. cbn [km freelist use_lock]. fold src m. unfold bind at 1. rewrite E.
  change (0 <? 0) with false. cbn iota. by rewrite u32_id by (unfold KERNBASE, PGSIZE in *; lia).
Qed.

(** What is left to copy: [n] pages from [i] on, none of them mapped yet. *)
Definition to_copy s d (i sz : Z) (n : nat) I : Prop :=
  0 <= i /\ i mod PGSIZE = 0 /\ sz < KERNBASE /\
  (i + PGSIZE * (Z.of_nat n - 1) < sz <= i + PGSIZE * Z.of_nat n \/ n = 0%nat /\ sz <= i) /\
  forall a, a ∈ pages i n -> PDX a ∈ I /\ mapped (km s) d a = false.

Lemma to_copy_fresh s d i sz n I : to_copy s d i sz n I -> forall a, a ∈ pages i n -> mapped (km s) d a = false /\ 0 <= a < KERNBASE.
Proof.
  intros (H1 & H2 & H3 & H4 & H5) a Ha. split; [by apply H5|]. unfold pages in Ha.
  apply list_elem_of_fmap in Ha as (j & -> & Hj%elem_of_seq). unfold PGSIZE in *. lia.
Qed.

Lemma to_copy_next s d l i sz n I s1 l1 F B : to_copy s d i sz (S n) I -> grown kend s d l s1 l1 [i] F B ->
  i < sz /\ to_copy s1 d (i + PGSIZE) sz n I.
Proof.
  intros (H1 & H2 & H3 & H4 & H5) Hg. rewrite pages_S in H5. destruct H4 as [H4|[? _]]; [|done].
  split; [unfold PGSIZE in *; lia|]. split; [unfold PGSIZE in *; lia|]. split; [unfold PGSIZE in *; divlia|]. split; [done|]. split.
  - destruct n; [right; split; [done|unfold PGSIZE in *; lia]|left; unfold PGSIZE in *; lia].
  - intros a Ha. destruct (H5 a ltac:(by right)) as [HI Hm]. split; [done|]. unfold mapped in *.
    assert (Hr : 0 <= a < 2 ^ 32 /\ a mod PGSIZE = 0).
    { unfold pages in Ha. apply list_elem_of_fmap in Ha as (j & -> & Hj%elem_of_seq). unfold PGSIZE, KERNBASE in *. divlia. }
    rewrite (gr_old _ _ _ _ _ _ _ _ _ Hg); [done|lia|]. unfold page_of. rewrite (proj2 Hr), Z.sub_0_r.
    intros ->%list_elem_of_singleton. by apply pages_disj in Ha.
Qed.

Lemma copy_loop s0 l0 pg d sz I : uinv kend s0 pg l0 -> forall n fuel s l i, (n < fuel)%nat -> copying s0 l0 d s l ->
  to_copy s d i sz n I -> enough s d l I n -> (forall a, a ∈ pages i n -> mapped (km s0) pg a = true) ->
  exists s' l', copyuvm_loop kend fuel pg d i sz s = Ok d s' /\
    grown kend s d l s' l' (pages i n) (pflags s0 pg) (ubyte (km s0) pg).
Proof.
  intros Hu0. induction n as [|n IH]; intros fuel s l i Hf Hc Ht He Hm; (destruct fuel as [|fuel]; [lia|]);
    pose proof Ht as (T1 & T2 & T3 & T4 & T5).
  - exists s, l. split; [|apply grown_refl, Hc]. cbn [copyuvm_loop]. rewrite (proj2 (Z.ltb_ge _ _)); [done|].
    unfold PGSIZE in *. lia.
  - rewrite pages_S in T5, Hm |- *. destruct (T5 i ltac:(by left)) as [HI Hnm].
    assert (Hi : i < sz) by (destruct T4 as [?|[? _]]; [unfold PGSIZE in *; lia|done]).
    destruct (copy_step s0 l0 pg d s l fuel sz i I n) as (s1 & l1 & E & Hg); try done; [by apply Hm; left|].
    destruct (to_copy_next s d l i sz n I s1 l1 _ _ Ht Hg) as [_ Ht1].
    destruct (IH fuel s1 l1 (i + PGSIZE)) as (s' & l' & E' & Hg'); try done; [lia|apply (copying_grown _ _ _ _ _ _ _ _ _ _ Hc Hg); intros x ->%list_elem_of_singleton; split; [done|lia]|by eapply enough_next| |].
    { intros a Ha. apply Hm. by right. }
    exists s', l'. split; [by rewrite E|]. apply (grown_trans kend s d l s1 l1 [i] s' l' (pages (i + PGSIZE) n)); try done; [apply Hc|].
    intros x ->%list_elem_of_singleton Hin. by destruct (pages_disj _ _ _ Hin).
Qed.

Lemma copy_loop_panics s0 l0 pg d sz I : uinv kend s0 pg l0 -> forall n fuel s l i, (n < fuel)%nat -> copying s0 l0 d s l ->
  to_copy s d i sz n I -> enough s d l I n -> (exists a, a ∈ pages i n /\ mapped (km s0) pg a = false) ->
  exists msg, copyuvm_loop kend fuel pg d i sz s = Panic msg.
Proof.
  intros Hu0. induction n as [|n IH]; intros fuel s l i Hf Hc Ht He (a & Ha & Hm); (destruct fuel as [|fuel]; [lia|]);
    [by apply elem_of_nil in Ha|]. pose proof Ht as (T1 & T2 & T3 & T4 & T5).
  rewrite pages_S in T5, Ha. destruct (T5 i ltac:(by left)) as [HI Hnm].
  assert (Hi : i < sz) by (destruct T4 as [?|[? _]]; [unfold PGSIZE in *; lia|done]).
  destruct (mapped (km s0) pg i) eqn:Hmi.
  - destruct (copy_step s0 l0 pg d s l fuel sz i I n) as (s1 & l1 & E & Hg); try done. rewrite E.
    destruct (to_copy_next s d l i sz n I s1 l1 _ _ Ht Hg) as [_ Ht1].
    apply (IH fuel s1 l1 (i + PGSIZE)); try done; [lia|apply (copying_grown _ _ _ _ _ _ _ _ _ _ Hc Hg); intros x ->%list_elem_of_singleton; split; [done|lia]|by eapply enough_next|].
    exists a. split; [|done]. apply elem_of_cons in Ha as [->|]; [congruence|done].
  - destruct (dir_same s0 s pg l0 (ui_pt _ _ _ _ Hu0) (cp_same _ _ _ _ _ Hc)) as (_ & Hpte & _).
    unfold mapped in Hmi. rewrite <- Hpte in Hmi. unfold pte in Hmi.
    cbn [copyuvm_loop]. rewrite (proj2 (Z.ltb_lt _ _) Hi). unfold bind at 1. rewrite walk_read.
    destruct (fhas (pde (km s) pg (PDX i)) PTE_P); [|by eexists]. case_match; [by eexists|].
    unfold bind, ld, gets. rewrite Hmi. by eexists.
Qed.

(** The entries of the directory for [sz] bytes of user memory, and for the
    kernel. *)
Definition copy_idx (sz : Z) : list Z := seqZ 0 ((sz + 4194303) / 4194304) ++ kidx.

Lemma copy_idx_ok sz : 0 <= sz < KERNBASE -> idx_ok (copy_idx sz) /\
  Z.of_nat (length (copy_idx sz)) = (sz + 4194303) / 4194304 + 64 /\ forall a, 0 <= a < sz -> PDX a ∈ copy_idx sz.
Proof.
  intros Hsz. unfold copy_idx, kidx. unfold KERNBASE in Hsz. assert (Hq : 0 <= (sz + 4194303) / 4194304 <= 512) by divlia. split; [split|split].
  - apply NoDup_app. split; [apply NoDup_seqZ|]. split; [|apply NoDup_app; split; [apply NoDup_seqZ|split; [|apply NoDup_seqZ]]].
    + intros x Hx%elem_of_seqZ [Hy%elem_of_seqZ|Hy%elem_of_seqZ]%elem_of_app; lia.
    + intros x Hx%elem_of_seqZ Hy%elem_of_seqZ. lia.
  - intros i [Hi%elem_of_seqZ|[Hi%elem_of_seqZ|Hi%elem_of_seqZ]%elem_of_app]%elem_of_app; lia.
  - rewrite !length_app, !length_seqZ. lia.
  - intros a Ha. apply elem_of_app. left. apply elem_of_seqZ. rewrite PDX_div by lia. divlia.
Qed.

(** The state in which the loop of [copyuvm] starts. *)
Lemma copy_start s pg l sz : uinv kend s pg l -> 0 <= sz < KERNBASE ->
  65 + (sz + 4194303) / 4194304 + (sz + PGSIZE - 1) / PGSIZE <= Z.of_nat (length l) ->
  let n := Z.to_nat ((sz + PGSIZE - 1) / PGSIZE) in
  exists d s1 l1, copyuvm kend kdata pg sz s = copyuvm_loop kend (S (Z.to_nat (sz / PGSIZE + 1))) pg d 0 sz s1 /\
    copying s l d s1 l1 /\ to_copy s1 d 0 sz n (copy_idx sz) /\ enough s1 d l1 (copy_idx sz) n /\
    (forall v, 0 <= v < 2 ^ 32 -> pte (km s1) d v = kpte v).
Proof.
  intros Hu Hsz Hl n. destruct (copy_idx_ok sz Hsz) as (HI & Hlen & Hin).
  assert (Hn : Z.of_nat n = (sz + PGSIZE - 1) / PGSIZE) by (unfold n, PGSIZE; divlia).
  destruct (setupkvm_ok s l (copy_idx sz) HI) as (d & s1 & l1 & E & Hpt & Hd & Hfree & Hlost & Htab & Hc & Hpte & Hout).
  { intros i Hi. unfold copy_idx. apply elem_of_app. by right. }
  { apply Hu. }
  { lia. }
  assert (Hk0 : forall v, 0 <= v < KERNBASE -> pte (km s1) d v = 0).
  { intros v Hv. rewrite Hpte by (by apply user32). unfold kpte. unfold KERNBASE, DEVSPACE, PHYSTOP in *.
    rewrite !decide_False by lia. done. }
  assert (Hdz : d <> 0) by (pose proof (page_ok_range _ _ (pt_pg _ _ _ _ Hpt)); lia).
  exists d, s1, l1. split; [unfold copyuvm, bind; rewrite E; by destruct (Z.eqb_spec d 0)|].
  split; [|split; [|split; [split; [done|lia]|done]]].
  - split; [|done|intros p Hp; destruct (Hlost p Hp) as [?|[?|?]]; auto|done|done|done]. split; [done| |]; intros va; unfold mapped; [|intros va' Hva]; intros Hv; rewrite Hk0 by done; done.
  - split; [lia|]. split; [done|]. split; [lia|]. split.
    + rewrite Hn. unfold PGSIZE in *. destruct (decide (sz = 0)); [right; split; [unfold n|]; subst; done|left; divlia].
    + intros a Ha. unfold pages in Ha. apply list_elem_of_fmap in Ha as (j & -> & Hj%elem_of_seq).
      assert (0 <= PGSIZE * Z.of_nat j < sz) by (unfold PGSIZE in *; divlia). split; [apply Hin; lia|].
      unfold mapped. rewrite Hk0 by lia. done.
Qed.

Lemma page_below va sz : 0 <= va -> 0 <= sz ->
  page_of va ∈ pages 0 (Z.to_nat ((sz + PGSIZE - 1) / PGSIZE)) <-> page_of va < sz.
Proof.
  intros Hva Hsz. unfold pages. rewrite list_elem_of_fmap. unfold page_of, PGSIZE. split.
  - intros (j & -> & Hj%elem_of_seq). divlia.
  - intros Hlt. exists (Z.to_nat (va / 4096)). split; [divlia|]. apply elem_of_seq. divlia.
Qed.

(** The copy, when every page is mapped. *)
Lemma copy_ok s pg l sz : uinv kend s pg l -> 0 <= sz < KERNBASE ->
  65 + (sz + 4194303) / 4194304 + (sz + PGSIZE - 1) / PGSIZE <= Z.of_nat (length l) ->
  (forall va, 0 <= va < sz -> mapped (km s) pg va = true) ->
  exists d s' l', copyuvm kend kdata pg sz s = Ok d s' /\ copying s l d s' l' /\
    (forall va, 0 <= va < KERNBASE -> page_of va < sz -> mapped (km s') d va = true /\
       PTE_FLAGS (pte (km s') d va) = pflags s pg va /\ ubyte (km s') d va = ubyte (km s) pg va /\ frame (km s') d va ∈ l) /\
    (forall va, 0 <= va < 2 ^ 32 -> ~ page_of va < sz \/ KERNBASE <= va -> pte (km s') d va = kpte va).
Proof.
  intros Hu Hsz Hl Hm. destruct (copy_start s pg l sz Hu Hsz Hl) as (d & s1 & l1 & -> & Hc & Ht & He & Hpte).
  set (n := Z.to_nat _) in *. assert (Hfu : (n < S (Z.to_nat (sz / PGSIZE + 1)))%nat) by (unfold n, PGSIZE; divlia).
  assert (Hpg : forall va, 0 <= va -> page_of va ∈ pages 0 n <-> page_of va < sz) by (intros; apply page_below; (done || lia)).
  destruct (copy_loop s l pg d sz (copy_idx sz) Hu n _ s1 l1 0 Hfu Hc Ht He) as (s' & l' & E & Hg).
  { intros a Ha. unfold pages in Ha. apply list_elem_of_fmap in Ha as (j & -> & Hj%elem_of_seq). apply Hm.
    unfold n, PGSIZE in *. divlia. }
  exists d, s', l'. split; [done|]. split; [apply (copying_grown _ _ _ _ _ _ _ _ _ _ Hc Hg (to_copy_fresh _ _ _ _ _ _ Ht))|]. split.
  - intros va Hva Hlt. apply Hpg in Hlt; [|lia]. destruct (gr_new _ _ _ _ _ _ _ _ _ Hg va Hva Hlt) as (? & ? & ? & Hf).
    split_and!; [done|done|done|by apply (cp_free _ _ _ _ _ Hc)].
  - intros va Hva Hn. rewrite (gr_old _ _ _ _ _ _ _ _ _ Hg), Hpte; try done.
    rewrite Hpg by lia. unfold page_of, KERNBASE, PGSIZE in *. divlia.
Qed.

(** C20. [copyuvm] makes an equal and separate address space.  With enough free
    pages for the directory, its tables and the pages of user memory: if every
    page below the size is mapped, the copy has the same bytes and flags there
    and nothing above, the kernel's mappings, not accessible to user code, and
    no page in common with the original, which is unchanged, as is every page
    that was not free.  If some page below the size is not mapped, [copyuvm],
    and with it [fork], panics. *)
Theorem copyuvm_spec s pg l sz : uinv kend s pg l -> 0 <= sz < KERNBASE ->
  65 + (sz + 4194303) / 4194304 + (sz + PGSIZE - 1) / PGSIZE <= Z.of_nat (length l) ->
  ((forall va, 0 <= va < sz -> mapped (km s) pg va = true) ->
   exists d s' l', copyuvm kend kdata pg sz s = Ok d s' /\ uinv kend s' d l' /\ uinv kend s' pg l' /\
     (forall va, 0 <= va < KERNBASE -> page_of va < sz -> mapped (km s') d va = true /\
        PTE_FLAGS (pte (km s') d va) = PTE_FLAGS (pte (km s) pg va) /\ ubyte (km s') d va = ubyte (km s) pg va) /\
     (forall va, 0 <= va < KERNBASE -> sz <= page_of va -> pte (km s') d va = 0) /\
     (forall va, KERNBASE <= va < 2 ^ 32 -> pte (km s') d va = kpte va /\ fhas (pte (km s') d va) PTE_U = false) /\
     (forall va va', 0 <= va < KERNBASE -> 0 <= va' < KERNBASE -> mapped (km s') d va = true -> mapped (km s) pg va' = true ->
        frame (km s') d va <> frame (km s) pg va') /\
     (forall va, pte (km s') pg va = pte (km s) pg va) /\ untouched s l s') /\
  ((exists va, 0 <= va < sz /\ mapped (km s) pg va = false) -> exists msg, copyuvm kend kdata pg sz s = Panic msg).
Proof.
  intros Hu Hsz Hl. split.
  - intros Hm. destruct (copy_ok s pg l sz Hu Hsz Hl Hm) as (d & s' & l' & E & [C1 C2 CL C3 C4 C5] & Hnew & Hold).
    assert (Hk0 : forall va, 0 <= va < KERNBASE -> sz <= page_of va -> pte (km s') d va = 0).
    { intros va Hva Hn. rewrite Hold by (lia || by apply user32). unfold kpte, KERNBASE, DEVSPACE, PHYSTOP in *. by rewrite !decide_False by lia. }
    exists d, s', l'. split; [done|]. split; [done|]. split; [apply (uinv_same s s' pg l l'); (done || apply C1)|].
    split; [|split; [done|split; [|split; [|split; [|done]]]]].
    + intros va Hva Hlt. by destruct (Hnew va Hva Hlt) as (? & ? & ? & _).
    + intros va Hva. rewrite Hold by (unfold KERNBASE in *; lia). split; [done|apply kpte_kernel; unfold KERNBASE in *; lia].
    + intros va va' Hva Hva' Hd Hp. destruct (decide (page_of va < sz)) as [Hlt|Hge].
      * destruct (Hnew va Hva Hlt) as (_ & _ & _ & Hf). destruct (ui_page _ _ _ _ Hu va' Hva' Hp) as (_ & Hn & _).
        intros Heq. apply Hn. by rewrite <- Heq.
      * unfold mapped in Hd. rewrite Hk0 in Hd by (done || lia). done.
    + apply (dir_same s s' pg l); [apply Hu|done].
  - intros (va & Hva & Hm). destruct (copy_start s pg l sz Hu Hsz Hl) as (d & s1 & l1 & -> & Hc & Ht & He & _).
    apply (copy_loop_panics s l pg d sz (copy_idx sz) Hu (Z.to_nat ((sz + PGSIZE - 1) / PGSIZE)) _ s1 l1 0); try done; [unfold PGSIZE; divlia|].
    exists (page_of va). split; [apply page_below; [lia|lia|unfold page_of, PGSIZE; divlia]|].
    unfold mapped in *. rewrite <- (pte_page s pg va); (done || lia).
Qed.

(** ** Freeing *)

(** The kernel itself lies above KERNBASE. *)
Context (Hend : KERNBASE < kend).

(** A page freed, seen from a directory that does not use it. *)
Lemma free_other s pg l v : uinv kend s pg l -> page_ok kend v -> ~ v ∈ l -> v <> pg -> ~ istab (km s) pg v ->
  exists s', kfree kend v s = Ok tt s' /\ kinv kend s' (v :: l) /\
    (forall x, ~ (v <= x < v + PGSIZE) -> km s' x = km s x) /\
    (forall i, 0 <= i < 1024 -> pde (km s') pg i = pde (km s) pg i) /\ (forall va, pte (km s') pg va = pte (km s) pg va).
Proof.
  intros Hu Hv Hl Hp Ht. pose proof (ui_pt _ _ _ _ Hu) as Hpt. destruct (kfree_ok kend s l v (pt_k _ _ _ _ Hpt) Hv Hl) as (s' & E & Hk & Hm & _).
  assert (Hout : forall x, ~ (v <= x < v + PGSIZE) -> km s' x = km s x) by (intros x Hx; rewrite Hm; by apply freed_outside).
  assert (Hw : forall q a, page_ok kend q -> q <> v -> 0 <= a < 1024 -> load4 (km s') (q + 4 * a) = load4 (km s) (q + 4 * a)).
  { intros q a Hq Hne Ha. apply load4_ext. intros x Hx. apply Hout. apply (page_out kend v q); (done || unfold PGSIZE; lia). }
  assert (Hpde : forall i, 0 <= i < 1024 -> pde (km s') pg i = pde (km s) pg i) by (intros i Hi; apply Hw; [apply Hpt|done|done]).
  exists s'. split_and!; try done. intros va. unfold pte, tab. rewrite Hpde by apply PDX_range.
  destruct (fhas (pde (km s) pg (PDX va)) PTE_P) eqn:Ep; [|done]. apply Hw; [|intros He; apply Ht; exists (PDX va); split_and!; try done; apply PDX_range|apply PTX_range].
  apply (pt_tab _ _ _ _ Hpt _ (PDX_range va) Ep).
Qed.

(** The user pages from [lo] below [hi] have been freed. *)
Record shrunk s pg l s' l' (lo hi : Z) : Prop := Shrunk {
  sh_inv : uinv kend s' pg l';
  sh_free q : q ∈ l' <-> q ∈ l \/ exists va, lo <= va < hi /\ va < KERNBASE /\ mapped (km s) pg va = true /\ frame (km s) pg va = q;
  sh_gone va : lo <= va < hi -> va < KERNBASE -> mapped (km s') pg va = false;
  sh_old va : 0 <= va < 2 ^ 32 -> ~ lo <= va < hi -> pte (km s') pg va = pte (km s) pg va;
  sh_pde i : 0 <= i < 1024 -> pde (km s') pg i = pde (km s) pg i;
  sh_out q x : page_ok kend q -> ~ q ∈ l' -> ~ istab (km s) pg q -> q <= x < q + PGSIZE -> km s' x = km s x
}.

(** [kfree] of a user page and the clearing of its entry. *)
Lemma free_page s pg l a : uinv kend s pg l -> 0 <= a < KERNBASE -> a mod PGSIZE = 0 -> mapped (km s) pg a = true ->
  exists s', (kfree kend (frame (km s) pg a) ;;; st (tab (km s) pg (PDX a) + 4 * PTX a) 0) s = Ok tt s' /\
    shrunk s pg l s' (frame (km s) pg a :: l) a (a + PGSIZE).
Proof.
  intros Hu Ha Hal Hm. destruct (ui_page _ _ _ _ Hu a Ha Hm) as (U1 & U2 & U3 & U4). set (v := frame (km s) pg a) in *.
  assert (Ep : fhas (pde (km s) pg (PDX a)) PTE_P = true) by (unfold mapped, pte in Hm; by destruct (fhas (pde (km s) pg (PDX a)) PTE_P)).
  destruct (free_other s pg l v Hu U1 U2 U3 U4) as (s1 & E & Hk & Hout & Hpde & Hpte).
  pose proof (ui_pt _ _ _ _ Hu) as [P1 P2 P3 P4 P5].
  assert (Hpt1 : ptinv kend s1 pg (v :: l)).
  { split; [done|done|by intros [?|?]%elem_of_cons| |].
    - intros i Hi. unfold tab. rewrite Hpde by done. intros Hp. destruct (P4 i Hi Hp) as (T1 & T2 & T3).
      split_and!; [done| |done]. intros [He|?]%elem_of_cons; [|done]. apply U4. by exists i.
    - intros i j Hi Hj. unfold tab. rewrite !Hpde by done. by apply P5. }
  assert (Ht : tab (km s) pg (PDX a) = tab (km s1) pg (PDX a)) by (unfold tab; by rewrite Hpde by apply PDX_range).
  assert (Ep1 : fhas (pde (km s1) pg (PDX a)) PTE_P = true) by (by rewrite Hpde by apply PDX_range).
  destruct (ptinv_entry kend s1 pg (v :: l) (PDX a) (PTX a) 0 Hpt1 (PDX_range a) (PTX_range a) Ep1) as [Hpt2 Hpde2].
  unfold bind. rewrite E, Ht. eexists. split; [done|]. set (s2 := Kmem _ _ _) in *.
  assert (Hpte2 : forall va, 0 <= va < 2 ^ 32 -> pte (km s2) pg va = if decide (a <= va < a + PGSIZE) then 0 else pte (km s) pg va).
  { intros va Hva. cbn [s2 km]. rewrite (pte_write kend s1 pg (v :: l)) by (done || lia || by apply user32). rewrite Hpte.
    apply decide_ext. unfold PGSIZE in *. split; intros; divlia. }
  assert (Hold : forall va, 0 <= va < KERNBASE -> mapped (km s2) pg va = true ->
    ~ a <= va < a + PGSIZE /\ mapped (km s) pg va = true /\ frame (km s2) pg va = frame (km s) pg va).
  { intros va Hva Hmv. unfold mapped, frame in *. rewrite Hpte2 in * by (by apply user32). by case_decide. }
  assert (Hne : forall va, 0 <= va < KERNBASE -> ~ a <= va < a + PGSIZE -> mapped (km s) pg va = true -> frame (km s) pg va <> v).
  { intros va Hva Hn Hmv He. apply (ui_inj _ _ _ _ Hu) in He; try done. unfold PGSIZE in *. divlia. }
  assert (Htabs : forall q, istab (km s2) pg q <-> istab (km s) pg q).
  { intros q. unfold istab, tab. split; intros (j & Hj & Hp & Hq); exists j; cbn [s2 km] in *; rewrite Hpde2, Hpde in * by done; done. }
  split.
  - split; [done| |].
    + intros va Hva Hmv. destruct (Hold va Hva Hmv) as (Hn & Hm0 & ->). destruct (ui_page _ _ _ _ Hu va Hva Hm0) as (V1 & V2 & V3 & V4).
      rewrite Htabs. split_and!; [done| |done|done]. intros [He|?]%elem_of_cons; [by apply (Hne va)|done].
    + intros va va' Hva Hva' Hmv Hmv'. destruct (Hold va Hva Hmv) as (_ & Hm0 & ->), (Hold va' Hva' Hmv') as (_ & Hm0' & ->).
      by apply (ui_inj _ _ _ _ Hu).
  - intros q. rewrite elem_of_cons. split.
    + intros [->|?]; [right|by left]. exists a. unfold PGSIZE. split_and!; (done || lia).
    + intros [?|(va & Hr & Hva & Hmv & <-)]; [by right|left]. unfold v, frame.
      rewrite (pte_page s pg va a); [done|lia|]. unfold page_of, PGSIZE in *. divlia.
  - intros va Hr Hva. unfold mapped. rewrite Hpte2 by (unfold KERNBASE in *; lia). by rewrite decide_True.
  - intros va Hva Hn. rewrite Hpte2 by done. by rewrite decide_False.
  - intros i Hi. cbn [s2 km]. by rewrite Hpde2, Hpde by done.
  - intros q x Hq Hl Ht' Hx. cbn [s2 km]. rewrite store4_out.
    + apply Hout. apply (page_out kend v q); try done. intros ->. apply Hl. by left.
    + destruct (pt_tab _ _ _ _ Hpt1 _ (PDX_range a) Ep1) as (T1 & _). intros Hx'.
      apply (page_out kend (tab (km s1) pg (PDX a)) q x T1 Hq); [|done|pose proof (PTX_range a); unfold PGSIZE; lia].
      intros He. apply Ht'. exists (PDX a). rewrite Ht. split; [apply PDX_range|done].
Qed.

Lemma shrunk_none s pg l lo hi : uinv kend s pg l -> (forall va, lo <= va < hi -> va < KERNBASE -> mapped (km s) pg va = false) ->
  shrunk s pg l s l lo hi.
Proof.
  intros Hu Hn. split; try done. intros q. split; [by left|]. intros [?|(va & Hr & Hva & Hm & _)]; [done|]. by rewrite Hn in Hm.
Qed.

Lemma shrunk_trans s pg l s1 l1 s2 l2 lo mid hi : 0 <= lo <= mid -> mid <= hi ->
  shrunk s pg l s1 l1 lo mid -> shrunk s1 pg l1 s2 l2 mid hi -> shrunk s pg l s2 l2 lo hi.
Proof.
  intros Hlo Hhi [A1 A2 A3 A4 A5 A6] [B1 B2 B3 B4 B5 B6].
  assert (Hsame : forall va, mid <= va -> va < KERNBASE -> pte (km s1) pg va = pte (km s) pg va).
  { intros va H1 H2. apply A4; [unfold KERNBASE in *; lia|lia]. }
  assert (Htab : forall q, istab (km s1) pg q -> istab (km s) pg q).
  { intros q (j & Hj & Hp & Hq). exists j. unfold tab in *. rewrite A5 in * by done. done. }
  split; [done| | | | |].
  - intros q. rewrite B2, A2. split.
    + intros [[?|(va & Hr & Hva & Hm & Hf)]|(va & Hr & Hva & Hm & Hf)]; [by left|right..]; exists va.
      * split_and!; (done || lia).
      * unfold mapped, frame in *. rewrite Hsame in * by lia. split_and!; (done || lia).
    + intros [?|(va & Hr & Hva & Hm & Hf)]; [by left; left|]. destruct (decide (va < mid)) as [Hlt|Hge]; [left; right|right]; exists va.
      * split_and!; (done || lia).
      * unfold mapped, frame in *. rewrite Hsame by lia. split_and!; (done || lia).
  - intros va Hr Hva. destruct (decide (va < mid)); [|apply B3; lia]. unfold mapped.
    rewrite B4 by (unfold KERNBASE in *; lia). apply A3; lia.
  - intros va Hva Hn. rewrite B4, A4; (done || lia).
  - intros i Hi. by rewrite B5, A5.
  - intros q x Hq Hl Ht Hx. rewrite (B6 q x), (A6 q x); try done.
    + intros Hin. apply Hl, B2. by left.
    + by intros ?%Htab.
Qed.

(** A page table is missing only at the start of its range. *)
Definition at_table s pg (a : Z) : Prop := a mod 4194304 = 0 \/ fhas (pde (km s) pg (PDX a)) PTE_P = true.

Lemma at_table_next s pg l s1 l1 a : 0 <= a < KERNBASE -> a mod PGSIZE = 0 -> at_table s pg a ->
  fhas (pde (km s) pg (PDX a)) PTE_P = true -> shrunk s pg l s1 l1 a (a + PGSIZE) -> at_table s1 pg (a + PGSIZE).
Proof.
  intros Ha Hal _ Hp Hs. unfold at_table. destruct (decide ((a + PGSIZE) mod 4194304 = 0)) as [|Hne]; [by left|right].
  assert (PDX (a + PGSIZE) = PDX a) as ->; [|by rewrite (sh_pde _ _ _ _ _ _ _ Hs) by apply PDX_range].
  rewrite !PDX_div by (unfold KERNBASE, PGSIZE in *; lia). unfold PGSIZE in *. divlia.
Qed.

(** One page of [deallocuvm], where there is a page table. *)
Lemma dealloc_step s pg l a hi f : uinv kend s pg l -> 0 <= a < hi -> hi <= KERNBASE -> a mod PGSIZE = 0 ->
  fhas (pde (km s) pg (PDX a)) PTE_P = true ->
  exists s1 l1, deallocuvm_loop kend (S f) pg a hi s = deallocuvm_loop kend f pg (a + PGSIZE) hi s1 /\
    shrunk s pg l s1 l1 a (a + PGSIZE).
Proof.
  intros Hu Ha Hhi Hal Hp. cbn [deallocuvm_loop]. rewrite (proj2 (Z.ltb_lt a hi)) by lia. unfold bind at 1. rewrite walk_read, Hp.
  pose proof (tab_addr_nz kend s pg l (PDX a) (PTX a) (ui_pt _ _ _ _ Hu) (PDX_range a) (proj1 (PTX_range a)) Hp) as Hnz.
  rewrite (proj2 (Z.eqb_neq _ _) Hnz). unfold bind at 1, ld, gets.
  replace (load4 (km s) (tab (km s) pg (PDX a) + 4 * PTX a)) with (pte (km s) pg a) by (unfold pte; by rewrite Hp).
  rewrite u32_id by (unfold PGSIZE, KERNBASE in *; lia).
  destruct (fhas (pte (km s) pg a) PTE_P) eqn:Hm.
  - destruct (ui_page _ _ _ _ Hu a ltac:(lia) Hm) as (U1 & _). destruct (free_page s pg l a Hu ltac:(lia) Hal Hm) as (s1 & E & Hs).
    destruct (Z.eqb_spec (PTE_ADDR (pte (km s) pg a)) 0) as [H0|_].
    { exfalso. unfold page_ok, frame in U1. rewrite H0 in U1. change (p2v 0) with KERNBASE in U1. lia. }
    exists s1, (frame (km s) pg a :: l). split; [|done]. unfold bind at 1. unfold frame in E. by rewrite E.
  - exists s, l. split; [done|]. apply shrunk_none; [done|]. intros va Hr Hva. unfold mapped.
    rewrite (pte_page s pg va a); [done|lia|]. unfold page_of, PGSIZE in *. divlia.
Qed.

Lemma dealloc_loop pg hi : 0 < hi <= KERNBASE -> hi mod PGSIZE = 0 -> forall fuel s l a, uinv kend s pg l -> 0 <= a ->
  a mod PGSIZE = 0 -> at_table s pg a \/ hi <= a -> hi - a < PGSIZE * (Z.of_nat fuel) -> (0 < fuel)%nat ->
  exists s' l', deallocuvm_loop kend fuel pg a hi s = Ok tt s' /\ shrunk s pg l s' l' a (Z.max a hi).
Proof.
  intros Hhi Hhm. induction fuel as [|f IH]; intros s l a Hu Ha Hal Hat Hf Hf0; [lia|].
  destruct (decide (hi <= a)) as [Hge|Hlt].
  { exists s, l. cbn [deallocuvm_loop]. rewrite (proj2 (Z.ltb_ge _ _) Hge). split; [done|]. apply shrunk_none; [done|]. lia. }
  destruct Hat as [Hat|?]; [|lia]. destruct (fhas (pde (km s) pg (PDX a)) PTE_P) eqn:Hp.
  - destruct (dealloc_step s pg l a hi f Hu ltac:(lia) ltac:(lia) Hal Hp) as (s1 & l1 & E & Hs).
    destruct (IH s1 l1 (a + PGSIZE)) as (s' & l' & E' & Hs'); [apply Hs|unfold PGSIZE; lia|unfold PGSIZE in *; divlia| |unfold PGSIZE in *; lia| |].
    { left. apply (at_table_next s pg l s1 l1); (done || lia). }
    { unfold PGSIZE in *. divlia. }
    exists s', l'. split; [by rewrite E|]. replace (Z.max a hi) with (Z.max (a + PGSIZE) hi) by (unfold PGSIZE in *; divlia).
    apply (shrunk_trans s pg l s1 l1 s' l' a (a + PGSIZE)); (done || unfold PGSIZE; lia).
  - assert (Hn : forall va, a <= va < a + 4194304 -> va < KERNBASE -> mapped (km s) pg va = false).
    { intros va Hr Hva. unfold mapped, pte. assert (PDX va = PDX a) as ->; [|by rewrite Hp].
      unfold at_table in Hat. rewrite Hp in Hat. destruct Hat as [Hat|?]; [|done].
      rewrite !PDX_div by (unfold KERNBASE in *; lia). divlia. }
    cbn [deallocuvm_loop]. rewrite (proj2 (Z.ltb_lt a hi)) by lia. unfold bind at 1. rewrite walk_read, Hp, Z.eqb_refl.
    assert (Ha2 : u32 (u32 (a + (NPTENTRIES - 1) * PGSIZE) + PGSIZE) = a + 4194304).
    { unfold NPTENTRIES, PGSIZE, KERNBASE in *. rewrite (u32_id (a + _)) by lia. rewrite u32_id by lia. lia. }
    rewrite Ha2. assert (Hf1 : (0 < f)%nat) by (unfold PGSIZE in *; divlia). destruct (decide (hi <= a + 4194304)) as [Hend'|Hend'].
    + exists s, l. destruct f; [lia|]. cbn [deallocuvm_loop]. rewrite (proj2 (Z.ltb_ge _ _) Hend'). split; [done|].
      apply shrunk_none; [done|]. intros va Hr. apply Hn. lia.
    + destruct (IH s l (a + 4194304)) as (s' & l' & E' & Hs'); [done|lia|unfold PGSIZE in *; divlia| |unfold PGSIZE in *; lia|done|].
      { left. left. unfold at_table in Hat. rewrite Hp in Hat. destruct Hat as [Hat|?]; [divlia|done]. }
      exists s', l'. split; [done|]. replace (Z.max a hi) with (Z.max (a + 4194304) hi) by lia.
      apply (shrunk_trans s pg l s l s' l' a (a + 4194304)); [lia|lia|by apply shrunk_none|done].
Qed.

(** When there is no page table for the first address, [deallocuvm] goes on
    4 MB further, also past the start of the next page table: pages mapped
    between that start and there are not freed. *)
Lemma deallocuvm_skips s pg oldsz newsz : let a := PGROUNDUP newsz in newsz < oldsz -> 0 <= a < oldsz -> oldsz <= a + 4194304 ->
  oldsz <= KERNBASE -> fhas (pde (km s) pg (PDX a)) PTE_P = false -> deallocuvm kend pg oldsz newsz s = Ok newsz s.
Proof.
  intros a Hlt Ha Hold Hk Hp. unfold deallocuvm. rewrite (proj2 (Z.leb_gt _ _) Hlt). fold a.
  assert (Hf : exists f, S (Z.to_nat (oldsz / PGSIZE + 1)) = S (S f)).
  { exists (Z.to_nat (oldsz / PGSIZE)). unfold PGSIZE. divlia. }
  destruct Hf as [f ->]. unfold bind at 1. cbn [deallocuvm_loop]. rewrite (proj2 (Z.ltb_lt _ _) (proj2 Ha)).
  unfold bind at 1. rewrite walk_read, Hp, Z.eqb_refl. unfold NPTENTRIES, PGSIZE, KERNBASE in *.
  rewrite (u32_id (a + _)), u32_id by lia. by rewrite (proj2 (Z.ltb_ge _ _)) by lia.
Qed.

(** The tables of a directory, freed one by one. *)
Lemma freevm_loop_ok pg : page_ok kend pg -> forall js s l, kinv kend s l -> ~ pg ∈ l -> NoDup js -> (forall j, j ∈ js -> (j < 1024)%nat) ->
  (forall i, i ∈ js -> fhas (pde (km s) pg (Z.of_nat i)) PTE_P = true -> let t := tab (km s) pg (Z.of_nat i) in
     page_ok kend t /\ ~ t ∈ l /\ t <> pg) ->
  (forall i j, i ∈ js -> j ∈ js -> fhas (pde (km s) pg (Z.of_nat i)) PTE_P = true -> fhas (pde (km s) pg (Z.of_nat j)) PTE_P = true ->
     tab (km s) pg (Z.of_nat i) = tab (km s) pg (Z.of_nat j) -> i = j) ->
  exists s' l', freevm_loop kend pg js s = Ok tt s' /\ kinv kend s' l' /\ ~ pg ∈ l' /\
    (forall q, q ∈ l' <-> q ∈ l \/ exists i, i ∈ js /\ fhas (pde (km s) pg (Z.of_nat i)) PTE_P = true /\ tab (km s) pg (Z.of_nat i) = q) /\
    untouched s l' s'.
Proof.
  intros Hpg. induction js as [|j js IH]; intros s l Hk Hl Hnd Hjs Hok Hinj.
  { exists s, l. split_and!; try done. intros q. split; [by left|]. intros [?|(i & Hi & _)]; [done|by apply elem_of_nil in Hi]. }
  apply NoDup_cons in Hnd as [Hj Hnd]. cbn [freevm_loop]. unfold bind at 1, ld, gets.
  change (load4 (km s) (pg + 4 * Z.of_nat j)) with (pde (km s) pg (Z.of_nat j)).
  destruct (fhas (pde (km s) pg (Z.of_nat j)) PTE_P) eqn:Hp.
  - destruct (Hok j ltac:(by left) Hp) as (T1 & T2 & T3). fold (tab (km s) pg (Z.of_nat j)). set (t := tab (km s) pg (Z.of_nat j)) in *.
    destruct (kfree_ok kend s l t Hk T1 T2) as (s1 & E & Hk1 & Hm & _). unfold bind. rewrite E.
    assert (Hpde : forall i, (i < 1024)%nat -> pde (km s1) pg (Z.of_nat i) = pde (km s) pg (Z.of_nat i)).
    { intros i Hi. apply load4_ext. intros x Hx. rewrite Hm. apply freed_outside. apply (page_out kend t pg); (done || unfold PGSIZE; lia). }
    destruct (IH s1 (t :: l) Hk1) as (s' & l' & E' & Hk' & Hl' & Hq & Hu); try done.
    + intros [?|?]%elem_of_cons; [congruence|done].
    + intros i Hi. apply Hjs. by right.
    + intros i Hi. unfold tab. rewrite Hpde by (apply Hjs; by right). intros Hpi. destruct (Hok i ltac:(by right) Hpi) as (O1 & O2 & O3).
      split_and!; [done| |done]. intros [He|?]%elem_of_cons; [|done]. apply Hj. rewrite (Hinj j i); [done|by left|by right|done|done|done].
    + intros i i' Hi Hi'. unfold tab. rewrite !Hpde by (apply Hjs; by right). apply Hinj; by right.
    + exists s', l'. split_and!; try done.
      * intros q. rewrite Hq, elem_of_cons. split.
        -- intros [[->|?]|(i & Hi & Hpi & Ht)]; [right; exists j; split; [by left|done]|by left|right; exists i].
           unfold tab in *. rewrite Hpde in * by (apply Hjs; by right). split; [by right|done].
        -- intros [?|(i & [->|Hi]%elem_of_cons & Hpi & Ht)]; [by left; right|left; by left|right; exists i].
           unfold tab in *. rewrite !Hpde by (apply Hjs; by right). done.
      * intros q x Hqo Hql Hx. rewrite (Hu q x), Hm by done. apply freed_outside. apply (page_out kend t q); try done.
        intros ->. apply Hql, Hq. left. by left.
  - unfold bind, ret. destruct (IH s l Hk) as (s' & l' & E' & Hk' & Hl' & Hq & Hu); try done.
    + intros i Hi. apply Hjs. by right.
    + intros i Hi. apply Hok. by right.
    + intros i i' Hi Hi'. apply Hinj; by right.
    + exists s', l'. split_and!; try done. intros q. rewrite Hq. split.
      * intros [?|(i & Hi & ?)]; [by left|right; exists i; split; [by right|done]].
      * intros [?|(i & [->|Hi]%elem_of_cons & Hpi & Ht)]; [by left|congruence|right; by exists i].
Qed.

(** The pages of an address space. *)
Definition owned s pg (q : Z) : Prop :=
  q = pg \/ istab (km s) pg q \/ exists va, 0 <= va < KERNBASE /\ mapped (km s) pg va = true /\ frame (km s) pg va = q.

Lemma istab_seq m pg q : istab m pg q <->
  exists i, i ∈ seq 0 (Z.to_nat NPDENTRIES) /\ fhas (pde m pg (Z.of_nat i)) PTE_P = true /\ tab m pg (Z.of_nat i) = q.
Proof.
  unfold NPDENTRIES. split.
  - intros (i & Hi & Hp & Hq). exists (Z.to_nat i). rewrite Z2Nat.id by lia. split; [|done]. apply elem_of_seq. lia.
  - intros (i & Hi%elem_of_seq & Hp & Hq). exists (Z.of_nat i). split; [lia|done].
Qed.

Lemma freevm_ok s pg l : uinv kend s pg l ->
  exists s' l', freevm kend pg s = Ok tt s' /\ kinv kend s' l' /\ (forall q, q ∈ l' <-> q ∈ l \/ owned s pg q) /\ untouched s l' s'.
Proof.
  intros Hu. pose proof (page_ok_range _ _ (pt_pg _ _ _ _ (ui_pt _ _ _ _ Hu))) as Hpr.
  destruct (dealloc_loop pg KERNBASE) with (fuel := S (Z.to_nat (KERNBASE / PGSIZE + 1))) (s := s) (l := l) (a := 0)
    as (s1 & l1 & E1 & Hs); [unfold KERNBASE; lia|done|done|lia|done|left; by left|unfold KERNBASE, PGSIZE; divlia|lia|].
  change (Z.max 0 KERNBASE) with KERNBASE in Hs. destruct Hs as [S1 S2 S3 S4 S5 S6]. pose proof (ui_pt _ _ _ _ S1) as [P1 P2 P3 P4 P5].
  assert (Htab : forall q, istab (km s1) pg q <-> istab (km s) pg q).
  { intros q. unfold istab, tab. split; intros (j & Hj & Hp & Hq); exists j; rewrite S5 in * by done; done. }
  destruct (freevm_loop_ok pg P2 (seq 0 (Z.to_nat NPDENTRIES)) s1 l1 P1 P3) as (s2 & l2 & E2 & Hk2 & Hl2 & Hq2 & Hu2).
  { apply NoDup_seq. }
  { intros j Hj%elem_of_seq. unfold NPDENTRIES in Hj. lia. }
  { intros i Hi%elem_of_seq Hp. unfold NPDENTRIES in Hi. apply P4; [lia|done]. }
  { intros i j Hi%elem_of_seq Hj%elem_of_seq Hp Hp' He. unfold NPDENTRIES in Hi, Hj. apply P5 in He; (done || lia). }
  destruct (kfree_ok kend s2 l2 pg Hk2 P2 Hl2) as (s3 & E3 & Hk3 & Hm3 & _). exists s3, (pg :: l2). split; [|split; [done|split]].
  - unfold freevm. destruct (Z.eqb_spec pg 0); [lia|]. unfold bind, deallocuvm.
    change (KERNBASE <=? 0) with false. cbn iota. change (PGROUNDUP 0) with 0. unfold bind. rewrite E1. unfold ret. by rewrite E2, E3.
  - intros q. rewrite elem_of_cons, Hq2, S2, <- istab_seq, Htab. unfold owned. split.
    + intros [?|[[?|(va & Hr & _ & Hv)]|?]]; auto. right. right. right. by exists va.
    + intros [?|[?|[?|(va & Hr & Hm & Hf)]]]; auto. right. left. right. exists va. split_and!; (done || lia).
  - intros q x Hq Hl Hx. apply not_elem_of_cons in Hl as [Hne Hl2']. rewrite Hm3, freed_outside by (by apply (page_out kend pg q)).
    rewrite (Hu2 q x) by done. rewrite Hq2, <- istab_seq, Htab in Hl2'. apply (S6 q); try done; tauto.
Qed.

(** C21. [freevm] gives back exactly the pages of the address space: its user
    pages, its page tables and its directory; nothing outside the free pages
    is changed.  So a copy that [copyuvm] made and that is freed again, as by
    [fork], [exit] and [wait], leaves the free pages that there were, and
    every other page as it was. *)
Theorem freevm_spec s pg l : uinv kend s pg l ->
  (exists s' l', freevm kend pg s = Ok tt s' /\ kinv kend s' l' /\ (forall q, q ∈ l' <-> q ∈ l \/ owned s pg q) /\ untouched s l' s') /\
  forall sz, 0 <= sz < KERNBASE ->
    65 + (sz + 4194303) / 4194304 + (sz + PGSIZE - 1) / PGSIZE <= Z.of_nat (length l) ->
    (forall va, 0 <= va < sz -> mapped (km s) pg va = true) ->
    exists d s1 s2 l2, copyuvm kend kdata pg sz s = Ok d s1 /\ freevm kend d s1 = Ok tt s2 /\
      uinv kend s2 pg l2 /\ l2 ≡ₚ l /\ untouched s l s2.
Proof.
  intros Hu. split; [by apply freevm_ok|]. intros sz Hsz Hl Hm.
  destruct (copy_ok s pg l sz Hu Hsz Hl Hm) as (d & s1 & l1 & E1 & [C1 C2 CL C3 C4 C5] & Hnew & Hold).
  destruct (freevm_ok s1 d l1 C1) as (s2 & l2 & E2 & Hk2 & Hq & Hu2).
  assert (Hql : forall q, q ∈ l2 <-> q ∈ l).
  { intros q. rewrite Hq. unfold owned. split; [|apply CL]. intros [?|[->|[?|(va & Hva & Hmv & <-)]]]; auto.
    apply Hnew; [done|]. destruct (decide (page_of va < sz)); [done|]. unfold mapped in Hmv.
    rewrite Hold in Hmv by (auto || by apply user32). unfold kpte, KERNBASE, DEVSPACE, PHYSTOP in *. by rewrite !decide_False in Hmv by lia. }
  assert (Hs : untouched s l s2).
  { intros q x Hqo Hql' Hx. rewrite (Hu2 q x), (C5 q x); try done. by rewrite Hql. }
  exists d, s1, s2, l2. split_and!; try done.
  - apply (uinv_same s s2 pg l l2); try done. intros p. apply Hql.
  - apply NoDup_Permutation; [apply Hk2|apply (ui_pt _ _ _ _ Hu)|done].
Qed.

End vmcopy.

(** ** An example: a process of one page on a machine with 200 free pages *)

Definition demo_data : Z := KERNBASE + 2097152.

Lemma demo_data_ok : KERNLINK < demo_data < KERNBASE + PHYSTOP /\ demo_data mod PGSIZE = 0 /\ KERNBASE < demo_end.
Proof. vm_compute. done. Qed.

Lemma kidx_ok : idx_ok kidx.
Proof.
  split; [apply (bool_decide_unpack _); by vm_compute|].
  intros i [Hi%elem_of_seqZ|Hi%elem_of_seqZ]%elem_of_app; lia.
Qed.

(** The state after the allocator has been given 200 pages, a directory has
    been made and one page of memory allocated. *)
Lemma demo_space : exists s0 s1 s2 pg l,
  kinit1 demo_end demo_end (demo_end + 819200) kmem0 = Ok tt s0 /\ setupkvm demo_data s0 = Ok pg s1 /\
  allocuvm demo_end pg 0 4096 s1 = Ok 4096 s2 /\ uinv demo_end s2 pg l /\ (67 <= length l)%nat /\
  forall va, 0 <= va < 4096 -> mapped (km s2) pg va = true.
Proof.
  destruct demo_data_ok as (D1 & D2 & D3).
  destruct (kinit_pages demo_end kmem0 demo_end (demo_end + 819200) kmem0_kinv
    ltac:(vm_compute; congruence) ltac:(reflexivity) ltac:(vm_compute; congruence)
    ltac:(vm_compute; congruence) ltac:(vm_compute; congruence) ltac:(vm_compute; congruence)) as (s0 & _ & E0 & _ & Hk & _).
  set (l0 := rev _) in Hk. assert (Hl0 : length l0 = 200%nat) by (unfold l0; rewrite length_rev; unfold pages; by rewrite length_fmap, length_seq).
  clearbody l0.
  destruct (setupkvm_ok demo_end demo_data D1 D2 s0 l0 kidx kidx_ok ltac:(done) Hk) as (pg & s1 & l1 & E1 & Hpt & _ & _ & _ & _ & Hc & Hpte & _);
    [rewrite Hl0; vm_compute; lia|].
  assert (Hk0 : forall v, 0 <= v < KERNBASE -> pte (km s1) pg v = 0).
  { intros v Hv. rewrite Hpte by (by apply user32). unfold kpte, KERNBASE, DEVSPACE, PHYSTOP in *. by rewrite !decide_False by lia. }
  assert (Hu : uinv demo_end s1 pg l1).
  { split; [done| |]; intros va; unfold mapped; [|intros va' Hva]; intros Hv; rewrite Hk0 by done; done. }
  pose proof (length_filter (fun i => fhas (pde (km s1) pg i) PTE_P = true) kidx) as Hle. fold (tabs (km s1) pg kidx) in Hle.
  change (length kidx) with 64%nat in Hle.
  assert (HI : idx_ok [0]) by (split; [repeat constructor; apply not_elem_of_nil|intros i ->%list_elem_of_singleton; lia]).
  destruct (allocuvm_loop_ok demo_end pg 0 4096 [0] ltac:(done) 3 1 s1 l1 0 Hu) as (s2 & l & E2 & Hg);
    [lia|reflexivity|left; vm_compute; split; congruence|lia| | | |].
  - split; [done|]. cbn [length]. lia.
  - intros x Hx. apply list_elem_of_singleton in Hx as ->. by left.
  - intros va Hva _. unfold mapped. by rewrite Hk0.
  - exists s0, s1, s2, pg, l. split; [exact E0|]. split; [exact E1|]. split; [exact E2|]. split; [apply Hg|]. split.
    + pose proof (gr_count _ _ _ _ _ _ _ _ _ Hg [0] HI) as Hcount. cbn [length pages seq fmap list_fmap] in Hcount.
      pose proof (length_filter (fun i => fhas (pde (km s2) pg i) PTE_P = true) [0]) as Hle2. fold (tabs (km s2) pg [0]) in Hle2.
      cbn [length] in Hle2. rewrite Hl0 in Hc.
      assert (Hin : forall a, a ∈ [0 + PGSIZE * Z.of_nat 0] -> PDX a ∈ [0]) by (intros a ->%list_elem_of_singleton; by left).
      specialize (Hcount Hin). lia.
    + intros va Hva. apply (gr_new _ _ _ _ _ _ _ _ _ Hg va); [unfold KERNBASE; lia|]. apply list_elem_of_singleton.
      unfold page_of, PGSIZE. rewrite Z.mod_small by lia. lia.
Qed.

Lemma copyuvm_spec_witness : exists s pg d s', copyuvm demo_end demo_data pg 4096 s = Ok d s' /\
  ubyte (km s') d 100 = ubyte (km s) pg 100.
Proof.
  destruct demo_space as (s0 & s1 & s2 & pg & l & _ & _ & _ & Hu & Hl & Hm). destruct demo_data_ok as (D1 & D2 & _).
  destruct (proj1 (copyuvm_spec demo_end demo_data D1 D2 s2 pg l 4096 Hu ltac:(unfold KERNBASE; lia) ltac:(unfold PGSIZE; divlia)) Hm)
    as (d & s' & l' & E & _ & _ & Hb & _).
  exists s2, pg, d, s'. split; [exact E|]. apply Hb; [unfold KERNBASE; lia|by vm_compute].
Defined.

Lemma freevm_spec_witness : exists s pg d s1 s2, copyuvm demo_end demo_data pg 4096 s = Ok d s1 /\
  freevm demo_end d s1 = Ok tt s2.
Proof.
  destruct demo_space as (s0 & s1 & s2 & pg & l & _ & _ & _ & Hu & Hl & Hm). destruct demo_data_ok as (D1 & D2 & D3).
  destruct (proj2 (freevm_spec demo_end demo_data D1 D2 D3 s2 pg l Hu) 4096 ltac:(unfold KERNBASE; lia) ltac:(unfold PGSIZE; divlia) Hm)
    as (d & s3 & s4 & l2 & E1 & E2 & _).
  exists s2, pg, d, s3, s4. split; [exact E1|exact E2].
Defined.
