(* ===== verification/Mp.v ===== *)
(** * The processors of the machine (mp.c, mp.h)

    The search for Intel's MultiProcessor tables in memory, and [mpinit],
    which finds the processors in them.  The theorem: the table used is the
    first one in the order of the search, and for each kind of table what
    [mpinit] makes of it, with the two kinds it does not survive. *)

From stdpp Require Import base numbers list gmap strings.
From Stdlib Require Import ZArith Lia.
From S2P Require Import Prelude Kstring Kalloc Vm.

Local Open Scope Z_scope.

Definition NCPU : Z := 8.
Definition sizeof_mp : Z := 16.
Definition sizeof_mpconf : Z := 44.
Definition sizeof_mpproc : Z := 20.
Definition sizeof_mpioapic : Z := 8.
Definition MPBOOT : Z := 2.
Definition MPPROC : Z := 0.
Definition MPBUS : Z := 1.
Definition MPIOAPIC : Z := 2.
Definition MPIOINTR : Z := 3.
Definition MPLINTR : Z := 4.

(** The fields of [struct mp], [struct mpconf], [struct mpproc] and
    [struct mpioapic] that are used. *)
Definition mp_physaddr (m : mem) (mp : Z) : Z := load4 m (mp + 4).
Definition mp_imcrp (m : mem) (mp : Z) : Z := m (mp + 12).
Definition conf_length (m : mem) (conf : Z) : Z := load2 m (conf + 4).
Definition conf_version (m : mem) (conf : Z) : Z := m (conf + 6).
Definition conf_lapicaddr (m : mem) (conf : Z) : Z := load4 m (conf + 36).
Definition proc_apicid (m : mem) (p : Z) : Z := m (p + 1).
Definition proc_flags (m : mem) (p : Z) : Z := m (p + 3).
Definition ioapic_apicno (m : mem) (p : Z) : Z := m (p + 1).

(** The variables of mp.c, [lapic] of lapic.c, and the writes to ports.
    [bcpu] is an index of [cpus], of which [cpuids] are the fields [id]. *)
Record mpstate : Type := MpState {
  bcpu : Z; ismp : bool; ncpu : Z; ioapicid : Z; lapic : Z; cpuids : list Z; ports : list (Z * Z)
}.

Definition set_bcpu (b : Z) (s : mpstate) : mpstate := MpState b (ismp s) (ncpu s) (ioapicid s) (lapic s) (cpuids s) (ports s).
Definition set_ismp (b : bool) (s : mpstate) : mpstate := MpState (bcpu s) b (ncpu s) (ioapicid s) (lapic s) (cpuids s) (ports s).
Definition set_ioapicid (i : Z) (s : mpstate) : mpstate := MpState (bcpu s) (ismp s) (ncpu s) i (lapic s) (cpuids s) (ports s).
Definition set_lapic (l : Z) (s : mpstate) : mpstate := MpState (bcpu s) (ismp s) (ncpu s) (ioapicid s) l (cpuids s) (ports s).
Definition set_ncpu (n : Z) (s : mpstate) : mpstate := MpState (bcpu s) (ismp s) n (ioapicid s) (lapic s) (cpuids s) (ports s).
Definition set_cpuids (l : list Z) (s : mpstate) : mpstate := MpState (bcpu s) (ismp s) (ncpu s) (ioapicid s) (lapic s) l (ports s).
Definition mp_outb (p v : Z) (s : mpstate) : mpstate :=
  MpState (bcpu s) (ismp s) (ncpu s) (ioapicid s) (lapic s) (cpuids s) (ports s ++ [(p, u8 v)]).

Definition mpbcpu (s : mpstate) : Z := bcpu s.

(** The loop of [sum]. *)
Fixpoint sum_loop (m : mem) (addr : Z) (n : nat) (s : Z) : Z :=
  match n with O => s | S n => sum_loop m (addr + 1) n (s32 (s + m addr)) end.

Definition sum (m : mem) (addr len : Z) : Z := u8 (sum_loop m addr (Z.to_nat len) 0).

Section mp.
(** The addresses of the literals "_MP_" and "PCMP". *)
Context (s_mp s_pcmp : Z).

(** The loop of [mpsearch1]. *)
Fixpoint mpsearch1_loop (n : nat) (m : mem) (p e : Z) : Z :=
  match n with
  | O => 0
  | S n =>
      if p <? e then
        if (memcmp m p s_mp 4 =? 0) && (sum m p sizeof_mp =? 0) then p
        else mpsearch1_loop n m (u32 (p + sizeof_mp)) e
      else 0
  end.

Definition mpsearch1 (m : mem) (a len : Z) : Z :=
  let addr := p2v a in
  let e := u32 (addr + len) in
  mpsearch1_loop (Z.to_nat (len / sizeof_mp + 1)) m addr e.

Definition mpsearch (m : mem) : Z :=
  let bda := u32 (0x400 + KERNBASE) in
  let p := u32 (Z.shiftl (Z.lor (Z.shiftl (m (bda + 0x0F)) 8) (m (bda + 0x0E))) 4) in
  let mp :=
    if negb (p =? 0) then mpsearch1 m p 1024
    else
      let p := u32 (Z.lor (Z.shiftl (m (bda + 0x14)) 8) (m (bda + 0x13)) * 1024) in
      mpsearch1 m (u32 (p - 1024)) 1024 in
  if negb (mp =? 0) then mp else mpsearch1 m 0xF0000 0x10000.

(** The result and, when it is not 0, what is stored in [*pmp]. *)
Definition mpconfig (m : mem) : Z * Z :=
  let mp := mpsearch m in
  if (mp =? 0) || (mp_physaddr m mp =? 0) then (0, 0)
  else
    let conf := p2v (mp_physaddr m mp) in
    if negb (memcmp m conf s_pcmp 4 =? 0) then (0, 0)
    else if negb (conf_version m conf =? 1) && negb (conf_version m conf =? 4) then (0, 0)
    else if negb (sum m conf (conf_length m conf) =? 0) then (0, 0)
    else (conf, mp).

(** The loop of [mpinit]: [None] when [fuel] is not enough, [Some None] when
    it writes outside of [cpus].  The messages are left out. *)
Fixpoint mpinit_loop (fuel : nat) (m : mem) (p e : Z) (s : mpstate) : option (option mpstate) :=
  match fuel with
  | O => None
  | S f =>
      if p <? e then
        if m p =? MPPROC then
          let s := if negb (ncpu s =? proc_apicid m p) then set_ismp false s else s in
          let s := if negb (Z.land (proc_flags m p) MPBOOT =? 0) then set_bcpu (ncpu s) s else s in
          if NCPU <=? ncpu s then Some None
          else
            let s := set_cpuids (<[Z.to_nat (ncpu s) := ncpu s]> (cpuids s)) s in
            mpinit_loop f m (u32 (p + sizeof_mpproc)) e (set_ncpu (ncpu s + 1) s)
        else if m p =? MPIOAPIC then
          mpinit_loop f m (u32 (p + sizeof_mpioapic)) e (set_ioapicid (ioapic_apicno m p) s)
        else if (m p =? MPBUS) || (m p =? MPIOINTR) || (m p =? MPLINTR) then
          mpinit_loop f m (u32 (p + 8)) e s
        else mpinit_loop f m p e (set_ismp false s)
      else Some (Some s)
  end.

(** [imcr] is what [inb(0x23)] returns. *)
Definition mpinit (fuel : nat) (imcr : Z) (m : mem) (s : mpstate) : option (option mpstate) :=
  let s := set_bcpu 0 s in
  let '(conf, mp) := mpconfig m in
  if conf =? 0 then Some (Some s)
  else
    let s := set_ismp true s in
    let s := set_lapic (conf_lapicaddr m conf) s in
    r ← mpinit_loop fuel m (u32 (conf + sizeof_mpconf)) (u32 (conf + conf_length m conf)) s;
    match r with
    | None => Some None
    | Some s =>
        if negb (ismp s) then Some (Some (set_ioapicid 0 (set_lapic 0 (set_ncpu 1 s))))
        else if negb (mp_imcrp m mp =? 0) then Some (Some (mp_outb 0x23 (Z.lor imcr 1) (mp_outb 0x22 0x70 s)))
        else Some (Some s)
    end.

(** ** The search *)

(** The places that are looked at, in order: the extended BIOS data area, or
    the last kilobyte of base memory when there is none, and the BIOS. *)
Definition candidates (a len : Z) : list Z := (fun k => a + KERNBASE + sizeof_mp * k) <$> seqZ 0 (len / sizeof_mp).
Definition ebda (m : mem) : Z := 16 * load2 m (KERNBASE + 0x40E).
Definition basemem (m : mem) : Z := 1024 * load2 m (KERNBASE + 0x413).
Definition places (m : mem) : list Z :=
  candidates (if decide (ebda m = 0) then basemem m - 1024 else ebda m) 1024 ++ candidates 0xF0000 0x10000.

(** The signature "_MP_" and a sum of 0 modulo 256. *)
Definition byte_sum (m : mem) (a n : Z) : Z := foldr (fun x r => m x + r) 0 (seqZ a n).
Definition has_text (m : mem) (a : Z) (t : list Z) : bool := bool_decide ((fun i => m (a + i)) <$> seqZ 0 (Z.of_nat (length t)) = t).
Definition text_mp : list Z := [0x5f; 0x4d; 0x50; 0x5f].
Definition text_pcmp : list Z := [0x50; 0x43; 0x4d; 0x50].
Definition floating (m : mem) (p : Z) : bool := has_text m p text_mp && (byte_sum m p sizeof_mp mod 256 =? 0).

(** A table that is accepted: that of the first floating structure. *)
Definition mp_table (m : mem) (conf mp : Z) : Prop :=
  head (filter (floating m) (places m)) = Some mp /\ mp_physaddr m mp <> 0 /\ conf = p2v (mp_physaddr m mp) /\
  has_text m conf text_pcmp = true /\ (conf_version m conf = 1 \/ conf_version m conf = 4) /\
  byte_sum m conf (conf_length m conf) mod 256 = 0 /\ conf <> 0.

Section memory.
Context (m : mem) (Hm : mem_ok m) (Ht1 : has_text m s_mp text_mp = true) (Ht2 : has_text m s_pcmp text_pcmp = true).

Lemma byte_sum_range a n : 0 <= n -> 0 <= byte_sum m a n <= 255 * n.
Proof.
  intros Hn. unfold byte_sum. rewrite <- (Z2Nat.id n) by done. generalize (Z.to_nat n). clear Hn n. intros n. revert a.
  induction n as [|n IH]; intros a; [done|]. rewrite seqZ_cons by lia. cbn [foldr].
  replace (Z.pred (Z.of_nat (S n))) with (Z.of_nat n) by lia. specialize (IH (Z.succ a)). pose proof (Hm a). lia.
Qed.

Lemma sum_ok a n : 0 <= n < 65536 -> sum m a n = byte_sum m a n mod 256.
Proof.
  intros Hn. unfold sum, u8. change (2 ^ 8) with 256. f_equal.
  assert (H : forall k b acc, 0 <= acc -> acc + 255 * Z.of_nat k < 2 ^ 31 -> sum_loop m b k acc = acc + byte_sum m b (Z.of_nat k)).
  { induction k as [|k IH]; intros b acc H0 H1; cbn [sum_loop]; [change (byte_sum m b (Z.of_nat 0)) with 0; lia|]. pose proof (Hm b).
    rewrite s32_id by lia. rewrite IH by lia. unfold byte_sum. rewrite (seqZ_cons b) by lia. cbn [foldr].
    replace (Z.pred (Z.of_nat (S k))) with (Z.of_nat k) by lia. unfold Z.succ. lia. }
  rewrite H by lia. by rewrite Z2Nat.id by lia.
Qed.

Lemma load2_range a : 0 <= load2 m a < 65536.
Proof. unfold load2. pose proof (Hm a). pose proof (Hm (a + 1)). lia. Qed.

Lemma has_text_spec a t : has_text m a t = true <-> forall i c, t !! i = Some c -> m (a + Z.of_nat i) = c.
Proof.
  unfold has_text. rewrite bool_decide_eq_true. split.
  - intros E i c Hi. rewrite <- E in Hi. rewrite list_lookup_fmap in Hi.
    destruct (seqZ 0 (Z.of_nat (length t)) !! i) as [x|] eqn:Ex; [|done]. apply lookup_seqZ in Ex as [-> _]. by injection Hi.
  - intros H. apply list_eq. intros i. rewrite list_lookup_fmap. destruct (t !! i) as [c|] eqn:Ei.
    + pose proof (lookup_lt_Some _ _ _ Ei). rewrite lookup_seqZ_lt by lia. cbn. f_equal. by apply H.
    + apply lookup_ge_None in Ei. by rewrite lookup_seqZ_ge by lia.
Qed.

Lemma memcmp_text a b t : has_text m b t = true -> (memcmp m a b (length t) =? 0) = has_text m a t.
Proof.
  intros Hb. apply eq_true_iff_eq. rewrite Z.eqb_eq, (proj1 (memcmp_ok m a b (length t) Hm)), has_text_spec. rewrite has_text_spec in Hb. split.
  - intros H i c Hi. pose proof (lookup_lt_Some _ _ _ Hi). rewrite H by lia. by apply Hb.
  - intros H i Hi. destruct (lookup_lt_is_Some_2 t (Z.to_nat i)) as [c Hc]; [lia|].
    rewrite <- (Z2Nat.id i) by lia. by rewrite (H _ c Hc), (Hb _ c Hc).
Qed.

Lemma mpsearch1_loop_ok n k p : 0 < p -> (n < k)%nat -> p + sizeof_mp * Z.of_nat n < 2 ^ 32 ->
  mpsearch1_loop k m p (p + sizeof_mp * Z.of_nat n) = default 0 (head (filter (floating m) ((fun j => p + sizeof_mp * j) <$> seqZ 0 (Z.of_nat n)))).
Proof.
  revert k p. induction n as [|n IH]; intros k p H1 Hk He; (destruct k as [|k]; [lia|]); cbn [mpsearch1_loop].
  { rewrite (proj2 (Z.ltb_ge _ _)); [done|lia]. }
  unfold sizeof_mp in *. rewrite (proj2 (Z.ltb_lt _ _)) by lia.
  rewrite (memcmp_text p s_mp text_mp Ht1 : (memcmp m p s_mp 4 =? 0) = _), (sum_ok p 16) by lia. fold sizeof_mp. fold (floating m p).
  rewrite (seqZ_cons 0) by lia. rewrite fmap_cons, Z.mul_0_r, Z.add_0_r, filter_cons.
  destruct (floating m p) eqn:Ef; [by rewrite decide_True by done|]. rewrite decide_False by (intros []).
  unfold sizeof_mp in *. rewrite u32_id by lia.
  replace (p + 16 * Z.of_nat (S n)) with (p + 16 + 16 * Z.of_nat n) by lia. rewrite IH by lia. do 3 f_equal.
  replace (Z.pred (Z.of_nat (S n))) with (Z.of_nat n) by lia. change (Z.succ 0) with (1 + 0). rewrite <- (fmap_add_seqZ 1 0 (Z.of_nat n)), <- list_fmap_compose.
  apply list_fmap_ext. intros i x _. cbn. lia.
Qed.

Lemma mpsearch1_ok a len : - KERNBASE < a -> (sizeof_mp | len) -> 0 <= len -> a + KERNBASE + len < 2 ^ 32 ->
  mpsearch1 m (u32 a) len = default 0 (head (filter (floating m) (candidates a len))).
Proof.
  intros Ha [k ->] Hl He. unfold mpsearch1, candidates, p2v.
  replace (u32 (u32 a + KERNBASE)) with (a + KERNBASE) by (unfold u32 at 2; unfold u32; rewrite Zplus_mod_idemp_l, Z.mod_small; (done || unfold KERNBASE, sizeof_mp in *; lia)).
  rewrite (Z.div_mul k sizeof_mp) by done. unfold sizeof_mp in *. rewrite (u32_id (a + KERNBASE + k * 16)) by (unfold KERNBASE in *; lia).
  rewrite <- (Z2Nat.id k) by lia. replace (Z.of_nat (Z.to_nat k) * 16) with (16 * Z.of_nat (Z.to_nat k)) by lia.
  apply mpsearch1_loop_ok; unfold sizeof_mp; lia.
Qed.

Lemma word_or a b : 0 <= b < 256 -> Z.lor (Z.shiftl a 8) b = b + 2 ^ 8 * a.
Proof.
  intros Hb. assert (Hd : Z.land (Z.shiftl a 8) b = 0).
  { apply Z.bits_inj_iff. intros j. rewrite Z.land_spec, Z.bits_0. destruct (Z.ltb_spec j 8); [by rewrite Z.shiftl_spec_low|].
    rewrite <- (Z.mod_small b (2 ^ 8)), Z.mod_pow2_bits_high by lia. apply andb_false_r. }
  rewrite <- Z.lxor_lor, <- Z.add_nocarry_lxor by done. rewrite Z.shiftl_mul_pow2 by lia. lia.
Qed.

Lemma head_filter_app {A} (P : A -> bool) (l k : list A) :
  head (filter P (l ++ k)) = match head (filter P l) with Some x => Some x | None => head (filter P k) end.
Proof. rewrite filter_app. by destruct (filter P l). Qed.

Lemma candidates_pos a len p : - KERNBASE < a -> p ∈ candidates a len -> p <> 0.
Proof.
  intros Ha. unfold candidates. rewrite list_elem_of_fmap. intros (k & -> & Hk). apply elem_of_seqZ in Hk. unfold sizeof_mp. lia.
Qed.

Lemma head_filter_elem {A} (P : A -> bool) (l : list A) x : head (filter P l) = Some x -> x ∈ l.
Proof.
  intros E. destruct (filter P l) as [|y k] eqn:Ef; [done|]. injection E as ->. assert (H : x ∈ filter P l) by (rewrite Ef; apply list_elem_of_here).
  by apply list_elem_of_filter in H as [_ H].
Qed.

Lemma mpsearch_ok : mpsearch m = default 0 (head (filter (floating m) (places m))).
Proof.
  unfold mpsearch, places. change (u32 (0x400 + KERNBASE)) with (KERNBASE + 0x400). rewrite <- !Z.add_assoc.
  change (0x400 + 0x0f) with (0x40E + 1). change (0x400 + 0x0E) with 0x40E. change (0x400 + 0x14) with (0x413 + 1). change (0x400 + 0x13) with 0x413.
  rewrite !word_or by apply Hm. rewrite !Z.add_assoc. fold (load2 m (KERNBASE + 0x40E)). fold (load2 m (KERNBASE + 0x413)).
  pose proof (load2_range (KERNBASE + 0x40E)) as H1. pose proof (load2_range (KERNBASE + 0x413)) as H2.
  unfold ebda, basemem. set (x := load2 m (KERNBASE + 0x40E)) in *. set (y := load2 m (KERNBASE + 0x413)) in *. clearbody x y.
  set (a := if decide (16 * x = 0) then 1024 * y - 1024 else 16 * x).
  assert (Ha : - KERNBASE < a /\ a + KERNBASE + 1024 < 2 ^ 32) by (unfold a, KERNBASE; case_decide; lia).
  rewrite Z.shiftl_mul_pow2 by lia. change (2 ^ 4) with 16. rewrite (u32_id (x * 16)), (u32_id (y * 1024)) by lia.
  transitivity (let mp := mpsearch1 m (u32 a) 1024 in if negb (mp =? 0) then mp else mpsearch1 m 0xF0000 0x10000).
  { cbn zeta. unfold a. destruct (Z.eqb_spec (x * 16) 0); cbn [negb].
    - rewrite decide_True by lia. by rewrite (Z.mul_comm 1024 y).
    - rewrite decide_False by lia. rewrite (Z.mul_comm 16 x), u32_id by lia. done. }
  cbn zeta. rewrite (mpsearch1_ok a 1024) by ((by exists 64) || lia || tauto).
  rewrite head_filter_app. destruct (head (filter (floating m) (candidates a 1024))) as [p|] eqn:Ef; cbn [from_option id].
  - apply head_filter_elem, (candidates_pos a 1024) in Ef; [|tauto]. by rewrite (proj2 (Z.eqb_neq _ _) Ef).
  - cbn [Z.eqb negb]. apply (mpsearch1_ok 0xF0000 0x10000); unfold KERNBASE; (lia || by exists 4096).
Qed.

Lemma mpconfig_ok conf mp : conf <> 0 -> mpconfig m = (conf, mp) <-> mp_table m conf mp.
Proof.
  intros Hc. unfold mpconfig, mp_table. rewrite mpsearch_ok. destruct (head (filter (floating m) (places m))) as [p|] eqn:Ef; cbn [from_option id].
  2: { split; [by intros [= <- _]|by intros (? & _)]. }
  assert (Hp : p <> 0).
  { apply head_filter_elem in Ef. unfold places in Ef. apply elem_of_app in Ef as [Ef|Ef]; revert Ef; apply candidates_pos; [|done].
    unfold ebda, basemem, KERNBASE. pose proof (load2_range (KERNBASE + 0x40E)). pose proof (load2_range (KERNBASE + 0x413)).
    unfold KERNBASE in *. case_decide; lia. }
  rewrite (proj2 (Z.eqb_neq p 0) Hp). cbn [orb]. set (c := p2v (mp_physaddr m p)). pose proof (load2_range (c + 4)) as Hl. fold (conf_length m c) in Hl.
  rewrite (memcmp_text c s_pcmp text_pcmp Ht2 : (memcmp m c s_pcmp 4 =? 0) = _). rewrite (sum_ok c (conf_length m c)) by done.
  split.
  - destruct (Z.eqb_spec (mp_physaddr m p) 0); [by intros [= <- _]|]. destruct (has_text m c text_pcmp) eqn:Et; cbn [negb]; [|by intros [= <- _]].
    destruct (negb (conf_version m c =? 1) && negb (conf_version m c =? 4)) eqn:Ev; [by intros [= <- _]|].
    destruct (Z.eqb_spec (byte_sum m c (conf_length m c) mod 256) 0); cbn [negb]; [|by intros [= <- _]].
    intros [= <- <-]. apply andb_false_iff in Ev. rewrite !negb_false_iff, !Z.eqb_eq in Ev. done.
  - intros ([= <-] & H1 & -> & H2 & H3 & H4 & _). fold c. rewrite (proj2 (Z.eqb_neq _ _) H1). fold c in H2, H3, H4. rewrite H2, H4. cbn [negb Z.eqb].
    destruct H3 as [-> | ->]; done.
Qed.

(** ** The table *)

Inductive mpentry : Type := Eproc (apicid flags : Z) | Eioapic (apicno : Z) | Eother.

Definition esize (en : mpentry) : Z := match en with Eproc _ _ => sizeof_mpproc | Eioapic _ => sizeof_mpioapic | Eother => 8 end.

Definition entry_at (p : Z) (en : mpentry) : Prop :=
  match en with
  | Eproc a f => m p = MPPROC /\ proc_apicid m p = a /\ proc_flags m p = f
  | Eioapic a => m p = MPIOAPIC /\ ioapic_apicno m p = a
  | Eother => m p = MPBUS \/ m p = MPIOINTR \/ m p = MPLINTR
  end.

(** The entries [es] lie one after the other from [p] to [q], and begin below
    [e]. *)
Fixpoint entries (p e : Z) (es : list mpentry) (q : Z) : Prop :=
  match es with
  | [] => q = p
  | en :: es => p < e /\ entry_at p en /\ entries (p + esize en) e es q
  end.

Definition procs (es : list mpentry) : list (Z * Z) := omap (fun en => match en with Eproc a f => Some (a, f) | _ => None end) es.
Definition ioapics (es : list mpentry) : list Z := omap (fun en => match en with Eioapic a => Some a | _ => None end) es.

(** The processors are numbered in order from [n]; those marked as the one
    that booted. *)
Fixpoint in_order (n : Z) (ps : list (Z * Z)) : bool :=
  match ps with [] => true | (a, _) :: ps => (a =? n) && in_order (n + 1) ps end.
Fixpoint booted (n : Z) (ps : list (Z * Z)) : list Z :=
  match ps with [] => [] | (_, f) :: ps => (if Z.testbit f 1 then [n] else []) ++ booted (n + 1) ps end.

Definition ids_ok (s : mpstate) : Prop :=
  length (cpuids s) = Z.to_nat NCPU /\ 0 <= ncpu s <= NCPU /\ forall i, 0 <= i < ncpu s -> cpuids s !! Z.to_nat i = Some i.

(** What the entries do to the state. *)
Record scanned (s : mpstate) (es : list mpentry) (s' : mpstate) : Prop := {
  sc_bcpu : bcpu s' = default (bcpu s) (last (booted (ncpu s) (procs es)));
  sc_ismp : ismp s' = ismp s && in_order (ncpu s) (procs es);
  sc_ncpu : ncpu s' = ncpu s + Z.of_nat (length (procs es));
  sc_ioapicid : ioapicid s' = default (ioapicid s) (last (ioapics es));
  sc_lapic : lapic s' = lapic s;
  sc_ports : ports s' = ports s;
  sc_ids : ids_ok s'
}.

Lemma last_app_default {A} (d : A) (l k : list A) : default d (last (l ++ k)) = default (default d (last l)) (last k).
Proof. rewrite last_app. by destruct (last k). Qed.

Lemma boot_flag f : (Z.land f MPBOOT =? 0) = negb (Z.testbit f 1).
Proof.
  unfold MPBOOT. change 2 with (2 ^ 1). destruct (Z.testbit f 1) eqn:E; cbn [negb].
  - apply Z.eqb_neq. intros H. apply (f_equal (fun x => Z.testbit x 1)) in H. rewrite Z.land_spec, E in H. done.
  - apply Z.eqb_eq, Z.bits_inj_iff. intros j. rewrite Z.land_spec, Z.bits_0. destruct (decide (j = 1)) as [->|Hj]; [by rewrite E|].
    destruct (Z.ltb_spec j 0); [by rewrite Z.testbit_neg_r|]. rewrite Z.pow2_bits_false by lia. apply andb_false_r.
Qed.

Lemma in_order_app n l k : in_order n (l ++ k) = in_order n l && in_order (n + Z.of_nat (length l)) k.
Proof.
  revert n. induction l as [|[a f] l IH]; intros n; cbn [in_order app length]; [by rewrite Z.add_0_r|].
  rewrite IH, andb_assoc. do 2 f_equal. lia.
Qed.

Lemma booted_app n l k : booted n (l ++ k) = booted n l ++ booted (n + Z.of_nat (length l)) k.
Proof.
  revert n. induction l as [|[a f] l IH]; intros n; cbn [booted app length]; [by rewrite Z.add_0_r|].
  rewrite IH, app_assoc. do 2 f_equal. lia.
Qed.

Lemma scanned_app s l s1 k s2 : scanned s l s1 -> scanned s1 k s2 -> scanned s (l ++ k) s2.
Proof.
  intros [A1 A2 A3 A4 A5 A6 A7] [B1 B2 B3 B4 B5 B6 B7]. unfold procs, ioapics in *. split; unfold procs, ioapics; rewrite ?omap_app.
  - rewrite B1, A1, A3, booted_app, last_app_default. done.
  - rewrite B2, A2, A3, in_order_app. by rewrite andb_assoc.
  - rewrite B3, A3, length_app. lia.
  - by rewrite B4, A4, last_app_default.
  - by rewrite B5.
  - by rewrite B6.
  - done.
Qed.

Lemma mpinit_loop_mono f g p e s r : (f <= g)%nat -> mpinit_loop f m p e s = Some r -> mpinit_loop g m p e s = Some r.
Proof.
  intros Hg. revert g Hg p s. induction f as [|f IH]; intros g Hg p s E; [done|]. destruct g as [|g]; [lia|]. cbn [mpinit_loop] in *.
  repeat case_match; try done; (eapply IH; [lia|exact E]).
Qed.

(** One entry that fits. *)
Lemma entry_step p e en s : p < e -> entry_at p en -> ids_ok s -> ncpu s + Z.of_nat (length (procs [en])) <= NCPU ->
  exists s1, scanned s [en] s1 /\ forall f, mpinit_loop (S f) m p e s = mpinit_loop f m (u32 (p + esize en)) e s1.
Proof.
  intros Hp He Hi Hn. destruct en as [a f|a|]; cbn [entry_at procs omap list_omap length esize] in *.
  - destruct He as (H1 & H2 & H3). destruct Hi as (I1 & I2 & I3).
    set (sa := if negb (ncpu s =? proc_apicid m p) then set_ismp false s else s).
    set (s0 := if negb (Z.land (proc_flags m p) MPBOOT =? 0) then set_bcpu (ncpu sa) sa else sa).
    assert (E0 : s0 = MpState (if Z.testbit f 1 then ncpu s else bcpu s) (ismp s && (a =? ncpu s)) (ncpu s) (ioapicid s) (lapic s) (cpuids s) (ports s)).
    { unfold s0, sa. rewrite H2, H3, boot_flag, negb_involutive, (Z.eqb_sym a). destruct s as [b i n io l c po]; cbn [ncpu].
      destruct (n =? a), (Z.testbit f 1); cbn; by rewrite ?andb_true_r, ?andb_false_r. }
    exists (set_ncpu (ncpu s + 1) (set_cpuids (<[Z.to_nat (ncpu s) := ncpu s]> (cpuids s)) s0)). split.
    + rewrite E0. split; cbn -[Z.testbit]; [by destruct (Z.testbit f 1)|by rewrite andb_true_r|lia|done|done|done|]. split; cbn; [by rewrite length_insert|]. split; [lia|].
      intros i Hii. destruct (decide (i = ncpu s)) as [->|]; [apply list_lookup_insert_eq; unfold NCPU in *; lia|].
      rewrite list_lookup_insert_ne by lia. apply I3. lia.
    + intros f0. cbn [mpinit_loop]. rewrite (proj2 (Z.ltb_lt _ _) Hp), H1. cbn [Z.eqb MPPROC].
      fold sa. fold s0. rewrite E0. cbn [ncpu cpuids]. rewrite (proj2 (Z.leb_gt _ _)) by lia. done.
  - destruct He as (H1 & H2). exists (set_ioapicid a s). split; [split; cbn; (done || by rewrite ?andb_true_r || lia)|].
    intros f0. cbn [mpinit_loop]. by rewrite (proj2 (Z.ltb_lt _ _) Hp), H1, H2.
  - exists s. split; [split; cbn; (done || by rewrite ?andb_true_r || lia)|].
    intros f0. cbn [mpinit_loop]. rewrite (proj2 (Z.ltb_lt _ _) Hp). by destruct He as [-> | [-> | ->]].
Qed.

Lemma entries_le p e es q : entries p e es q -> p <= q.
Proof.
  revert p. induction es as [|en es IH]; intros p; cbn [entries]; [lia|]. intros (_ & _ & H). apply IH in H.
  destruct en; cbn [esize] in H; unfold sizeof_mpproc, sizeof_mpioapic in H; lia.
Qed.

Lemma entries_end p e es q : p < e + 20 -> entries p e es q -> q < e + 20.
Proof.
  revert p. induction es as [|en es IH]; intros p Hp; cbn [entries]; [lia|]. intros (Hl & _ & H). apply (IH _) in H; [done|].
  destruct en; cbn [esize]; unfold sizeof_mpproc, sizeof_mpioapic; lia.
Qed.

Lemma mpinit_loop_ok e es : 0 <= e -> e + 20 <= 2 ^ 32 -> forall p q s, 0 <= p < e + 20 -> entries p e es q -> ids_ok s ->
  ncpu s + Z.of_nat (length (procs es)) <= NCPU ->
  exists s', scanned s es s' /\ forall f, mpinit_loop (length es + f) m p e s = mpinit_loop f m q e s'.
Proof.
  intros H0 He. induction es as [|en es IH]; intros p q s Hp H Hi Hn.
  - cbn in H. subst q. exists s. split; [split; cbn; (done || by rewrite ?andb_true_r || lia)|done].
  - destruct H as (Hl & Ha & H). change (en :: es) with ([en] ++ es) in *. unfold procs in Hn. rewrite omap_app, length_app in Hn. fold (procs [en]) (procs es) in Hn.
    destruct (entry_step p e en s Hl Ha Hi ltac:(lia)) as (s1 & S1 & E1).
    assert (Hz : 0 <= p + esize en < e + 20) by (destruct en; cbn [esize]; unfold sizeof_mpproc, sizeof_mpioapic; lia).
    destruct (IH (p + esize en) q s1 Hz H (sc_ids _ _ _ S1)) as (s' & S' & E'); [rewrite (sc_ncpu _ _ _ S1); lia|].
    exists s'. split; [by apply (scanned_app _ _ s1)|]. intros f. cbn [app length Nat.add]. rewrite E1, u32_id by lia. apply E'.
Qed.

(** More processors than [cpus] has room for. *)
Lemma mpinit_loop_overruns e es : 0 <= e -> e + 20 <= 2 ^ 32 -> forall p q s f, 0 <= p < e + 20 -> entries p e es q -> ids_ok s ->
  NCPU < ncpu s + Z.of_nat (length (procs es)) -> mpinit_loop (length es + f) m p e s = Some None.
Proof.
  intros H0 He. induction es as [|en es IH]; intros p q s f Hp H Hi Hn.
  - destruct Hi as (_ & Hi & _). cbn in Hn. lia.
  - destruct H as (Hl & Ha & H). change (en :: es) with ([en] ++ es) in *. unfold procs in Hn. rewrite omap_app, length_app in Hn. fold (procs [en]) (procs es) in Hn.
    destruct (decide (ncpu s + Z.of_nat (length (procs [en])) <= NCPU)) as [Hd|Hd].
    + destruct (entry_step p e en s Hl Ha Hi Hd) as (s1 & S1 & E1).
      assert (Hz : 0 <= p + esize en < e + 20) by (destruct en; cbn [esize]; unfold sizeof_mpproc, sizeof_mpioapic; lia).
      cbn [app length Nat.add]. rewrite E1, u32_id by lia. apply (IH _ q); [done|done|apply (sc_ids _ _ _ S1)|rewrite (sc_ncpu _ _ _ S1); lia].
    + destruct Hi as (_ & Hi & _). destruct en as [a fl|a|]; cbn in Hd; [|lia|lia]. destruct Ha as (H1 & _). cbn [app length Nat.add mpinit_loop].
      rewrite (proj2 (Z.ltb_lt _ _) Hl), H1. cbn [Z.eqb MPPROC]. rewrite (proj2 (Z.leb_le _ _)); [done|].
      destruct (negb (ncpu s =? _)); destruct (negb (Z.land _ _ =? 0)); cbn; lia.
Qed.

(** An entry of an unknown type: the loop does not get past it. *)
Lemma mpinit_loop_stuck f p e s : p < e -> MPLINTR < m p -> mpinit_loop f m p e s = None.
Proof.
  intros Hp Hu. revert s. induction f as [|f IH]; intros s; [done|]. cbn [mpinit_loop]. rewrite (proj2 (Z.ltb_lt _ _) Hp).
  unfold MPPROC, MPIOAPIC, MPBUS, MPIOINTR, MPLINTR in *. rewrite !(proj2 (Z.eqb_neq _ _)) by lia. apply IH.
Qed.

Lemma mpinit_unfold fuel imcr s conf mp : mpconfig m = (conf, mp) -> conf <> 0 -> 0 <= conf ->
  conf + sizeof_mpconf < 2 ^ 32 -> conf + conf_length m conf < 2 ^ 32 ->
  mpinit fuel imcr m s =
    (r ← mpinit_loop fuel m (conf + sizeof_mpconf) (conf + conf_length m conf) (MpState 0 true (ncpu s) (ioapicid s) (conf_lapicaddr m conf) (cpuids s) (ports s));
     match r with
     | None => Some None
     | Some s =>
         if negb (ismp s) then Some (Some (set_ioapicid 0 (set_lapic 0 (set_ncpu 1 s))))
         else if negb (mp_imcrp m mp =? 0) then Some (Some (mp_outb 0x23 (Z.lor imcr 1) (mp_outb 0x22 0x70 s)))
         else Some (Some s)
     end).
Proof.
  intros E Hc H0 H1 H2. unfold mpinit. rewrite E, (proj2 (Z.eqb_neq _ _) Hc).
  rewrite (u32_id (conf + sizeof_mpconf)) by (unfold sizeof_mpconf in *; lia). rewrite (u32_id (conf + conf_length m conf)); [done|].
  pose proof (load2_range (conf + 4)). unfold conf_length in *. lia.
Qed.

(** C40. [mpinit] finds the processors of the machine.  Without a table it
    changes nothing.  With one, the first in the order of the search whose
    signatures, version and sums are right, whose processors are numbered in
    order and fit in [cpus]: [ncpu] is their number, each is entered with its
    number, [bcpu] is the last that is marked as having booted, and the
    addresses of the interrupt controllers are those of the table; when they are
    not in order the kernel goes on with one processor.  With more processors
    than [NCPU] it writes outside of [cpus], and an entry of an unknown type
    makes it loop for ever. *)
Theorem mpinit_spec imcr s0 : length (cpuids s0) = Z.to_nat NCPU -> ncpu s0 = 0 ->
  ((forall conf mp, ~ mp_table m conf mp) -> forall fuel, mpinit fuel imcr m s0 = Some (Some (set_bcpu 0 s0))) /\
  (forall conf mp es q, mp_table m conf mp -> let e := conf + conf_length m conf in let n := Z.of_nat (length (procs es)) in
    conf + sizeof_mpconf < e + 20 -> e + 20 <= 2 ^ 32 -> entries (conf + sizeof_mpconf) e es q ->
    (n <= NCPU -> e <= q -> exists s', (forall fuel, (length es < fuel)%nat -> mpinit fuel imcr m s0 = Some (Some s')) /\
       ismp s' = in_order 0 (procs es) /\
       (ismp s' = false -> ncpu s' = 1 /\ lapic s' = 0 /\ ioapicid s' = 0) /\
       (ismp s' = true -> ncpu s' = n /\ lapic s' = conf_lapicaddr m conf /\ ioapicid s' = default (ioapicid s0) (last (ioapics es)) /\
          mpbcpu s' = default 0 (last (booted 0 (procs es))) /\ (forall i, 0 <= i < n -> cpuids s' !! Z.to_nat i = Some i) /\
          ports s' = ports s0 ++ (if mp_imcrp m mp =? 0 then [] else [(0x22, 0x70); (0x23, u8 (Z.lor imcr 1))]))) /\
    (NCPU < n -> forall fuel, (length es <= fuel)%nat -> mpinit fuel imcr m s0 = Some None) /\
    (n <= NCPU -> q < e -> MPLINTR < m q -> forall fuel, mpinit fuel imcr m s0 = None)).
Proof.
  intros Hlen Hn0. split.
  { intros Hno fuel. unfold mpinit. destruct (mpconfig m) as [conf mp] eqn:E. destruct (Z.eqb_spec conf 0) as [|Hc]; [done|].
    by apply (mpconfig_ok conf mp) in E as ?%Hno. }
  intros conf mp es q Ht e n Hs He Hes. pose proof Ht as (_ & _ & Ec & _ & _ & _ & Hc). apply (proj2 (mpconfig_ok conf mp Hc)) in Ht.
  assert (H0 : 0 <= conf) by (rewrite Ec; apply u32_range). pose proof (load2_range (conf + 4)) as Hl. fold (conf_length m conf) in Hl.
  assert (Hu := fun fuel => mpinit_unfold fuel imcr s0 conf mp Ht Hc H0 ltac:(unfold e in *; lia) ltac:(unfold e in *; lia)). fold e in Hu.
  set (s1 := MpState 0 true (ncpu s0) (ioapicid s0) (conf_lapicaddr m conf) (cpuids s0) (ports s0)) in *.
  assert (Hids : ids_ok s1) by (split; [done|]; cbn; rewrite Hn0; split; [unfold NCPU; lia|lia]).
  assert (Hp : 0 <= conf + sizeof_mpconf < e + 20) by (unfold sizeof_mpconf in *; lia).
  assert (Hn1 : ncpu s1 = 0) by done.
  assert (Hloop : n <= NCPU -> exists s', scanned s1 es s' /\ forall f, mpinit_loop (length es + f) m (conf + sizeof_mpconf) e s1 = mpinit_loop f m q e s').
  { intros Hn. apply mpinit_loop_ok; (done || unfold e; lia || rewrite Hn1; fold n; lia). }
  split; [|split].
  - intros Hn Hq. destruct (Hloop Hn) as (s' & [A1 A2 A3 A4 A5 A6 A7] & E). rewrite Hn1 in *.
    assert (Eend : forall fuel, (length es < fuel)%nat -> mpinit_loop fuel m (conf + sizeof_mpconf) e s1 = Some (Some s')).
    { intros fuel Hf. replace fuel with (length es + S (fuel - S (length es)))%nat by lia. rewrite E. cbn [mpinit_loop].
      by rewrite (proj2 (Z.ltb_ge _ _)) by lia. }
    rewrite (andb_true_l _ : ismp s1 && _ = _) in A2. destruct (ismp s') eqn:Ei; rewrite ?Ei in A2.
    + eexists. split; [intros fuel Hf; rewrite Hu, (Eend fuel Hf); cbn [mbind option_bind]; rewrite Ei; cbn [negb];
        by instantiate (1 := if mp_imcrp m mp =? 0 then s' else mp_outb 0x23 (Z.lor imcr 1) (mp_outb 0x22 0x70 s')); destruct (mp_imcrp m mp =? 0)|].
      destruct A7 as (_ & _ & A7). rewrite Z.add_0_l in A3. fold n in A3. rewrite A3 in A7.
      destruct (mp_imcrp m mp =? 0); cbn [ismp mp_outb]; rewrite ?Ei; (split; [done|]; split; [done|]; intros _);
        unfold mpbcpu; cbn [mp_outb ncpu lapic ioapicid bcpu cpuids ports]; rewrite ?A6, ?app_nil_r, <- ?app_assoc; done.
    + eexists. split; [intros fuel Hf; rewrite Hu, (Eend fuel Hf); cbn [mbind option_bind]; rewrite Ei; cbn [negb]; reflexivity|].
      cbn [ismp set_ioapicid set_lapic set_ncpu]. rewrite Ei. done.
  - intros Hn fuel Hf. rewrite Hu. replace fuel with (length es + (fuel - length es))%nat by lia.
    rewrite (mpinit_loop_overruns e es) with (q := q); (done || unfold e; lia || rewrite ?Hn1; fold n; lia).
  - intros Hn Hq Hty fuel. rewrite Hu. assert (E : mpinit_loop fuel m (conf + sizeof_mpconf) e s1 = None); [|by rewrite E].
    destruct (Hloop Hn) as (s' & _ & E). destruct (decide (fuel <= length es)%nat) as [Hf|Hf].
    + destruct (mpinit_loop fuel m (conf + sizeof_mpconf) e s1) as [r|] eqn:Er; [|done].
      rewrite <- Er. apply (mpinit_loop_mono _ (length es)) in Er; [|done]. specialize (E 0%nat). rewrite Nat.add_0_r in E. change (mpinit_loop 0 m q e s') with (@None (option mpstate)) in E. congruence.
    + replace fuel with (length es + (fuel - length es))%nat by lia. rewrite E. by apply mpinit_loop_stuck.
Qed.

End memory.

End mp.

(** ** A machine with two processors *)

(** The literals at 0x80100000 and 0x80100010, the floating structure in the
    BIOS at 0xf0000, and the table after it. *)
Definition demo_bytes : list (Z * list Z) :=
  [(0x80100000, text_mp); (0x80100010, text_pcmp);
   (0x800f0000, text_mp ++ [0x00; 0x01; 0x0f; 0x00; 1; 4; 0x10; 0; 0x80; 0; 0; 0]);
   (0x800f0100, text_pcmp ++ [100; 0; 4; 0x84] ++ replicate 26 0 ++ [4; 0; 0; 0; 0xe0; 0xfe; 0; 0; 0; 0] ++
      [0; 0; 0x14; 3] ++ replicate 16 0 ++ [0; 1; 0x14; 1] ++ replicate 16 0 ++ [1; 0; 0; 0; 0; 0; 0; 0] ++ [2; 2; 0x11; 1; 0; 0; 0xc0; 0xfe])].

Definition demo_mem : mem := fun a =>
  u8 (foldr (fun '(b, l) r => if (b <=? a) && (a <? b + Z.of_nat (length l)) then default r (l !! Z.to_nat (a - b)) else r) 0 demo_bytes).

Definition demo_mp : mpstate := MpState 0 false 0 0 0 (replicate (Z.to_nat NCPU) 0) [].
Definition demo_entries : list mpentry := [Eproc 0 3; Eproc 1 1; Eother; Eioapic 2].

Lemma demo_table : mp_table demo_mem 0x800f0100 0x800f0000.
Proof. split_and!; [by vm_compute|by vm_compute|by vm_compute|by vm_compute|by right; vm_compute|by vm_compute|done]. Qed.

Lemma mpinit_spec_witness : exists s', mpinit 0x80100000 0x80100010 5 0 demo_mem demo_mp = Some (Some s') /\
  ismp s' = true /\ ncpu s' = 2 /\ ioapicid s' = 2 /\ ports s' = [(0x22, 0x70); (0x23, 1)].
Proof.
  destruct (mpinit_spec 0x80100000 0x80100010 demo_mem) with (imcr := 0) (s0 := demo_mp) as [_ H].
  - intros a. apply u8_range.
  - by vm_compute.
  - by vm_compute.
  - reflexivity.
  - reflexivity.
  - destruct (H 0x800f0100 0x800f0000 demo_entries 0x800f0164 demo_table) as [(s' & E & Hm & _ & Ht) _].
    + by vm_compute.
    + by vm_compute.
    + cbn [entries demo_entries]. split_and!; try (by vm_compute). left. by vm_compute.
    + by vm_compute.
    + by vm_compute.
    + assert (Hi : ismp s' = true) by (rewrite Hm; reflexivity). destruct (Ht Hi) as (H1 & _ & H3 & _ & _ & H6).
      exists s'. split; [apply E; cbn; lia|]. split; [exact Hi|]. split; [rewrite H1; reflexivity|]. split; [rewrite H3; reflexivity|].
      rewrite H6. by vm_compute.
Defined.
