(* ===== verification/Spinlock.v ===== *)
(** * Spin locks (spinlock.c)

    The lock operations on the state of one CPU, and the locks of several
    CPUs as an interleaving of the memory accesses of [acquire] and
    [release]. *)

From stdpp Require Import base numbers list gmap strings relations.
From Stdlib Require Import ZArith Lia.
From S2P Require Import Prelude Kstring Kalloc.

Local Open Scope Z_scope.
Local Open Scope kernel_scope.

(** The fields of [struct cpu] that matter here, and the interrupt flag of
    the CPU's [eflags]. *)
Record cpu : Type := Cpu { ncli : Z; intena : bool; ifl : bool }.

Definition pushcli (c : cpu) : cpu :=
  Cpu (s32 (ncli c + 1)) (if ncli c =? 0 then ifl c else intena c) false.

Definition popcli : M cpu unit := fun c =>
  if ifl c then Panic "popcli - interruptible"
  else
    let n := s32 (ncli c - 1) in
    if n <? 0 then Panic "popcli"
    else Ok tt (Cpu n (intena c) (if (n =? 0) && intena c then true else ifl c)).

(** [struct spinlock]; [lkcpu] is the CPU that holds it. *)
Record spinlock : Type := Lock { lname : string; locked : Z; lkcpu : option nat }.

Definition initlock (name : string) : spinlock := Lock name 0 None.

Definition holding (me : nat) (l : spinlock) : bool :=
  negb (locked l =? 0) && bool_decide (lkcpu l = Some me).

(** [xchg]: the old value and the lock. *)
Definition xchg (v : Z) (l : spinlock) : Z * spinlock := (locked l, Lock (lname l) v (lkcpu l)).

(** [acquire] by CPU [me] of a lock nobody else changes meanwhile; it spins
    for ever ([None]) when another CPU has the lock. *)
Definition acquire (me : nat) : M (cpu * spinlock) (option unit) := fun '(c, l) =>
  let c := pushcli c in
  if holding me l then Panic "acquire"
  else
    let '(old, l) := xchg 1 l in
    if negb (old =? 0) then Ok None (c, l)
    else Ok (Some tt) (c, Lock (lname l) (locked l) (Some me)).

Definition release (me : nat) : M (cpu * spinlock) unit := fun '(c, l) =>
  if negb (holding me l) then Panic "release"
  else
    let l := Lock (lname l) (locked l) None in
    let '(_, l) := xchg 0 l in
    match popcli c with
    | Ok _ c => Ok tt (c, l)
    | Panic msg => Panic msg
    | Sleep w c => Sleep w (c, l)
    end.

(** [getcallerpcs]: the frames from [ebp] on, at most [n]. *)
Fixpoint callers (n : nat) (m : mem) (ebp : Z) : list Z :=
  match n with
  | O => []
  | S n =>
      if (ebp =? 0) || (ebp <? KERNBASE) || (ebp =? 4294967295) then replicate (S n) 0
      else load4 m (ebp + 4) :: callers n m (load4 m ebp)
  end.

Definition getcallerpcs (m : mem) (v : Z) : list Z := callers 10 m (u32 (v - 8)).

(** ** Several CPUs

    The accesses to the lock that one CPU makes, one at a time. *)

Inductive pc : Type :=
| Idle                (** outside *)
| AHold1              (** in [acquire], after [pushcli]: read [locked] *)
| AHold2              (** read [cpu] *)
| AXchg               (** the loop of [xchg] *)
| ASet                (** [lk->cpu = cpu] *)
| Crit                (** between [acquire] and [release] *)
| RHold1              (** in [release]: read [locked] *)
| RHold2              (** read [cpu] *)
| RClear              (** [lk->cpu = 0] *)
| RXchg               (** [xchg(&lk->locked, 0)] *)
| RPop                (** [popcli] *)
| Dead.               (** [panic] *)
#[export] Instance pc_eq_dec : EqDecision pc.
Proof. solve_decision. Defined.

Record sys : Type := Sys { lk : spinlock; cpus : list (pc * cpu) }.

(** The next access of CPU [i]. *)
Definition cpu_step (i : nat) (l : spinlock) (s : pc * cpu) : spinlock * (pc * cpu) :=
  let '(q, c) := s in
  match q with
  | Idle => (l, (AHold1, pushcli c))
  | AHold1 => (l, (if locked l =? 0 then AXchg else AHold2, c))
  | AHold2 => (l, (if bool_decide (lkcpu l = Some i) then Dead else AXchg, c))
  | AXchg => let '(old, l) := xchg 1 l in (l, (if old =? 0 then ASet else AXchg, c))
  | ASet => (Lock (lname l) (locked l) (Some i), (Crit, c))
  | Crit => (l, (RHold1, c))
  | RHold1 => (l, (if locked l =? 0 then Dead else RHold2, c))
  | RHold2 => (l, (if bool_decide (lkcpu l = Some i) then RClear else Dead, c))
  | RClear => (Lock (lname l) (locked l) None, (RXchg, c))
  | RXchg => let '(_, l) := xchg 0 l in (l, (RPop, c))
  | RPop => match popcli c with Ok _ c => (l, (Idle, c)) | _ => (l, (Dead, c)) end
  | Dead => (l, (Dead, c))
  end.

Definition step_at (i : nat) (s : sys) : sys :=
  match cpus s !! i with
  | Some x => let '(l, x) := cpu_step i (lk s) x in Sys l (<[i := x]> (cpus s))
  | None => s
  end.

Inductive sstep : sys -> sys -> Prop := SStep i s : sstep s (step_at i s).

(** All CPUs idle with interrupts on, the lock free. *)
Definition sys0 (n : nat) : sys := Sys (initlock "lock") (replicate n (Idle, Cpu 0 false true)).

(** ** Invariant *)

(** CPU [i] has the lock. *)
Definition has (q : pc) : bool :=
  match q with ASet | Crit | RHold1 | RHold2 | RClear | RXchg => true | _ => false end.

(** What a CPU at [q] knows of [lk->cpu]. *)
Definition cpu_ok (i : nat) (l : spinlock) (x : pc * cpu) : Prop :=
  match x.1 with
  | Idle => (ncli x.2 = 0 /\ ifl x.2 = true) /\ lkcpu l <> Some i
  | Crit | RHold1 | RHold2 | RClear => x.2 = Cpu 1 true false /\ lkcpu l = Some i
  | Dead => False
  | _ => x.2 = Cpu 1 true false /\ lkcpu l <> Some i
  end.

Record sinv (s : sys) : Prop := {
  si_cpu i x : cpus s !! i = Some x -> cpu_ok i (lk s) x;
  si_one i j x y : cpus s !! i = Some x -> cpus s !! j = Some y -> has x.1 = true -> has y.1 = true -> i = j;
  si_lock : locked (lk s) <> 0 <-> exists i x, cpus s !! i = Some x /\ has x.1 = true
}.

Lemma sinv_init n : sinv (sys0 n).
Proof.
  split.
  - intros i x [-> _]%lookup_replicate. by split.
  - intros i j x y [-> _]%lookup_replicate _ H. discriminate H.
  - split; [done|]. intros (i & x & [-> _]%lookup_replicate & H). discriminate H.
Qed.

(** The other CPUs' knowledge survives a step of CPU [i]. *)
Lemma cpu_ok_other i j l l' y : j <> i -> lkcpu l' = lkcpu l \/ lkcpu l <> Some j /\ lkcpu l' = Some i \/
  lkcpu l = Some i /\ lkcpu l' = None -> cpu_ok j l y -> cpu_ok j l' y.
Proof.
  intros Hij Hl. unfold cpu_ok. destruct y as [q c]. cbn [fst snd].
  destruct Hl as [->|[[H1 H2]|[H1 H2]]]; [done|..]; destruct q; rewrite ?H1, ?H2; intuition congruence.
Qed.

Lemma sinv_upd s i x l' x' : sinv s -> cpus s !! i = Some x -> cpu_ok i l' x' ->
  lkcpu l' = lkcpu (lk s) \/ (forall j y, j <> i -> cpus s !! j = Some y -> lkcpu (lk s) <> Some j) /\ lkcpu l' = Some i \/
    lkcpu (lk s) = Some i /\ lkcpu l' = None ->
  has x'.1 = has x.1 /\ (locked l' <> 0 <-> locked (lk s) <> 0) \/
    has x'.1 = true /\ locked (lk s) = 0 /\ locked l' <> 0 \/
    has x.1 = true /\ has x'.1 = false /\ locked l' = 0 ->
  sinv (Sys l' (<[i := x']> (cpus s))).
Proof.
  intros [H1 H2 H3] Hi Hok Hl Hh.
  assert (Hlk : forall j y, <[i := x']> (cpus s) !! j = Some y -> j = i /\ y = x' \/ j <> i /\ cpus s !! j = Some y).
  { intros j y. destruct (decide (j = i)) as [->|Hj]; [|rewrite list_lookup_insert_ne by done; auto].
    rewrite list_lookup_insert_eq by (by eapply lookup_lt_Some). intros [= <-]. by left. }
  assert (Hme : <[i := x']> (cpus s) !! i = Some x') by (apply list_lookup_insert_eq; by eapply lookup_lt_Some).
  assert (Hfree : locked (lk s) = 0 -> forall j y, cpus s !! j = Some y -> has y.1 = true -> False).
  { intros H0 j y Hj Hy. assert (locked (lk s) <> 0) by (apply H3; eauto). done. }
  split; cbn [lk cpus].
  - intros j y [[-> ->]|[Hj Hy]]%Hlk; [done|]. apply (cpu_ok_other i j (lk s)); [done| |by apply H1].
    destruct Hl as [?|[[Hl ?]|?]]; [by left|right; left; split; [by eapply Hl|done]|by right; right].
  - intros j j' y y' [[-> ->]|[Hj Hy]]%Hlk [[-> ->]|[Hj' Hy']]%Hlk Hq Hq'; [done|..];
      destruct Hh as [[Hh _]|[(_ & Hh & _)|(Hx & Hh & _)]]; try congruence;
      try (exfalso; by eapply Hfree); try (by eapply H2; eauto; congruence).
  - split.
    + intros Hn. destruct Hh as [[Hh Hiff]|[(Hh & _)|(_ & _ & Hh)]]; [|by exists i, x'|done].
      apply Hiff, H3 in Hn as (j & y & Hj & Hy). destruct (decide (j = i)) as [->|Hne].
      * exists i, x'. split; [done|]. congruence.
      * exists j, y. by rewrite list_lookup_insert_ne.
    + intros (j & y & Hj & Hy). destruct Hh as [[Hh Hiff]|[(_ & _ & ?)|(Hx & Hh & _)]]; [|done|].
      * apply Hiff, H3. apply Hlk in Hj as [[-> ->]|[Hj Hy']]; [exists i, x|exists j, y]; split; try done. congruence.
      * exfalso. apply Hlk in Hj as [[-> ->]|[Hj Hy']]; [congruence|]. apply Hj. by eapply H2.
Qed.

Lemma sinv_step s i : sinv s -> sinv (step_at i s).
Proof.
  intros Hs. unfold step_at. destruct (cpus s !! i) as [[q c]|] eqn:Ei; [|done].
  pose proof (si_cpu _ Hs _ _ Ei) as Hok. pose proof (si_lock _ Hs) as Hlk.
  assert (Hown : forall j y, j <> i -> cpus s !! j = Some y -> locked (lk s) = 0 \/ has q = true ->
    lkcpu (lk s) <> Some j).
  { intros j [q' c'] Hne Hj Hc Hcpu. pose proof (si_cpu _ Hs _ _ Hj) as Hj'.
    assert (has q' = true) by (unfold cpu_ok in Hj'; cbn [fst snd] in Hj'; destruct q'; naive_solver).
    destruct Hc as [H0|Hq]; [by apply Hlk; eauto|]. apply Hne. by eapply (si_one _ Hs j i). }
  assert (Hmine : has q = true -> locked (lk s) <> 0) by (intros; apply Hlk; by exists i, (q, c)).
  destruct q; cbn [cpu_step xchg]; unfold cpu_ok in Hok; cbn [fst snd has] in *; destruct Hok as [Hc Hme] || done.
  - destruct Hc as [Hn Hi]. apply (sinv_upd s i (Idle, c)); try done; [|by left|by left].
    unfold cpu_ok, pushcli. cbn [fst snd]. rewrite Hn, Hi. done.
  - destruct (Z.eqb_spec (locked (lk s)) 0); apply (sinv_upd s i (AHold1, c)); (done || by left).
  - rewrite bool_decide_eq_false_2 by done. apply (sinv_upd s i (AHold2, c)); (done || by left).
  - destruct (Z.eqb_spec (locked (lk s)) 0); apply (sinv_upd s i (AXchg, c)); try done; try (by left);
      right; by left.
  - apply (sinv_upd s i (ASet, c)); try done; [|by left]. right. left. split; [|done]. intros j y Hne Hj. eapply Hown; eauto.
  - apply (sinv_upd s i (Crit, c)); (done || by left).
  - destruct (Z.eqb_spec (locked (lk s)) 0); [by destruct Hmine|]. apply (sinv_upd s i (RHold1, c)); (done || by left).
  - rewrite bool_decide_eq_true_2 by done. apply (sinv_upd s i (RHold2, c)); (done || by left).
  - apply (sinv_upd s i (RClear, c)); try done; [right; by right|by left].
  - apply (sinv_upd s i (RXchg, c)); try done; [by left|]. right. by right.
  - subst c. apply (sinv_upd s i (RPop, Cpu 1 true false)); (done || by left).
Qed.

Lemma sinv_rtc s s' : rtc sstep s s' -> sinv s -> sinv s'.
Proof. induction 1 as [|x y z [i w] _ IH]; [done|]. intros H. by apply IH, sinv_step. Qed.

Lemma sinv_reach n s : rtc sstep (sys0 n) s -> sinv s.
Proof. intros H. by apply (sinv_rtc _ _ H), sinv_init. Qed.

Lemma cpus_length s s' : rtc sstep s s' -> length (cpus s') = length (cpus s).
Proof.
  induction 1 as [|x y z [j w] _ IH]; [done|]. rewrite IH. unfold step_at. destruct (cpus w !! j) as [y'|]; [|done].
  destruct (cpu_step j (lk w) y'). cbn [cpus]. by rewrite length_insert.
Qed.

(** ** Progress *)

(** The accesses left up to the release of the lock, and up to [Crit]. *)
Definition to_release (q : pc) : nat :=
  match q with ASet => 6 | Crit => 5 | RHold1 => 4 | RHold2 => 3 | RClear => 2 | RXchg => 1 | _ => 0 end.
Definition to_crit (q : pc) : nat :=
  match q with RPop => 6 | Idle => 5 | AHold1 => 4 | AHold2 => 3 | AXchg => 2 | ASet => 1 | _ => 0 end.

Lemma step_at_other i j s : i <> j -> cpus (step_at i s) !! j = cpus s !! j.
Proof.
  intros Hne. unfold step_at. destruct (cpus s !! i) as [x|]; [|done].
  destruct (cpu_step i (lk s) x). cbn [cpus]. by rewrite list_lookup_insert_ne.
Qed.

(** The CPU that has the lock releases it, if it runs. *)
Lemma releases n : forall s i q c, sinv s -> cpus s !! i = Some (q, c) -> to_release q = n -> has q = true ->
  exists s', rtc sstep s s' /\ sinv s' /\ locked (lk s') = 0 /\ forall j, j <> i -> cpus s' !! j = cpus s !! j.
Proof.
  induction n as [|n IH]; intros s i q c Hs Hi Hn Hq; [by destruct q|].
  pose proof (sinv_step s i Hs) as Hs'. pose proof (si_cpu _ Hs _ _ Hi) as Hok.
  assert (Hst : step_at i s = let '(l, x) := cpu_step i (lk s) (q, c) in Sys l (<[i := x]> (cpus s)))
    by (unfold step_at; by rewrite Hi).
  assert (Hlt : (i < length (cpus s))%nat) by (by eapply lookup_lt_Some).
  assert (Hlk : locked (lk s) <> 0) by (apply (si_lock _ Hs); by exists i, (q, c)).
  assert (Hcase : locked (lk (step_at i s)) = 0 \/ exists q' c', cpus (step_at i s) !! i = Some (q', c') /\
    to_release q' = n /\ has q' = true).
  { rewrite Hst. destruct q; try done; cbn [cpu_step xchg to_release] in *; unfold cpu_ok in Hok; cbn [fst snd] in Hok;
      destruct Hok as [Hc Hme]; try (rewrite bool_decide_eq_true_2 by done);
      try (destruct (Z.eqb_spec (locked (lk s)) 0); [done|]); cbn [lk cpus locked]; try (by left);
      right; eexists _, _; (split; [by apply list_lookup_insert_eq|]); (split; [cbn; lia|done]). }
  destruct Hcase as [H0|(q' & c' & Hi' & Hn' & Hq')].
  - exists (step_at i s). split_and!; [by apply rtc_once|done|done|]. intros j Hj. by apply step_at_other.
  - destruct (IH _ i q' c' Hs' Hi' Hn' Hq') as (s' & H1 & H2 & H3 & H4). exists s'. split_and!; try done.
    + eapply rtc_l; [constructor|done].
    + intros j Hj. rewrite H4 by done. by apply step_at_other.
Qed.

(** A CPU that runs alone gets a free lock. *)
Lemma acquires n : forall s i q c, sinv s -> cpus s !! i = Some (q, c) -> (to_crit q <= n)%nat ->
  q = Crit \/ q = ASet \/ has q = false /\ locked (lk s) = 0 ->
  exists s' c', rtc sstep s s' /\ cpus s' !! i = Some (Crit, c').
Proof.
  induction n as [|n IH]; intros s i q c Hs Hi Hn Hl; pose proof (si_cpu _ Hs _ _ Hi) as Hok.
  { exists s, c. split; [done|]. destruct q; cbn in *; naive_solver lia. }
  destruct (decide (q = Crit)) as [->|Hnc]; [by exists s, c|].
  assert (Hst : step_at i s = let '(l, x) := cpu_step i (lk s) (q, c) in Sys l (<[i := x]> (cpus s)))
    by (unfold step_at; by rewrite Hi).
  assert (Hlt : (i < length (cpus s))%nat) by (by eapply lookup_lt_Some).
  assert (Hcase : exists q' c', cpus (step_at i s) !! i = Some (q', c') /\ (to_crit q' <= n)%nat /\
    (q' = Crit \/ q' = ASet \/ has q' = false /\ locked (lk (step_at i s)) = 0)).
  { rewrite Hst. destruct Hl as [->|[->|[Hq Hl]]]; [done| |]; unfold cpu_ok in Hok; cbn [fst snd] in Hok.
    - eexists _, _. split; [by apply list_lookup_insert_eq|]. cbn. auto with lia.
    - destruct q; try done; destruct Hok as [Hc Hme]; cbn [cpu_step xchg to_crit] in *; rewrite ?Hc, ?Hl;
        try (rewrite bool_decide_eq_false_2 by done); cbn; eexists _, _;
        (split; [by apply list_lookup_insert_eq|]); cbn; auto with lia. }
  destruct Hcase as (q' & c' & Hi' & Hn' & Hq').
  destruct (IH _ i q' c' (sinv_step s i Hs) Hi' Hn' Hq') as (s' & c2 & H1 & H2). exists s', c2. split; [|done].
  eapply rtc_l; [constructor|done].
Qed.

(** ** The promises of the locks *)

(** C25. However the CPUs interleave, at most one of them is between
    [acquire] and [release] of a lock; it has its interrupts off, [holding]
    is true for it and false for every other CPU, and no check of the lock
    code panics. *)
Theorem spin_exclusion n s : rtc sstep (sys0 n) s ->
  (forall i x, cpus s !! i = Some x -> x.1 <> Dead) /\
  forall i c, cpus s !! i = Some (Crit, c) -> ifl c = false /\ holding i (lk s) = true /\
    forall j y, cpus s !! j = Some y -> j <> i -> y.1 <> Crit /\ holding j (lk s) = false.
Proof.
  intros Hs%sinv_reach. split.
  - intros i [q c] Hi. pose proof (si_cpu _ Hs _ _ Hi) as Hok. by destruct q.
  - intros i c Hi. pose proof (si_cpu _ Hs _ _ Hi) as [Hc Hl]. cbn [snd] in Hc. subst c. split; [done|].
    assert (Hlk : locked (lk s) <> 0) by (apply (si_lock _ Hs); by exists i, (Crit, Cpu 1 true false)).
    unfold holding. rewrite (proj2 (Z.eqb_neq _ _) Hlk), Hl. split; [by rewrite bool_decide_eq_true_2|].
    intros j y Hj Hne. split.
    + intros Hy. apply Hne, (si_one _ Hs j i y (Crit, Cpu 1 true false)); [done|done| |done]. by rewrite Hy.
    + cbn. apply bool_decide_eq_false_2. congruence.
Qed.

(** C26. From every reachable state, every CPU can still come to hold the
    lock: the lock code never deadlocks. *)
Theorem spin_progress n s i : rtc sstep (sys0 n) s -> (i < n)%nat ->
  exists s' c, rtc sstep s s' /\ cpus s' !! i = Some (Crit, c).
Proof.
  intros Hr Hi. pose proof (sinv_reach _ _ Hr) as Hs.
  assert (Hcpu : forall s1, rtc sstep (sys0 n) s1 -> exists q c, cpus s1 !! i = Some (q, c)).
  { intros s1 H1. destruct (lookup_lt_is_Some_2 (cpus s1) i) as [[q c] ?]; [|by exists q, c].
    rewrite (cpus_length _ _ H1). cbn [cpus sys0]. by rewrite length_replicate. }
  destruct (Hcpu s Hr) as (q & c & Hq).
  assert (Hfree : forall s1 q1 c1, sinv s1 -> cpus s1 !! i = Some (q1, c1) -> locked (lk s1) = 0 ->
    exists s' c, rtc sstep s1 s' /\ cpus s' !! i = Some (Crit, c)).
  { intros s1 q1 c1 H1 H2 H3. apply (acquires 6 s1 i q1 c1); try done; [destruct q1; cbn; lia|].
    right. right. split; [|done]. destruct (has q1) eqn:E; [|done]. exfalso.
    assert (locked (lk s1) <> 0); [|done]. apply (si_lock _ H1). by exists i, (q1, c1). }
  destruct (decide (locked (lk s) = 0)) as [H0|H0]; [by eapply Hfree|].
  apply (si_lock _ Hs) in H0 as (j & [q' c'] & Hj & Hh).
  destruct (releases _ s j q' c' Hs Hj eq_refl Hh) as (s1 & R1 & R2 & R3 & R4).
  destruct (Hcpu s1) as (q1 & c1 & Hi1); [by etransitivity|].
  destruct (Hfree s1 q1 c1 R2 Hi1 R3) as (s' & c2 & H1 & H2). exists s', c2. split; [by etransitivity|done].
Qed.

(** Two CPUs: the first has the lock while the second spins. *)
Lemma demo_reach l : rtc sstep (sys0 2) (foldl (fun s i => step_at i s) (sys0 2) l).
Proof. generalize (sys0 2). induction l as [|i l IH]; intros s; [done|]. eapply rtc_l; [constructor|apply IH]. Qed.

Definition demo_sys : sys := foldl (fun s i => step_at i s) (sys0 2) [0; 0; 0; 0; 1; 1; 1; 1]%nat.

Lemma spin_exclusion_witness : cpus demo_sys !! 0%nat = Some (Crit, Cpu 1 true false) /\ holding 0 (lk demo_sys) = true /\
  holding 1 (lk demo_sys) = false.
Proof.
  destruct (spin_exclusion 2 demo_sys (demo_reach _)) as [_ H].
  destruct (H 0%nat (Cpu 1 true false) eq_refl) as (_ & H1 & H2). split; [reflexivity|]. split; [exact H1|].
  apply (H2 1%nat (AXchg, Cpu 1 true false)); [reflexivity|lia].
Defined.

Lemma spin_progress_witness : exists s' c, rtc sstep demo_sys s' /\ cpus s' !! 1%nat = Some (Crit, c).
Proof. apply (spin_progress 2 demo_sys 1); [apply demo_reach|lia]. Defined.
