(* ===== verification/Kernel.v ===== *)
(** * The kernel state and the process table

    The state the code above the file system works on: the open files
    (file.h), the pipes, the process table (proc.h), the memory of the page
    allocator, the clock and the console; and the operations on one entry of
    the process table that the other files use: [wakeup], and access to the
    current process's memory. *)

From stdpp Require Import base numbers list gmap strings.
From Stdlib Require Import ZArith Lia.
From S2P Require Import Prelude Disk Bio Log Blk Kstring Ring Console Pipe Kalloc Fs Vm Spinlock.

Local Open Scope Z_scope.
Local Open Scope prog_scope.

Definition NPROC : nat := 64.
Definition NOFILE : nat := 16.
Definition NFILE : nat := 100.
Definition KSTACKSIZE : Z := 4096.
Definition MAXARG : nat := 32.

(** [struct file]; [ip] is an index into the inode cache, [fpipe] the address
    of the pipe's page. *)
Inductive fdtype : Type := FD_NONE | FD_PIPE | FD_INODE.
Record file : Type := File {
  ftype : fdtype; fref : Z; readable : bool; writable : bool; fpipe : Z; fip : nat; foff : Z
}.

Inductive procstate : Type := UNUSED | EMBRYO | SLEEPING | RUNNABLE | RUNNING | ZOMBIE.
#[export] Instance procstate_eq_dec : EqDecision procstate.
Proof. solve_decision. Defined.

(** [struct proc].  A [struct proc *] is an index into the process table, a
    [struct file *] one into the file table; [tf] and [context] are addresses
    in the kernel stack. *)
Record proc : Type := Proc {
  sz : Z;
  pgdir : Z;
  kstack : Z;
  state : procstate;
  pid : Z;
  parent : option nat;
  tf : Z;
  context : Z;
  chan : option wchan;
  killed : bool;
  ofile : list (option nat);
  cwd : option nat;
  name : list Z;
  alarmticks : Z;
  alarmticked : Z;
  alarmhandler : Z
}.

Definition set_sz (x : Z) (p : proc) : proc :=
  Proc x (pgdir p) (kstack p) (state p) (pid p) (parent p) (tf p) (context p) (chan p) (killed p) (ofile p) (cwd p) (name p) (alarmticks p) (alarmticked p) (alarmhandler p).
Definition set_pgdir (x : Z) (p : proc) : proc :=
  Proc (sz p) x (kstack p) (state p) (pid p) (parent p) (tf p) (context p) (chan p) (killed p) (ofile p) (cwd p) (name p) (alarmticks p) (alarmticked p) (alarmhandler p).
Definition set_kstack (x : Z) (p : proc) : proc :=
  Proc (sz p) (pgdir p) x (state p) (pid p) (parent p) (tf p) (context p) (chan p) (killed p) (ofile p) (cwd p) (name p) (alarmticks p) (alarmticked p) (alarmhandler p).
Definition set_state (x : procstate) (p : proc) : proc :=
  Proc (sz p) (pgdir p) (kstack p) x (pid p) (parent p) (tf p) (context p) (chan p) (killed p) (ofile p) (cwd p) (name p) (alarmticks p) (alarmticked p) (alarmhandler p).
Definition set_pid (x : Z) (p : proc) : proc :=
  Proc (sz p) (pgdir p) (kstack p) (state p) x (parent p) (tf p) (context p) (chan p) (killed p) (ofile p) (cwd p) (name p) (alarmticks p) (alarmticked p) (alarmhandler p).
Definition set_parent (x : option nat) (p : proc) : proc :=
  Proc (sz p) (pgdir p) (kstack p) (state p) (pid p) x (tf p) (context p) (chan p) (killed p) (ofile p) (cwd p) (name p) (alarmticks p) (alarmticked p) (alarmhandler p).
Definition set_tf (x : Z) (p : proc) : proc :=
  Proc (sz p) (pgdir p) (kstack p) (state p) (pid p) (parent p) x (context p) (chan p) (killed p) (ofile p) (cwd p) (name p) (alarmticks p) (alarmticked p) (alarmhandler p).
Definition set_context (x : Z) (p : proc) : proc :=
  Proc (sz p) (pgdir p) (kstack p) (state p) (pid p) (parent p) (tf p) x (chan p) (killed p) (ofile p) (cwd p) (name p) (alarmticks p) (alarmticked p) (alarmhandler p).
Definition set_chan (x : option wchan) (p : proc) : proc :=
  Proc (sz p) (pgdir p) (kstack p) (state p) (pid p) (parent p) (tf p) (context p) x (killed p) (ofile p) (cwd p) (name p) (alarmticks p) (alarmticked p) (alarmhandler p).
Definition set_killed (x : bool) (p : proc) : proc :=
  Proc (sz p) (pgdir p) (kstack p) (state p) (pid p) (parent p) (tf p) (context p) (chan p) x (ofile p) (cwd p) (name p) (alarmticks p) (alarmticked p) (alarmhandler p).
Definition set_ofile (x : list (option nat)) (p : proc) : proc :=
  Proc (sz p) (pgdir p) (kstack p) (state p) (pid p) (parent p) (tf p) (context p) (chan p) (killed p) x (cwd p) (name p) (alarmticks p) (alarmticked p) (alarmhandler p).
Definition set_cwd (x : option nat) (p : proc) : proc :=
  Proc (sz p) (pgdir p) (kstack p) (state p) (pid p) (parent p) (tf p) (context p) (chan p) (killed p) (ofile p) x (name p) (alarmticks p) (alarmticked p) (alarmhandler p).
Definition set_name (x : list Z) (p : proc) : proc :=
  Proc (sz p) (pgdir p) (kstack p) (state p) (pid p) (parent p) (tf p) (context p) (chan p) (killed p) (ofile p) (cwd p) x (alarmticks p) (alarmticked p) (alarmhandler p).
Definition set_alarmticks (x : Z) (p : proc) : proc :=
  Proc (sz p) (pgdir p) (kstack p) (state p) (pid p) (parent p) (tf p) (context p) (chan p) (killed p) (ofile p) (cwd p) (name p) x (alarmticked p) (alarmhandler p).
Definition set_alarmticked (x : Z) (p : proc) : proc :=
  Proc (sz p) (pgdir p) (kstack p) (state p) (pid p) (parent p) (tf p) (context p) (chan p) (killed p) (ofile p) (cwd p) (name p) (alarmticks p) x (alarmhandler p).
Definition set_alarmhandler (x : Z) (p : proc) : proc :=
  Proc (sz p) (pgdir p) (kstack p) (state p) (pid p) (parent p) (tf p) (context p) (chan p) (killed p) (ofile p) (cwd p) (name p) (alarmticks p) (alarmticked p) x.

Definition proc0 : proc := Proc 0 0 0 UNUSED 0 None 0 0 None false (replicate NOFILE None) None (replicate 16 0) 0 0 0.
Definition file0 : file := File FD_NONE 0 false false 0 0 0.

(** The spin locks that [sleep] is called with, of proc.c, trap.c, pipe.c,
    console.c, log.c, fs.c, ide.c and bio.c. *)
Inductive lockid : Type :=
| PtableLock | TicksLock | PipeLock (p : Z) | InputLock | LogLock | IcacheLock | IdeLock | BcacheLock.
#[export] Instance lockid_eq_dec : EqDecision lockid.
Proof. solve_decision. Defined.
#[export] Instance lockid_countable : Countable lockid.
Proof.
  refine (inj_countable' (fun l => match l with
    | PtableLock => inl 0%nat | TicksLock => inl 1%nat | PipeLock p => inr p | InputLock => inl 2%nat
    | LogLock => inl 3%nat | IcacheLock => inl 4%nat | IdeLock => inl 5%nat | BcacheLock => inl 6%nat end)
    (fun x => match x with
    | inl 0%nat => PtableLock | inl 1%nat => TicksLock | inr p => PipeLock p | inl 2%nat => InputLock
    | inl 3%nat => LogLock | inl 4%nat => IcacheLock | inl 5%nat => IdeLock | inl _ => BcacheLock end) _).
  by intros [].
Defined.

(** [ptlock] is [ptable.lock]; [cpuid], [kcpu] and [cur] are the number of
    the CPU that runs, its interrupt state and its process ([cpu->id], [cpu]
    and [proc] in the code); [kshift] is [shift] of [kbdgetc], [first] the
    flag of [forkret]; [klocks] has the other locks that have been used, and
    [kport] what was written to I/O ports, the last write first. *)
Record kernel : Type := Kernel {
  ftable : list file;
  pipes : gmap Z pipe;
  ptable : list proc;
  ptlock : spinlock;
  nextpid : Z;
  initproc : option nat;
  cpuid : nat;
  kcpu : cpu;
  cur : option nat;
  kmm : kmem;
  ticks : Z;
  kcons : console;
  kshift : Z;
  first : bool;
  klocks : gmap lockid spinlock;
  kport : list (Z * Z)
}.

Definition set_ftable (x : list file) (k : kernel) : kernel :=
  Kernel x (pipes k) (ptable k) (ptlock k) (nextpid k) (initproc k) (cpuid k) (kcpu k) (cur k) (kmm k) (ticks k) (kcons k) (kshift k) (first k) (klocks k) (kport k).
Definition set_pipes (x : gmap Z pipe) (k : kernel) : kernel :=
  Kernel (ftable k) x (ptable k) (ptlock k) (nextpid k) (initproc k) (cpuid k) (kcpu k) (cur k) (kmm k) (ticks k) (kcons k) (kshift k) (first k) (klocks k) (kport k).
Definition set_ptable (x : list proc) (k : kernel) : kernel :=
  Kernel (ftable k) (pipes k) x (ptlock k) (nextpid k) (initproc k) (cpuid k) (kcpu k) (cur k) (kmm k) (ticks k) (kcons k) (kshift k) (first k) (klocks k) (kport k).
Definition set_ptlock (x : spinlock) (k : kernel) : kernel :=
  Kernel (ftable k) (pipes k) (ptable k) x (nextpid k) (initproc k) (cpuid k) (kcpu k) (cur k) (kmm k) (ticks k) (kcons k) (kshift k) (first k) (klocks k) (kport k).
Definition set_nextpid (x : Z) (k : kernel) : kernel :=
  Kernel (ftable k) (pipes k) (ptable k) (ptlock k) x (initproc k) (cpuid k) (kcpu k) (cur k) (kmm k) (ticks k) (kcons k) (kshift k) (first k) (klocks k) (kport k).
Definition set_initproc (x : option nat) (k : kernel) : kernel :=
  Kernel (ftable k) (pipes k) (ptable k) (ptlock k) (nextpid k) x (cpuid k) (kcpu k) (cur k) (kmm k) (ticks k) (kcons k) (kshift k) (first k) (klocks k) (kport k).
Definition set_cpuid (x : nat) (k : kernel) : kernel :=
  Kernel (ftable k) (pipes k) (ptable k) (ptlock k) (nextpid k) (initproc k) x (kcpu k) (cur k) (kmm k) (ticks k) (kcons k) (kshift k) (first k) (klocks k) (kport k).
Definition set_kcpu (x : cpu) (k : kernel) : kernel :=
  Kernel (ftable k) (pipes k) (ptable k) (ptlock k) (nextpid k) (initproc k) (cpuid k) x (cur k) (kmm k) (ticks k) (kcons k) (kshift k) (first k) (klocks k) (kport k).
Definition set_cur (x : option nat) (k : kernel) : kernel :=
  Kernel (ftable k) (pipes k) (ptable k) (ptlock k) (nextpid k) (initproc k) (cpuid k) (kcpu k) x (kmm k) (ticks k) (kcons k) (kshift k) (first k) (klocks k) (kport k).
Definition set_kmm (x : kmem) (k : kernel) : kernel :=
  Kernel (ftable k) (pipes k) (ptable k) (ptlock k) (nextpid k) (initproc k) (cpuid k) (kcpu k) (cur k) x (ticks k) (kcons k) (kshift k) (first k) (klocks k) (kport k).
Definition set_ticks (x : Z) (k : kernel) : kernel :=
  Kernel (ftable k) (pipes k) (ptable k) (ptlock k) (nextpid k) (initproc k) (cpuid k) (kcpu k) (cur k) (kmm k) x (kcons k) (kshift k) (first k) (klocks k) (kport k).
Definition set_kcons (x : console) (k : kernel) : kernel :=
  Kernel (ftable k) (pipes k) (ptable k) (ptlock k) (nextpid k) (initproc k) (cpuid k) (kcpu k) (cur k) (kmm k) (ticks k) x (kshift k) (first k) (klocks k) (kport k).
Definition set_kshift (x : Z) (k : kernel) : kernel :=
  Kernel (ftable k) (pipes k) (ptable k) (ptlock k) (nextpid k) (initproc k) (cpuid k) (kcpu k) (cur k) (kmm k) (ticks k) (kcons k) x (first k) (klocks k) (kport k).
Definition set_first (x : bool) (k : kernel) : kernel :=
  Kernel (ftable k) (pipes k) (ptable k) (ptlock k) (nextpid k) (initproc k) (cpuid k) (kcpu k) (cur k) (kmm k) (ticks k) (kcons k) (kshift k) x (klocks k) (kport k).
Definition set_klocks (x : gmap lockid spinlock) (k : kernel) : kernel :=
  Kernel (ftable k) (pipes k) (ptable k) (ptlock k) (nextpid k) (initproc k) (cpuid k) (kcpu k) (cur k) (kmm k) (ticks k) (kcons k) (kshift k) (first k) x (kport k).
Definition set_kport (x : list (Z * Z)) (k : kernel) : kernel :=
  Kernel (ftable k) (pipes k) (ptable k) (ptlock k) (nextpid k) (initproc k) (cpuid k) (kcpu k) (cur k) (kmm k) (ticks k) (kcons k) (kshift k) (first k) (klocks k) x.

Definition upd_proc (i : nat) (f : proc -> proc) (k : kernel) : kernel := set_ptable (alter f i (ptable k)) k.
Definition upd_file (i : nat) (f : file -> file) (k : kernel) : kernel := set_ftable (alter f i (ftable k)) k.
Definition the_proc (k : kernel) (i : nat) : proc := default proc0 (ptable k !! i).
Definition the_file (k : kernel) (i : nat) : file := default file0 (ftable k !! i).
Definition myproc (k : kernel) : proc := default proc0 (i ← cur k; ptable k !! i).

(** ** Programs of the kernel *)

Local Abbreviation P := (prog (fsk kernel)).

Definition kgets {A} (f : kernel -> A) : P A := Get (fun k => Ret (f (ext k))).
Definition kmod (f : kernel -> kernel) : P unit := pmodify (fun k => FsK (icache k) (f (ext k))).
Definition upd_cur (f : proc -> proc) : P unit :=
  kmod (fun k => match cur k with Some i => upd_proc i f k | None => k end).

(** An operation of the page allocator or on page tables. *)
Definition on_mem {A} (m : M kmem A) : P A :=
  Get (fun k =>
    match m (kmm (ext k)) with
    | Ok a s => Put (FsK (icache k) (set_kmm s (ext k))) (Ret a)
    | Panic msg => PPanic msg
    | Sleep c s => Put (FsK (icache k) (set_kmm s (ext k))) (PSleep c)
    end).

(** ** Locks *)

Definition get_lock (l : lockid) (k : kernel) : spinlock :=
  if bool_decide (l = PtableLock) then ptlock k else default (initlock "") (klocks k !! l).
Definition set_lock (l : lockid) (x : spinlock) (k : kernel) : kernel :=
  if bool_decide (l = PtableLock) then set_ptlock x k else set_klocks (<[l := x]> (klocks k)) k.

(** An operation of spinlock.c by the CPU that runs. *)
Definition on_lock {A} (l : lockid) (m : nat -> M (cpu * spinlock) A) : P A :=
  Get (fun k =>
    let e := ext k in
    match m (cpuid e) (kcpu e, get_lock l e) with
    | Ok a (c, x) => Put (FsK (icache k) (set_kcpu c (set_lock l x e))) (Ret a)
    | Panic msg => PPanic msg
    | Sleep w _ => PSleep w
    end).

(** [acquire(lk)] and [release(lk)]; a CPU that spins makes no step. *)
Definition acquire_lk (l : lockid) : P unit :=
  let! r := on_lock l acquire in match r with Some _ => Ret tt | None => PPanic "spinning" end.
Definition release_lk (l : lockid) : P unit := on_lock l release.

(** ** Waking up *)

Definition wake (c : wchan) (p : proc) : proc :=
  if bool_decide (state p = SLEEPING) && bool_decide (chan p = Some c) then set_state RUNNABLE p else p.
Definition wakeup1 (c : wchan) (l : list proc) : list proc := wake c <$> l.
(** [wakeup], which takes [ptable.lock] around [wakeup1], as one change of the
    table. *)
Definition wakeup (c : wchan) : P unit := kmod (fun k => set_ptable (wakeup1 c (ptable k)) k).

(** ** The current process's memory

    The kernel reads and writes user addresses through the page table of the
    current process.  A page that is not there makes a page fault, whose
    handler (trap.c, [T_PGFLT]) adds a page and lets the access go on. *)

(** The place in memory of a virtual address under [pg]. *)
Definition vaddr (m : mem) (pg va : Z) : Z :=
  if va <? KERNBASE then frame m pg va + va mod PGSIZE else va.

(** [T_PGFLT]: the result of [kalloc] is not checked; when it is 0 the page
    at the process's address 0 is cleared. *)
Definition pgfault (va : Z) : P unit :=
  let! pg := kgets (fun k => pgdir (myproc k)) in
  let! page := on_mem kalloc in
  let! m := kgets (fun k => km (kmm k)) in
  (if (page =? 0) && negb (mapped m pg 0) then PPanic "trap"
   else on_mem (setmem (fun m => memset m (vaddr m pg page) 0 PGSIZE))) >>>
  on_mem (mappages pg (PGROUNDDOWN va) PGSIZE (v2p page) (Z.lor PTE_W PTE_U)) >>>
  Ret tt.

(** Make sure the page of a user address is there. *)
Definition touch (va : Z) : P unit :=
  if KERNBASE <=? va then Ret tt
  else
    let! pg := kgets (fun k => pgdir (myproc k)) in
    let! m := kgets (fun k => km (kmm k)) in
    if mapped m pg va then Ret tt
    else
      pgfault va >>>
      let! m := kgets (fun k => km (kmm k)) in
      if mapped m pg va then Ret tt else PPanic "trap".

Definition uread1 (va : Z) : P Z :=
  touch va >>>
  kgets (fun k => km (kmm k) (vaddr (km (kmm k)) (pgdir (myproc k)) va)).
Definition uwrite1 (va b : Z) : P unit :=
  touch va >>>
  kmod (fun k =>
    let s := kmm k in
    let a := vaddr (km s) (pgdir (myproc k)) va in
    set_kmm (Kmem (upd (km s) a b) (freelist s) (use_lock s)) k).

Fixpoint uread (va : Z) (n : nat) : P (list Z) :=
  match n with
  | O => Ret []
  | S n => let! b := uread1 va in let! bs := uread (u32 (va + 1)) n in Ret (b :: bs)
  end.
Fixpoint uwrite (va : Z) (bs : list Z) : P unit :=
  match bs with
  | [] => Ret tt
  | b :: bs => uwrite1 va b >>> uwrite (u32 (va + 1)) bs
  end.
Definition uread4 (va : Z) : P Z := let! bs := uread va 4 in Ret (le_dec bs).
Definition uwrite4 (va w : Z) : P unit := uwrite va (le_enc 4 w).
