(* ===== verification/File.v ===== *)
(** * Open files (file.c), with the calls into pipes and the console

    The file table, and reading and writing through it.  A [struct file *] is
    an index; data goes to and from the caller as lists of bytes. *)

From stdpp Require Import base numbers list gmap strings.
From Stdlib Require Import ZArith Lia.
From S2P Require Import Prelude Disk Bio Log Blk Kstring Ring Console Pipe Kalloc Fs Vm Spinlock Kernel.

Local Open Scope Z_scope.
Local Open Scope prog_scope.
Local Abbreviation P := (prog (fsk kernel)).

(** ** The device table: the console *)

Definition CONSOLE : Z := 1.

(** [consoleread]: one run, up to its return or its sleep. *)
Definition dev_consoleread (ip : nat) (n : Z) : P (Z * list Z) :=
  iunlock ip >>>
  let! (kl, i) := kgets (fun k => (killed (myproc k), inp (kcons k))) in
  match consoleread kl (s32 n) i with
  | Console.RDone got i' =>
      kmod (fun k => set_kcons (set_inp (fun _ => i') (kcons k)) k) >>>
      ilock ip >>> Ret (Z.of_nat (length got), got)
  | RKilled i' =>
      kmod (fun k => set_kcons (set_inp (fun _ => i') (kcons k)) k) >>>
      ilock ip >>> Ret (-1, [])
  | Console.RSleep _ _ i' =>
      kmod (fun k => set_kcons (set_inp (fun _ => i') (kcons k)) k) >>>
      PSleep WInput
  end.

Definition dev_consolewrite (ip : nat) (bs : list Z) : P Z :=
  iunlock ip >>>
  let! c := kgets kcons in
  match consolewrite bs c with
  | Some (n, c') => kmod (set_kcons c') >>> ilock ip >>> Ret n
  | None => PPanic "consputc"
  end.

Definition devread (major : Z) : option (nat -> Z -> P (Z * list Z)) :=
  if major =? CONSOLE then Some dev_consoleread else None.
Definition devwrite (major : Z) : option (nat -> list Z -> P Z) :=
  if major =? CONSOLE then Some dev_consolewrite else None.

(** ** The file table *)

Fixpoint find_file (l : list file) (i : nat) : option nat :=
  match l with
  | [] => None
  | f :: l => if fref f =? 0 then Some i else find_file l (S i)
  end.

Definition set_fref (x : Z) (f : file) : file :=
  File (ftype f) x (readable f) (writable f) (fpipe f) (fip f) (foff f).
Definition set_ftype (x : fdtype) (f : file) : file :=
  File x (fref f) (readable f) (writable f) (fpipe f) (fip f) (foff f).
Definition set_foff (x : Z) (f : file) : file :=
  File (ftype f) (fref f) (readable f) (writable f) (fpipe f) (fip f) x.

Definition filealloc : P (option nat) :=
  let! l := kgets ftable in
  match find_file l 0 with
  | Some f => kmod (upd_file f (set_fref 1)) >>> Ret (Some f)
  | None => Ret None
  end.

Definition filedup (f : nat) : P nat :=
  let! x := kgets (fun k => the_file k f) in
  if fref x <? 1 then PPanic "filedup"
  else kmod (upd_file f (fun x => set_fref (s32 (fref x + 1)) x)) >>> Ret f.

(** ** Pipes *)

(** [&p->nread] and [&p->nwrite]. *)
Definition nread_chan (p : Z) : wchan := WAddr (p + 564).
Definition nwrite_chan (p : Z) : wchan := WAddr (p + 568).
(** [p->data] of a fresh page. *)
Definition page_junk (m : mem) (p : Z) : list Z := (fun j => m (p + 52 + Z.of_nat j)) <$> seq 0 512.

Definition the_pipe (k : kernel) (p : Z) : pipe := default (pipe_init []) (pipes k !! p).
Definition put_pipe (p : Z) (x : pipe) : P unit := kmod (fun k => set_pipes (<[p := x]> (pipes k)) k).

Section kernel_end.
(** The address of the linker's symbol [end]. *)
Context (kend : Z).

Definition pipeclose (p : Z) (wr : bool) : P unit :=
  let! x := kgets (fun k => the_pipe k p) in
  let '(x', free) := Pipe.pipeclose wr x in
  put_pipe p x' >>>
  wakeup (if wr then nread_chan p else nwrite_chan p) >>>
  if free then kmod (fun k => set_pipes (delete p (pipes k)) k) >>> on_mem (kfree kend p)
  else Ret tt.

Definition fileclose (f : nat) : P unit :=
  let! ff := kgets (fun k => the_file k f) in
  if fref ff <? 1 then PPanic "fileclose"
  else if 0 <? fref ff - 1 then kmod (upd_file f (set_fref (fref ff - 1)))
  else
    kmod (upd_file f (fun x => set_ftype FD_NONE (set_fref 0 x))) >>>
    match ftype ff with
    | FD_PIPE => pipeclose (fpipe ff) (writable ff)
    | FD_INODE => begin_trans >>> iput (fip ff) >>> commit_trans
    | FD_NONE => Ret tt
    end.

(** [pipealloc]: the two files, or nothing. *)
Definition pipealloc : P (option (nat * nat)) :=
  let bad (f0 f1 : option nat) : P (option (nat * nat)) :=
    (match f0 with Some f => fileclose f | None => Ret tt end) >>>
    (match f1 with Some f => fileclose f | None => Ret tt end) >>> Ret None in
  let! f0 := filealloc in
  match f0 with
  | None => bad None None
  | Some a =>
      let! f1 := filealloc in
      match f1 with
      | None => bad f0 None
      | Some b =>
          let! p := on_mem kalloc in
          if p =? 0 then bad f0 f1
          else
            let! junk := kgets (fun k => page_junk (km (kmm k)) p) in
            put_pipe p (pipe_init junk) >>>
            kmod (upd_file a (fun x => File FD_PIPE (fref x) true false p (fip x) (foff x))) >>>
            kmod (upd_file b (fun x => File FD_PIPE (fref x) false true p (fip x) (foff x))) >>>
            Ret (Some (a, b))
      end
  end.

(** One run of [pipewrite] of the bytes [bs], [n] of them; and of
    [piperead]. *)
Definition pipewrite (p n : Z) (bs : list Z) : P Z :=
  let! (kl, x) := kgets (fun k => (killed (myproc k), the_pipe k p)) in
  match Pipe.pipewrite kl bs x with
  | WDone x' => put_pipe p x' >>> wakeup (nread_chan p) >>> Ret n
  | WFail x' => put_pipe p x' >>> Ret (-1)
  | WSleep _ x' => put_pipe p x' >>> wakeup (nread_chan p) >>> PSleep (nwrite_chan p)
  end.

Definition piperead (p n : Z) : P (Z * list Z) :=
  let! (kl, x) := kgets (fun k => (killed (myproc k), the_pipe k p)) in
  match Pipe.piperead kl n x with
  | RDone got x' => put_pipe p x' >>> wakeup (nwrite_chan p) >>> Ret (Z.of_nat (length got), got)
  | RFail => Ret (-1, [])
  | RSleep => PSleep (nread_chan p)
  end.

(** ** Reading and writing *)

Definition filestat (f : nat) : P (option stat) :=
  let! x := kgets (fun k => the_file k f) in
  match ftype x with
  | FD_INODE => ilock (fip x) >>> let! st := stati (fip x) in iunlock (fip x) >>> Ret (Some st)
  | _ => Ret None
  end.

(** The value returned and the bytes stored at [addr]. *)
Definition fileread (f : nat) (n : Z) : P (Z * list Z) :=
  let! x := kgets (fun k => the_file k f) in
  if negb (readable x) then Ret (-1, [])
  else match ftype x with
  | FD_PIPE => piperead (fpipe x) n
  | FD_INODE =>
      ilock (fip x) >>>
      let! off := kgets (fun k => foff (the_file k f)) in
      let! (r, bs) := readi devread (fip x) off (u32 n) in
      (if 0 <? r then kmod (upd_file f (fun x => set_foff (u32 (foff x + r)) x)) else Ret tt) >>>
      iunlock (fip x) >>> Ret (r, bs)
  | FD_NONE => PPanic "fileread"
  end.

Definition wmax : Z := (LOGSIZE - 1 - 1 - 2) / 2 * 512.

(** The loop of [filewrite], [i] bytes done; it returns the final [i].  Each
    chunk is fetched from the caller's memory before the call of [writei]. *)
Fixpoint filewrite_loop (fuel : nat) (f ip : nat) (addr n i : Z) : P Z :=
  match fuel with
  | O => PPanic "fuel"
  | S fuel =>
      if i <? n then
        let n1 := if wmax <? n - i then wmax else n - i in
        begin_trans >>>
        ilock ip >>>
        let! off := kgets (fun k => foff (the_file k f)) in
        let! bs := uread (u32 (addr + i)) (Z.to_nat n1) in
        let! r := writei devwrite ip bs off in
        (if 0 <? r then kmod (upd_file f (fun x => set_foff (u32 (foff x + r)) x)) else Ret tt) >>>
        iunlock ip >>>
        commit_trans >>>
        if r <? 0 then Ret i
        else if negb (r =? n1) then PPanic "short filewrite"
        else filewrite_loop fuel f ip addr n (i + r)
      else Ret i
  end.

Definition filewrite (f : nat) (addr n : Z) : P Z :=
  let! x := kgets (fun k => the_file k f) in
  if negb (writable x) then Ret (-1)
  else match ftype x with
  | FD_PIPE => let! bs := uread addr (Z.to_nat n) in pipewrite (fpipe x) n bs
  | FD_INODE =>
      let! i := filewrite_loop (S (Z.to_nat (n / wmax + 1))) f (fip x) addr n 0 in
      Ret (if i =? n then n else -1)
  | FD_NONE => PPanic "filewrite"
  end.

End kernel_end.
