(* ===== verification/Proc.v ===== *)
(** * Processes (proc.c)

    Creation, exit and reaping of processes, sleeping and waking, and the
    scheduler, as programs on the kernel state.  A function that switches to
    the scheduler is cut there: [f1] is the part up to the switch, [f2] the
    part after the process runs again.  [allocproc] and [fork], which give up
    the lock of the process table early, are also given as pieces with at most
    one change that other CPUs can see. *)

From stdpp Require Import base numbers list gmap strings.
From Stdlib Require Import ZArith Lia.
From S2P Require Import Prelude Disk Bio Log Blk Kstring Printf Ring Console Pipe Kalloc Fs Vm Spinlock Kernel File.

Local Open Scope Z_scope.
Local Open Scope prog_scope.
Local Abbreviation P := (prog (fsk kernel)).

(** [acquire(&ptable.lock)] and [release(&ptable.lock)]. *)
Definition acquire_pt : P unit := acquire_lk PtableLock.
Definition release_pt : P unit := release_lk PtableLock.

(** ** Fields of a trap frame, at [tf] in memory *)

Definition sizeof_trapframe : Z := 76.
Definition tf_eax : Z := 28.
Definition tf_es : Z := 40.
Definition tf_ds : Z := 44.
Definition tf_trapno : Z := 48.
Definition tf_eip : Z := 56.
Definition tf_cs : Z := 60.
Definition tf_eflags : Z := 64.
Definition tf_esp : Z := 68.
Definition tf_ss : Z := 72.
Definition sizeof_context : Z := 20.
Definition ctx_ebp : Z := 12.
Definition ctx_eip : Z := 16.

(** A store of a [ushort]. *)
Definition st2 (a w : Z) : M kmem unit := setmem (fun m => upd (upd m a (w mod 256)) (a + 1) (w / 256)).

(** [safestrcpy(s, t, n)] on the bytes of a field; [t] without its NUL. *)
Fixpoint safestrcpy_name (n : nat) (s t : list Z) : list Z :=
  match n with
  | O => s
  | S O => 0 :: tail s
  | S n' =>
      let c := default 0 (head t) in
      c :: (if c =? 0 then 0 :: tail (tail s) else safestrcpy_name n' (tail s) (tail t))
  end.

(** ** Allocation of a process *)

Fixpoint find_unused (l : list proc) (i : nat) : option nat :=
  match l with
  | [] => None
  | p :: l => if bool_decide (state p = UNUSED) then Some i else find_unused l (S i)
  end.

Section proc.
(** Addresses of symbols of the linker ([end], [data]) and of entry.S and
    trapasm.S; the initial user program, its place and size. *)
Context (kend kdata trapret forkret : Z) (initcode initcode_size : Z).

(** The part under the lock. *)
Definition allocproc1 : P (option nat) :=
  acquire_pt >>>
  let! l := kgets ptable in
  match find_unused l 0 with
  | None => release_pt >>> Ret None
  | Some i =>
      kmod (upd_proc i (set_state EMBRYO)) >>>
      kmod (fun k => set_nextpid (s32 (nextpid k + 1)) (upd_proc i (set_pid (nextpid k)) k)) >>>
      release_pt >>>
      Ret (Some i)
  end.

(** The kernel stack of the new process; whether there was memory for it. *)
Definition allocproc2 (i : nat) : P bool :=
  let! ks := on_mem kalloc in
  kmod (upd_proc i (set_kstack ks)) >>>
  if ks =? 0 then kmod (upd_proc i (set_state UNUSED)) >>> Ret false
  else
    let sp := ks + KSTACKSIZE - sizeof_trapframe in
    kmod (upd_proc i (set_tf sp)) >>>
    let sp := sp - 4 in
    on_mem (st sp trapret) >>>
    let sp := sp - sizeof_context in
    kmod (upd_proc i (set_context sp)) >>>
    on_mem (setmem (fun m => memset m sp 0 sizeof_context)) >>>
    on_mem (st (sp + ctx_eip) forkret) >>>
    Ret true.

Definition allocproc : P (option nat) :=
  let! r := allocproc1 in
  match r with
  | None => Ret None
  | Some i => let! ok := allocproc2 i in Ret (if ok then Some i else None)
  end.

Definition kcwd (k : kernel) : nat := default 0%nat (cwd (myproc k)).

Definition initcode_name : list Z := [105; 110; 105; 116; 99; 111; 100; 101].

Definition userinit : P unit :=
  let! r := allocproc in
  kmod (set_initproc r) >>>
  match r with
  | None => PPanic "null"
  | Some p =>
      let! pg := on_mem (setupkvm kdata) in
      kmod (upd_proc p (set_pgdir pg)) >>>
      if pg =? 0 then PPanic "userinit: out of memory?"
      else
        on_mem (inituvm pg initcode initcode_size) >>>
        kmod (upd_proc p (set_sz PGSIZE)) >>>
        let! tf := kgets (fun k => tf (the_proc k p)) in
        on_mem (setmem (fun m => memset m tf 0 sizeof_trapframe)) >>>
        on_mem (st2 (tf + tf_cs) 35) >>>
        on_mem (st2 (tf + tf_ds) 43) >>>
        on_mem (st2 (tf + tf_es) 43) >>>
        on_mem (st2 (tf + tf_ss) 43) >>>
        on_mem (st (tf + tf_eflags) 512) >>>
        on_mem (st (tf + tf_esp) PGSIZE) >>>
        on_mem (st (tf + tf_eip) 0) >>>
        kmod (upd_proc p (fun x => set_name (safestrcpy_name 16 (name x) initcode_name) x)) >>>
        let! ip := namei devread kcwd [slash] in
        kmod (upd_proc p (set_cwd ip)) >>>
        kmod (upd_proc p (set_state RUNNABLE))
  end.

Definition growproc (n : Z) : P Z :=
  let! p := kgets myproc in
  let grown sz := upd_cur (set_sz sz) >>> Ret 0 in
  if 0 <? n then
    let! sz := on_mem (allocuvm kend (pgdir p) (sz p) (u32 (sz p + n))) in
    if sz =? 0 then Ret (-1) else grown sz
  else if n <? 0 then
    let! sz := on_mem (deallocuvm kend (pgdir p) (sz p) (u32 (sz p + n))) in
    if sz =? 0 then Ret (-1) else grown sz
  else grown (sz p).

(** The loop of [fork] over the open files. *)
Fixpoint fork_files (np : nat) (fds : list nat) : P unit :=
  match fds with
  | [] => Ret tt
  | i :: fds =>
      let! f := kgets (fun k => ofile (myproc k) !! i) in
      (match f with
       | Some (Some f) =>
           let! f := filedup f in kmod (upd_proc np (fun p => set_ofile (<[i := Some f]> (ofile p)) p))
       | _ => Ret tt
       end) >>>
      fork_files np fds
  end.

(** The address space and the parent; whether there was memory. *)
Definition fork_copy (np : nat) : P bool :=
  let! p := kgets myproc in
  let! pg := on_mem (copyuvm kend kdata (pgdir p) (sz p)) in
  kmod (upd_proc np (set_pgdir pg)) >>>
  if pg =? 0 then
    let! ks := kgets (fun k => kstack (the_proc k np)) in
    on_mem (kfree kend ks) >>>
    kmod (upd_proc np (set_kstack 0)) >>>
    kmod (upd_proc np (set_state UNUSED)) >>>
    Ret false
  else
    kmod (upd_proc np (set_sz (sz p))) >>>
    kmod (fun k => upd_proc np (set_parent (cur k)) k) >>>
    Ret true.

(** The trap frame, the open files and the current directory. *)
Definition fork_dup (np : nat) : P unit :=
  let! p := kgets myproc in
  let! ntf := kgets (fun k => tf (the_proc k np)) in
  on_mem (setmem (fun m => memmove m ntf (tf p) sizeof_trapframe)) >>>
  on_mem (st (ntf + tf_eax) 0) >>>
  fork_files np (seq 0 NOFILE) >>>
  let! c := kgets kcwd in
  let! c := idup c in
  kmod (upd_proc np (set_cwd (Some c))).

(** The child may run. *)
Definition fork_start (np : nat) : P Z :=
  let! npid := kgets (fun k => pid (the_proc k np)) in
  kmod (upd_proc np (set_state RUNNABLE)) >>>
  Ret npid.

Definition fork_name (np : nat) : P unit :=
  let! p := kgets myproc in
  kmod (upd_proc np (fun x => set_name (safestrcpy_name 16 (name x) (name p)) x)).

Definition fork : P Z :=
  let! r := allocproc in
  match r with
  | None => Ret (-1)
  | Some np =>
      let! ok := fork_copy np in
      if ok then fork_dup np >>> let! npid := fork_start np in fork_name np >>> Ret npid
      else Ret (-1)
  end.

(** ** Switching *)

(** [sched], up to the switch to the scheduler; [cpu->intena]. *)
Definition sched : P bool :=
  let! k := kgets id in
  if negb (holding (cpuid k) (ptlock k)) then PPanic "sched ptable.lock"
  else if negb (ncli (kcpu k) =? 1) then PPanic "sched locks"
  else if bool_decide (state (myproc k) = RUNNING) then PPanic "sched running"
  else if ifl (kcpu k) then PPanic "sched interruptible"
  else Ret (intena (kcpu k)).

(** The end of [sched], when the process runs again. *)
Definition sched2 (e : bool) : P unit :=
  kmod (fun k => set_kcpu (Cpu (ncli (kcpu k)) e (ifl (kcpu k))) k).

Definition yield1 : P bool := acquire_pt >>> upd_cur (set_state RUNNABLE) >>> sched.
Definition yield2 (e : bool) : P unit := sched2 e >>> release_pt.

(** [sleep(chan, lk)]; a null [lk] is [None]. *)
Definition sleep1 (lk : option lockid) (c : wchan) : P bool :=
  let! me := kgets cur in
  match me, lk with
  | None, _ => PPanic "sleep"
  | _, None => PPanic "sleep without lk"
  | Some _, Some lk =>
      (if bool_decide (lk <> PtableLock) then acquire_pt >>> release_lk lk else Ret tt) >>>
      upd_cur (set_chan (Some c)) >>> upd_cur (set_state SLEEPING) >>>
      sched
  end.
Definition sleep2 (lk : lockid) (e : bool) : P unit :=
  sched2 e >>> upd_cur (set_chan None) >>> if bool_decide (lk <> PtableLock) then release_pt else Ret tt.
(** The last line of [sleep]: the CPU may have to spin for the lock. *)
Definition sleep3 (lk : lockid) : P unit := if bool_decide (lk <> PtableLock) then acquire_lk lk else Ret tt.

(** [forkret]: whether it has to call [initlog]. *)
Definition forkret_run : P bool :=
  release_pt >>>
  let! b := kgets first in
  kmod (set_first false) >>> Ret b.

(** ** The scheduler *)

Fixpoint find_runnable (l : list proc) (i : nat) : option nat :=
  match l with
  | [] => None
  | p :: l => if bool_decide (state p = RUNNABLE) then Some i else find_runnable l (S i)
  end.

(** The start of a round of the outer loop. *)
Definition scheduler_start : P unit :=
  kmod (fun k => set_kcpu (Cpu (ncli (kcpu k)) (intena (kcpu k)) true) k) >>> acquire_pt.

(** The inner loop from [p = &ptable.proc[j]] up to the switch to a process,
    or to the end of the round. *)
Definition scheduler_next (j : nat) : P (option nat) :=
  let! l := kgets ptable in
  match find_runnable (drop j l) j with
  | Some i => kmod (set_cur (Some i)) >>> kmod (upd_proc i (set_state RUNNING)) >>> Ret (Some i)
  | None => release_pt >>> Ret None
  end.

(** After the process has switched back. *)
Definition scheduler_back : P unit := kmod (set_cur None).

(** ** Exit and wait *)

(** One turn of the loop over the open files. *)
Definition exit_file (fd : nat) : P unit :=
  let! f := kgets (fun k => ofile (myproc k) !! fd) in
  match f with
  | Some (Some f) => fileclose kend f >>> upd_cur (fun p => set_ofile (<[fd := None]> (ofile p)) p)
  | _ => Ret tt
  end.

Fixpoint exit_files (fds : list nat) : P unit :=
  match fds with
  | [] => Ret tt
  | fd :: fds =>
      exit_file fd >>> exit_files fds
  end.

(** The loop over the children, [i] being the next index. *)
Fixpoint exit_children (n i : nat) : P unit :=
  match n with
  | O => Ret tt
  | S n =>
      let! k := kgets id in
      (if bool_decide (is_Some (cur k)) && bool_decide (parent (the_proc k i) = cur k) then
         kmod (fun k => upd_proc i (set_parent (initproc k)) k) >>>
         if bool_decide (state (the_proc k i) = ZOMBIE) then
           match initproc k with Some ip => kmod (fun k => set_ptable (wakeup1 (WProc ip) (ptable k)) k) | None => Ret tt end
         else Ret tt
       else Ret tt) >>>
      exit_children n (S i)
  end.

Definition exit_cwd : P unit :=
  (let! c := kgets kcwd in iput c) >>> upd_cur (set_cwd None).

(** The part of [exit] under the lock, up to its switch to the scheduler. *)
Definition exit_last : P bool :=
  acquire_pt >>>
  (let! pp := kgets (fun k => parent (myproc k)) in
   match pp with Some pp => kmod (fun k => set_ptable (wakeup1 (WProc pp) (ptable k)) k) | None => Ret tt end) >>>
  exit_children NPROC 0 >>>
  upd_cur (set_state ZOMBIE) >>>
  sched.

Definition exit : P bool :=
  let! k := kgets id in
  if bool_decide (cur k = initproc k) then PPanic "init exiting"
  else exit_files (seq 0 NOFILE) >>> exit_cwd >>> exit_last.

(** The scan of [wait]: the first zombie child, and whether there are
    children before it. *)
Fixpoint wait_scan (me : option nat) (l : list proc) (i : nat) (havekids : bool) : option nat * bool :=
  match l with
  | [] => (None, havekids)
  | p :: l =>
      if negb (bool_decide (parent p = me)) then wait_scan me l (S i) havekids
      else if bool_decide (state p = ZOMBIE) then (Some i, true)
      else wait_scan me l (S i) true
  end.

(** What [wait] does with a zombie child. *)
Definition reap (i : nat) : P Z :=
  let! p := kgets (fun k => the_proc k i) in
  on_mem (kfree kend (kstack p)) >>>
  kmod (upd_proc i (set_kstack 0)) >>>
  on_mem (freevm kend (pgdir p)) >>>
  kmod (upd_proc i (fun p => set_killed false (set_name (<[0%nat := 0]> (name p))
    (set_parent None (set_pid 0 (set_state UNUSED p)))))) >>>
  release_pt >>>
  Ret (pid p).

(** One round of the loop of [wait]: the value it returns, or the sleep it
    ends in. *)
Definition wait_round : P (Z + bool) :=
  let! k := kgets id in
  match wait_scan (cur k) (ptable k) 0 false with
  | (Some i, _) => let! r := reap i in Ret (inl r)
  | (None, havekids) =>
      if negb havekids || killed (myproc k) then release_pt >>> Ret (inl (-1))
      else let! e := sleep1 (Some PtableLock) (WProc (default 0%nat (cur k))) in Ret (inr e)
  end.

Definition wait1 : P (Z + bool) := acquire_pt >>> wait_round.
Definition wait2 (e : bool) : P (Z + bool) := sleep2 PtableLock e >>> wait_round.

(** ** Kill and the process listing *)

Fixpoint find_pid (n : Z) (l : list proc) (i : nat) : option nat :=
  match l with
  | [] => None
  | p :: l => if pid p =? n then Some i else find_pid n l (S i)
  end.

Definition kill (n : Z) : P Z :=
  acquire_pt >>>
  let! l := kgets ptable in
  match find_pid n l 0 with
  | Some i =>
      kmod (upd_proc i (set_killed true)) >>>
      kmod (upd_proc i (fun p => if bool_decide (state p = SLEEPING) then set_state RUNNABLE p else p)) >>>
      release_pt >>> Ret 0
  | None => release_pt >>> Ret (-1)
  end.

Definition state_name (s : procstate) : list Z :=
  match s with
  | UNUSED => [117; 110; 117; 115; 101; 100]
  | EMBRYO => [101; 109; 98; 114; 121; 111]
  | SLEEPING => [115; 108; 101; 101; 112; 32]
  | RUNNABLE => [114; 117; 110; 98; 108; 101]
  | RUNNING => [114; 117; 110; 32; 32; 32]
  | ZOMBIE => [122; 111; 109; 98; 105; 101]
  end.

Fixpoint upto_nul (s : list Z) : list Z :=
  match s with [] => [] | c :: s => if c =? 0 then [] else c :: upto_nul s end.
Fixpoint upto_zero_pc (s : list Z) : list Z :=
  match s with [] => [] | c :: s => if c =? 0 then [] else 32 :: printint lower (s32 c) 16 false ++ upto_zero_pc s end.

(** What [procdump] prints for one process. *)
Definition dump_proc (m : mem) (p : proc) : list Z :=
  if bool_decide (state p = UNUSED) then []
  else
    printint lower (pid p) 10 true ++ [32] ++ state_name (state p) ++ [32] ++ upto_nul (name p) ++
    (if bool_decide (state p = SLEEPING)
     then upto_zero_pc (getcallerpcs m (u32 (load4 m (context p + ctx_ebp) + 8))) else []) ++ [10].

Definition procdump (k : kernel) : list Z := concat (dump_proc (km (kmm k)) <$> ptable k).

End proc.
