(* ===== verification/ProcSpec.v ===== *)
(** * The process table as a state machine

    What the functions of proc.c do to the states, parents, identifiers and
    wait channels of the processes, on several CPUs, and the invariant of the
    reachable process tables: every process has a live parent, a process
    asleep in [wait] has no zombie child, and the running processes are those
    the CPUs have. *)

From stdpp Require Import base numbers list gmap strings relations.
From Stdlib Require Import ZArith Lia.
From S2P Require Import Prelude Disk Bio Log Blk Kstring Printf Ring Console Pipe Kalloc Fs Icache Vm Spinlock Kernel File Proc.

Local Open Scope Z_scope.
Local Open Scope prog_scope.
Local Abbreviation P := (prog (fsk kernel)).

(** ** The part of the kernel state that scheduling is about *)

Record pv : Type := PV { vstate : procstate; vpid : Z; vparent : option nat; vchan : option wchan; vkilled : bool }.
Definition pview (p : proc) : pv := PV (state p) (pid p) (parent p) (chan p) (killed p).

Record view : Type := View {
  vtab : list pv; vlock : spinlock; vnext : Z; vinit : option nat; vid : nat; vcpu : cpu; vcur : option nat;
  vlks : gmap lockid spinlock
}.
Definition kview (k : kernel) : view :=
  View (pview <$> ptable k) (ptlock k) (nextpid k) (initproc k) (cpuid k) (kcpu k) (cur k) (klocks k).

Definition on_tab (f : list pv -> list pv) (v : view) : view :=
  View (f (vtab v)) (vlock v) (vnext v) (vinit v) (vid v) (vcpu v) (vcur v) (vlks v).
Definition with_state (x : procstate) (p : pv) : pv := PV x (vpid p) (vparent p) (vchan p) (vkilled p).
Definition with_pid (x : Z) (p : pv) : pv := PV (vstate p) x (vparent p) (vchan p) (vkilled p).
Definition with_parent (x : option nat) (p : pv) : pv := PV (vstate p) (vpid p) x (vchan p) (vkilled p).
Definition with_chan (x : option wchan) (p : pv) : pv := PV (vstate p) (vpid p) (vparent p) x (vkilled p).
Definition with_killed (x : bool) (p : pv) : pv := PV (vstate p) (vpid p) (vparent p) (vchan p) x.
Definition with_lock (c : cpu) (l : spinlock) (v : view) : view :=
  View (vtab v) l (vnext v) (vinit v) (vid v) c (vcur v) (vlks v).
Definition with_cur (x : option nat) (v : view) : view :=
  View (vtab v) (vlock v) (vnext v) (vinit v) (vid v) (vcpu v) x (vlks v).
Definition with_next (x : Z) (v : view) : view :=
  View (vtab v) (vlock v) x (vinit v) (vid v) (vcpu v) (vcur v) (vlks v).

(** Any lock, and the CPU and a lock after an operation on it. *)
Definition vlk (v : view) (l : lockid) : spinlock :=
  if bool_decide (l = PtableLock) then vlock v else default (initlock "") (vlks v !! l).
Definition with_lk (l : lockid) (c : cpu) (x : spinlock) (v : view) : view :=
  if bool_decide (l = PtableLock) then with_lock c x v
  else View (vtab v) (vlock v) (vnext v) (vinit v) (vid v) c (vcur v) (<[l := x]> (vlks v)).

(** ** A logic of programs on views *)

Definition vspec {A} (p : P A) (v : view) (Q : A -> view -> Prop) : Prop :=
  forall S (h : forall o, M S (op_ret o)) s k a s' k',
    kview (ext k) = v -> run h p (s, k) = Ok a (s', k') -> Q a (kview (ext k')).

Section rules.
Context {A B : Type}.
Implicit Types (Q : A -> view -> Prop) (v : view).

Lemma vs_conseq (p : P A) v Q Q' : vspec p v Q -> (forall a v', Q a v' -> Q' a v') -> vspec p v Q'.
Proof. intros Hp HQ S h s k a s' k' Hv E. by eapply HQ, Hp. Qed.

Lemma vs_ret (a : A) v Q : Q a v -> vspec (Ret a) v Q.
Proof. intros HQ S h s k a' s' k' <- [= <- <- <-]. done. Qed.

Lemma vs_panic msg v Q : vspec (PPanic msg) v Q.
Proof. by intros S h s k a' s' k'. Qed.

Lemma vs_bind (p : P B) (f : B -> P A) v Q :
  vspec p v (fun b v' => vspec (f b) v' Q) -> vspec (pbind p f) v Q.
Proof.
  intros Hp S h s k a s' k' Hv. rewrite run_pbind. destruct (run h p (s, k)) as [b [s1 k1]| |] eqn:E; [|done..].
  by apply (Hp S h s k b s1 k1 Hv E S h s1 k1).
Qed.

Lemma vs_gets (f : kernel -> A) v Q : (forall k, kview k = v -> Q (f k) v) -> vspec (kgets f) v Q.
Proof. intros HQ S h s k a s' k' Hv [= <- <- <-]. rewrite Hv. by apply HQ. Qed.

Lemma vs_keeps (p : P A) v Q :
  keeps (fun k k' => kview (ext k') = kview (ext k)) p -> (forall a, Q a v) -> vspec p v Q.
Proof. intros Hp HQ S h s k a s' k' <- E%Hp. by rewrite E. Qed.

Lemma vs_mem (m : M kmem A) v Q : (forall a, Q a v) -> vspec (on_mem m) v Q.
Proof.
  intros HQ S h s k a s' k' <-. unfold on_mem. cbn [run snd fst].
  destruct (m (kmm (ext k))) as [x t| |c t]; cbn [run snd fst]; [|done|done]. intros [= -> _ <-]. apply HQ.
Qed.

End rules.

Lemma vs_kmod (f : kernel -> kernel) v (Q : unit -> view -> Prop) :
  (forall k, kview k = v -> Q tt (kview (f k))) -> vspec (kmod f) v Q.
Proof. intros HQ S h s k [] s' k' Hv [= <- <-]. by apply HQ. Qed.

(** A change of one entry of the table. *)
Lemma kview_upd_proc i f g k : (forall p, pview (f p) = g (pview p)) ->
  kview (upd_proc i f k) = on_tab (alter g i) (kview k).
Proof.
  intros Hf. unfold kview, upd_proc, on_tab. cbn. f_equal. by apply list_fmap_alter, Forall_forall.
Qed.

Lemma alter_id_pv i (l : list pv) : alter (fun p => p) i l = l.
Proof. apply list_alter_id. done. Qed.

(** A change of fields that are not part of the view. *)
Lemma kview_upd_quiet i f k : (forall p, pview (f p) = pview p) -> kview (upd_proc i f k) = kview k.
Proof. intros Hf. rewrite (kview_upd_proc i f (fun p => p)) by done. unfold on_tab. by rewrite alter_id_pv. Qed.

Lemma vs_upd i f g v Q : (forall p, pview (f p) = g (pview p)) -> Q tt (on_tab (alter g i) v) ->
  vspec (kmod (upd_proc i f)) v Q.
Proof. intros Hf HQ. apply vs_kmod. intros k <-. by rewrite (kview_upd_proc i f g). Qed.

Lemma vs_upd_quiet i f v Q : (forall p, pview (f p) = pview p) -> Q tt v -> vspec (kmod (upd_proc i f)) v Q.
Proof. intros Hf HQ. apply vs_kmod. intros k <-. by rewrite kview_upd_quiet. Qed.

Lemma vs_cur i f g v Q : vcur v = Some i -> (forall p, pview (f p) = g (pview p)) -> Q tt (on_tab (alter g i) v) ->
  vspec (upd_cur f) v Q.
Proof.
  intros Hi Hf HQ. apply vs_kmod. intros k <-. cbn in Hi. rewrite Hi. by rewrite (kview_upd_proc i f g).
Qed.

Lemma vs_cur_quiet f v (Q : unit -> view -> Prop) : (forall p, pview (f p) = pview p) -> Q tt v -> vspec (upd_cur f) v Q.
Proof.
  intros Hf HQ. apply vs_kmod. intros k <-. destruct (cur k); [|done]. by rewrite kview_upd_quiet.
Qed.

Lemma vs_lock {A} l (m : nat -> M (cpu * spinlock) A) v Q :
  (forall a c x, m (vid v) (vcpu v, vlk v l) = Ok a (c, x) -> Q a (with_lk l c x v)) -> vspec (on_lock l m) v Q.
Proof.
  intros HQ S h s k a s' k' <-. unfold on_lock. cbn [run snd fst].
  change (get_lock l (ext k)) with (vlk (kview (ext k)) l). change (cpuid (ext k)) with (vid (kview (ext k))).
  change (kcpu (ext k)) with (vcpu (kview (ext k))).
  destruct (m (vid (kview (ext k))) (vcpu (kview (ext k)), vlk (kview (ext k)) l)) as [x [c y]|msg|w [c y]] eqn:E;
    cbn [run snd fst]; [|done|done].
  intros [= -> _ <-]. specialize (HQ _ _ _ eq_refl). unfold with_lk in HQ. unfold set_lock. cbn [ext]. by case_bool_decide.
Qed.

(** A lock just acquired and just released by this CPU. *)
Definition taken (v : view) (l : lockid) : spinlock := Lock (lname (vlk v l)) 1 (Some (vid v)).
Definition given (v : view) (l : lockid) : spinlock := Lock (lname (vlk v l)) 0 None.
Definition popped (c : cpu) : cpu :=
  Cpu (s32 (ncli c - 1)) (intena c) ((s32 (ncli c - 1) =? 0) && intena c).

Lemma vs_acquire_lk l v (Q : unit -> view -> Prop) :
  (locked (vlk v l) = 0 -> Q tt (with_lk l (pushcli (vcpu v)) (taken v l) v)) -> vspec (acquire_lk l) v Q.
Proof.
  intros HQ. apply vs_bind, vs_lock. intros a c x. unfold acquire, xchg. destruct (holding _ _); [done|].
  destruct (Z.eqb_spec (locked (vlk v l)) 0) as [E|]; cbn; intros [= <- <- <-]; [apply vs_ret; by apply HQ|apply vs_panic].
Qed.

Lemma vs_release_lk l v (Q : unit -> view -> Prop) :
  (holding (vid v) (vlk v l) = true -> ifl (vcpu v) = false -> 0 <= s32 (ncli (vcpu v) - 1) ->
   Q tt (with_lk l (popped (vcpu v)) (given v l) v)) -> vspec (release_lk l) v Q.
Proof.
  intros HQ. apply vs_lock. intros [] c x. unfold release, xchg, popcli. destruct (holding _ _); cbn; [|done].
  destruct (ifl (vcpu v)) eqn:Ei; [done|]. destruct (Z.ltb_spec (s32 (ncli (vcpu v) - 1)) 0); [done|].
  intros [= <- <-]. unfold popped in HQ. specialize (HQ eq_refl eq_refl ltac:(lia)).
  by destruct (_ =? 0), (intena (vcpu v)).
Qed.

(** This CPU holds no lock; then the lock of the table is free, or this CPU
    has it and no other. *)
Definition vidle (v : view) : Prop := ncli (vcpu v) = 0.
Definition vfree (v : view) : Prop := locked (vlock v) = 0 /\ ncli (vcpu v) = 0.
Definition vheld (v : view) : Prop :=
  holding (vid v) (vlock v) = true /\ ncli (vcpu v) = 1 /\ ifl (vcpu v) = false.

Definition vacq (v : view) : view :=
  with_lock (Cpu 1 (ifl (vcpu v)) false) (Lock (lname (vlock v)) 1 (Some (vid v))) v.
Definition vrel (v : view) : view :=
  with_lock (Cpu 0 (intena (vcpu v)) (intena (vcpu v))) (Lock (lname (vlock v)) 0 None) v.

Lemma vs_acquire v (Q : unit -> view -> Prop) : vidle v -> (locked (vlock v) = 0 -> Q tt (vacq v)) -> vspec acquire_pt v Q.
Proof.
  intros Hn HQ. apply vs_acquire_lk. intros Hl. specialize (HQ Hl). unfold with_lk, pushcli. rewrite bool_decide_eq_true_2 by done.
  rewrite Hn. exact HQ.
Qed.

Lemma vs_release v (Q : unit -> view -> Prop) : vheld v -> Q tt (vrel v) -> vspec release_pt v Q.
Proof.
  intros (Hl & Hn & Hi) HQ. apply vs_release_lk. intros _ _ _. unfold with_lk, popped. rewrite bool_decide_eq_true_2 by done.
  rewrite Hn. exact HQ.
Qed.

Lemma vheld_acq v : vheld (vacq v).
Proof. split; [|done]. unfold holding. cbn. by rewrite bool_decide_eq_true_2. Qed.
Lemma vfree_rel v : vfree (vrel v).
Proof. done. Qed.
#[export] Hint Resolve vheld_acq vfree_rel : core.

(** [vs] runs a program step by step. *)
Ltac vs_prim :=
  lazymatch goal with
  | |- vspec (pbind _ _) _ _ => apply vs_bind
  | |- vspec (Ret _) _ _ => apply vs_ret
  | |- vspec (PPanic _) _ _ => apply vs_panic
  | |- vspec (on_mem _) _ _ => apply vs_mem; intro
  | |- vspec (kgets _) _ _ => apply vs_gets; let k := fresh "k" in let Hk := fresh "Hk" in intros k Hk
  | |- vspec acquire_pt _ _ => apply vs_acquire; [solve [done|split; done]|let Hl := fresh "Hl" in intros Hl]
  | |- vspec release_pt _ _ => apply vs_release; [solve [done|apply vheld_acq|split_and!; done]|]
  | |- vspec (kmod (upd_proc _ _)) _ _ => apply vs_upd_quiet; [done|]
  | |- vspec (if ?b then _ else _) _ _ => destruct b eqn:?
  end.
Ltac vs := repeat vs_prim.

(** ** [fork] *)

(** The rest of the view, with the lock free. *)
Definition vrest (v v' : view) : Prop :=
  vfree v' /\ vinit v' = vinit v /\ vid v' = vid v /\ vcur v' = vcur v /\ vlks v' = vlks v.

Lemma find_unused_spec l : forall i j, find_unused l i = Some j ->
  exists m p, j = (i + m)%nat /\ l !! m = Some p /\ state p = UNUSED.
Proof.
  induction l as [|p l IH]; intros i j; cbn [find_unused]; [done|]. case_bool_decide as Hp.
  - intros [= <-]. exists 0%nat, p. by rewrite Nat.add_0_r.
  - intros (m & q & -> & Hm & Hq)%IH. exists (S m), q. rewrite Nat.add_succ_r. done.
Qed.

Lemma view_lookup k i p : ptable k !! i = Some p -> vtab (kview k) !! i = Some (pview p).
Proof. intros H. cbn. by rewrite list_lookup_fmap, H. Qed.

(** What the locked part of [allocproc] does to the table: nothing, or give a
    free slot a new identifier. *)
Inductive alloc_post (v : view) : option nat -> view -> Prop :=
| AllocNone v' : vtab v' = vtab v -> vnext v' = vnext v -> alloc_post v None v'
| AllocDone v' i p : vtab v !! i = Some p -> vstate p = UNUSED ->
    vtab v' = alter (fun p => with_pid (vnext v) (with_state EMBRYO p)) i (vtab v) ->
    vnext v' = s32 (vnext v + 1) -> alloc_post v (Some i) v'.

Lemma view_proc k v i q : kview k = v -> vtab v !! i = Some q -> exists p, ptable k !! i = Some p /\ pview p = q.
Proof. intros <-. cbn. rewrite list_lookup_fmap. intros (p & Hp & ->)%fmap_Some. by exists p. Qed.

Section specs.
Context (kend kdata trapret forkret : Z).

Lemma vs_nextpid i v (Q : unit -> view -> Prop) :
  Q tt (with_next (s32 (vnext v + 1)) (on_tab (alter (with_pid (vnext v)) i) v)) ->
  vspec (kmod (fun k => set_nextpid (s32 (nextpid k + 1)) (upd_proc i (set_pid (nextpid k)) k))) v Q.
Proof.
  intros HQ. apply vs_kmod. intros k <-.
  change (kview (set_nextpid (s32 (nextpid k + 1)) (upd_proc i (set_pid (nextpid k)) k))) with
    (with_next (s32 (nextpid k + 1)) (kview (upd_proc i (set_pid (nextpid k)) k))).
  by rewrite (kview_upd_proc i _ (with_pid (nextpid k))).
Qed.

Lemma allocproc1_spec v : vidle v ->
  vspec allocproc1 v (fun r v' => alloc_post v r v' /\ locked (vlock v) = 0 /\ vrest v v').
Proof.
  intros Hf. unfold allocproc1. vs. destruct (find_unused (ptable k) 0) as [i|] eqn:Ei; vs.
  - apply find_unused_spec in Ei as (m & p & -> & Hm & Hp). apply view_lookup in Hm. rewrite Hk in Hm. cbn [Nat.add] in *.
    apply (vs_upd _ _ (with_state EMBRYO)); [done|]. vs. apply vs_nextpid. vs.
    split; [|done]. apply (AllocDone _ _ m (pview p)); try done. cbn. by rewrite !list_alter_alter_eq.
  - split; [|done]. by apply AllocNone.
Qed.

Lemma allocproc2_spec i v : vspec (allocproc2 trapret forkret i) v (fun ok v' =>
  v' = if ok then v else on_tab (alter (with_state UNUSED) i) v).
Proof. unfold allocproc2. vs; [|done]. apply (vs_upd _ _ (with_state UNUSED)); [done|]. by vs. Qed.

Lemma allocproc_spec v : vidle v ->
  vspec (allocproc trapret forkret) v (fun r v' => match r with Some _ => alloc_post v r v' /\ vrest v v' | None => True end).
Proof.
  intros Hf. unfold allocproc. apply vs_bind. eapply vs_conseq; [by apply allocproc1_spec|].
  intros [j|] v1 (Ha & _ & Hr); [|by apply vs_ret]. apply vs_bind. eapply vs_conseq; [apply allocproc2_spec|].
  intros [] v2 ->; by apply vs_ret.
Qed.

(** Programs that leave the view alone. *)
Lemma keeps_kmod_view (f : kernel -> kernel) : (forall k, kview (f k) = kview k) ->
  keeps (fun k k' => kview (ext k') = kview (ext k)) (kmod f).
Proof. intros Hf. apply keeps_modify. intros k. apply Hf. Qed.

#[export] Instance view_pre : PreOrder (fun k k' : fsk kernel => kview (ext k') = kview (ext k)).
Proof. split; [done|]. intros k1 k2 k3 H1 H2. by rewrite H2. Qed.

Lemma keeps_filedup f : keeps (fun k k' => kview (ext k') = kview (ext k)) (filedup f).
Proof. unfold filedup, kgets. keep. by apply keeps_kmod_view. Qed.

Lemma keeps_idup i : keeps (fun k k' : fsk kernel => kview (ext k') = kview (ext k)) (idup i).
Proof. intros S h s k a s' k' E. by apply idup_ids in E as [_ ->]. Qed.

Lemma keeps_iput i : keeps (fun k k' : fsk kernel => kview (ext k') = kview (ext k)) (iput i).
Proof. intros S h s k [] s' k' E. apply iput_ids in E as [_ E]. by rewrite E. Qed.

Lemma fork_files_spec np fds v : vspec (fork_files np fds) v (fun _ v' => v' = v).
Proof.
  induction fds as [|i fds IH]; cbn [fork_files]; vs; [done|].
  destruct (ofile (myproc k) !! i) as [[f|]|]; vs; try done. apply vs_keeps; [apply keeps_filedup|]. intros f'. vs. done.
Qed.

Lemma vs_parent np v (Q : unit -> view -> Prop) : Q tt (on_tab (alter (with_parent (vcur v)) np) v) ->
  vspec (kmod (fun k => upd_proc np (set_parent (cur k)) k)) v Q.
Proof. intros HQ. apply vs_kmod. intros k <-. by rewrite (kview_upd_proc np _ (with_parent (cur k))). Qed.

Lemma fork_copy_spec np v : vspec (fork_copy kend kdata np) v (fun ok v' =>
  v' = on_tab (alter (if ok then with_parent (vcur v) else with_state UNUSED) np) v).
Proof.
  unfold fork_copy. vs; [apply (vs_upd _ _ (with_state UNUSED)); [done|]; by vs|].
  apply vs_parent. by vs.
Qed.

Lemma fork_dup_spec np v : vspec (fork_dup np) v (fun _ v' => v' = v).
Proof.
  unfold fork_dup. vs. eapply vs_conseq; [apply fork_files_spec|]. intros _ v2 ->. vs.
  apply vs_keeps; [apply keeps_idup|]. intros c. vs. done.
Qed.

Lemma fork_start_spec np v : vspec (fork_start np) v (fun _ v' => v' = on_tab (alter (with_state RUNNABLE) np) v).
Proof. unfold fork_start. vs. apply (vs_upd _ _ (with_state RUNNABLE)); [done|]. by vs. Qed.

Lemma fork_name_spec np v : vspec (fork_name np) v (fun _ v' => v' = v).
Proof. unfold fork_name. by vs. Qed.

(** ** Programs that only wake processes *)

Definition woke (p p' : pv) : Prop := p' = p \/ vstate p = SLEEPING /\ p' = with_state RUNNABLE p.
#[export] Instance woke_pre : PreOrder woke.
Proof.
  split; [by left|]. intros p q r [->|[H1 ->]]; [done|]. intros [->|[H2 ->]]; [by right|]. done.
Qed.

(** The table up to [R] on its entries, the rest of the view equal. *)
Definition vrel_on (R : relation (list pv)) (v v' : view) : Prop :=
  R (vtab v) (vtab v') /\ vlock v' = vlock v /\ vnext v' = vnext v /\ vinit v' = vinit v /\ vid v' = vid v /\
  vcpu v' = vcpu v /\ vcur v' = vcur v /\ vlks v' = vlks v.
#[export] Instance vrel_pre R : PreOrder R -> PreOrder (vrel_on R).
Proof.
  intros HR. split; [intros v; by split_and!|]. intros v1 v2 v3 (? & ? & ? & ? & ? & ? & ? & ?) (? & ? & ? & ? & ? & ? & ? & ?).
  unfold vrel_on. split_and!; [by etransitivity|congruence..].
Qed.

Definition calm (k k' : fsk kernel) : Prop := vrel_on (Forall2 woke) (kview (ext k)) (kview (ext k')).
#[export] Instance calm_pre : PreOrder calm.
Proof.
  split; [intros k; unfold calm; reflexivity|]. intros k1 k2 k3 H1 H2. unfold calm. by etransitivity.
Qed.

Lemma calm_keeps {A} (p : P A) : keeps (fun k k' => kview (ext k') = kview (ext k)) p -> keeps calm p.
Proof. intros Hp S h s k a s' k' E%Hp. unfold calm. rewrite E. reflexivity. Qed.

Lemma calm_kmod f : (forall k, kview (f k) = kview k) -> keeps calm (kmod f).
Proof. intros Hf. by apply calm_keeps, keeps_kmod_view. Qed.

Definition twake (c : wchan) (l : list pv) : list pv :=
  (fun p => if bool_decide (vstate p = SLEEPING) && bool_decide (vchan p = Some c) then with_state RUNNABLE p else p) <$> l.

Lemma kview_wakeup1 c k : kview (set_ptable (wakeup1 c (ptable k)) k) = on_tab (twake c) (kview k).
Proof.
  unfold kview, on_tab. cbn. f_equal. unfold twake, wakeup1. rewrite <- !list_fmap_compose. apply list_fmap_ext.
  intros _ p _. cbn. unfold wake. by destruct (bool_decide (state p = SLEEPING) && bool_decide (chan p = Some c)).
Qed.

Lemma twake_woke c l : Forall2 woke l (twake c l).
Proof.
  unfold twake. apply Forall2_fmap_r, Forall_Forall2_diag, Forall_forall. intros p _. cbn.
  destruct (bool_decide (vstate p = SLEEPING)) eqn:E1; [|by left]. apply bool_decide_eq_true in E1.
  destruct (bool_decide (vchan p = Some c)); [by right|by left].
Qed.

Lemma calm_wakeup c : keeps calm (wakeup c).
Proof.
  apply keeps_modify. intros k. unfold calm. cbn [ext]. rewrite kview_wakeup1. split; [apply twake_woke|done].
Qed.

Lemma calm_mem {A} (m : M kmem A) : keeps calm (on_mem m).
Proof.
  apply calm_keeps. intros S h s k a s' k'. unfold on_mem. cbn [run snd fst].
  destruct (m (kmm (ext k))) as [x t| |c t]; cbn [run snd fst]; [|done|done]. by intros [= -> _ <-].
Qed.

Lemma calm_fileclose f : keeps calm (fileclose kend f).
Proof.
  unfold fileclose, kgets. keep; try (by apply calm_kmod); try (apply keeps_do; intro; by apply keeps_ret; apply _).
  - unfold pipeclose, kgets, put_pipe. keep; first [by apply calm_kmod|apply calm_wakeup|apply calm_mem].
  - apply calm_keeps, keeps_iput.
Qed.

Lemma exit_file_calm fd : keeps calm (exit_file kend fd).
Proof.
  unfold exit_file, kgets. keep; [apply calm_fileclose|].
  apply calm_kmod. intros k. destruct (cur k); [|done]. by apply kview_upd_quiet.
Qed.

Lemma exit_cwd_calm : keeps calm exit_cwd.
Proof.
  unfold exit_cwd, kgets. keep; [apply calm_keeps, keeps_iput|].
  apply calm_kmod. intros k. destruct (cur k); [|done]. by apply kview_upd_quiet.
Qed.

Lemma vs_calm {A} (p : P A) v (Q : A -> view -> Prop) : keeps calm p ->
  (forall a v', vrel_on (Forall2 woke) v v' -> Q a v') -> vspec p v Q.
Proof. intros Hp HQ S h s k a s' k' <- E%Hp. by apply HQ. Qed.

(** ** [exit] *)

(** The table after processes have been woken and given other parents. *)
Definition moved (par : nat -> pv -> option nat) (l l' : list pv) : Prop :=
  length l' = length l /\
  forall j p, l !! j = Some p -> exists p', l' !! j = Some p' /\ woke (with_parent (par j p) p) p'.

(** Process [j] is not asleep in [wait]. *)
Definition awake (j : nat) (l : list pv) : Prop :=
  forall p, l !! j = Some p -> ~ (vstate p = SLEEPING /\ vchan p = Some (WProc j)).

Lemma with_parent_id p : with_parent (vparent p) p = p.
Proof. by destruct p. Qed.

Lemma woke_moved l l' : Forall2 woke l l' -> moved (fun _ p => vparent p) l l'.
Proof.
  intros H. split; [symmetry; by eapply Forall2_length|]. intros j p Hj.
  destruct (Forall2_lookup_l _ _ _ _ _ H Hj) as (p' & Hj' & Hp). exists p'. by rewrite with_parent_id.
Qed.

Lemma woke_parent x p p' : woke p p' -> woke (with_parent x p) (with_parent x p').
Proof. intros [->|[H ->]]; [by left|]. right. done. Qed.

Lemma woke_fields p p' : woke p p' -> vpid p' = vpid p /\ vparent p' = vparent p /\ vchan p' = vchan p /\ vkilled p' = vkilled p.
Proof. intros [->|[_ ->]]; done. Qed.

Lemma moved_trans f g h l1 l2 l3 : (forall j p p', woke (with_parent (f j p) p) p' -> g j p' = h j p) ->
  moved f l1 l2 -> moved g l2 l3 -> moved h l1 l3.
Proof.
  intros Hfg [H1 H2] [H3 H4]. split; [congruence|]. intros j p Hp.
  destruct (H2 j p Hp) as (p' & Hp' & W1). destruct (H4 j p' Hp') as (p'' & Hp'' & W2). exists p''. split; [done|].
  apply (woke_parent (h j p)) in W1. rewrite (Hfg j p p') in W2 by (by destruct (H2 j p Hp) as (? & ? & ?); simplify_eq).
  etransitivity; [|exact W2]. exact W1.
Qed.

Lemma awake_woke j p p' : woke p p' -> vstate p' = SLEEPING /\ vchan p' = Some (WProc j) ->
  vstate p = SLEEPING /\ vchan p = Some (WProc j).
Proof. intros [->|[_ ->]]; [done|]. by intros [? _]. Qed.

Lemma awake_moved f j l l' : moved f l l' -> awake j l -> awake j l'.
Proof.
  intros [Hl Hm] Ha p' Hp' Hs. destruct (lookup_lt_is_Some_2 l j) as [p Hp].
  { rewrite <- Hl. by eapply lookup_lt_Some. }
  destruct (Hm j p Hp) as (q & Hq & Hw). rewrite Hp' in Hq. injection Hq as <-.
  apply (Ha p Hp). by apply (awake_woke j (with_parent (f j p) p) p' Hw).
Qed.

Lemma twake_awake j l : awake j (twake (WProc j) l).
Proof.
  intros p'. unfold twake. rewrite list_lookup_fmap. intros (p & Hp & ->)%fmap_Some [H1 H2].
  destruct (bool_decide (vstate p = SLEEPING) && bool_decide (vchan p = Some (WProc j))) eqn:E; [done|].
  rewrite !bool_decide_eq_true_2 in E by done. done.
Qed.

Definition reparent (me ip : nat) (p : pv) : option nat :=
  if decide (vparent p = Some me) then Some ip else vparent p.

Lemma vs_wakeup1 c v (Q : unit -> view -> Prop) : Q tt (on_tab (twake c) v) ->
  vspec (kmod (fun k => set_ptable (wakeup1 c (ptable k)) k)) v Q.
Proof. intros HQ. apply vs_kmod. intros k <-. by rewrite kview_wakeup1. Qed.

Lemma vs_reparent i v (Q : unit -> view -> Prop) : Q tt (on_tab (alter (with_parent (vinit v)) i) v) ->
  vspec (kmod (fun k => upd_proc i (set_parent (initproc k)) k)) v Q.
Proof. intros HQ. apply vs_kmod. intros k <-. by rewrite (kview_upd_proc i _ (with_parent (initproc k))). Qed.

(** Entries from [i] on, [n] of them. *)
Definition in_range (i n j : nat) : Prop := (i <= j < i + n)%nat.
#[export] Instance in_range_dec i n j : Decision (in_range i n j).
Proof. unfold in_range. apply _. Defined.

Definition kids_done (me ip i n : nat) (l l' : list pv) : Prop :=
  moved (fun j p => if decide (in_range i n j) then reparent me ip p else vparent p) l l' /\
  ((exists c p, in_range i n c /\ l !! c = Some p /\ vparent p = Some me /\ vstate p = ZOMBIE) -> awake ip l').

(** One entry, then the rest. *)
Lemma kids_step me ip i n l l1 l2 : ip <> me -> kids_done me ip i 1 l l1 -> kids_done me ip (S i) n l1 l2 ->
  kids_done me ip i (S n) l l2.
Proof.
  intros Hne [H1 Z1] [H2 Z2]. split.
  - eapply moved_trans; [|exact H1|exact H2]. intros j p p' Hw. apply woke_fields in Hw as (_ & Hp & _ & _). cbn in Hp.
    unfold in_range, reparent in *. rewrite !Hp. repeat case_decide; try lia; congruence.
  - intros (c & p & Hc & Hp & Hpar & Hz). destruct (decide (c = i)) as [->|Hci].
    + apply (awake_moved _ _ _ _ H2), Z1. exists i, p. unfold in_range. split_and!; (done || lia).
    + apply Z2. destruct (proj2 H1 c p Hp) as (p' & Hp' & Hw). exists c, p'.
      rewrite decide_False in Hw by (unfold in_range in *; lia). rewrite with_parent_id in Hw.
      destruct Hw as [->|[Hw ->]]; [|by rewrite Hz in Hw]. split_and!; try done. unfold in_range in *. lia.
Qed.

(** One entry. *)
Definition exit_child (k : kernel) (i : nat) : P unit :=
  if bool_decide (is_Some (cur k)) && bool_decide (parent (the_proc k i) = cur k) then
    kmod (fun k => upd_proc i (set_parent (initproc k)) k) >>>
    if bool_decide (state (the_proc k i) = ZOMBIE) then
      match initproc k with Some ip => kmod (fun k => set_ptable (wakeup1 (WProc ip) (ptable k)) k) | None => Ret tt end
    else Ret tt
  else Ret tt.

Lemma kid_moved me ip i l : (forall p, l !! i = Some p -> vparent p = Some me) ->
  moved (fun j p => if decide (in_range i 1 j) then reparent me ip p else vparent p) l (alter (with_parent (Some ip)) i l).
Proof.
  intros Hp. split; [apply length_alter|]. intros j p Hj. destruct (decide (j = i)) as [->|Hji].
  - exists (with_parent (Some ip) p). rewrite list_lookup_alter_eq, Hj. split; [done|]. left.
    rewrite decide_True by (unfold in_range; lia). unfold reparent. by rewrite decide_True by (by apply Hp).
  - exists p. rewrite list_lookup_alter_ne by done. split; [done|]. left.
    rewrite decide_False by (unfold in_range; lia). by rewrite with_parent_id.
Qed.

Lemma kid_spec me ip i k v : kview k = v -> vcur v = Some me -> vinit v = Some ip -> ip <> me ->
  vspec (exit_child k i) v (fun _ v' => vrel_on (kids_done me ip i 1) v v').
Proof.
  intros Hk Hme Hip Hne. assert (Hck : cur k = Some me) by (by rewrite <- Hk in Hme).
  assert (Hik : initproc k = Some ip) by (by rewrite <- Hk in Hip).
  unfold exit_child. rewrite Hck, Hik. rewrite (bool_decide_eq_true_2 (is_Some (Some me))) by done. cbn [andb].
  assert (Hpv : forall p, vtab v !! i = Some p -> the_proc k i = the_proc k i /\ p = pview (the_proc k i)).
  { intros p Hp. destruct (view_proc k v i p Hk Hp) as (q & Hq & <-). unfold the_proc. by rewrite Hq. }
  case_bool_decide as Hpar.
  - apply vs_bind, vs_reparent. rewrite Hip.
    assert (Hmv := kid_moved me ip i (vtab v) ltac:(intros p (_ & ->)%Hpv; done)).
    case_bool_decide as Hz.
    + apply vs_wakeup1. split; [|done]. cbn [on_tab vtab]. split; [|intros _; apply twake_awake].
      eapply moved_trans; [|exact Hmv|apply woke_moved, twake_woke]. intros j p p' Hw. by apply woke_fields in Hw as (_ & -> & _).
    + apply vs_ret. split; [|done]. split; [done|]. intros (c & p & Hc & Hp & _ & Hzp). exfalso.
      assert (c = i) as -> by (unfold in_range in Hc; lia). apply Hpv in Hp as (_ & ->). done.
  - apply vs_ret. split; [|done]. split.
    + split; [done|]. intros j p Hj. exists p. split; [done|]. left. unfold reparent.
      case_decide as Hr; [case_decide as Hme'|]; [|by rewrite with_parent_id..].
      assert (j = i) as -> by (unfold in_range in Hr; lia). apply Hpv in Hj as (_ & ->). done.
    + intros (c & p & Hc & Hp & Hm & _). exfalso. assert (c = i) as -> by (unfold in_range in Hc; lia).
      apply Hpv in Hp as (_ & ->). done.
Qed.

Lemma exit_children_spec me ip n : ip <> me -> forall i v, vcur v = Some me -> vinit v = Some ip ->
  vspec (exit_children n i) v (fun _ v' => vrel_on (kids_done me ip i n) v v').
Proof.
  intros Hne. induction n as [|n IH]; intros i v Hme Hip.
  - apply vs_ret. split; [|done]. split.
    + split; [done|]. intros j p Hj. exists p. split; [done|]. left.
      rewrite decide_False by (unfold in_range; lia). by rewrite with_parent_id.
    + intros (c & p & Hc & _). unfold in_range in Hc. lia.
  - cbn [exit_children]. apply vs_bind, vs_gets. intros k Hk. apply vs_bind. eapply vs_conseq; [by apply (kid_spec me ip i k v)|].
    intros _ v1 (K1 & R1 & R2 & R3 & R4 & R5 & R6 & R7). eapply vs_conseq; [apply IH; congruence|].
    intros _ v2 (K2 & S1 & S2 & S3 & S4 & S5 & S6 & S7). split; [by eapply kids_step|]. split_and!; congruence.
Qed.

(** The table after [exit] of [me]. *)
Record exit_post (me ip : nat) (l l' : list pv) : Prop := {
  ex_len : length l' = length l;
  ex_me p : l !! me = Some p -> exists p', l' !! me = Some p' /\ vstate p' = ZOMBIE /\ vpid p' = vpid p /\
    vparent p' = reparent me ip p;
  ex_other j p : l !! j = Some p -> j <> me -> exists p', l' !! j = Some p' /\ woke (with_parent (reparent me ip p) p) p';
  ex_parent p pp : l !! me = Some p -> vparent p = Some pp -> pp <> me -> awake pp l';
  ex_kids c p : l !! c = Some p -> vparent p = Some me -> vstate p = ZOMBIE -> awake ip l'
}.

(** The rest of the view after a switch to the scheduler. *)
Definition vswitch (v v' : view) : Prop :=
  vheld v' /\ vnext v' = vnext v /\ vinit v' = vinit v /\ vid v' = vid v /\ vcur v' = vcur v /\ vlks v' = vlks v.

Lemma sched_spec v (Q : bool -> view -> Prop) : (vheld v -> Q (intena (vcpu v)) v) -> vspec sched v Q.
Proof.
  intros HQ. unfold sched. apply vs_bind, vs_gets. intros k Hk. cbn [id]. rewrite <- Hk in HQ |- *.
  destruct (holding (cpuid k) (ptlock k)) eqn:E1; cbn [negb]; [|apply vs_panic].
  destruct (Z.eqb_spec (ncli (kcpu k)) 1) as [E2|]; cbn [negb]; [|apply vs_panic]. vs. by apply HQ.
Qed.

(** The pieces of [exit] together. *)
Lemma exit_tables me ip l l2 l3 : ip <> me -> moved (fun _ p => vparent p) l l2 ->
  (forall p pp, l !! me = Some p -> vparent p = Some pp -> awake pp l2) -> kids_done me ip 0 (length l) l2 l3 ->
  exit_post me ip l (alter (with_state ZOMBIE) me l3).
Proof.
  intros Hne M2 A2 [M3 A3].
  assert (M12 : forall j p, l !! j = Some p -> exists p2, l2 !! j = Some p2 /\ woke p p2).
  { intros j p Hp. destruct (proj2 M2 j p Hp) as (p2 & Hp2 & V2). rewrite with_parent_id in V2. by exists p2. }
  assert (M13 : forall j p, l !! j = Some p -> exists p3, l3 !! j = Some p3 /\ woke (with_parent (reparent me ip p) p) p3).
  { intros j p Hp. destruct (M12 j p Hp) as (p2 & Hp2 & V2). destruct (proj2 M3 j p2 Hp2) as (p3 & Hp3 & V3).
    exists p3. split; [done|]. rewrite decide_True in V3 by (apply lookup_lt_Some in Hp; unfold in_range; lia).
    pose proof (woke_fields _ _ V2) as (_ & Hpar & _ & _). etransitivity; [by apply woke_parent|].
    unfold reparent in *. by rewrite Hpar in V3. }
  assert (Hal : forall j, j <> me -> awake j l3 -> awake j (alter (with_state ZOMBIE) me l3)).
  { intros j Hj Ha p. rewrite list_lookup_alter_ne by done. apply Ha. }
  split.
  - rewrite length_alter, (proj1 M3), (proj1 M2). done.
  - intros p Hp. destruct (M13 me p Hp) as (p3 & Hp3 & V3). exists (with_state ZOMBIE p3).
    rewrite list_lookup_alter_eq, Hp3. apply woke_fields in V3 as (V1 & V2 & _). done.
  - intros j p Hp Hj. rewrite list_lookup_alter_ne by done. by apply M13.
  - intros p pp Hp Hpp Hpm. apply Hal; [done|]. apply (awake_moved _ _ _ _ M3).
    by apply (A2 p pp Hp).
  - intros c p Hc Hpar Hz. apply Hal; [done|]. apply A3. destruct (M12 c p Hc) as (p2 & Hp2 & V2). exists c, p2.
    destruct V2 as [->|[V2 _]]; [|congruence]. split_and!; try done. apply lookup_lt_Some in Hc. unfold in_range. lia.
Qed.

Lemma exit_last_spec v me ip : vidle v -> vcur v = Some me -> vinit v = Some ip -> ip <> me -> length (vtab v) = NPROC ->
  vspec exit_last v (fun _ v' => exit_post me ip (vtab v) (vtab v') /\ locked (vlock v) = 0 /\ vswitch v v').
Proof.
  intros Hf Hme Hip Hne Hlen. unfold exit_last. apply vs_bind, vs_acquire; [done|]. intros Hl.
  apply vs_bind, vs_conseq with (Q := fun _ v2 => vrel_on (fun l l' => moved (fun _ p => vparent p) l l' /\
    forall p pp, l !! me = Some p -> vparent p = Some pp -> awake pp l') (vacq v) v2).
  { apply vs_bind, vs_gets. intros k1 Hk1.
    assert (Hpar : forall p, vtab v !! me = Some p -> parent (myproc k1) = vparent p).
    { intros p Hp. destruct (view_proc k1 (vacq v) me p Hk1 Hp) as (q & Hq & <-). unfold myproc.
      rewrite (f_equal vcur Hk1 : cur k1 = _). cbn. rewrite Hme. cbn. by rewrite Hq. }
    destruct (parent (myproc k1)) as [pp|] eqn:Epp.
    - apply vs_wakeup1. split; [|done]. cbn [on_tab vtab vacq with_lock]. split; [apply woke_moved, twake_woke|].
      intros p pp' Hp Hpp. rewrite <- (Hpar p Hp) in Hpp. injection Hpp as <-. apply twake_awake.
    - apply vs_ret. split; [|done]. split; [by apply woke_moved; reflexivity|]. intros p pp Hp Hpp.
      pose proof (Hpar p Hp). congruence. }
  intros _ v2 ([M2 W2] & B1 & B2 & B3 & B4 & B5 & B6 & B7). apply vs_bind.
  eapply vs_conseq; [apply (exit_children_spec me ip); cbn in *; congruence|].
  intros _ v3 ([M3 W3] & C1 & C2 & C3 & C4 & C5 & C6 & C7). apply vs_bind.
  apply (vs_cur me _ (with_state ZOMBIE)); [cbn in *; congruence|done|]. apply sched_spec. intros Hh.
  split; [|split; [done|]].
  - cbn [vtab on_tab]. apply (exit_tables me ip (vtab v) (vtab v2) (vtab v3)); try done. rewrite Hlen. by split.
  - split; [exact Hh|]. cbn in *. split_and!; congruence.
Qed.

(** ** [wait], [sleep], [yield] and [kill] *)

(** [scan_spec]: the first zombie child, or none. *)
Lemma wait_scan_spec me l : forall i hk, match wait_scan (Some me) l i hk with
  | (Some j, _) => exists m p, j = (i + m)%nat /\ l !! m = Some p /\ parent p = Some me /\ state p = ZOMBIE
  | (None, b) => (forall m p, l !! m = Some p -> parent p = Some me -> state p <> ZOMBIE) /\
      (b = true <-> hk = true \/ exists m p, l !! m = Some p /\ parent p = Some me)
  end.
Proof.
  induction l as [|p l IH]; intros i hk; cbn [wait_scan].
  { split; [done|]. split; [by left|]. intros [?|(m & q & [=] & _)]. done. }
  assert (Hlk : forall (Q : proc -> Prop), Q p -> (forall m q, l !! m = Some q -> Q q) ->
    forall m q, (p :: l) !! m = Some q -> Q q) by (intros Q H1 H2 [|m] q; [by intros [= <-]|apply H2]).
  case_bool_decide as Hp; cbn [negb].
  - case_bool_decide as Hz; [exists 0%nat, p; by rewrite Nat.add_0_r|]. specialize (IH (S i) true).
    destruct (wait_scan (Some me) l (S i) true) as [[j|] b].
    + destruct IH as (m & q & -> & H). exists (S m), q. by rewrite Nat.add_succ_r.
    + destruct IH as [H1 H2]. split; [by apply (Hlk (fun q => parent q = Some me -> state q <> ZOMBIE))|].
      split; [intros _; right; by exists 0%nat, p|]. intros _. apply H2. by left.
  - specialize (IH (S i) hk). destruct (wait_scan (Some me) l (S i) hk) as [[j|] b].
    + destruct IH as (m & q & -> & H). exists (S m), q. by rewrite Nat.add_succ_r.
    + destruct IH as [H1 H2]. split; [by apply (Hlk (fun q => parent q = Some me -> state q <> ZOMBIE))|].
      rewrite H2. split; (intros [?|(m & q & Hq & ?)]; [by left|right]); [by exists (S m), q|].
      destruct m as [|m]; [by injection Hq as <-|by exists m, q].
Qed.

Definition reaped (p : pv) : pv := PV UNUSED 0 None (vchan p) false.
Definition asleep (c : wchan) (p : pv) : pv := PV SLEEPING (vpid p) (vparent p) (Some c) (vkilled p).

(** A round of [wait] by [me], with the lock held. *)
Inductive wait_post (me : nat) (v : view) : Z + bool -> view -> Prop :=
| WaitReap v' i p : vtab v !! i = Some p -> vparent p = Some me -> vstate p = ZOMBIE ->
    vtab v' = alter reaped i (vtab v) -> vfree v' -> wait_post me v (inl (vpid p)) v'
| WaitNone v' p : vtab v !! me = Some p ->
    (forall i q, vtab v !! i = Some q -> vparent q <> Some me) \/ vkilled p = true ->
    vtab v' = vtab v -> vfree v' -> wait_post me v (inl (-1)) v'
| WaitSleep v' e : (forall i q, vtab v !! i = Some q -> vparent q = Some me -> vstate q <> ZOMBIE) ->
    (exists i q, vtab v !! i = Some q /\ vparent q = Some me) ->
    vtab v' = alter (asleep (WProc me)) me (vtab v) -> vheld v' -> wait_post me v (inr e) v'.

(** The view but for the table and the lock. *)
Definition vsame (v v' : view) : Prop :=
  vnext v' = vnext v /\ vinit v' = vinit v /\ vid v' = vid v /\ vcur v' = vcur v /\ vlks v' = vlks v.

(** The end of [sleep1], with the lock of the table held. *)
Lemma vs_asleep v me c (Q : bool -> view -> Prop) : vcur v = Some me ->
  (forall e v', vtab v' = alter (asleep c) me (vtab v) -> vheld v' -> vlock v' = vlock v -> vcpu v' = vcpu v -> vsame v v' -> Q e v') ->
  vspec (upd_cur (set_chan (Some c)) >>> upd_cur (set_state SLEEPING) >>> sched) v Q.
Proof.
  intros Hme HQ. apply vs_bind, (vs_cur me _ (with_chan (Some c))); [done|done|].
  apply vs_bind, (vs_cur me _ (with_state SLEEPING)); [done|done|]. apply sched_spec. intros Hh.
  apply HQ; try done. cbn. by rewrite list_alter_alter_eq.
Qed.

(** [sleep] with the lock of the table. *)
Lemma sleep1_pt_spec v me c : vcur v = Some me ->
  vspec (sleep1 (Some PtableLock) c) v (fun e v' => vtab v' = alter (asleep c) me (vtab v) /\ vheld v' /\ vsame v v').
Proof.
  intros Hme. unfold sleep1. apply vs_bind, vs_gets. intros k Hk. rewrite (f_equal vcur Hk : cur k = _), Hme.
  apply vs_bind, vs_ret. by apply (vs_asleep v me).
Qed.

(** [sleep] with another lock, which this CPU must hold, and no other. *)
Lemma sleep1_spec v me lk c : vcur v = Some me -> lk <> PtableLock ->
  vspec (sleep1 (Some lk) c) v (fun e v' => vtab v' = alter (asleep c) me (vtab v) /\ vheld v' /\
    locked (vlock v) = 0 /\ holding (vid v) (vlk v lk) = true /\ s32 (s32 (ncli (vcpu v) + 1) - 1) = 1 /\
    vlks v' = <[lk := given v lk]> (vlks v) /\
    vnext v' = vnext v /\ vinit v' = vinit v /\ vid v' = vid v /\ vcur v' = vcur v).
Proof.
  intros Hme Hlk. unfold sleep1. apply vs_bind, vs_gets. intros k Hk. rewrite (f_equal vcur Hk : cur k = _), Hme.
  rewrite bool_decide_eq_true_2 by done. apply vs_bind, vs_bind, vs_acquire_lk. intros Hl.
  apply vs_release_lk. intros Hh Hi Hn. unfold with_lk, vlk, given in *. rewrite !(bool_decide_eq_true_2 (PtableLock = _)) in * by done.
  rewrite !(bool_decide_eq_false_2 (lk = _)) in * by done. cbn [vcpu with_lock pushcli ncli vlks vid] in *.
  apply (vs_asleep _ me); [done|]. intros e v' T1 H1 L1 C1 (S1 & S2 & S3 & S4 & S5). cbn in *.
  destruct H1 as (H1 & H2 & H3). split_and!; try done; [by rewrite C1 in H2| |congruence].
  rewrite S5. unfold vlk. by rewrite !bool_decide_eq_false_2 by done.
Qed.

Lemma wait_round_spec v me : vheld v -> vcur v = Some me -> (me < length (vtab v))%nat ->
  vspec (wait_round kend) v (fun r v' => wait_post me v r v' /\ vsame v v').
Proof.
  intros Hh Hme Hlt. unfold wait_round. apply vs_bind, vs_gets. intros k Hk. cbn [id].
  assert (Hck : cur k = Some me) by (by rewrite <- Hk in Hme). rewrite Hck.
  pose proof (wait_scan_spec me (ptable k) 0 false) as Hs.
  assert (Hlk : forall i q, vtab v !! i = Some q -> exists p, ptable k !! i = Some p /\ pview p = q)
    by (intros i q; by apply view_proc).
  destruct (wait_scan (Some me) (ptable k) 0 false) as [[i|] b].
  - destruct Hs as (m & p & -> & Hp & Hpar & Hz). cbn [Nat.add]. pose proof (view_lookup _ _ _ Hp) as Hv. rewrite Hk in Hv.
    unfold reap. vs. apply (vs_upd _ _ reaped); [done|]. vs.
    match goal with H : kview ?k1 = v |- context [pid (the_proc ?k1 m)] =>
      destruct (view_proc _ _ m _ H Hv) as (q & Hq & Hpv); unfold the_proc; rewrite Hq end. cbn [default from_option id].
    injection Hpv as _ -> _ _ _. split; [|done]. by apply (WaitReap me v _ m (pview p)).
  - destruct Hs as [Hnz Hb]. destruct (lookup_lt_is_Some_2 _ _ Hlt) as [pm Hpm].
    assert (Hkl : killed (myproc k) = vkilled pm).
    { destruct (Hlk me pm Hpm) as (q & Hq & <-). unfold myproc. rewrite Hck. cbn. by rewrite Hq. }
    destruct (negb b || killed (myproc k)) eqn:Eb.
    + vs. split; [|done]. apply (WaitNone me v _ pm); try done. destruct b; [|left].
      * right. by rewrite <- Hkl.
      * intros i q Hq Hqm. destruct (Hlk i q Hq) as (p & Hp & <-). assert (false = true); [|done].
        apply Hb. right. by exists i, p.
    + apply orb_false_iff in Eb as [Eb _]. apply negb_false_iff in Eb as ->. cbn [default from_option id].
      apply vs_bind. eapply vs_conseq; [by apply (sleep1_pt_spec v me)|]. intros e v1 (T1 & H1 & S1). apply vs_ret.
      split; [|done]. apply WaitSleep; try done.
      * intros i q Hq. destruct (Hlk i q Hq) as (p & Hp & <-). by apply (Hnz i p).
      * destruct (proj1 Hb eq_refl) as [?|(m & p & Hp & Hpar)]; [done|]. exists m, (pview p). split; [|done].
        rewrite <- Hk. by apply view_lookup.
Qed.

Lemma wait1_spec v me : vidle v -> vcur v = Some me -> (me < length (vtab v))%nat ->
  vspec (wait1 kend) v (fun r v' => wait_post me v r v' /\ locked (vlock v) = 0 /\ vsame v v').
Proof.
  intros Hf Hme Hlt. unfold wait1. apply vs_bind, vs_acquire; [done|]. intros Hl.
  eapply vs_conseq; [by apply (wait_round_spec (vacq v) me)|]. intros r v' [Hw Hs]. split; [|done].
  inversion Hw; subst; by econstructor.
Qed.

Lemma sched2_spec e v (Q : unit -> view -> Prop) :
  Q tt (with_lock (Cpu (ncli (vcpu v)) e (ifl (vcpu v))) (vlock v) v) -> vspec (sched2 e) v Q.
Proof. intros HQ. apply vs_kmod. intros k <-. exact HQ. Qed.

(** The end of [sleep] and of [yield]. *)
Lemma sleep2_spec v me lk e : vheld v -> vcur v = Some me ->
  vspec (sleep2 lk e) v (fun _ v' => vtab v' = alter (with_chan None) me (vtab v) /\
    (if decide (lk = PtableLock) then vheld v' else vfree v') /\ vsame v v').
Proof.
  intros Hh Hme. unfold sleep2. apply vs_bind, sched2_spec.
  apply vs_bind, (vs_cur me _ (with_chan None)); [done|done|].
  destruct (decide (lk = PtableLock)) as [->|]; [|rewrite bool_decide_eq_true_2 by done]; by vs.
Qed.

Lemma yield1_spec v me : vcur v = Some me ->
  vspec yield1 v (fun _ v' => vtab v' = alter (with_state RUNNABLE) me (vtab v) /\ vheld v' /\
    locked (vlock v) = 0 /\ s32 (ncli (vcpu v) + 1) = 1 /\ vsame v v').
Proof.
  intros Hme. unfold yield1. apply vs_bind, vs_acquire_lk. intros Hl. apply vs_bind.
  unfold with_lk. rewrite bool_decide_eq_true_2 by done.
  apply (vs_cur me _ (with_state RUNNABLE)); [done|done|]. apply sched_spec. intros Hh. split_and!; try done. apply Hh.
Qed.

Lemma yield2_spec v e : vheld v -> vspec (yield2 e) v (fun _ v' => vtab v' = vtab v /\ vfree v' /\ vsame v v').
Proof. intros Hh. unfold yield2. apply vs_bind, sched2_spec. vs. done. Qed.

Lemma forkret_spec v : vheld v -> vspec forkret_run v (fun _ v' => vtab v' = vtab v /\ vfree v' /\ vsame v v').
Proof. intros Hh. unfold forkret_run. vs. apply vs_kmod. intros k1 Hk1.
  change (kview (set_first false k1)) with (kview k1). rewrite Hk1. vs. done. Qed.

Lemma wait2_spec v me e : vheld v -> vcur v = Some me -> (me < length (vtab v))%nat ->
  vspec (wait2 kend e) v (fun r v' => exists v1, vtab v1 = alter (with_chan None) me (vtab v) /\ vheld v1 /\ vsame v v1 /\
    wait_post me v1 r v' /\ vsame v1 v').
Proof.
  intros Hh Hme Hlt. unfold wait2. apply vs_bind. eapply vs_conseq; [by apply (sleep2_spec v me PtableLock)|].
  intros _ v1 (T1 & H1 & S1 & S2 & S3 & S4 & S5). eapply vs_conseq; [apply (wait_round_spec v1 me); try done|].
  - congruence.
  - by rewrite T1, length_alter.
  - intros r v' [Hw HR]. exists v1. by split_and!.
Qed.

Lemma find_pid_spec n l : forall i j, find_pid n l i = Some j -> exists m p, j = (i + m)%nat /\ l !! m = Some p /\ pid p = n.
Proof.
  induction l as [|p l IH]; intros i j; cbn [find_pid]; [done|]. destruct (Z.eqb_spec (pid p) n) as [Hp|Hp].
  - intros [= <-]. exists 0%nat, p. by rewrite Nat.add_0_r.
  - intros (m & q & -> & Hm & Hq)%IH. exists (S m), q. by rewrite Nat.add_succ_r.
Qed.

Definition killed_pv (p : pv) : pv :=
  PV (if bool_decide (vstate p = SLEEPING) then RUNNABLE else vstate p) (vpid p) (vparent p) (vchan p) true.

Lemma kill_spec v n : vidle v -> vspec (kill n) v (fun r v' => vfree v' /\ locked (vlock v) = 0 /\ vsame v v' /\
  (r = -1 /\ vtab v' = vtab v \/
   r = 0 /\ exists i p, vtab v !! i = Some p /\ vpid p = n /\ vtab v' = alter killed_pv i (vtab v))).
Proof.
  intros Hf. unfold kill. vs. destruct (find_pid n (ptable k) 0) as [i|] eqn:Ei; vs.
  - apply find_pid_spec in Ei as (m & p & -> & Hm & Hp). apply view_lookup in Hm. rewrite Hk in Hm. cbn [Nat.add] in *.
    apply (vs_upd _ _ (with_killed true)); [done|]. vs.
    apply (vs_upd _ _ (fun p => if bool_decide (vstate p = SLEEPING) then with_state RUNNABLE p else p)).
    { intros q. cbn. by destruct (bool_decide (state q = SLEEPING)). }
    vs. split_and!; [done..|]. right. split; [done|]. exists m, (pview p). split_and!; [done|done|].
    cbn. rewrite list_alter_alter_eq. apply list_alter_ext; [|done]. intros q _. unfold compose, killed_pv. cbn.
    by destruct (bool_decide (vstate q = SLEEPING)).
  - split_and!; [done..|]. by left.
Qed.

(** ** The scheduler *)

Lemma find_runnable_spec l : forall i, match find_runnable l i with
  | Some j => exists m p, j = (i + m)%nat /\ l !! m = Some p /\ state p = RUNNABLE /\
      forall m' p', (m' < m)%nat -> l !! m' = Some p' -> state p' <> RUNNABLE
  | None => forall m p, l !! m = Some p -> state p <> RUNNABLE
  end.
Proof.
  induction l as [|p l IH]; intros i; cbn [find_runnable]; [done|]. case_bool_decide as Hp.
  - exists 0%nat, p. rewrite Nat.add_0_r. split_and!; [done..|]. lia.
  - specialize (IH (S i)). destruct (find_runnable l (S i)) as [j|].
    + destruct IH as (m & q & -> & Hm & Hq & Hb). exists (S m), q. rewrite Nat.add_succ_r. split_and!; [done..|].
      intros [|m'] p' Hlt; [by intros [= <-]|]. apply Hb. lia.
    + intros [|m] q; [by intros [= <-]|apply IH].
Qed.

Lemma scheduler_next_spec v j : vheld v -> vspec (scheduler_next j) v (fun r v' =>
  match r with
  | Some i => (j <= i)%nat /\ (exists p, vtab v !! i = Some p /\ vstate p = RUNNABLE) /\
      (forall m p, (j <= m < i)%nat -> vtab v !! m = Some p -> vstate p <> RUNNABLE) /\
      vtab v' = alter (with_state RUNNING) i (vtab v) /\ vheld v' /\ vcur v' = Some i /\
      vnext v' = vnext v /\ vinit v' = vinit v /\ vid v' = vid v /\ vlks v' = vlks v
  | None => (forall m p, (j <= m)%nat -> vtab v !! m = Some p -> vstate p <> RUNNABLE) /\ vtab v' = vtab v /\ vfree v' /\ vsame v v'
  end).
Proof.
  intros Hh. unfold scheduler_next. apply vs_bind, vs_gets. intros k Hk.
  assert (Hlk : forall i q, vtab v !! i = Some q -> exists p, ptable k !! i = Some p /\ pview p = q)
    by (intros i q; by apply view_proc).
  pose proof (find_runnable_spec (drop j (ptable k)) j) as Hs.
  destruct (find_runnable (drop j (ptable k)) j) as [i|].
  - destruct Hs as (m & p & -> & Hm & Hp & Hb). rewrite lookup_drop in Hm.
    apply vs_bind, vs_kmod. intros k1 Hk1.
    apply vs_bind. apply (vs_upd _ _ (with_state RUNNING)); [done|]. apply vs_ret.
    assert (E1 : kview (set_cur (Some (j + m)%nat) k1) = with_cur (Some (j + m)%nat) v) by (by rewrite <- Hk1).
    rewrite E1. split; [lia|]. split_and!; try done.
    + exists (pview p). split; [|done]. rewrite <- Hk. by apply view_lookup.
    + intros m' q Hm' Hq. destruct (Hlk m' q Hq) as (p' & Hp' & <-). apply (Hb (m' - j)%nat); [lia|].
      rewrite lookup_drop. by replace (j + (m' - j))%nat with m' by lia.
  - vs. split_and!; try done. intros m q Hm Hq. destruct (Hlk m q Hq) as (p' & Hp' & <-). apply (Hs (m - j)%nat).
    rewrite lookup_drop. by replace (j + (m - j))%nat with m by lia.
Qed.

End specs.
