(* ===== verification/ProcTable.v ===== *)
(** * Invariants of the process table and of the locks

    What is true of every process table that the functions of proc.c can make,
    of the slots that processes in the middle of [fork] are filling, and of the
    locks that the CPUs hold; and that the effects of the functions, as given
    in ProcSpec.v, keep it. *)

From stdpp Require Import base numbers list gmap strings relations.
From Stdlib Require Import ZArith Lia.
From S2P Require Import Prelude Disk Bio Log Blk Kstring Printf Ring Console Pipe Kalloc Fs Icache Vm Spinlock Kernel File Proc ProcSpec.

Local Open Scope Z_scope.

(** ** The invariant of the table *)

Definition live (p : pv) : Prop := vstate p <> UNUSED /\ vstate p <> EMBRYO /\ vstate p <> ZOMBIE.

Record tinv (ip : nat) (l : list pv) : Prop := {
  ti_len : length l = NPROC;
  ti_init : exists p, l !! ip = Some p /\ live p /\ vparent p = None;
  ti_orphan i p : l !! i = Some p -> vparent p = None -> vstate p = UNUSED \/ vstate p = EMBRYO \/ i = ip;
  ti_parent i p j : l !! i = Some p -> vparent p = Some j ->
    vstate p <> UNUSED /\ j <> i /\ exists q, l !! j = Some q /\ live q;
  ti_self i p j : l !! i = Some p -> vstate p = SLEEPING -> vchan p = Some (WProc j) -> j = i;
  ti_wait i p c q : l !! i = Some p -> vstate p = SLEEPING -> vchan p = Some (WProc i) ->
    l !! c = Some q -> vparent q = Some i -> vstate q <> ZOMBIE
}.

(** The identifiers that have been given out are below [next]. *)
Record pinv (next : Z) (l : list pv) : Prop := {
  pi_pid i p : l !! i = Some p -> vstate p <> UNUSED -> 0 < vpid p < next;
  pi_uniq i j p q : l !! i = Some p -> l !! j = Some q -> vstate p <> UNUSED -> vstate q <> UNUSED ->
    vpid p = vpid q -> i = j
}.

(** No slot is newly in use, and those in use keep their identifiers. *)
Definition kept (l l' : list pv) : Prop :=
  forall i p', l' !! i = Some p' -> vstate p' <> UNUSED ->
    exists p, l !! i = Some p /\ vstate p <> UNUSED /\ vpid p' = vpid p.

Lemma pinv_kept next l l' : pinv next l -> kept l l' -> pinv next l'.
Proof.
  intros [P1 P2] HK. split.
  - intros i p' Hp' Hu. destruct (HK i p' Hp' Hu) as (p & Hp & Hu' & ->). by apply (P1 i p).
  - intros i j p' q' Hp' Hq' Hu Hu'. destruct (HK i p' Hp' Hu) as (p & Hp & U1 & ->).
    destruct (HK j q' Hq' Hu') as (q & Hq & U2 & ->). by apply (P2 i j p q).
Qed.

(** Changes of an entry that do not touch what the invariant says. *)
Definition benign (p p' : pv) : Prop :=
  (vstate p <> UNUSED -> vpid p' = vpid p) /\ vparent p' = vparent p /\
  (vstate p' = UNUSED <-> vstate p = UNUSED) /\ (vstate p' = ZOMBIE <-> vstate p = ZOMBIE) /\
  (vstate p' = EMBRYO <-> vstate p = EMBRYO) /\
  (forall j, vstate p' = SLEEPING -> vchan p' = Some (WProc j) -> vstate p = SLEEPING /\ vchan p = Some (WProc j)).

#[export] Instance benign_refl : Reflexive benign.
Proof. intros p. by split_and!. Qed.

Lemma woke_benign p p' : woke p p' -> benign p p'.
Proof. intros [->|[H ->]]; [reflexivity|]. unfold benign. cbn. rewrite H. by split_and!. Qed.

Lemma Forall2_back {A} (R : relation A) l l' i p' : Forall2 R l l' -> l' !! i = Some p' -> exists p, l !! i = Some p /\ R p p'.
Proof. intros H Hi. destruct (Forall2_lookup_r _ _ _ _ _ H Hi) as (p & ? & ?). by exists p. Qed.

Lemma benign_live p p' : benign p p' -> live p -> live p'.
Proof. intros (_ & _ & B3 & B4 & B5 & _) (L1 & L2 & L3). unfold live. by rewrite B3, B4, B5. Qed.

Lemma tinv_benign ip l l' : tinv ip l -> Forall2 benign l l' -> tinv ip l'.
Proof.
  intros [T1 T2 T4 T5 T6 T7] HF.
  assert (Hb : forall i p', l' !! i = Some p' -> exists p, l !! i = Some p /\ benign p p') by (intros; by eapply Forall2_back).
  assert (Hf : forall i p, l !! i = Some p -> live p -> exists p', l' !! i = Some p' /\ live p' /\ vparent p' = vparent p).
  { intros i p Hi L. destruct (Forall2_lookup_l _ _ _ _ _ HF Hi) as (p' & Hi' & B). exists p'.
    split; [done|]. split; [by eapply benign_live|apply B]. }
  split.
  - rewrite <- T1. symmetry. by eapply Forall2_length.
  - destruct T2 as (p & Hp & L & Hpar). destruct (Hf _ _ Hp L) as (p' & ? & ? & ?). exists p'. split_and!; [done|done|congruence].
  - intros i p' (p & Hp & (_ & B2 & B3 & _ & B5 & _))%Hb. rewrite B2, B3, B5. by apply T4.
  - intros i p' j (p & Hp & (_ & B2 & B3 & _))%Hb. rewrite B2, B3. intros Hj.
    destruct (T5 i p j Hp Hj) as (? & ? & q & Hq & L). split_and!; try done. destruct (Hf _ _ Hq L) as (q' & ? & ? & _). by exists q'.
  - intros i p' j (p & Hp & (_ & _ & _ & _ & _ & B6))%Hb Hs Hc. destruct (B6 j Hs Hc). by apply (T6 i p j).
  - intros i p' c q' (p & Hp & (_ & _ & _ & _ & _ & B6))%Hb Hs Hc (q & Hq & (_ & B2 & _ & B4 & _))%Hb. rewrite B2, B4.
    destruct (B6 i Hs Hc). by apply (T7 i p c q).
Qed.

Lemma benign_kept l l' : Forall2 benign l l' -> kept l l'.
Proof.
  intros HF i p' Hp' Hu. destruct (Forall2_back _ _ _ _ _ HF Hp') as (p & Hp & (B1 & _ & B3 & _)). exists p.
  rewrite B3 in Hu. by split_and!; [|done|apply B1].
Qed.

Lemma alter_Forall2 {A} (R : relation A) `{!Reflexive R} f i l : (forall p, l !! i = Some p -> R p (f p)) ->
  Forall2 R l (alter f i l).
Proof.
  intros Hf. apply Forall2_same_length_lookup_2; [by rewrite length_alter|]. intros j p p' Hp.
  rewrite list_lookup_alter. case_decide as Hij; subst; rewrite Hp; [intros [= <-]; by apply Hf|by intros [= <-]].
Qed.

(** What becomes of the entries when one changes. *)
Lemma alter_cases {A} (f : A -> A) i (l : list A) p j q : l !! i = Some p -> alter f i l !! j = Some q ->
  j = i /\ q = f p \/ j <> i /\ l !! j = Some q.
Proof.
  intros Hp. rewrite list_lookup_alter. case_decide as Hij; [subst j; rewrite Hp; intros [= <-]; by left|]. right. by split.
Qed.

Lemma alter_kept (f : pv -> pv) i l p : l !! i = Some p -> (vstate (f p) <> UNUSED -> vstate p <> UNUSED /\ vpid (f p) = vpid p) ->
  kept l (alter f i l).
Proof.
  intros Hp Hf j q Hq Hu. destruct (alter_cases f i l p j q Hp Hq) as [[-> ->]|[_ Hq']]; [|by exists q].
  destruct (Hf Hu). by exists p.
Qed.

(** An entry changes that is no live process, or stays one, and that does not
    sleep or exit. *)
Lemma tinv_one ip l f i p : tinv ip l -> l !! i = Some p -> i <> ip -> (live p -> live (f p)) ->
  vstate (f p) <> SLEEPING -> vstate (f p) <> ZOMBIE ->
  (vparent (f p) = None -> vstate (f p) = UNUSED \/ vstate (f p) = EMBRYO) ->
  (forall j, vparent (f p) = Some j -> vstate (f p) <> UNUSED /\ j <> i /\ exists q, l !! j = Some q /\ live q) ->
  tinv ip (alter f i l).
Proof.
  intros [T1 T2 T4 T5 T6 T7] Hp Hip HL HS HZ HN HP.
  pose proof (fun j q => alter_cases f i l p j q Hp) as Hl.
  assert (Hlive : forall j q, l !! j = Some q -> live q -> exists q', alter f i l !! j = Some q' /\ live q' /\ (j <> i -> q' = q)).
  { intros j q Hq L. destruct (decide (j = i)) as [->|Hj]; [|exists q; by rewrite list_lookup_alter_ne].
    exists (f p). rewrite list_lookup_alter_eq, Hp. rewrite Hp in Hq. injection Hq as <-. by split_and!; [|apply HL|]. }
  split.
  - by rewrite length_alter.
  - destruct T2 as (q & Hq & L & Hpar). exists q. by rewrite list_lookup_alter_ne.
  - intros j q [[-> ->]|[_ Hq]]%Hl Hn; [|by eapply T4]. destruct (HN Hn); auto.
  - intros j q c [[-> ->]|[_ Hq]]%Hl Hc.
    + destruct (HP c Hc) as (? & ? & x & Hx & L). split_and!; [done..|]. destruct (Hlive c x Hx L) as (x' & ? & ? & _). by exists x'.
    + destruct (T5 j q c Hq Hc) as (? & ? & x & Hx & L). split_and!; [done..|]. destruct (Hlive c x Hx L) as (x' & ? & ? & _). by exists x'.
  - intros j q c [[-> ->]|[_ Hq]]%Hl; [done|by eapply T6].
  - intros j q c x [[-> ->]|[_ Hq]]%Hl Hs Hc [[-> ->]|[_ Hx]]%Hl; [done|done|done|by eapply T7].
Qed.

Lemma running_live p : vstate p = RUNNING -> live p.
Proof. intros H. unfold live. by rewrite H. Qed.

(** ** [exit] keeps the invariant *)

Lemma woke_states p p' : woke p p' ->
  (vstate p' = UNUSED <-> vstate p = UNUSED) /\ (vstate p' = ZOMBIE <-> vstate p = ZOMBIE) /\
  (vstate p' = EMBRYO <-> vstate p = EMBRYO) /\ (vstate p' = RUNNING <-> vstate p = RUNNING) /\
  (vstate p' = SLEEPING -> p' = p).
Proof. intros [->|[H ->]]; [done|]. cbn. rewrite H. by split_and!. Qed.

Lemma woke_live p p' : woke p p' -> live p -> live p'.
Proof. intros (H1 & H2 & H3 & _)%woke_states. unfold live. by rewrite H1, H2, H3. Qed.

(** The entries of the table after [exit]. *)
Lemma exit_back me ip l l' j p' : exit_post me ip l l' -> l' !! j = Some p' ->
  exists p, l !! j = Some p /\ vpid p' = vpid p /\ vparent p' = reparent me ip p /\
    (j = me /\ vstate p' = ZOMBIE \/ j <> me /\ woke (with_parent (reparent me ip p) p) p').
Proof.
  intros [X1 X2 X3 _ _] Hj. destruct (lookup_lt_is_Some_2 l j) as [p Hp]; [rewrite <- X1; by eapply lookup_lt_Some|].
  exists p. split; [done|]. destruct (decide (j = me)) as [->|Hjm].
  - destruct (X2 p Hp) as (q & Hq & ? & ? & ?). rewrite Hj in Hq. injection Hq as <-. split_and!; try done. by left.
  - destruct (X3 j p Hp Hjm) as (q & Hq & W). rewrite Hj in Hq. injection Hq as <-.
    apply woke_fields in W as HW. destruct HW as (? & ? & _). split_and!; [done..|]. by right.
Qed.

Lemma reparent_some me ip p c : reparent me ip p = Some c -> vparent p = Some me /\ c = ip \/ vparent p = Some c /\ c <> me.
Proof. unfold reparent. case_decide; [intros [= <-]; by left|]. right. split; [done|]. congruence. Qed.

Lemma exit_kept me ip l l' pm : exit_post me ip l l' -> l !! me = Some pm -> live pm -> kept l l'.
Proof.
  intros X Hpm (L1 & _) j p' Hp' Hu. destruct (exit_back me ip l l' j p' X Hp') as (p & Hp & E & _ & Hc). exists p.
  split_and!; [done| |done]. destruct Hc as [[-> _]|[_ W]]; [congruence|]. by apply woke_states in W as (<- & _).
Qed.

Lemma tinv_exit ip l l' me pm : tinv ip l -> exit_post me ip l l' -> me <> ip -> l !! me = Some pm ->
  live pm -> tinv ip l'.
Proof.
  intros [T1 T2 T4 T5 T6 T7] X Hne Hpm (Lm1 & Lm2 & Lm3).
  pose proof (fun j p' => exit_back me ip l l' j p' X) as Hb. destruct X as [X1 X2 X3 X4 X5].
  assert (Hf : forall j p, l !! j = Some p -> live p -> j <> me -> exists p', l' !! j = Some p' /\ live p').
  { intros j p Hj L Hjm. destruct (X3 j p Hj Hjm) as (p' & Hp' & W). exists p'. split; [done|]. by apply (woke_live _ _ W). }
  assert (Hu : forall p p' j, l !! j = Some p -> j = me /\ vstate p' = ZOMBIE \/ j <> me /\ woke (with_parent (reparent me ip p) p) p' ->
    (vstate p' = UNUSED <-> vstate p = UNUSED) /\ (vstate p' = EMBRYO <-> vstate p = EMBRYO)).
  { intros p p' j Hp [[-> E]|[_ W]]; [|by apply woke_states in W as (-> & _ & -> & _)]. rewrite Hpm in Hp. injection Hp as <-.
    rewrite E. done. }
  split.
  - congruence.
  - destruct T2 as (p & Hp & L & Hpar). destruct (X3 ip p Hp ltac:(done)) as (p' & Hp' & W). exists p'.
    split_and!; [done|by apply (woke_live _ _ W)|]. apply woke_fields in W as (_ & -> & _). cbn. unfold reparent. rewrite Hpar. done.
  - intros j p' (p & Hp & _ & Hpar & Hc)%Hb Hn. destruct (Hu p p' j Hp Hc) as [-> ->]. apply (T4 j p Hp). rewrite Hpar in Hn.
    unfold reparent in Hn. by case_decide.
  - intros j p' c (p & Hp & _ & Hpar & Hc)%Hb Hj. destruct (Hu p p' j Hp Hc) as [-> _]. rewrite Hpar in Hj.
    apply reparent_some in Hj as [[Hme ->]|[Hpc Hcm]].
    + destruct (T5 j p me Hp Hme) as (H1 & H2 & _). destruct T2 as (q & Hq & L & Hq0).
      split_and!; [done|intros ->; congruence|by eapply Hf].
    + destruct (T5 j p c Hp Hpc) as (H1 & H2 & q & Hq & L). split_and!; [done..|by eapply Hf].
  - intros j p' c (p & Hp & _ & _ & [[-> E]|[_ W]])%Hb Hs Hc; [congruence|]. apply woke_states in W as (_ & _ & _ & _ & W).
    specialize (W Hs). subst p'. by apply (T6 j p c).
  - intros j p' c q' Hp'0 Hs Hch Hq'0 Hpar Hz. destruct (Hb j p' Hp'0) as (p & Hp & _ & _ & Hpc).
    destruct (Hb c q' Hq'0) as (q & Hq & _ & Hqpar & Hqc). rewrite Hqpar in Hpar. clear Hqpar.
    assert (Hp2 : vstate p = SLEEPING /\ vchan p = Some (WProc j)).
    { destruct Hpc as [[-> E]|[_ W]]; [congruence|]. apply woke_states in W as (_ & _ & _ & _ & W).
      specialize (W Hs). by subst p'. }
    assert (Hjs : ~ awake j l') by (intros Ha; by apply (Ha p' Hp'0)).
    apply reparent_some in Hpar as [[Hqm ->]|[Hqj Hjm]].
    + destruct Hqc as [[-> _]|[_ W]]; [by destruct (T5 me q me Hq Hqm) as (_ & ? & _)|].
      apply Hjs, (X5 c q Hq Hqm). apply woke_states in W as (_ & HZ & _). by apply HZ.
    + destruct Hqc as [[-> _]|[_ W]]; [by apply Hjs, (X4 q j)|].
      apply woke_states in W as (_ & HZ & _). by apply (T7 j p c q Hp (proj1 Hp2) (proj2 Hp2) Hq Hqj), HZ.
Qed.

(** ** [wait] keeps the invariant *)

Lemma tinv_reap ip l i p : tinv ip l -> l !! i = Some p -> vstate p = ZOMBIE -> tinv ip (alter reaped i l).
Proof.
  intros T Hp Hz. apply (tinv_one ip l reaped i p); try done; [|by intros (_ & _ & ?)|by left].
  intros ->. destruct (ti_init _ _ T) as (q & Hq & (_ & _ & L) & _). congruence.
Qed.

(** A process may go to sleep in [wait] when it has no zombie child. *)
Lemma tinv_sleep ip l me pm : tinv ip l -> l !! me = Some pm -> live pm ->
  (forall i q, l !! i = Some q -> vparent q = Some me -> vstate q <> ZOMBIE) ->
  tinv ip (alter (asleep (WProc me)) me l).
Proof.
  intros [T1 T2 T4 T5 T6 T7] Hp L Hnz.
  assert (Hl : forall j q, alter (asleep (WProc me)) me l !! j = Some q -> exists q0, l !! j = Some q0 /\
    vpid q = vpid q0 /\ vparent q = vparent q0 /\ (j = me /\ vstate q = SLEEPING /\ vchan q = Some (WProc me) /\ q0 = pm \/ j <> me /\ q = q0)).
  { intros j q. rewrite list_lookup_alter. case_decide as Hij; [subst j; rewrite Hp; intros [= <-]; exists pm; naive_solver|].
    intros Hq. exists q. naive_solver. }
  assert (Hlive : forall j q, l !! j = Some q -> live q -> exists q', alter (asleep (WProc me)) me l !! j = Some q' /\ live q' /\ vparent q' = vparent q).
  { intros j q Hq Lq. rewrite list_lookup_alter. case_decide as Hij; [|by exists q]. subst j. rewrite Hq. by eexists. }
  destruct L as (L1 & L2 & L3).
  split.
  - by rewrite length_alter.
  - destruct T2 as (q & Hq & Lq & Hpar). destruct (Hlive _ _ Hq Lq) as (q' & ? & ? & ?). exists q'. split_and!; [done..|congruence].
  - intros j q (q0 & Hq & _ & -> & Hc)%Hl Hn. pose proof (T4 j q0 Hq Hn). destruct Hc as [(_ & _ & _ & ->)|[_ ->]]; [|done]. naive_solver.
  - intros j q c (q0 & Hq & _ & -> & Hc)%Hl Hj. destruct (T5 j q0 c Hq Hj) as (? & ? & x & Hx & Lx).
    split_and!; [by destruct Hc as [(_ & -> & _)|[_ ->]]|done|]. destruct (Hlive _ _ Hx Lx) as (x' & ? & ? & _). by exists x'.
  - intros j q c (q0 & Hq & _ & _ & [(-> & _ & Hc & _)|[_ ->]])%Hl Hs Hch; [congruence|by eapply T6].
  - intros j q c x (q0 & Hq & _ & _ & Hj)%Hl Hs Hch (x0 & Hx & _ & -> & Hc)%Hl Hpar Hz.
    assert (vstate x0 = ZOMBIE) by (destruct Hc as [(_ & E & _)|[_ ->]]; congruence).
    destruct Hj as [(-> & _ & _ & _)|[_ ->]]; [by eapply Hnz|by eapply (T7 j q0 c x0)].
Qed.

(** ** Who runs *)

(** The processes [run] that the CPUs have are those in state [RUNNING]. *)
Record rinv (run : list nat) (l : list pv) : Prop := {
  ri_nodup : NoDup run;
  ri_in i : i ∈ run -> exists p, l !! i = Some p /\ vstate p = RUNNING;
  ri_out i p : l !! i = Some p -> vstate p = RUNNING -> i ∈ run
}.

Definition same_run (p p' : pv) : Prop := vstate p' = RUNNING <-> vstate p = RUNNING.
#[export] Instance same_run_refl : Reflexive same_run.
Proof. by intros p. Qed.

Lemma rinv_same run l l' : rinv run l -> Forall2 same_run l l' -> rinv run l'.
Proof.
  intros [R1 R2 R3] HF. split; [done| |].
  - intros i (p & Hp & Hr)%R2. destruct (Forall2_lookup_l _ _ _ _ _ HF Hp) as (p' & Hp' & E). exists p'. split; [done|by apply E].
  - intros i p' Hp' Hr. destruct (Forall2_back _ _ _ _ _ HF Hp') as (p & Hp & E). by apply (R3 i p Hp), E.
Qed.

(** The process [i] stops, the others do not start or stop. *)
Lemma rinv_stop run l l' i : rinv (i :: run) l -> length l' = length l ->
  (forall j p p', l !! j = Some p -> l' !! j = Some p' -> if decide (j = i) then vstate p' <> RUNNING else same_run p p') ->
  rinv run l'.
Proof.
  intros [R1 R2 R3] Hl HF. apply NoDup_cons in R1 as [Hi R1].
  assert (Hb : forall j p', l' !! j = Some p' -> exists p, l !! j = Some p).
  { intros j p' Hj. apply lookup_lt_is_Some. rewrite <- Hl. by eapply lookup_lt_Some. }
  split; [done| |].
  - intros j Hj. destruct (R2 j ltac:(by right)) as (p & Hp & Hr).
    destruct (lookup_lt_is_Some_2 l' j) as [p' Hp']; [rewrite Hl; by eapply lookup_lt_Some|].
    exists p'. split; [done|]. pose proof (HF j p p' Hp Hp') as E. rewrite decide_False in E by (by intros ->). by apply E.
  - intros j p' Hp' Hr. destruct (Hb j p' Hp') as [p Hp]. pose proof (HF j p p' Hp Hp') as E. case_decide; [done|].
    apply E in Hr. pose proof (R3 j p Hp Hr) as Hj. by apply elem_of_cons in Hj as [?|?].
Qed.

Lemma rinv_stop_alter run l f i : rinv (i :: run) l -> (forall p, vstate (f p) <> RUNNING) -> rinv run (alter f i l).
Proof.
  intros R Hf. apply (rinv_stop run l _ i R); [apply length_alter|]. intros j p p' Hp. rewrite list_lookup_alter.
  destruct (decide (i = j)) as [->|Hij]; rewrite Hp; intros [= <-]; [by rewrite decide_True|by rewrite decide_False].
Qed.

Lemma rinv_start run l f i p : rinv run l -> l !! i = Some p -> vstate p <> RUNNING -> vstate (f p) = RUNNING ->
  rinv (i :: run) (alter f i l).
Proof.
  intros [R1 R2 R3] Hp Hn Hf. assert (Hi : i ∉ run) by (intros (q & Hq & ?)%R2; congruence). split.
  - by constructor.
  - intros j [->|Hj]%elem_of_cons; [exists (f p); by rewrite list_lookup_alter_eq, Hp|].
    destruct (R2 j Hj) as (q & Hq & Hr). exists q. by rewrite list_lookup_alter_ne by (by intros ->).
  - intros j q. rewrite list_lookup_alter. case_decide as Hij; [intros _ _; subst; by left|]. intros Hq Hr. right. by apply (R3 j q).
Qed.

(** ** Work in progress *)

(** Where a process is in [fork], in [exit], or at the end of [sleep]. *)
Inductive work : Type :=
| NoWork
| FStack (np : nat)          (** after [allocproc1] *)
| FCopy (np : nat)           (** after [allocproc2] *)
| FFiles (np : nat)          (** after [fork_copy] *)
| FReady (np : nat)          (** after [fork_dup] *)
| FName (np : nat)           (** after [fork_start] *)
| XFiles (fds : list nat)    (** in [exit], these files still to be closed *)
| XLast                      (** after [exit_cwd] *)
| Relock (lk : lockid) (w : work). (** about to take [lk] again *)

(** The slot that a process is filling, and whether it has set its parent. *)
Fixpoint embryo_of (w : work) : option (nat * bool) :=
  match w with
  | FStack np | FCopy np => Some (np, false)
  | FFiles np | FReady np => Some (np, true)
  | Relock _ w => embryo_of w
  | _ => None
  end.

Fixpoint exiting (w : work) : bool :=
  match w with XFiles _ | XLast => true | Relock _ w => exiting w | _ => false end.

Definition upd_work (i : nat) (w : work) (ws : nat -> work) : nat -> work := fun j => if decide (j = i) then w else ws j.

Lemma upd_work_eq i w ws : upd_work i w ws i = w.
Proof. unfold upd_work. by rewrite decide_True. Qed.
Lemma upd_work_ne i w ws j : j <> i -> upd_work i w ws j = ws j.
Proof. intros. unfold upd_work. by rewrite decide_False. Qed.

(** Every slot in state [EMBRYO] is being filled by one live process, which is
    its parent once it has one; the first process does not exit. *)
Record winv (ip : nat) (ws : nat -> work) (l : list pv) : Prop := {
  wi_own i np b : embryo_of (ws i) = Some (np, b) -> exists p q, l !! i = Some p /\ live p /\
    l !! np = Some q /\ vstate q = EMBRYO /\ vparent q = (if b then Some i else None);
  wi_embryo np q : l !! np = Some q -> vstate q = EMBRYO -> exists i b, embryo_of (ws i) = Some (np, b);
  wi_uniq i j np b b' : embryo_of (ws i) = Some (np, b) -> embryo_of (ws j) = Some (np, b') -> i = j;
  wi_exit i : exiting (ws i) = true -> i <> ip
}.

Lemma winv_benign ip ws l l' : winv ip ws l -> Forall2 benign l l' -> winv ip ws l'.
Proof.
  intros [W1 W2 W3 W4] HF. split; try done.
  - intros i np b (p & q & Hp & L & Hq & E & Hpar)%W1.
    destruct (Forall2_lookup_l _ _ _ _ _ HF Hp) as (p' & Hp' & B).
    destruct (Forall2_lookup_l _ _ _ _ _ HF Hq) as (q' & Hq' & (_ & C2 & _ & _ & C5 & _)).
    exists p', q'. split_and!; [done|by eapply benign_live|done|by apply C5|congruence].
  - intros np q' Hq' E. destruct (Forall2_back _ _ _ _ _ HF Hq') as (q & Hq & (_ & _ & _ & _ & B & _)).
    apply (W2 np q Hq). by apply B.
Qed.

(** A process goes on without a change to the slot it fills. *)
Lemma winv_work ip ws l i w : winv ip ws l -> embryo_of w = embryo_of (ws i) -> (exiting w = true -> i <> ip) ->
  winv ip (upd_work i w ws) l.
Proof.
  intros [W1 W2 W3 W4] He Hx.
  assert (E : forall j, embryo_of (upd_work i w ws j) = embryo_of (ws j)).
  { intros j. unfold upd_work. case_decide; [by subst|done]. }
  split.
  - intros j np b. rewrite E. apply W1.
  - intros np q Hq Hs. destruct (W2 np q Hq Hs) as (j & b & Hj). exists j, b. by rewrite E.
  - intros j j' np b b'. rewrite !E. apply W3.
  - intros j. unfold upd_work. case_decide; [by subst|apply W4].
Qed.

(** Process [i] changes the slot [np] that it fills, or begins or ends to fill
    it. *)
Lemma winv_step ip ws l i np p q f w : winv ip ws l -> l !! i = Some p -> live p -> l !! np = Some q ->
  (vstate q = UNUSED /\ embryo_of (ws i) = None \/ vstate q = EMBRYO /\ exists b, embryo_of (ws i) = Some (np, b)) ->
  exiting w = false ->
  (vstate (f q) = EMBRYO /\ (exists b, embryo_of w = Some (np, b) /\ vparent (f q) = if b then Some i else None) \/
   vstate (f q) <> EMBRYO /\ embryo_of w = None) ->
  winv ip (upd_work i w ws) (alter f np l).
Proof.
  intros [W1 W2 W3 W4] Hp L Hq Ho Hx Hw.
  assert (Hnp : ~ live q) by (destruct Ho as [[E _]|[E _]]; unfold live; rewrite E; tauto).
  assert (Hi : i <> np) by (intros ->; congruence).
  assert (Ha : forall j b, j <> i -> embryo_of (ws j) <> Some (np, b)).
  { intros j b Hj E. destruct Ho as [[Eq _]|[_ (b' & E')]]; [|by apply Hj, (W3 j i np b b')].
    destruct (W1 j np b E) as (_ & q' & _ & _ & Hq' & Eq' & _). congruence. }
  split.
  - intros j np' b. destruct (decide (j = i)) as [->|Hj]; [rewrite upd_work_eq|rewrite upd_work_ne by done].
    + destruct Hw as [(E1 & b' & E2 & E3)|[_ E2]]; rewrite E2; [|done]. intros [= <- <-]. exists p, (f q).
      rewrite list_lookup_alter_ne, list_lookup_alter_eq, Hq by done. done.
    + intros E. destruct (W1 j np' b E) as (p' & q' & H1 & H2 & H3 & H4 & H5). exists p', q'.
      assert (np' <> np) by (intros ->; by apply (Ha j b)). assert (j <> np) by (intros ->; congruence).
      rewrite !list_lookup_alter_ne by done. done.
  - intros np' q' Hq' E. destruct (alter_cases f np l q np' q' Hq Hq') as [[-> ->]|[Hne Hl]].
    + destruct Hw as [(_ & b & E2 & _)|[? _]]; [|done]. exists i, b. by rewrite upd_work_eq.
    + destruct (W2 np' q' Hl E) as (j & b & Hj). exists j, b. rewrite upd_work_ne; [done|]. intros ->.
      destruct Ho as [[_ E']|[_ (b' & E')]]; congruence.
  - assert (Hwi : forall np' b, embryo_of w = Some (np', b) -> np' = np).
    { intros np' b E. destruct Hw as [(_ & b' & E' & _)|[_ E']]; congruence. }
    intros j j' np' b b'. unfold upd_work. repeat case_decide; subst; try done.
    + intros E1 E2. rewrite (Hwi _ _ E1) in E2. by destruct (Ha j' b').
    + intros E1 E2. rewrite (Hwi _ _ E2) in E1. by destruct (Ha j b).
    + apply W3.
  - intros j. unfold upd_work. case_decide; [by rewrite Hx|apply W4].
Qed.

(** The exit of [me], which fills no slot. *)
Lemma winv_exit ip ws me pm l l' : winv ip ws l -> exit_post me ip l l' -> l !! me = Some pm -> live pm ->
  embryo_of (ws me) = None -> winv ip (upd_work me NoWork ws) l'.
Proof.
  intros W X Hpm (_ & Lm & _) Hme. apply winv_work; [|done|done]. destruct W as [W1 W2 W3 W4]. split; try done.
  - intros i np b E. destruct (W1 i np b E) as (p & q & Hp & L & Hq & Eq & Hpar).
    assert (Him : i <> me) by (intros ->; congruence). assert (Hnm : np <> me) by (intros ->; congruence).
    destruct (ex_other _ _ _ _ X i p Hp Him) as (p' & Hp' & Wp). destruct (ex_other _ _ _ _ X np q Hq Hnm) as (q' & Hq' & Wq).
    exists p', q'. apply woke_fields in Wq as Hf. destruct Hf as (_ & Hf & _). apply woke_states in Wq as (_ & _ & Wq & _).
    split_and!; [done|by apply (woke_live _ _ Wp)|done|by apply Wq|]. rewrite Hf. cbn. unfold reparent. rewrite Hpar.
    rewrite decide_False; [done|]. destruct b; congruence.
  - intros np q' Hq' E. destruct (exit_back _ _ _ _ _ _ X Hq') as (q & Hq & _ & _ & [[_ Z]|[_ Wq]]); [congruence|].
    apply (W2 np q Hq). by apply woke_states in Wq as (_ & _ & <- & _).
Qed.

(** ** Who holds which lock *)

(** The locks [hs] are those that CPU [id] holds, and [ncli] counts them. *)
Record locks_ok (v : view) (id : nat) (c : cpu) (hs : list lockid) : Prop := {
  lo_nodup : NoDup hs;
  lo_held l : l ∈ hs <-> holding id (vlk v l) = true;
  lo_ncli : ncli c = Z.of_nat (length hs);
  lo_bound : ncli c < 2 ^ 31;
  lo_ifl : 0 < ncli c -> ifl c = false
}.

(** Between steps, the scheduler holds no lock but that of the table, and a
    process does not hold that one. *)
Definition place_ok (cu : option nat) (hs : list lockid) : Prop :=
  match cu with None => forall l, l ∈ hs -> l = PtableLock | Some _ => PtableLock ∉ hs end.

(** A CPU other than the one whose state is in the kernel state. *)
Record other : Type := Other { ocid : nat; ocpu : cpu; ocur : option nat; opos : nat }.

Definition others_ok (v : view) (os : list other) : Prop :=
  NoDup (vid v :: (ocid <$> os)) /\
  Forall (fun o => exists hs, locks_ok v (ocid o) (ocpu o) hs /\ place_ok (ocur o) hs) os.

Definition cpus_ok (v : view) (os : list other) : Prop :=
  others_ok v os /\ exists hs, locks_ok v (vid v) (vcpu v) hs /\ place_ok (vcur v) hs.

(** No other CPU's locks change. *)
Definition mine_only (v v' : view) : Prop :=
  vid v' = vid v /\ forall id l, id <> vid v -> holding id (vlk v' l) = holding id (vlk v l).

Lemma locks_ext v v' id c hs : (forall l, holding id (vlk v' l) = holding id (vlk v l)) -> locks_ok v id c hs -> locks_ok v' id c hs.
Proof. intros E [H1 H2 H3 H4 H5]. split; try done. intros l. by rewrite E. Qed.

Lemma others_mine v v' os : mine_only v v' -> others_ok v os -> others_ok v' os.
Proof.
  intros [Hid Hm] [Hn Ho]. split; [by rewrite Hid|]. rewrite Forall_forall in Ho |- *. intros o Hin.
  destruct (Ho o Hin) as (hs & Hl & Hp). exists hs. split; [|done]. apply (locks_ext v); [|done]. intros l. apply Hm.
  intros E. apply NoDup_cons in Hn as [Hn _]. apply Hn. rewrite <- E. by apply list_elem_of_fmap_2.
Qed.

Lemma vlk_ne v l : l <> PtableLock -> vlk v l = default (initlock "") (vlks v !! l).
Proof. intros. unfold vlk. by rewrite bool_decide_eq_false_2. Qed.

(** The locks and the CPU are as before. *)
Lemma cpus_same v v' os : vlock v' = vlock v -> vlks v' = vlks v -> vid v' = vid v -> vcpu v' = vcpu v -> vcur v' = vcur v ->
  cpus_ok v os -> cpus_ok v' os.
Proof.
  intros E1 E2 E3 E4 E5 [Ho (hs & Hl & Hp)]. assert (E : forall l, vlk v' l = vlk v l) by (intros l; unfold vlk; by rewrite E1, E2).
  split; [apply (others_mine v); [split; [done|]; intros; by rewrite E|done]|]. exists hs. rewrite E3, E4, E5.
  split; [|done]. apply (locks_ext v); [|done]. intros l. by rewrite E.
Qed.

(** A lock that is free, or that CPU [me] holds, is held by no other. *)
Definition mine (me : nat) (x : spinlock) : Prop := locked x = 0 \/ holding me x = true.

Lemma mine_others me x id : mine me x -> id <> me -> holding id x = false.
Proof.
  unfold mine, holding. intros [->|H] Hne; [done|]. apply andb_true_iff in H as [_ H%bool_decide_eq_true].
  apply andb_false_iff. right. apply bool_decide_eq_false. congruence.
Qed.

(** A change of one lock. *)
Lemma mine_only_lk v v' l : vid v' = vid v -> (forall l', l' <> l -> vlk v' l' = vlk v l') -> mine (vid v) (vlk v l) ->
  mine (vid v) (vlk v' l) -> mine_only v v'.
Proof.
  intros Hid He H1 H2. split; [done|]. intros id l' Hne. destruct (decide (l' = l)) as [->|Hl]; [|by rewrite He].
  by rewrite (mine_others _ _ _ H1 Hne), (mine_others _ _ _ H2 Hne).
Qed.

Lemma vlk_other v v' l : vlks v' = vlks v -> l <> PtableLock -> vlk v' l = vlk v l.
Proof. intros E Hl. by rewrite !vlk_ne, E by done. Qed.

(** This CPU has at most the lock of the table. *)
Definition only_pt (v : view) (os : list other) : Prop :=
  others_ok v os /\ mine (vid v) (vlock v) /\ forall l, l <> PtableLock -> holding (vid v) (vlk v l) = false.

Lemma only_pt_step v v' os : only_pt v os -> vid v' = vid v -> vlks v' = vlks v -> mine (vid v') (vlock v') -> only_pt v' os.
Proof.
  intros (Ho & Hm & Hl) Hid HL Hm'. split; [|split; [done|]].
  - apply (others_mine v); [|done]. apply (mine_only_lk v v' PtableLock); try done; [|by rewrite Hid in Hm'].
    intros l' Hl'. by apply vlk_other.
  - intros l Hne. rewrite (vlk_other v v' l HL Hne), Hid. by apply Hl.
Qed.

Lemma vheld_mine v : vheld v -> mine (vid v) (vlock v).
Proof. intros [H _]. by right. Qed.
Lemma vfree_mine v : vfree v -> mine (vid v) (vlock v).
Proof. intros [H _]. by left. Qed.

Lemma only_pt_idle v os : cpus_ok v os -> vidle v -> locked (vlock v) = 0 -> only_pt v os.
Proof.
  intros [Ho (hs & [H1 H2 H3 H4 H5] & _)] Hi Hl. split; [done|]. split; [by left|]. intros l _.
  destruct (holding (vid v) (vlk v l)) eqn:E; [|done]. apply H2 in E. unfold vidle in Hi.
  destruct hs; [by apply elem_of_nil in E|simpl in H3; lia].
Qed.

(** The CPU comes to rest with the lock of the table free, or in the
    scheduler. *)
Lemma only_pt_rest v os : only_pt v os -> vfree v \/ vheld v /\ vcur v = None -> cpus_ok v os.
Proof.
  intros (Ho & Hm & Hl) H. split; [done|]. destruct H as [[H1 H2]|[(H1 & H2 & H3) Hc]].
  - exists []. split; [|destruct (vcur v); [apply not_elem_of_nil|by intros l ?%elem_of_nil]].
    split; rewrite ?H2; try done; [constructor|]. intros l. split; [by intros ?%elem_of_nil|]. intros E.
    destruct (decide (l = PtableLock)) as [->|Hne]; [|by rewrite Hl in E]. change (vlk v PtableLock) with (vlock v) in E. unfold holding in E. by rewrite H1 in E.
  - exists [PtableLock]. rewrite Hc. split; [|by intros l ->%list_elem_of_singleton].
    split; rewrite ?H2; try done; [apply NoDup_singleton|]. intros l. rewrite list_elem_of_singleton. split; [by intros ->|].
    intros E. destruct (decide (l = PtableLock)); [done|]. by rewrite Hl in E.
Qed.

Lemma only_pt_sched v os : cpus_ok v os -> vcur v = None -> mine (vid v) (vlock v) -> only_pt v os.
Proof.
  intros [Ho (hs & [H1 H2 H3 H4 H5] & Hp)] Hc Hm. split; [done|]. split; [done|]. intros l Hl. rewrite Hc in Hp.
  destruct (holding (vid v) (vlk v l)) eqn:E; [|done]. by apply H2, Hp in E.
Qed.

(** *** Taking and giving back a lock *)

Lemma vlk_with_eq l c x v : vlk (with_lk l c x v) l = x.
Proof.
  unfold vlk, with_lk. destruct (decide (l = PtableLock)) as [->|Hl]; [done|].
  rewrite !bool_decide_eq_false_2 by done. cbn. by rewrite lookup_insert_eq.
Qed.
Lemma vlk_with_ne l l' c x v : l' <> l -> vlk (with_lk l c x v) l' = vlk v l'.
Proof.
  intros Hne. unfold vlk, with_lk. repeat case_bool_decide; subst; try done. cbn. by rewrite lookup_insert_ne.
Qed.
Lemma with_lk_rest l c x v : let v' := with_lk l c x v in
  vtab v' = vtab v /\ vnext v' = vnext v /\ vinit v' = vinit v /\ vid v' = vid v /\ vcur v' = vcur v /\ vcpu v' = c.
Proof. unfold with_lk. by case_bool_decide. Qed.

Lemma holding_taken v l : holding (vid v) (taken v l) = true.
Proof. unfold holding, taken. cbn. by rewrite bool_decide_eq_true_2. Qed.

Lemma acquire_locks l v hs : let v' := with_lk l (pushcli (vcpu v)) (taken v l) v in
  locks_ok v (vid v) (vcpu v) hs -> locked (vlk v l) = 0 -> ncli (vcpu v) < 2 ^ 31 - 1 ->
  locks_ok v' (vid v') (vcpu v') (l :: hs) /\ mine_only v v'.
Proof.
  intros v' [H1 H2 H3 H4 H5] Hl Hn. destruct (with_lk_rest l (pushcli (vcpu v)) (taken v l) v) as (_ & _ & _ & Eid & _ & Ec).
  fold v' in Eid, Ec. rewrite Eid, Ec. split.
  - assert (Hs : ncli (pushcli (vcpu v)) = ncli (vcpu v) + 1) by (cbn; apply s32_id; lia).
    assert (Hnl : l ∉ hs) by (rewrite H2; unfold holding; by rewrite Hl).
    split; rewrite ?Hs; try done; [by constructor| |simpl; lia|lia].
    intros l'. rewrite elem_of_cons. destruct (decide (l' = l)) as [->|Hne].
    + unfold v'. rewrite vlk_with_eq, holding_taken. tauto.
    + unfold v'. rewrite vlk_with_ne by done. rewrite H2. tauto.
  - apply (mine_only_lk v v' l); [done| |by left|].
    + intros l' Hne. by apply vlk_with_ne.
    + right. unfold v'. rewrite vlk_with_eq. apply holding_taken.
Qed.

Lemma release_locks l v hs : let v' := with_lk l (popped (vcpu v)) (given v l) v in
  locks_ok v (vid v) (vcpu v) hs -> holding (vid v) (vlk v l) = true ->
  (exists hs', hs ≡ₚ l :: hs' /\ locks_ok v' (vid v') (vcpu v') hs') /\ mine_only v v'.
Proof.
  intros v' [H1 H2 H3 H4 H5] Hl. destruct (with_lk_rest l (popped (vcpu v)) (given v l) v) as (_ & _ & _ & Eid & _ & Ec).
  fold v' in Eid, Ec. rewrite Eid, Ec. apply H2 in Hl as Hin. split.
  - destruct (proj1 (elem_of_Permutation hs l) Hin) as (hs' & Hp). exists hs'. split; [done|].
    pose proof (Permutation_length Hp) as Hlen. simpl in Hlen. rewrite Hp in H1. apply NoDup_cons in H1 as [Hni H1].
    assert (Hs : ncli (popped (vcpu v)) = ncli (vcpu v) - 1) by (cbn; apply s32_id; lia).
    split; rewrite ?Hs; try done; [|lia|lia|].
    + intros l'. assert (Hl' : l' ∈ hs <-> l' = l \/ l' ∈ hs') by (by rewrite Hp, elem_of_cons). rewrite H2 in Hl'.
      destruct (decide (l' = l)) as [->|Hne].
      * unfold v'. rewrite vlk_with_eq. split; [done|]. by intros [=].
      * unfold v'. rewrite vlk_with_ne by done. tauto.
    + intros Hpos. cbn. cbn in Hs. rewrite Hs. destruct (Z.eqb_spec (ncli (vcpu v) - 1) 0); [lia|done].
  - apply (mine_only_lk v v' l); [done| |by right|].
    + intros l' Hne. by apply vlk_with_ne.
    + left. unfold v'. by rewrite vlk_with_eq.
Qed.
