(* ===== verification/ProcInv.v ===== *)
(** * Reachable process tables

    The kernel on several CPUs as a transition system whose steps are runs of
    the programs of Proc.v, and its invariant.  A step is a piece of code that
    runs under the lock of the process table, up to the switch to or from the
    scheduler, or a piece between two changes that other CPUs can see: [fork]
    and [exit], which work without the lock, take several steps, and the steps
    of other CPUs come in between. *)

From stdpp Require Import base numbers list gmap strings relations.
From Stdlib Require Import ZArith Lia.
From S2P Require Import Prelude Disk Bio Log Blk Kstring Printf Ring Console Pipe Kalloc Fs Icache Vm Spinlock Kernel File Proc ProcSpec ProcTable.

Local Open Scope Z_scope.
Local Open Scope prog_scope.
Local Abbreviation P := (prog (fsk kernel)).

(** ** The machine *)

(** Where a process that does not run goes on. *)
Inductive cont : Type := CFork | CYield (e : bool) | CSleep (lk : lockid) (e : bool) | CWait (e : bool).

(** The kernel, the place of the scheduler's loop of this CPU, where the
    processes go on, what they are in the middle of, and the other CPUs. *)
Record mach : Type := Mach { mk : fsk kernel; spos : nat; conts : nat -> cont; works : nat -> work; others : list other }.

Definition set_cont (i : nat) (c : cont) (f : nat -> cont) : nat -> cont := fun j => if decide (j = i) then c else f j.

(** A run that returns, with whatever the disk does. *)
Definition does {A} (p : P A) (k : fsk kernel) (a : A) (k' : fsk kernel) : Prop :=
  exists S (h : forall o, M S (op_ret o)) s s', run h p (s, k) = Ok a (s', k').

Definition switch_cpu (o : other) (k : kernel) : kernel := set_cpuid (ocid o) (set_kcpu (ocpu o) (set_cur (ocur o) k)).

(** System calls are entered with no lock held. *)
Definition no_lock (m : mach) : Prop := ncli (kcpu (ext (mk m))) = 0.
(** There is not room in memory for so many locks. *)
Definition few_locks (m : mach) : Prop := ncli (kcpu (ext (mk m))) < 2 ^ 31 - 1.

Section machine.
Context (kend kdata trapret forkret : Z).

(** A program that ends in the scheduler, and [wait], which may. *)
Definition to_sched (p : P bool) : P bool := let! e := p in scheduler_back >>> Ret e.
Definition waiting (p : P (Z + bool)) : P (Z + bool) :=
  let! r := p in match r with inl _ => Ret r | inr _ => scheduler_back >>> Ret r end.

(** A process goes on; [inr e] when it goes back to sleep. *)
Definition resume (c : cont) : P (Z + bool) :=
  match c with
  | CFork => forkret_run >>> Ret (inl 0)
  | CYield e => yield2 e >>> Ret (inl 0)
  | CSleep lk e => sleep2 lk e >>> Ret (inl 0)
  | CWait e => waiting (wait2 kend e)
  end.

(** A process that was in [sleep] has to take its lock again. *)
Definition resume_work (c : cont) (w : work) : work := match c with CSleep lk _ => Relock lk w | _ => w end.

Inductive mstep : mach -> mach -> Prop :=
(** [fork] *)
| MAlloc m i r k' : cur (ext (mk m)) = Some i -> works m i = NoWork -> no_lock m ->
    does allocproc1 (mk m) r k' ->
    mstep m (match r with
             | Some np => Mach k' (spos m) (set_cont np CFork (conts m)) (upd_work i (FStack np) (upd_work np NoWork (works m))) (others m)
             | None => Mach k' (spos m) (conts m) (works m) (others m)
             end)
| MStack m i np (ok : bool) k' : cur (ext (mk m)) = Some i -> works m i = FStack np ->
    does (allocproc2 trapret forkret np) (mk m) ok k' ->
    mstep m (Mach k' (spos m) (conts m) (upd_work i (if ok then FCopy np else NoWork) (works m)) (others m))
| MCopy m i np (ok : bool) k' : cur (ext (mk m)) = Some i -> works m i = FCopy np ->
    does (fork_copy kend kdata np) (mk m) ok k' ->
    mstep m (Mach k' (spos m) (conts m) (upd_work i (if ok then FFiles np else NoWork) (works m)) (others m))
| MDup m i np k' : cur (ext (mk m)) = Some i -> works m i = FFiles np -> does (fork_dup np) (mk m) tt k' ->
    mstep m (Mach k' (spos m) (conts m) (upd_work i (FReady np) (works m)) (others m))
| MChild m i np n k' : cur (ext (mk m)) = Some i -> works m i = FReady np -> does (fork_start np) (mk m) n k' ->
    mstep m (Mach k' (spos m) (conts m) (upd_work i (FName np) (works m)) (others m))
| MName m i np k' : cur (ext (mk m)) = Some i -> works m i = FName np -> does (fork_name np) (mk m) tt k' ->
    mstep m (Mach k' (spos m) (conts m) (upd_work i NoWork (works m)) (others m))
(** [exit] *)
| MExit m i : cur (ext (mk m)) = Some i -> works m i = NoWork -> cur (ext (mk m)) <> initproc (ext (mk m)) ->
    mstep m (Mach (mk m) (spos m) (conts m) (upd_work i (XFiles (seq 0 NOFILE)) (works m)) (others m))
| MFile m i fd fds k' : cur (ext (mk m)) = Some i -> works m i = XFiles (fd :: fds) -> does (exit_file kend fd) (mk m) tt k' ->
    mstep m (Mach k' (spos m) (conts m) (upd_work i (XFiles fds) (works m)) (others m))
| MCwd m i k' : cur (ext (mk m)) = Some i -> works m i = XFiles [] -> does exit_cwd (mk m) tt k' ->
    mstep m (Mach k' (spos m) (conts m) (upd_work i XLast (works m)) (others m))
| MZombie m i e k' : cur (ext (mk m)) = Some i -> works m i = XLast -> no_lock m -> does (to_sched exit_last) (mk m) e k' ->
    mstep m (Mach k' (spos m) (conts m) (upd_work i NoWork (works m)) (others m))
(** [wait], [kill], and whatever else only wakes processes *)
| MWait m i r k' : cur (ext (mk m)) = Some i -> works m i = NoWork -> no_lock m -> does (waiting (wait1 kend)) (mk m) r k' ->
    mstep m (Mach k' (spos m) (match r with inl _ => conts m | inr e => set_cont i (CWait e) (conts m) end) (works m) (others m))
| MKill m i n r k' : cur (ext (mk m)) = Some i -> no_lock m -> does (kill n) (mk m) r k' ->
    mstep m (Mach k' (spos m) (conts m) (works m) (others m))
| MRun {A} m (p : P A) a k' : keeps calm p -> does p (mk m) a k' ->
    mstep m (Mach k' (spos m) (conts m) (works m) (others m))
(** giving up the CPU *)
| MYield m i e k' : cur (ext (mk m)) = Some i -> does (to_sched yield1) (mk m) e k' ->
    mstep m (Mach k' (spos m) (set_cont i (CYield e) (conts m)) (works m) (others m))
| MSleep m i lk c e k' : cur (ext (mk m)) = Some i -> (forall l w, works m i <> Relock l w) ->
    lk <> PtableLock -> (forall j, c <> WProc j) -> does (to_sched (sleep1 (Some lk) c)) (mk m) e k' ->
    mstep m (Mach k' (spos m) (set_cont i (CSleep lk e) (conts m)) (works m) (others m))
(** locks other than that of the table *)
| MRelock m i lk w k' : cur (ext (mk m)) = Some i -> works m i = Relock lk w -> few_locks m -> does (sleep3 lk) (mk m) tt k' ->
    mstep m (Mach k' (spos m) (conts m) (upd_work i w (works m)) (others m))
| MAcquire m i l k' : cur (ext (mk m)) = Some i -> l <> PtableLock -> few_locks m -> does (acquire_lk l) (mk m) tt k' ->
    mstep m (Mach k' (spos m) (conts m) (works m) (others m))
| MRelease m i l k' : cur (ext (mk m)) = Some i -> l <> PtableLock -> does (release_lk l) (mk m) tt k' ->
    mstep m (Mach k' (spos m) (conts m) (works m) (others m))
| MHandler m (p : P unit) l k' : l <> PtableLock -> few_locks m -> keeps calm p ->
    does (acquire_lk l >>> p >>> release_lk l) (mk m) tt k' ->
    mstep m (Mach k' (spos m) (conts m) (works m) (others m))
(** the scheduler *)
| MStart m k' : cur (ext (mk m)) = None -> does scheduler_start (mk m) tt k' ->
    mstep m (Mach k' 0 (conts m) (works m) (others m))
| MPick m i k1 r k' : cur (ext (mk m)) = None -> holding (cpuid (ext (mk m))) (ptlock (ext (mk m))) = true ->
    does (scheduler_next (spos m)) (mk m) (Some i) k1 -> does (resume (conts m i)) k1 r k' ->
    mstep m (Mach k' (S i) (match r with inl _ => conts m | inr e => set_cont i (CWait e) (conts m) end)
      (upd_work i (resume_work (conts m i) (works m i)) (works m)) (others m))
| MRound m k' : cur (ext (mk m)) = None -> holding (cpuid (ext (mk m))) (ptlock (ext (mk m))) = true ->
    does (scheduler_next (spos m)) (mk m) None k' ->
    mstep m (Mach k' 0 (conts m) (works m) (others m))
(** another CPU *)
| MCpu m l1 o l2 : others m = l1 ++ o :: l2 ->
    mstep m (Mach (FsK (icache (mk m)) (switch_cpu o (ext (mk m)))) (opos o) (conts m) (works m)
      (l1 ++ Other (cpuid (ext (mk m))) (kcpu (ext (mk m))) (cur (ext (mk m))) (spos m) :: l2)).

(** ** The invariant of the machine *)

Definition mview (m : mach) : view := kview (ext (mk m)).
Definition running (v : view) (os : list other) : list nat := omap id (vcur v :: (ocur <$> os)).

(** [n] bounds the identifiers given out. *)
Record vcore (ip : nat) (n : Z) (os : list other) (v : view) : Prop := {
  vi_tab : tinv ip (vtab v);
  vi_init : vinit v = Some ip;
  vi_run : rinv (running v os) (vtab v);
  vi_pid : n < 2 ^ 31 -> 0 < vnext v <= n /\ pinv (vnext v) (vtab v)
}.

Record vinv (ip : nat) (n : Z) (ws : nat -> work) (os : list other) (v : view) : Prop := {
  vv_core : vcore ip n os v;
  vv_work : winv ip ws (vtab v);
  vv_cpus : cpus_ok v os
}.

Lemma vcore_mono ip n n' os v : n <= n' -> vcore ip n os v -> vcore ip n' os v.
Proof. intros Hn [V1 V2 V3 V4]. split; try done. intros Hb. destruct V4 as [? ?]; [lia|]. split; [lia|done]. Qed.

Lemma vinv_mono ip n n' ws os v : n <= n' -> vinv ip n ws os v -> vinv ip n' ws os v.
Proof. intros Hn [V1 V2 V3]. split; try done. by apply (vcore_mono _ n). Qed.

Lemma vcore_cur ip n os v i : vcore ip n os v -> vcur v = Some i ->
  exists p, vtab v !! i = Some p /\ vstate p = RUNNING /\ (i < length (vtab v))%nat.
Proof.
  intros [V1 V2 V3 V4] Hi. destruct (ri_in _ _ V3 i) as (p & Hp & Hr).
  { unfold running. rewrite Hi. cbn. by left. }
  exists p. split_and!; [done..|by eapply lookup_lt_Some].
Qed.

Lemma does_spec {A} (p : P A) k a k' (Q : A -> view -> Prop) : does p k a k' -> vspec p (kview (ext k)) Q -> Q a (kview (ext k')).
Proof. intros (S & h & s & s' & E) Hp. by eapply Hp. Qed.

(** A step that keeps the current process. *)
Lemma vcore_same ip n os v v' : vcore ip n os v -> vnext v' = vnext v -> vinit v' = vinit v -> vcur v' = vcur v ->
  Forall2 benign (vtab v) (vtab v') -> Forall2 same_run (vtab v) (vtab v') -> vcore ip n os v'.
Proof.
  intros [V1 V2 V3 V4] S1 S2 S4 HB HR. split.
  - by apply (tinv_benign ip (vtab v)).
  - by rewrite S2.
  - unfold running in *. rewrite S4. by apply (rinv_same _ (vtab v)).
  - intros Hn. rewrite S1. destruct (V4 Hn). split; [done|]. eapply pinv_kept; [done|]. by apply benign_kept.
Qed.

(** A step in which the current process [i] stops. *)
Lemma vcore_stop ip n os v v' i : vcore ip n os v -> vcur v = Some i -> vcur v' = None -> vnext v' = vnext v -> vinit v' = vinit v ->
  tinv ip (vtab v') -> rinv (omap id (ocur <$> os)) (vtab v') -> kept (vtab v) (vtab v') -> vcore ip n os v'.
Proof.
  intros [V1 V2 V3 V4] Hi Hn S1 S2 HT HR HK. split; rewrite ?S1, ?S2; try done; [unfold running; by rewrite Hn|].
  intros Hb. destruct (V4 Hb). split; [done|]. by eapply pinv_kept.
Qed.

(** A step that changes one entry. *)
Lemma vcore_one ip n os v f i p : vcore ip n os v -> vtab v !! i = Some p -> tinv ip (alter f i (vtab v)) ->
  (vstate (f p) <> UNUSED -> vstate p <> UNUSED /\ vpid (f p) = vpid p) -> (vstate (f p) = RUNNING <-> vstate p = RUNNING) ->
  vcore ip n os (on_tab (alter f i) v).
Proof.
  intros [V1 V2 V3 V4] Hp HT HK HR. split; try done.
  - apply (rinv_same _ (vtab v)); [done|]. apply alter_Forall2; [apply _|]. intros q Hq. rewrite Hp in Hq. by injection Hq as <-.
  - intros Hb. destruct (V4 Hb). split; [done|]. eapply pinv_kept; [done|]. by apply (alter_kept f i _ p).
Qed.

Lemma running_cur v os i : vcur v = Some i -> running v os = i :: omap id (ocur <$> os).
Proof. unfold running. by intros ->. Qed.

Lemma tosched_spec (p : P bool) v Q : vspec p v (fun e v' => Q e (with_cur None v')) -> vspec (to_sched p) v Q.
Proof.
  intros Hp. apply vs_bind. eapply vs_conseq; [exact Hp|]. intros e v' HQ. cbn beta.
  apply vs_bind, vs_kmod. intros k Hk. apply vs_ret.
  change (kview (set_cur None k)) with (with_cur None (kview k)). by rewrite Hk.
Qed.

Lemma waiting_spec (p : P (Z + bool)) v Q :
  vspec p v (fun r v' => Q r (match r with inl _ => v' | inr _ => with_cur None v' end)) -> vspec (waiting p) v Q.
Proof.
  intros Hp. apply vs_bind. eapply vs_conseq; [exact Hp|]. intros [z|e] v' HQ; cbn beta iota in *; [by apply vs_ret|].
  apply vs_bind, vs_kmod. intros k Hk. apply vs_ret.
  change (kview (set_cur None k)) with (with_cur None (kview k)). by rewrite Hk.
Qed.

(** To the scheduler, with the lock of the table. *)
Lemma cpus_to_sched v v' os : only_pt v os -> vid v' = vid v -> vlks v' = vlks v -> vheld v' -> cpus_ok (with_cur None v') os.
Proof.
  intros Ho Hid Hl Hh. apply only_pt_rest; [|by right]. by apply (only_pt_step v); try done; apply vheld_mine.
Qed.

Lemma cpus_free v v' os : only_pt v os -> vid v' = vid v -> vlks v' = vlks v -> vfree v' -> cpus_ok v' os.
Proof. intros Ho Hid Hl Hf. apply only_pt_rest; [|by left]. by apply (only_pt_step v); try done; apply vfree_mine. Qed.

(** *** Steps of the current process *)

Section process.
Context (ip : nat) (n : Z) (ws : nat -> work) (os : list other) (v : view) (i : nat).
Context (Hv : vcore ip n os v) (Hw : winv ip ws (vtab v)) (Hk : cpus_ok v os) (Hi : vcur v = Some i).

(** A slot for a new process. *)
Lemma alloc_vinv : ws i = NoWork -> vidle v -> vspec allocproc1 v (fun r v' =>
  vinv ip (n + 1) (match r with Some np => upd_work i (FStack np) (upd_work np NoWork ws) | None => ws end) os v').
Proof.
  intros Hwi Hid. destruct (vcore_cur _ _ _ _ _ Hv Hi) as (p & Hp & Hr & _). pose proof Hv as [V1 V2 V3 V4].
  eapply vs_conseq; [by apply allocproc1_spec|]. intros r v' (Ha & Hl & (F1 & F2 & F3 & F4 & F5)).
  assert (Hc : cpus_ok v' os) by (apply (cpus_free v); try done; by apply only_pt_idle).
  destruct Ha as [v' E1 E2|v' np q Hq Hu E1 E2].
  - split; [|by rewrite E1|done]. apply (vcore_mono ip n); [lia|]. apply (vcore_same ip n os v); try done; rewrite E1; reflexivity.
  - set (f := fun p => with_pid (vnext v) (with_state EMBRYO p)) in E1.
    assert (Hqp : vparent q = None).
    { destruct (vparent q) as [j|] eqn:Ej; [|done]. by destruct (ti_parent _ _ V1 np q j Hq Ej) as (? & _). }
    split; [|rewrite E1|done].
    + split; rewrite ?E1, ?F2; try done.
      * apply (tinv_one ip _ f np q); try done; cbn; try done.
        -- intros ->. destruct (ti_init _ _ V1) as (q' & Hq' & (L & _) & _). congruence.
        -- intros (L & _). done.
        -- by right.
        -- by rewrite Hqp.
      * unfold running in *. rewrite F4. apply (rinv_same _ (vtab v)); [done|]. apply alter_Forall2; [apply _|].
        intros q' Hq'. rewrite Hq in Hq'. injection Hq' as <-. unfold same_run. cbn. by rewrite Hu.
      * intros Hb. destruct V4 as [Hn [P1 P2]]; [lia|]. rewrite E2, s32_id by lia. split; [lia|].
        pose proof (fun j x => alter_cases f np (vtab v) q j x Hq) as Hal. split.
        -- intros j x [[-> ->]|[_ Hx]]%Hal Hux; cbn; [lia|]. pose proof (P1 j x Hx Hux). lia.
        -- intros j c x y [[-> ->]|[_ Hx]]%Hal [[-> ->]|[_ Hy]]%Hal U1 U2; cbn; [done| | |by apply (P2 j c x y)].
           ++ pose proof (P1 c y Hy U2). lia.
           ++ pose proof (P1 j x Hx U1). lia.
    + assert (Hnp : embryo_of (ws np) = None).
      { destruct (embryo_of (ws np)) as [[np' b]|] eqn:E; [|done].
        destruct (wi_own _ _ _ Hw np np' b E) as (q' & _ & Hq' & (L & _) & _). congruence. }
      assert (Hne : i <> np) by (intros ->; congruence).
      apply (winv_step ip _ _ i np p q); try done.
      * by apply winv_work.
      * by apply running_live.
      * left. split; [done|]. rewrite upd_work_ne, Hwi by done. done.
      * left. split; [done|]. by exists false.
Qed.

(** The process changes the slot it fills. *)
Lemma slot_vinv np b f w : embryo_of (ws i) = Some (np, b) -> (forall q, vpid (f q) = vpid q) -> exiting w = false ->
  (forall q, vstate q = EMBRYO -> vparent q = (if b then Some i else None) ->
    vstate (f q) = UNUSED /\ vparent (f q) = None /\ embryo_of w = None \/
    vstate (f q) = EMBRYO /\ (exists b', embryo_of w = Some (np, b') /\ vparent (f q) = if b' then Some i else None) \/
    vstate (f q) = RUNNABLE /\ vparent (f q) = Some i /\ embryo_of w = None) ->
  vinv ip n (upd_work i w ws) os (on_tab (alter f np) v).
Proof.
  intros He Hpid Hx Hf. destruct (wi_own _ _ _ Hw i np b He) as (p & q & Hp & L & Hq & Eq & Epar). specialize (Hf q Eq Epar).
  assert (Hne : np <> i) by (intros ->; destruct L as (_ & L & _); congruence).
  pose proof (vi_tab _ _ _ _ Hv) as V1. split; [| |by apply (cpus_same v)].
  - apply (vcore_one ip n os v f np q); try done.
    + apply (tinv_one ip _ f np q); try done.
      * intros ->. destruct (ti_init _ _ V1) as (q' & Hq' & (_ & L' & _) & _). congruence.
      * intros (_ & L' & _). done.
      * destruct Hf as [(-> & _)|[(-> & _)|(-> & _)]]; done.
      * destruct Hf as [(-> & _)|[(-> & _)|(-> & _)]]; done.
      * destruct Hf as [(-> & _)|[(-> & _)|(_ & -> & _)]]; [by left|by right|done].
      * intros j Hj. assert (j = i /\ vstate (f q) <> UNUSED) as [-> Hu]; [|by split_and!; try done; exists p].
        destruct Hf as [(_ & E & _)|[(E & b' & _ & E')|(E & E' & _)]]; [congruence| |by split; congruence].
        destruct b'; split; congruence.
    + intros _. split; [congruence|apply Hpid].
    + rewrite Eq. split; [|done]. destruct Hf as [(-> & _)|[(-> & _)|(-> & _)]]; done.
  - apply (winv_step ip ws (vtab v) i np p q); try done; [right; split; [done|by exists b]|].
    destruct Hf as [(-> & _ & ?)|[(? & ?)|(-> & _ & ?)]]; [by right|by left|by right].
Qed.

(** It goes on with the slot unchanged. *)
Lemma work_vinv w : embryo_of w = embryo_of (ws i) -> (exiting w = true -> exiting (ws i) = true) -> vinv ip n (upd_work i w ws) os v.
Proof. intros He Hx. split; [done| |done]. apply winv_work; try done. intros Hw'. by apply (wi_exit _ _ _ Hw), Hx. Qed.

Lemma zombie_vinv : ws i = XLast -> vidle v -> vspec (to_sched exit_last) v (fun _ v' => vinv ip n (upd_work i NoWork ws) os v').
Proof.
  intros Hwi Hid. destruct (vcore_cur _ _ _ _ _ Hv Hi) as (p & Hp & Hr & Hlt). pose proof Hv as [V1 V2 V3 V4].
  assert (Hne : i <> ip) by (apply (wi_exit _ _ _ Hw); by rewrite Hwi). pose proof (running_live p Hr) as Hlive.
  apply tosched_spec. eapply vs_conseq; [by apply (exit_last_spec v i ip Hid Hi V2), V1|].
  intros _ v' (HX & Hl & (S1 & S2 & S3 & S4 & S5 & S6)). split.
  - apply (vcore_stop ip n os v _ i); try done; [by apply (tinv_exit ip (vtab v) _ i p)| |by apply (exit_kept i ip _ _ p)].
    rewrite (running_cur _ _ _ Hi) in V3. apply (rinv_stop _ (vtab v) _ i V3); [apply HX|].
    intros j q q' Hq Hq'. destruct (exit_back _ _ _ _ _ _ HX Hq') as (q0 & Hq0 & _ & _ & Hc).
    rewrite Hq in Hq0. injection Hq0 as <-. case_decide as Hj.
    + destruct Hc as [[_ ->]|[? _]]; done.
    + destruct Hc as [[? _]|[_ W]]; [done|]. by apply woke_states in W as (_ & _ & _ & W & _).
  - apply (winv_exit ip ws i p (vtab v)); try done. by rewrite Hwi.
  - apply (cpus_to_sched v); try done. by apply only_pt_idle.
Qed.

(** The process stops, in a state that the invariant does not mention. *)
Lemma stop_vinv v' f : vcur v' = vcur v -> vnext v' = vnext v -> vinit v' = vinit v -> vtab v' = alter f i (vtab v) ->
  (forall p, vstate (f p) = RUNNABLE \/ vstate (f p) = SLEEPING /\ forall j, vchan (f p) <> Some (WProc j)) ->
  (forall p, vpid (f p) = vpid p /\ vparent (f p) = vparent p) ->
  cpus_ok (with_cur None v') os -> vinv ip n ws os (with_cur None v').
Proof.
  intros E1 E2 E3 E4 Hs Hf Hc. destruct (vcore_cur _ _ _ _ _ Hv Hi) as (p & Hp & Hr & _).
  assert (HB : Forall2 benign (vtab v) (alter f i (vtab v))).
  { apply alter_Forall2; [apply _|]. intros q Hq. rewrite Hp in Hq. injection Hq as <-. destruct (Hf p) as [F1 F2].
    unfold benign. rewrite F1, F2, Hr. destruct (Hs p) as [->|[-> Hch]]; split_and!; try done. intros j _ Hj. by destruct (Hch j). }
  split; [|cbn; rewrite E4; by apply (winv_benign ip ws (vtab v))|done].
  apply (vcore_stop ip n os v _ i); try done; cbn; rewrite E4; [by apply (tinv_benign ip (vtab v)); [apply Hv|]| |by apply benign_kept].
  pose proof (vi_run _ _ _ _ Hv) as R. rewrite (running_cur _ _ _ Hi) in R. apply rinv_stop_alter; [done|].
  intros q. by destruct (Hs q) as [->|[-> _]].
Qed.

Lemma ncli_range : 0 <= ncli (vcpu v) < 2 ^ 31.
Proof. destruct Hk as [_ (hs & [_ _ H3 H4 _] & _)]. lia. Qed.

Lemma yield_vinv : vspec (to_sched yield1) v (fun _ v' => vinv ip n ws os v').
Proof.
  apply tosched_spec. eapply vs_conseq; [by apply (yield1_spec v i)|]. intros _ v' (E & Hh & Hl & Hn & (S1 & S2 & S3 & S4 & S5)).
  pose proof ncli_range as Hr. assert (Hid : vidle v).
  { unfold vidle. unfold s32 in Hn. divlia. }
  apply (stop_vinv v' (with_state RUNNABLE)); try done; [by left|]. apply (cpus_to_sched v); try done. by apply only_pt_idle.
Qed.

(** [sleep] gives up its lock, the only one that the CPU holds. *)
Lemma sleep_vinv lk c : lk <> PtableLock -> (forall j, c <> WProc j) ->
  vspec (to_sched (sleep1 (Some lk) c)) v (fun _ v' => vinv ip n ws os v').
Proof.
  intros Hlk Hc. apply tosched_spec. eapply vs_conseq; [by apply (sleep1_spec v i lk c)|].
  intros _ v' (E & Hh & Hl & Hhl & Hn & El & S1 & S2 & S3 & S4).
  apply (stop_vinv v' (asleep c)); try done; [right; split; [done|]; intros j [= ->]; by destruct (Hc j)|].
  destruct Hk as [Ho (hs & [H1 H2 H3 H4 H5] & Hp)].
  assert (Hone : hs = [lk]).
  { assert (length hs = 1%nat) as Hlen. { unfold s32 in Hn. divlia. }
    apply H2 in Hhl. destruct hs as [|l [|]]; try done. by apply list_elem_of_singleton in Hhl as ->. }
  assert (Hvl : forall l, l <> lk -> l <> PtableLock -> vlk v' l = vlk v l).
  { intros l Hl1 Hl2. rewrite !vlk_ne, El, lookup_insert_ne by done. done. }
  assert (Hvk : vlk v' lk = given v lk) by (rewrite vlk_ne, El, lookup_insert_eq by done; done).
  assert (Hme : vlk v' PtableLock = vlock v') by done. assert (Hme0 : vlk v PtableLock = vlock v) by done.
  apply only_pt_rest; [|by right]. split; [|split; [by apply vheld_mine|]].
  - apply (others_mine v); [|done]. split; [done|]. intros id l Hid.
    destruct (decide (l = PtableLock)) as [->|Hl2]; [|destruct (decide (l = lk)) as [->|Hl1]].
    + cbn [with_cur vlk]. change (vlk (with_cur None v') PtableLock) with (vlock v'). rewrite Hme0.
      rewrite !(mine_others (vid v)); [done|by left|done| |done]. rewrite <- S3. by apply vheld_mine.
    + change (vlk (with_cur None v') lk) with (vlk v' lk). rewrite Hvk, (mine_others (vid v) (vlk v lk)); [done|by right|done].
    + change (vlk (with_cur None v') l) with (vlk v' l). by rewrite Hvl.
  - intros l Hl2. change (vlk (with_cur None v') l) with (vlk v' l). destruct (decide (l = lk)) as [->|Hl1]; [by rewrite Hvk|].
    rewrite Hvl by done. cbn [with_cur vid]. rewrite S3. destruct (holding (vid v) (vlk v l)) eqn:Eh; [|done].
    apply H2 in Eh. rewrite Hone in Eh. by apply list_elem_of_singleton in Eh.
Qed.

Lemma kill_vinv pid : vidle v -> vspec (kill pid) v (fun _ v' => vinv ip n ws os v').
Proof.
  intros Hid. eapply vs_conseq; [by apply (kill_spec v pid)|]. intros r v' (Hf' & Hl & (S1 & S2 & S3 & S4 & S5) & Hc).
  assert (HB : Forall2 benign (vtab v) (vtab v') /\ Forall2 same_run (vtab v) (vtab v')).
  { destruct Hc as [[_ E]|(_ & j & q & Hq & _ & E)]; rewrite E; [by split; reflexivity|].
    split; (apply alter_Forall2; [apply _|]); intros x _; unfold benign, same_run, killed_pv; cbn; destruct (vstate x); cbn; by split_and!. }
  destruct HB as [HB HR]. split; [by apply (vcore_same ip n os v)|by apply (winv_benign ip ws (vtab v))|].
  apply (cpus_free v); try done. by apply only_pt_idle.
Qed.

End process.

(** Rounds of [wait]; [v1] is the table the round works on. *)
Lemma wait_post_vinv ip n ws os i v1 r v' : wait_post i v1 r v' -> vcore ip n os v1 -> winv ip ws (vtab v1) -> only_pt v1 os ->
  vcur v1 = Some i -> vsame v1 v' -> (exists p, vtab v1 !! i = Some p /\ vstate p = RUNNING) ->
  vinv ip n ws os (match r with inl _ => v' | inr _ => with_cur None v' end).
Proof.
  intros Hwp V W Ho Hi1 (S1 & S2 & S3 & S4 & S5) (p & Hp & Hr). pose proof V as [V1 V2 V3 V4].
  destruct Hwp as [v' j q Hq Hpar Hz E Hf|v' q Hq _ E Hf|v' e Hnz _ E Hh].
  - assert (Vn : vcore ip n os (on_tab (alter reaped j) v1)).
    { apply (vcore_one ip n os v1 reaped j q); try done; [by apply (tinv_reap ip _ j q)|]. cbn. by rewrite Hz. }
    assert (Ew : winv ip ws (alter reaped j (vtab v1))).
    { destruct W as [W1 W2 W3 W4]. split; try done.
      - intros a np b Ha. destruct (W1 a np b Ha) as (x & y & Hx & (L1 & L2 & L3) & Hy & E1 & E2). exists x, y.
        rewrite !list_lookup_alter_ne by (intros ->; congruence). done.
      - intros np y Hy Ey. destruct (alter_cases reaped j _ q np y Hq Hy) as [[-> ->]|[_ Hy']]; [done|]. by apply (W2 np y). }
    split; [|by rewrite E|by apply (cpus_free v1)]. destruct Vn as [N1 N2 N3 N4]. cbn in *.
    split; rewrite ?S1, ?S2, ?E; try done. unfold running in *. by rewrite S4.
  - split; [|by rewrite E|by apply (cpus_free v1)]. apply (vcore_same ip n os v1); try done; rewrite E; reflexivity.
  - split; [|cbn; rewrite E|by apply (cpus_to_sched v1)].
    + apply (vcore_stop ip n os v1 _ i); try done; cbn; rewrite E.
      * apply (tinv_sleep _ _ _ p); try done. by apply running_live.
      * rewrite (running_cur _ _ _ Hi1) in V3. by apply rinv_stop_alter.
      * apply (alter_kept _ i _ p Hp). cbn. by rewrite Hr.
    + destruct W as [W1 W2 W3 W4]. split; try done.
      * intros a np b Ha. destruct (W1 a np b Ha) as (x & y & Hx & L & Hy & E1 & E2).
        assert (np <> i) by (intros ->; congruence).
        destruct (decide (a = i)) as [->|]; [exists (asleep (WProc i) p), y|exists x, y];
          rewrite ?list_lookup_alter_eq, !list_lookup_alter_ne by done; [rewrite Hp|]; done.
      * intros np y Hy Ey. destruct (alter_cases _ i _ p np y Hp Hy) as [[-> ->]|[_ Hy']]; [done|]. by apply (W2 np y).
Qed.

Lemma wait_vinv ip n ws os v i : vinv ip n ws os v -> vcur v = Some i -> vidle v ->
  vspec (waiting (wait1 kend)) v (fun _ v' => vinv ip n ws os v').
Proof.
  intros [V W K] Hi Hid. destruct (vcore_cur _ _ _ _ _ V Hi) as (p & Hp & Hr & Hlt). apply waiting_spec.
  eapply vs_conseq; [by apply (wait1_spec kend v i)|]. intros r v' (Hw & Hl & HS). apply (wait_post_vinv ip n ws os i v r v'); try done.
  - by apply only_pt_idle.
  - by exists p.
Qed.

(** *** Steps of the scheduler *)

Lemma start_vinv ip n ws os v : vinv ip n ws os v -> vcur v = None -> vspec scheduler_start v (fun _ v' => vinv ip n ws os v').
Proof.
  intros [V W K] Hc. unfold scheduler_start. apply vs_bind, vs_kmod. intros k <-. apply vs_acquire_lk. intros Hl.
  set (v1 := kview (set_kcpu _ k)) in *. assert (Ho : only_pt (kview k) os) by (apply only_pt_sched; try done; by left).
  assert (Hid : ncli (kcpu k) = 0).
  { destruct K as [_ (hs & [H1 H2 H3 H4 H5] & Hp)]. cbn in H3. rewrite Hc in Hp. destruct hs as [|l hs]; [done|exfalso].
    assert (Hin : PtableLock ∈ l :: hs) by (rewrite <- (Hp l); left). apply H2 in Hin.
    assert (Hl' : locked (vlk (kview k) PtableLock) = 0) by exact Hl. unfold holding in Hin. by rewrite Hl' in Hin. }
  unfold with_lk. rewrite bool_decide_eq_true_2 by done. split; [by apply (vcore_same ip n os (kview k)); try reflexivity|done|].
  assert (Hh : vheld (with_lock (pushcli (vcpu v1)) (taken v1 PtableLock) v1)).
  { split; [exact (holding_taken v1 PtableLock)|]. split; [|done]. unfold pushcli, v1. cbn. by rewrite Hid. }
  apply only_pt_rest; [|by right]. apply (only_pt_step (kview k)); try done. by apply vheld_mine.
Qed.

(** A process the scheduler has chosen goes on. *)
Lemma resume_vinv ip n ws os v i p c : vcore ip n os v -> winv ip ws (vtab v) -> only_pt v os -> vheld v -> vcur v = Some i ->
  vtab v !! i = Some p -> vstate p = RUNNING -> (forall lk e, c = CSleep lk e -> lk <> PtableLock) ->
  vspec (resume c) v (fun _ v' => vinv ip n (upd_work i (resume_work c (ws i)) ws) os v').
Proof.
  intros V W Ho Hh Hi Hp Hr Hlk. assert (Hlt : (i < length (vtab v))%nat) by (by eapply lookup_lt_Some).
  assert (W' : winv ip (upd_work i (resume_work c (ws i)) ws) (vtab v)).
  { apply winv_work; [done|by destruct c|]. intros Hx. apply (wi_exit _ _ _ W). by destruct c. }
  assert (Hch : Forall2 benign (vtab v) (alter (with_chan None) i (vtab v)) /\
    Forall2 same_run (vtab v) (alter (with_chan None) i (vtab v))).
  { split; apply alter_Forall2; try apply _; intros q Hq; [|done]. rewrite Hp in Hq. injection Hq as <-.
    unfold benign. cbn. rewrite Hr. by split_and!. }
  destruct Hch as [Hb Hs].
  assert (Hquiet : forall v', vtab v' = vtab v /\ vfree v' /\ vsame v v' ->
    vinv ip n (upd_work i (resume_work c (ws i)) ws) os v').
  { intros v' (E & Hf & (S1 & S2 & S3 & S4 & S5)). split; [|by rewrite E|by apply (cpus_free v)].
    apply (vcore_same ip n os v); try done; rewrite E; reflexivity. }
  destruct c as [|e|lk e|e]; cbn [resume].
  - apply vs_bind. eapply vs_conseq; [by apply forkret_spec|]. intros ? v' H. apply vs_ret. by apply Hquiet.
  - apply vs_bind. eapply vs_conseq; [by apply yield2_spec|]. intros ? v' H. apply vs_ret. by apply Hquiet.
  - apply vs_bind. eapply vs_conseq; [by apply (sleep2_spec v i lk)|]. intros _ v' (E & Hf & (S1 & S2 & S3 & S4 & S5)).
    rewrite decide_False in Hf by (by eapply Hlk). apply vs_ret. rewrite <- E in *.
    split; [by apply (vcore_same ip n os v)|by apply (winv_benign ip _ (vtab v))|by apply (cpus_free v)].
  - apply waiting_spec. eapply vs_conseq; [by apply (wait2_spec kend v i)|].
    intros r v' (v1 & E & Hh1 & (S1 & S2 & S3 & S4 & S5) & Hwp & HS). rewrite <- E in *.
    apply (wait_post_vinv ip n _ os i v1 r v'); try done; [by apply (vcore_same ip n os v)|by apply (winv_benign ip _ (vtab v))| |congruence|].
    + apply (only_pt_step v); try done. by apply vheld_mine.
    + exists (with_chan None p). by rewrite E, list_lookup_alter_eq, Hp.
Qed.

Lemma sched_held ip n ws os v : vinv ip n ws os v -> vcur v = None -> holding (vid v) (vlock v) = true ->
  vheld v /\ only_pt v os.
Proof.
  intros [V W K] Hc Hh. assert (Ho : only_pt v os) by (apply only_pt_sched; try done; by right). split; [|done].
  destruct K as [_ (hs & [H1 H2 H3 H4 H5] & Hp)]. rewrite Hc in Hp. assert (Hin : PtableLock ∈ hs) by (by apply H2).
  assert (length hs = 1%nat) as Hlen.
  { destruct hs as [|a [|b hs]]; [by apply elem_of_nil in Hin|done|exfalso]. apply NoDup_cons in H1 as [Hn _].
    apply Hn. rewrite (Hp a), (Hp b) by (rewrite ?elem_of_cons; auto). left. }
  split; [done|]. split; [lia|]. apply H5. lia.
Qed.

Lemma pick_vinv ip n ws os v j : vinv ip n ws os v -> vcur v = None -> holding (vid v) (vlock v) = true ->
  vspec (scheduler_next j) v (fun r v' =>
    match r with
    | Some i => vcore ip n os v' /\ winv ip ws (vtab v') /\ only_pt v' os /\ vheld v' /\ vcur v' = Some i /\
        exists p, vtab v' !! i = Some p /\ vstate p = RUNNING
    | None => vinv ip n ws os v'
    end).
Proof.
  intros Hv Hc H0. destruct (sched_held _ _ _ _ _ Hv Hc H0) as [Hh Ho]. destruct Hv as [V W K].
  eapply vs_conseq; [by apply (scheduler_next_spec v j)|]. intros [i|] v'.
  - intros (_ & (p & Hp & Hr) & _ & E & Hh' & Hi & S1 & S2 & S3 & S5).
    assert (Hp' : vtab v' !! i = Some (with_state RUNNING p)) by (by rewrite E, list_lookup_alter_eq, Hp).
    assert (HB : Forall2 benign (vtab v) (vtab v')).
    { rewrite E. apply alter_Forall2; [apply _|]. intros q Hq. rewrite Hp in Hq. injection Hq as <-. unfold benign. cbn. rewrite Hr. by split_and!. }
    split_and!; [|by apply (winv_benign ip _ (vtab v))|by apply (only_pt_step v); try done; apply vheld_mine|done|done|by eexists].
    destruct V as [V1 V2 V3 V4]. split; try congruence; [by apply (tinv_benign ip (vtab v))| |].
    + rewrite (running_cur _ _ _ Hi), E. unfold running in V3. rewrite Hc in V3. apply (rinv_start _ _ _ _ p); try done. by rewrite Hr.
    + intros Hb. rewrite S1. destruct (V4 Hb). split; [done|]. eapply pinv_kept; [done|]. by apply benign_kept.
  - intros (_ & E & Hf & (S1 & S2 & S3 & S4 & S5)). split; [|by rewrite E|by apply (cpus_free v)].
    apply (vcore_same ip n os v); try done; rewrite E; reflexivity.
Qed.

(** *** Other steps *)

Lemma calm_vinv {A} ip n ws os v (p : P A) : vinv ip n ws os v -> keeps calm p -> vspec p v (fun _ v' => vinv ip n ws os v').
Proof.
  intros [V W K] Hp. apply vs_calm; [done|]. intros _ v' (HF & E1 & E2 & E3 & E4 & E5 & E6 & E7).
  assert (HB : Forall2 benign (vtab v) (vtab v')) by (eapply Forall2_impl; [exact HF|apply woke_benign]).
  split; [|by apply (winv_benign ip _ (vtab v))|by apply (cpus_same v)]. apply (vcore_same ip n os v); try done.
  eapply Forall2_impl; [exact HF|]. intros x y Wk. by apply woke_states in Wk as (_ & _ & _ & Wk & _).
Qed.

Lemma calm_work ip n ws os v i w (p : P unit) : vinv ip n ws os v -> keeps calm p -> embryo_of w = embryo_of (ws i) ->
  (exiting w = true -> exiting (ws i) = true) -> vspec p v (fun _ v' => vinv ip n (upd_work i w ws) os v').
Proof.
  intros Hv Hp He Hx. eapply vs_conseq; [by apply calm_vinv|]. intros _ v' [V' W' K']. by apply (work_vinv ip n ws os v' i).
Qed.

(** A step that only changes locks. *)
Lemma locks_vinv ip n ws os v v' : vinv ip n ws os v -> vtab v' = vtab v -> vnext v' = vnext v -> vinit v' = vinit v ->
  vcur v' = vcur v -> mine_only v v' -> (exists hs, locks_ok v' (vid v') (vcpu v') hs /\ place_ok (vcur v') hs) -> vinv ip n ws os v'.
Proof.
  intros [V W [Ho _]] E1 E2 E3 E4 Hm Hl. split; [|by rewrite E1|split; [by apply (others_mine v)|done]].
  apply (vcore_same ip n os v); try done; rewrite E1; reflexivity.
Qed.

Lemma place_perm cu hs hs' : hs ≡ₚ hs' -> place_ok cu hs -> place_ok cu hs'.
Proof. intros Hp. destruct cu; cbn; [by rewrite Hp|]. intros H l Hl. apply H. by rewrite Hp. Qed.

Lemma acquire_vinv ip n ws os v i l : vinv ip n ws os v -> vcur v = Some i -> l <> PtableLock -> ncli (vcpu v) < 2 ^ 31 - 1 ->
  vspec (acquire_lk l) v (fun _ v' => vinv ip n ws os v').
Proof.
  intros Hv Hi Hl Hn. apply vs_acquire_lk. intros H0. pose proof (vv_cpus _ _ _ _ _ Hv) as [_ (hs & Hlo & Hp)].
  destruct (with_lk_rest l (pushcli (vcpu v)) (taken v l) v) as (E1 & E2 & E3 & E4 & E5 & E6).
  destruct (acquire_locks l v hs Hlo H0 Hn) as [Hlo' Hm].
  apply (locks_vinv ip n ws os v); try done. exists (l :: hs). split; [done|]. rewrite E5, Hi in *. cbn in *.
  by rewrite not_elem_of_cons.
Qed.

Lemma release_vinv ip n ws os v i l : vinv ip n ws os v -> vcur v = Some i ->
  vspec (release_lk l) v (fun _ v' => vinv ip n ws os v').
Proof.
  intros Hv Hi. apply vs_release_lk. intros Hh _ _. pose proof (vv_cpus _ _ _ _ _ Hv) as [_ (hs & Hlo & Hp)].
  destruct (with_lk_rest l (popped (vcpu v)) (given v l) v) as (E1 & E2 & E3 & E4 & E5 & E6).
  destruct (release_locks l v hs Hlo Hh) as [(hs' & Hpm & Hlo') Hm].
  apply (locks_vinv ip n ws os v); try done. exists hs'. split; [done|]. rewrite E5, Hi in *. cbn in *.
  rewrite Hpm, not_elem_of_cons in Hp. tauto.
Qed.

Lemma handler_vinv ip n ws os v l (p : P unit) : vinv ip n ws os v -> ncli (vcpu v) < 2 ^ 31 - 1 -> keeps calm p ->
  vspec (acquire_lk l >>> p >>> release_lk l) v (fun _ v' => vinv ip n ws os v').
Proof.
  intros Hv Hn Hp. apply vs_bind, vs_acquire_lk. intros H0. pose proof (vv_cpus _ _ _ _ _ Hv) as [_ (hs & Hlo & Hpl)].
  destruct (with_lk_rest l (pushcli (vcpu v)) (taken v l) v) as (E1 & E2 & E3 & E4 & E5 & E6).
  destruct (acquire_locks l v hs Hlo H0 Hn) as [Hlo1 Hm1]. set (v1 := with_lk l _ _ v) in *.
  apply vs_bind, vs_calm; [done|]. intros _ v2 (HF & F1 & F2 & F3 & F4 & F5 & F6 & F7).
  assert (Ev : forall l', vlk v2 l' = vlk v1 l') by (intros l'; unfold vlk; by rewrite F1, F7).
  apply vs_release_lk. intros Hh _ _.
  destruct (with_lk_rest l (popped (vcpu v2)) (given v2 l) v2) as (G1 & G2 & G3 & G4 & G5 & G6).
  assert (Hlo2 : locks_ok v2 (vid v2) (vcpu v2) (l :: hs)).
  { rewrite F4, F5. apply (locks_ext v1); [|done]. intros l'. by rewrite Ev. }
  destruct (release_locks l v2 _ Hlo2 Hh) as [(hs' & Hpm & Hlo') Hm2]. set (v3 := with_lk l _ _ v2) in *.
  apply Permutation_cons_inv in Hpm. destruct Hv as [V W [Ho _]].
  assert (HB : Forall2 benign (vtab v) (vtab v3)) by (rewrite G1, <- E1; eapply Forall2_impl; [exact HF|apply woke_benign]).
  split; [|by apply (winv_benign ip _ (vtab v))|].
  - apply (vcore_same ip n os v); try congruence. rewrite G1, <- E1. eapply Forall2_impl; [exact HF|].
    intros x y Wk. by apply woke_states in Wk as (_ & _ & _ & Wk & _).
  - split.
    + apply (others_mine v2); [done|]. apply (others_mine v1); [split; [done|]; intros; by rewrite Ev|]. by apply (others_mine v).
    + exists hs'. split; [done|]. rewrite G5, F6, E5. by eapply place_perm.
Qed.

Lemma rinv_perm r r' l : r ≡ₚ r' -> rinv r l -> rinv r' l.
Proof. intros Hp [R1 R2 R3]. split; [by rewrite <- Hp|intros i; rewrite <- Hp; apply R2|intros i p; rewrite <- Hp; apply R3]. Qed.

Lemma cpu_vinv ip n ws k l1 o l2 pos : vinv ip n ws (l1 ++ o :: l2) (kview k) ->
  vinv ip n ws (l1 ++ Other (cpuid k) (kcpu k) (cur k) pos :: l2) (kview (switch_cpu o k)).
Proof.
  intros [[V1 V2 V3 V4] W [[Hn Ho] (hs & Hl & Hp)]]. split; [split; try done|done|].
  - apply (rinv_perm (running (kview k) (l1 ++ o :: l2))); [|done]. unfold running. rewrite !fmap_app, !fmap_cons.
    cbn [kview vcur switch_cpu cur set_cpuid set_kcpu set_cur ocur].
    apply omap_Permutation. rewrite <- !Permutation_middle. constructor.
  - apply Forall_app in Ho as [O1 O2]. apply Forall_cons in O2 as [(hs2 & Hl2 & Hp2) O3].
    assert (Hx : forall id c h, locks_ok (kview k) id c h -> locks_ok (kview (switch_cpu o k)) id c h) by (intros id c h; by apply locks_ext).
    assert (HF : forall l, Forall (fun o0 => exists h, locks_ok (kview k) (ocid o0) (ocpu o0) h /\ place_ok (ocur o0) h) l ->
      Forall (fun o0 => exists h, locks_ok (kview (switch_cpu o k)) (ocid o0) (ocpu o0) h /\ place_ok (ocur o0) h) l).
    { intros l H. eapply Forall_impl; [exact H|]. intros o0 (h & H1 & H2). exists h. split; [by apply Hx|done]. }
    split; [|exists hs2; split; [by apply Hx|done]]. split.
    + rewrite !fmap_app, !fmap_cons in *. cbn [kview vid switch_cpu cpuid set_cpuid ocid] in *.
      eapply NoDup_Permutation_proper; [|exact Hn]. rewrite <- !Permutation_middle. constructor.
    + apply Forall_app. split; [by apply HF|]. constructor; [|by apply HF]. exists hs. cbn. split; [by apply Hx|done].
Qed.

(** Every step keeps the invariant. *)
Definition minv (ip : nat) (n : Z) (m : mach) : Prop :=
  vinv ip n (works m) (others m) (mview m) /\ forall i lk e, conts m i = CSleep lk e -> lk <> PtableLock.

(** Every step keeps the invariant. *)
Lemma mstep_vinv ip n m m' : mstep m m' -> minv ip n m -> vinv ip (n + 1) (works m') (others m') (mview m').
Proof.
  intros Hst [Hv Hc]. unfold mview in *. pose proof Hv as [V W K].
  assert (Hup : forall A (p : P A) a k' ws, does p (mk m) a k' ->
    vspec p (kview (ext (mk m))) (fun _ v' => vinv ip n ws (others m) v') -> vinv ip (n + 1) ws (others m) (kview (ext k'))).
  { intros A p a k' ws Hd Hp. apply (vinv_mono ip n); [lia|]. exact (does_spec _ _ _ _ _ Hd Hp). }
  destruct Hst as [m i r k' Hi Hwi Hn Hd|m i np ok k' Hi Hwi Hd|m i np ok k' Hi Hwi Hd|m i np k' Hi Hwi Hd|m i np pid k' Hi Hwi Hd
    |m i np k' Hi Hwi Hd|m i Hi Hwi Hne|m i fd fds k' Hi Hwi Hd|m i k' Hi Hwi Hd|m i e k' Hi Hwi Hn Hd|m i r k' Hi Hwi Hn Hd
    |m i pid r k' Hi Hn Hd|A m p a k' Hp Hd|m i e k' Hi Hd|m i lk c e k' Hi Hr Hlk Hch Hd|m i lk w k' Hi Hwi Hn Hd
    |m i l k' Hi Hl Hn Hd|m i l k' Hi Hl Hd|m p l k' Hl Hn Hp Hd|m k' Hi Hd|m i k1 r k' Hi Hh Hd1 Hd2|m k' Hi Hh Hd|m l1 o l2 Ho];
    cbn [mk others works] in *.
  - pose proof (does_spec _ _ _ _ _ Hd (alloc_vinv ip n (works m) (others m) _ i V W K Hi Hwi Hn)) as H. by destruct r.
  - apply (vinv_mono ip n); [lia|]. rewrite (does_spec _ _ _ _ _ Hd (allocproc2_spec _ _ np _)). destruct ok.
    + apply (work_vinv ip n (works m) (others m) _ i V W K); by rewrite Hwi.
    + apply (slot_vinv ip n (works m) (others m) _ i V W K np false); try done; [by rewrite Hwi|]. intros q _ Hq. by left.
  - apply (vinv_mono ip n); [lia|]. rewrite (does_spec _ _ _ _ _ Hd (fork_copy_spec _ _ np _)).
    change (vcur (kview (ext (mk m)))) with (cur (ext (mk m))). rewrite Hi. destruct ok;
      (apply (slot_vinv ip n (works m) (others m) _ i V W K np false); try done; [by rewrite Hwi|]); intros q Hs Hq; cbn.
    + right. left. split; [done|]. by exists true.
    + by left.
  - apply (vinv_mono ip n); [lia|]. rewrite (does_spec _ _ _ _ _ Hd (fork_dup_spec np _)).
    apply (work_vinv ip n (works m) (others m) _ i V W K); by rewrite Hwi.
  - apply (vinv_mono ip n); [lia|]. rewrite (does_spec _ _ _ _ _ Hd (fork_start_spec np _)).
    apply (slot_vinv ip n (works m) (others m) _ i V W K np true); try done; [by rewrite Hwi|]. intros q _ Hq. right. right. done.
  - apply (vinv_mono ip n); [lia|]. rewrite (does_spec _ _ _ _ _ Hd (fork_name_spec np _)).
    apply (work_vinv ip n (works m) (others m) _ i V W K); by rewrite Hwi.
  - apply (vinv_mono ip n); [lia|]. split; [done| |done]. apply winv_work; [done|by rewrite Hwi|]. intros _ ->.
    apply Hne. rewrite Hi. symmetry. apply V.
  - eapply Hup; [done|]. apply calm_work; [done|apply exit_file_calm|by rewrite Hwi..].
  - eapply Hup; [done|]. apply calm_work; [done|apply exit_cwd_calm|by rewrite Hwi..].
  - eapply Hup; [done|]. by apply (zombie_vinv ip n (works m) (others m) _ i).
  - eapply Hup; [done|]. by apply (wait_vinv ip n (works m) (others m) _ i).
  - eapply Hup; [done|]. by apply (kill_vinv ip n (works m) (others m) _ V W K).
  - eapply Hup; [done|]. by apply calm_vinv.
  - eapply Hup; [done|]. by apply (yield_vinv ip n (works m) (others m) _ i).
  - eapply Hup; [done|]. by apply (sleep_vinv ip n (works m) (others m) _ i).
  - eapply Hup; [done|]. assert (Hx : forall v', vinv ip n (works m) (others m) v' -> vinv ip n (upd_work i w (works m)) (others m) v').
    { intros v' [V' W' K']. apply (work_vinv ip n (works m) (others m) v' i V' W' K'); by rewrite Hwi. }
    unfold sleep3. case_bool_decide as Hlk; [|apply vs_ret; by apply Hx]. eapply vs_conseq; [|intros ? v'; apply Hx].
    by apply (acquire_vinv ip n (works m) (others m) _ i).
  - eapply Hup; [done|]. by apply (acquire_vinv ip n (works m) (others m) _ i).
  - eapply Hup; [done|]. by apply (release_vinv ip n (works m) (others m) _ i).
  - eapply Hup; [done|]. by apply handler_vinv.
  - eapply Hup; [done|]. by apply start_vinv.
  - apply (vinv_mono ip n); [lia|].
    pose proof (does_spec _ _ _ _ _ Hd1 (pick_vinv ip n (works m) (others m) _ _ Hv Hi Hh)) as (V1 & W1 & O1 & Hh1 & Hi1 & p & Hp & Hr).
    eapply (does_spec _ _ _ _ (fun _ v' => vinv ip n _ (others m) v')); [done|]. eapply resume_vinv; try done. intros lk e E. by apply (Hc i lk e).
  - apply (vinv_mono ip n); [lia|]. exact (does_spec _ _ _ _ _ Hd (pick_vinv ip n (works m) (others m) _ _ Hv Hi Hh)).
  - apply (vinv_mono ip n); [lia|]. rewrite Ho in Hv. by apply cpu_vinv.
Qed.

Lemma mstep_minv ip n m m' : mstep m m' -> minv ip n m -> minv ip (n + 1) m'.
Proof.
  intros Hst Hm. split; [by apply (mstep_vinv ip n m m')|]. destruct Hm as [_ Hc].
  assert (Hs : forall j c, (forall lk e, c = CSleep lk e -> lk <> PtableLock) ->
    forall i lk e, set_cont j c (conts m) i = CSleep lk e -> lk <> PtableLock).
  { intros j c Hcc i lk e. unfold set_cont. case_decide; [apply Hcc|apply Hc]. }
  destruct Hst; cbn [conts] in *; try done.
  - destruct r; cbn [conts]; [|done]. by apply Hs.
  - destruct r; [done|]. by apply Hs.
  - by apply Hs.
  - apply Hs. intros ? ? [= <- _]. done.
  - destruct r; [done|]. by apply Hs.
Qed.

(** ** The start *)

Definition free_slot : pv := PV UNUSED 0 None None false.
Definition first_proc : pv := PV RUNNABLE 1 None None false.

(** The kernel after [userinit], every CPU in its scheduler, no lock held;
    [ip] is the slot of the first process. *)
Record booted (ip : nat) (m : mach) : Prop := {
  bo_ip : (ip < NPROC)%nat;
  bo_tab : vtab (mview m) = alter (fun _ => first_proc) ip (replicate NPROC free_slot);
  bo_next : vnext (mview m) = 2;
  bo_init : vinit (mview m) = Some ip;
  bo_cur : vcur (mview m) = None;
  bo_idle : vidle (mview m);
  bo_locks l : locked (vlk (mview m) l) = 0;
  bo_cpus : NoDup (vid (mview m) :: (ocid <$> others m));
  bo_others : Forall (fun o => ncli (ocpu o) = 0 /\ ocur o = None) (others m);
  bo_conts i : conts m i = CFork;
  bo_works i : works m i = NoWork
}.

Lemma boot_lookup ip i p : alter (fun _ => first_proc) ip (replicate NPROC free_slot) !! i = Some p ->
  i = ip /\ p = first_proc \/ i <> ip /\ p = free_slot.
Proof.
  rewrite list_lookup_alter. case_decide as Hi; [subst|].
  - intros (q & _ & ->)%fmap_Some. by left.
  - intros [-> _]%lookup_replicate. right. by split.
Qed.

Lemma free_locks v id c : (forall l, locked (vlk v l) = 0) -> ncli c = 0 -> locks_ok v id c [].
Proof.
  intros Hl Hc. split; rewrite ?Hc; try done; [constructor|]. intros l. unfold holding. rewrite Hl.
  split; [by intros ?%elem_of_nil|done].
Qed.

Lemma booted_minv ip m : booted ip m -> minv ip 2 m.
Proof.
  intros [B1 B2 B3 B4 B5 B6 B7 B8 B9 B10 B11]. split; [|intros i lk e; by rewrite B10].
  assert (Hip : vtab (mview m) !! ip = Some first_proc).
  { rewrite B2, list_lookup_alter_eq, lookup_replicate_2 by done. done. }
  assert (Hl : forall i p, vtab (mview m) !! i = Some p -> i = ip /\ p = first_proc \/ i <> ip /\ p = free_slot).
  { intros i p. rewrite B2. apply boot_lookup. }
  split.
  - split; [|done| |].
    + split; [by rewrite B2, length_alter, length_replicate|exists first_proc; by split_and!|..].
      * intros i p [[-> ->]|[_ ->]]%Hl _; [by right; right|by left].
      * by intros i p j [[-> ->]|[_ ->]]%Hl.
      * by intros i p j [[-> ->]|[_ ->]]%Hl.
      * by intros i p c q [[-> ->]|[_ ->]]%Hl.
    + assert (Hrun : running (mview m) (others m) = []).
      { unfold running. rewrite B5. cbn. clear -B9. induction B9 as [|o os [_ Ho] _ IH]; cbn; [done|]. by rewrite Ho. }
      rewrite Hrun. split; [constructor|by intros i ?%elem_of_nil|]. by intros i p [[-> ->]|[_ ->]]%Hl.
    + intros _. rewrite B3. split; [done|]. split.
      * by intros i p [[-> ->]|[_ ->]]%Hl.
      * by intros i j p q [[-> ->]|[_ ->]]%Hl [[-> ->]|[_ ->]]%Hl.
  - split; try (intros *; rewrite !B11; done). by intros np q [[-> ->]|[_ ->]]%Hl.
  - split; [split; [done|]|exists []; split; [by apply free_locks|]].
    + eapply Forall_impl; [exact B9|]. intros o [H1 H2]. exists []. split; [by apply free_locks|].
      rewrite H2. by intros l ?%elem_of_nil.
    + rewrite B5. by intros l ?%elem_of_nil.
Qed.

Lemma nsteps_minv ip z m0 n m : minv ip z m0 -> nsteps mstep n m0 m -> minv ip (z + Z.of_nat n) m.
Proof.
  intros Hz Hr. revert z Hz. induction Hr as [m1|n m1 m2 m3 Hs _ IH]; intros z Hz; [by rewrite Z.add_0_r|].
  replace (z + Z.of_nat (S n)) with (z + 1 + Z.of_nat n) by lia. by apply IH, (mstep_minv ip z m1).
Qed.

Lemma keeps_root : keeps (fun k k' => kview (ext k') = kview (ext k)) (namei devread kcwd [slash]).
Proof.
  intros S h s k a s' k'. unfold namei, namex. rewrite !run_pbind.
  change (slash =? slash) with true. cbn iota.
  destruct (run h (iget ROOTDEV ROOTINO) (s, k)) as [j [s1 k1]| |] eqn:E; [|done..]. cbn.
  apply iget_ids in E as (i & _ & _ & [[_ ->]|(_ & _ & ->)]); by intros [= _ _ <-].
Qed.

(** [userinit] on an empty table makes the first process. *)
Lemma userinit_spec initcode initcode_size v : vidle v -> vtab v = replicate NPROC free_slot -> vnext v = 1 ->
  vspec (userinit kdata trapret forkret initcode initcode_size) v (fun _ v' => exists ip, (ip < NPROC)%nat /\
    vtab v' = alter (fun _ => first_proc) ip (replicate NPROC free_slot) /\ vnext v' = 2 /\ vinit v' = Some ip /\
    vcur v' = vcur v /\ vfree v' /\ vlks v' = vlks v).
Proof.
  intros Hf Ht Hn. unfold userinit. apply vs_bind. eapply vs_conseq; [by apply allocproc_spec|].
  intros r v1 Ha. apply vs_bind, vs_kmod. intros k Hk. destruct r as [ip|]; [|apply vs_panic].
  destruct Ha as [Ha (F1 & F2 & F3 & F4 & F5)].
  inversion_clear Ha as [|? ? p H1 H2 H3 H4]. set (v2 := kview (set_initproc (Some ip) k)).
  assert (Hip : (ip < NPROC)%nat) by (rewrite Ht in H1; by apply lookup_replicate in H1 as [_ ?]).
  vs. apply vs_keeps; [apply keeps_root|]. intros rt. vs. apply (vs_upd _ _ (with_state RUNNABLE)); [done|].
  assert (E2 : v2 = View (vtab v1) (vlock v1) (vnext v1) (Some ip) (vid v1) (vcpu v1) (vcur v1) (vlks v1)) by (by rewrite <- Hk).
  rewrite E2. exists ip. cbn [vtab on_tab vnext vinit vcur vfree vlock vcpu vlks]. rewrite H3, H4, Hn, list_alter_alter_eq, <- Ht. split_and!; try done.
  apply list_alter_ext; [|done]. intros q Hq. rewrite Ht in Hq. apply lookup_replicate in Hq as [-> _].
  done.
Qed.

(** ** The promises of the process table *)

(** C22. On any number of CPUs, after any sequence of steps of forks, exits,
    waits, yields, sleeps, kills, wake-ups, system calls and interrupts, the
    steps of [fork] and [exit] that do not hold the lock of the table
    interleaved with those of other CPUs, and [fork], [exit], [wait] and [kill]
    entered with no lock held ([no_lock]): a process asleep in [wait] has no
    zombie child, so that no exit is missed; every process but the first has a
    parent that has not exited; a slot in state [EMBRYO] is being filled by
    one live process, which is its parent once it has set it; the processes in
    state [RUNNING] are those the CPUs have, each on one CPU; and, as long as
    fewer than 2^31 - 2 steps have been made, so that [nextpid] has not
    wrapped around, no two processes have the same identifier. *)
Theorem process_table ip m0 n m : booted ip m0 -> nsteps mstep n m0 m ->
  let l := ptable (ext (mk m)) in
  (forall i p c q, l !! i = Some p -> state p = SLEEPING -> chan p = Some (WProc i) ->
     l !! c = Some q -> parent q = Some i -> state q <> ZOMBIE) /\
  (forall i p, l !! i = Some p -> state p <> UNUSED -> state p <> EMBRYO -> i <> ip ->
     exists j q, parent p = Some j /\ l !! j = Some q /\ live (pview q)) /\
  (forall i p, l !! i = Some p -> state p = EMBRYO ->
     exists j b q, embryo_of (works m j) = Some (i, b) /\ l !! j = Some q /\ live (pview q) /\
       parent p = (if b then Some j else None) /\ forall j' b', embryo_of (works m j') = Some (i, b') -> j' = j) /\
  (forall i p, l !! i = Some p -> state p = RUNNING <-> i ∈ running (mview m) (others m)) /\
  NoDup (running (mview m) (others m)) /\
  (Z.of_nat n < 2 ^ 31 - 2 -> forall i j p q, l !! i = Some p -> l !! j = Some q -> state p <> UNUSED -> state q <> UNUSED ->
     0 < pid p /\ (pid p = pid q -> i = j)).
Proof.
  intros HB Hr l. destruct (nsteps_minv ip 2 m0 n m (booted_minv ip m0 HB) Hr) as [[[T [] [R1 R2 R3] HP] W _] _].
  assert (Hl : forall i p, l !! i = Some p -> vtab (mview m) !! i = Some (pview p)) by (intros; by apply view_lookup).
  assert (Hb : forall i q, vtab (mview m) !! i = Some q -> exists p, l !! i = Some p /\ pview p = q) by (intros; by apply (view_proc _ (mview m))).
  split_and!.
  - intros i p c q Hp Hs Hc Hq Hpar. by apply (ti_wait _ _ T i (pview p) c (pview q)); auto.
  - intros i p Hp Hu He Hi. destruct (parent p) as [j|] eqn:Ej.
    + destruct (ti_parent _ _ T i (pview p) j ltac:(auto) Ej) as (_ & _ & q' & Hq' & L). destruct (Hb j q' Hq') as (q & Hq & <-). by exists j, q.
    + by destruct (ti_orphan _ _ T i (pview p)) as [?|[?|?]]; auto.
  - intros i p Hp He. destruct (wi_embryo _ _ _ W i (pview p)) as (j & b & Hj); auto.
    destruct (wi_own _ _ _ W j i b Hj) as (q' & p' & Hq' & L & Hp' & _ & Hpar). destruct (Hb j q' Hq') as (q & Hq & <-).
    rewrite (Hl i p Hp) in Hp'. injection Hp' as <-. exists j, b, q. split_and!; try done. intros j' b' Hj'. by apply (wi_uniq _ _ _ W j' j i b' b).
  - intros i p Hp. split; [by apply (R3 i (pview p)); auto|]. intros (q & Hq & Hs)%R2. rewrite (Hl i p Hp) in Hq. by injection Hq as <-.
  - done.
  - intros Hn i j p q Hp Hq Hu Hu'. destruct HP as [_ [P1 P2]]; [lia|].
    split; [by apply (P1 i (pview p)); auto|]. apply (P2 i j (pview p) (pview q)); auto.
Qed.

(** ** Giving up the CPU *)

Section runs.
Context {S : Type} (h : forall o, M S (op_ret o)) (s : S).

Lemma run_acquire l ic k : locked (get_lock l k) = 0 -> run h (acquire_lk l) (s, FsK ic k) =
  Ok tt (s, FsK ic (set_kcpu (pushcli (kcpu k)) (set_lock l (Lock (lname (get_lock l k)) 1 (Some (cpuid k))) k))).
Proof.
  intros Hl. unfold acquire_lk, on_lock. rewrite run_pbind. cbn [run fst snd ext]. unfold acquire, holding, xchg. rewrite Hl. done.
Qed.

Lemma run_release l ic k : holding (cpuid k) (get_lock l k) = true -> ifl (kcpu k) = false -> 0 <= s32 (ncli (kcpu k) - 1) ->
  run h (release_lk l) (s, FsK ic k) =
  Ok tt (s, FsK ic (set_kcpu (popped (kcpu k)) (set_lock l (Lock (lname (get_lock l k)) 0 None) k))).
Proof.
  intros Hh Hi Hn. unfold release_lk, on_lock. cbn [run fst snd ext]. unfold release, xchg, popcli. rewrite Hh, Hi. cbn [negb].
  rewrite (proj2 (Z.ltb_ge _ _) Hn). unfold popped. by destruct (s32 (ncli (kcpu k) - 1) =? 0), (intena (kcpu k)).
Qed.

Lemma run_upd_cur f i ic k : cur k = Some i -> run h (upd_cur f) (s, FsK ic k) = Ok tt (s, FsK ic (upd_proc i f k)).
Proof. intros Hi. unfold upd_cur, kmod, pmodify. cbn. by rewrite Hi. Qed.

Lemma run_sched ic k : holding (cpuid k) (ptlock k) = true -> run h sched (s, FsK ic k) =
  if negb (ncli (kcpu k) =? 1) then Panic "sched locks"
  else if bool_decide (state (myproc k) = RUNNING) then Panic "sched running"
  else if ifl (kcpu k) then Panic "sched interruptible" else Ok (intena (kcpu k)) (s, FsK ic k).
Proof.
  intros Hh. unfold sched. rewrite run_pbind. cbn [kgets run fst snd ext id]. rewrite Hh. cbn [negb].
  destruct (negb (ncli (kcpu k) =? 1)); [done|]. destruct (bool_decide (state (myproc k) = RUNNING)); [done|]. by destruct (ifl (kcpu k)).
Qed.

Lemma the_proc_upd i f q k : ptable k !! i = Some q -> the_proc (upd_proc i f k) i = f q.
Proof. intros Hq. unfold the_proc, upd_proc. cbn. by rewrite list_lookup_alter_eq, Hq. Qed.

Lemma myproc_upd i f q k : cur k = Some i -> ptable k !! i = Some q -> myproc (upd_proc i f k) = f q.
Proof. intros Hi Hq. unfold myproc, upd_proc. cbn. rewrite Hi. cbn. by rewrite list_lookup_alter_eq, Hq. Qed.

Lemma s32_back n : 0 <= n < 2 ^ 31 -> s32 (s32 (n + 1) - 1) = n.
Proof. intros H. unfold s32. divlia. Qed.

Lemma holding_new me nm : holding me (Lock nm 1 (Some me)) = true.
Proof. unfold holding. cbn. by rewrite bool_decide_eq_true_2. Qed.

Lemma yield_run ic k i q : cur k = Some i -> ptable k !! i = Some q -> locked (ptlock k) = 0 ->
  let r := run h (to_sched yield1) (s, FsK ic k) in
  if decide (s32 (ncli (kcpu k) + 1) = 1) then exists e k', r = Ok e (s, k') /\ cur (ext k') = None /\
    state (the_proc (ext k') i) = RUNNABLE /\ holding (cpuid k) (ptlock (ext k')) = true
  else r = Panic "sched locks".
Proof.
  intros Hi Hq Hl r. pose proof (holding_new (cpuid k) (lname (ptlock k))) as Hh. subst r. unfold to_sched, yield1. rewrite !run_pbind, (run_acquire PtableLock) by done. rewrite run_pbind.
  set (k1 := set_kcpu _ _). rewrite (run_upd_cur _ i) by done. rewrite run_sched by done.
  change (ncli (kcpu (upd_proc i (set_state RUNNABLE) k1))) with (s32 (ncli (kcpu k) + 1)).
  rewrite (myproc_upd i _ q) by done. case_decide as Hn; [|by rewrite (proj2 (Z.eqb_neq _ _) Hn)]. rewrite Hn. cbn.
  eexists _, _. split; [reflexivity|]. split; [done|]. split; [|done].
  change (the_proc _ i) with (the_proc (upd_proc i (set_state RUNNABLE) k1) i). by rewrite (the_proc_upd i _ q).
Qed.

Lemma asleep_run c ic k i q : cur k = Some i -> ptable k !! i = Some q -> holding (cpuid k) (ptlock k) = true -> ifl (kcpu k) = false ->
  run h (upd_cur (set_chan (Some c)) >>> upd_cur (set_state SLEEPING) >>> sched) (s, FsK ic k) =
  if ncli (kcpu k) =? 1
  then Ok (intena (kcpu k)) (s, FsK ic (upd_proc i (set_state SLEEPING) (upd_proc i (set_chan (Some c)) k)))
  else Panic "sched locks".
Proof.
  intros Hi Hq Hh Hif. rewrite run_pbind, (run_upd_cur _ i), run_pbind, (run_upd_cur _ i) by done. rewrite run_sched by done.
  rewrite (myproc_upd i _ (set_chan (Some c) q)); [|done|cbn; by rewrite list_lookup_alter_eq, Hq].
  change (kcpu (upd_proc _ _ _)) with (kcpu k). rewrite Hif. by destruct (ncli (kcpu k) =? 1).
Qed.

Lemma sleep_run lk c ic k i q : lk <> PtableLock -> cur k = Some i -> ptable k !! i = Some q -> locked (ptlock k) = 0 ->
  holding (cpuid k) (get_lock lk k) = true -> 0 < ncli (kcpu k) < 2 ^ 31 ->
  let r := run h (to_sched (sleep1 (Some lk) c)) (s, FsK ic k) in
  if decide (ncli (kcpu k) = 1) then exists e k', r = Ok e (s, k') /\ cur (ext k') = None /\
    state (the_proc (ext k') i) = SLEEPING /\ chan (the_proc (ext k') i) = Some c /\
    locked (get_lock lk (ext k')) = 0 /\ holding (cpuid k) (ptlock (ext k')) = true
  else r = Panic "sched locks".
Proof.
  intros Hlk Hi Hq Hl Hh Hn r. pose proof (holding_new (cpuid k) (lname (ptlock k))) as Hpt. subst r.
  assert (Hg : forall x k', get_lock lk (set_ptlock x k') = get_lock lk k' /\ get_lock lk k' = default (initlock "") (klocks k' !! lk)).
  { intros x k'. unfold get_lock. by rewrite bool_decide_eq_false_2. }
  unfold to_sched, sleep1. rewrite !run_pbind. cbn [kgets run fst snd ext]. rewrite Hi, (bool_decide_eq_true_2 (lk <> _)) by done.
  rewrite !run_pbind, (run_acquire PtableLock) by done. set (k1 := set_kcpu _ _).
  assert (Hk1 : get_lock lk k1 = get_lock lk k) by apply (Hg _ k).
  assert (Hpop : popped (kcpu k1) = Cpu (ncli (kcpu k)) (intena (kcpu k1)) false).
  { unfold popped, k1. cbn. rewrite s32_back by lia. by rewrite (proj2 (Z.eqb_neq _ 0)) by lia. }
  rewrite run_release; [|by rewrite Hk1|done|unfold k1; cbn; rewrite s32_back; lia]. rewrite Hpop, Hk1.
  unfold set_lock. rewrite (bool_decide_eq_false_2 (lk = _)) by done. set (k2 := set_kcpu _ _).
  rewrite (asleep_run c ic k2 i q) by done. change (ncli (kcpu k2)) with (ncli (kcpu k)).
  case_decide as H1; [|by rewrite (proj2 (Z.eqb_neq _ _) H1)]. rewrite H1. cbn [Z.eqb].
  set (k3 := upd_proc i _ (upd_proc i _ k2)). assert (H3 : the_proc k3 i = set_state SLEEPING (set_chan (Some c) q)).
  { unfold k3. rewrite (the_proc_upd i _ (set_chan (Some c) q)); [done|]. unfold upd_proc. cbn [ptable set_ptable]. rewrite list_lookup_alter_eq. change (ptable k2) with (ptable k). by rewrite Hq. }
  exists (intena (kcpu k2)), (FsK ic (set_cur None k3)). split; [reflexivity|]. cbn [ext].
  change (the_proc (set_cur None k3) i) with (the_proc k3 i). rewrite H3.
  split_and!; try done. unfold get_lock. rewrite bool_decide_eq_false_2 by done. cbn. by rewrite lookup_insert_eq.
Qed.

Lemma wake_run lk e ic k i : lk <> PtableLock -> cur k = Some i -> (i < length (ptable k))%nat ->
  holding (cpuid k) (ptlock k) = true -> ncli (kcpu k) = 1 -> ifl (kcpu k) = false -> locked (get_lock lk k) = 0 ->
  exists k', run h (sleep2 lk e >>> sleep3 lk) (s, FsK ic k) = Ok tt (s, k') /\ cur (ext k') = Some i /\
    chan (the_proc (ext k') i) = None /\ locked (ptlock (ext k')) = 0 /\ holding (cpuid k) (get_lock lk (ext k')) = true.
Proof.
  intros Hlk Hi Hlt Hh Hn Hif Hl. destruct (lookup_lt_is_Some_2 _ _ Hlt) as [q Hq].
  unfold sleep2, sleep3. rewrite !(bool_decide_eq_true_2 (lk <> _)) by done. rewrite !run_pbind.
  unfold sched2, kmod at 1, pmodify at 1. cbn [run fst snd ext icache]. set (k1 := set_kcpu _ k).
  rewrite run_pbind, (run_upd_cur _ i) by done. set (k2 := upd_proc i _ k1).
  rewrite (run_release PtableLock); [|done|done|unfold k2, k1; cbn; rewrite Hn; done]. set (k3 := set_kcpu _ _).
  assert (Hk3 : get_lock lk k3 = get_lock lk k) by (unfold get_lock; rewrite !bool_decide_eq_false_2 by done; done).
  rewrite run_acquire by (by rewrite Hk3). eexists. split; [reflexivity|]. cbn [ext].
  unfold set_lock. rewrite (bool_decide_eq_false_2 (lk = _)) by done. split_and!; try done.
  - change (the_proc _ i) with (the_proc k2 i). unfold k2. by rewrite (the_proc_upd i _ q).
  - unfold get_lock. rewrite bool_decide_eq_false_2 by done. cbn. rewrite lookup_insert_eq. apply holding_new.
Qed.
End runs.

(** The number of locks that a CPU holds, from those it is known to hold. *)
Lemma held_count ip n m i : minv ip n m -> cur (ext (mk m)) = Some i ->
  let k := ext (mk m) in let held l := holding (cpuid k) (get_lock l k) = true in
  0 <= ncli (kcpu k) < 2 ^ 31 /\ ((forall l, ~ held l) -> ncli (kcpu k) = 0) /\
  (forall l, held l -> 1 <= ncli (kcpu k) /\ ((forall l', held l' -> l' = l) -> ncli (kcpu k) = 1)) /\
  (forall l l', held l -> held l' -> l <> l' -> 2 <= ncli (kcpu k)).
Proof.
  intros [[_ _ [_ (hs & [H1 H2 H3 H4 H5] & _)]] _] Hi k held. change (vcpu (mview m)) with (kcpu k) in *.
  change (forall l, l ∈ hs <-> held l) in H2. split_and!; [lia|done| | |].
  - intros Hno. destruct hs as [|l hs]; [done|]. destruct (Hno l). apply H2. left.
  - intros l Hl. apply H2 in Hl as Hin. destruct hs as [|a hs]; [by apply elem_of_nil in Hin|]. split; [simpl in H3; lia|].
    intros Hall. destruct hs as [|b hs]; [done|]. apply NoDup_cons in H1 as [Hn _]. destruct Hn.
    rewrite (Hall a), (Hall b) by (apply H2; rewrite !elem_of_cons; auto). left.
  - intros l l' Hl Hl' Hne. apply H2 in Hl, Hl'. destruct hs as [|a [|b hs]]; [by apply elem_of_nil in Hl| |simpl in H3; lia].
    apply list_elem_of_singleton in Hl, Hl'. congruence.
Qed.

(** C24. Giving up the CPU.  In every reachable state in which a process runs
    and the lock of the process table is free, for the locks that its CPU
    holds: with none, [yield] passes the checks of [sched] and reaches the
    scheduler with the process runnable; [sleep], with the caller's lock held
    and no other, reaches it with that lock released and the process asleep on
    the channel; both leave the lock of the table with the CPU.  With another
    lock held as well they panic in [sched], and [sleep] without a lock
    panics.  When the process runs again, [sleep] ends with the caller's lock
    held, once that is free, and the lock of the table released. *)
Theorem giveup_returns ip m0 n m i S (h : forall o, M S (op_ret o)) s : booted ip m0 -> nsteps mstep n m0 m ->
  let k := ext (mk m) in let held l := holding (cpuid k) (get_lock l k) = true in
  cur k = Some i -> locked (ptlock k) = 0 ->
  ((forall l, ~ held l) -> exists e k', run h (to_sched yield1) (s, mk m) = Ok e (s, k') /\ cur (ext k') = None /\
     state (the_proc (ext k') i) = RUNNABLE /\ holding (cpuid k) (ptlock (ext k')) = true) /\
  (forall l, held l -> run h (to_sched yield1) (s, mk m) = Panic "sched locks") /\
  (forall lk c, lk <> PtableLock -> held lk -> (forall l, held l -> l = lk) ->
     exists e k', run h (to_sched (sleep1 (Some lk) c)) (s, mk m) = Ok e (s, k') /\ cur (ext k') = None /\
       state (the_proc (ext k') i) = SLEEPING /\ chan (the_proc (ext k') i) = Some c /\
       locked (get_lock lk (ext k')) = 0 /\ holding (cpuid k) (ptlock (ext k')) = true) /\
  (forall lk c l, lk <> PtableLock -> held lk -> held l -> l <> lk ->
     run h (to_sched (sleep1 (Some lk) c)) (s, mk m) = Panic "sched locks") /\
  (forall c, run h (to_sched (sleep1 None c)) (s, mk m) = Panic "sleep without lk") /\
  (forall lk e k1, let k2 := ext k1 in lk <> PtableLock -> cur k2 = Some i -> (i < length (ptable k2))%nat ->
     holding (cpuid k2) (ptlock k2) = true -> ncli (kcpu k2) = 1 -> ifl (kcpu k2) = false -> locked (get_lock lk k2) = 0 ->
     exists k', run h (sleep2 lk e >>> sleep3 lk) (s, k1) = Ok tt (s, k') /\ cur (ext k') = Some i /\
       chan (the_proc (ext k') i) = None /\ locked (ptlock (ext k')) = 0 /\ holding (cpuid k2) (get_lock lk (ext k')) = true).
Proof.
  intros HB Hr k held Hi Hl. pose proof (nsteps_minv ip 2 m0 n m (booted_minv ip m0 HB) Hr) as Hm.
  destruct (held_count ip _ m i Hm Hi) as (Hrg & Hc0 & Hc1 & Hc2). fold k held in Hrg, Hc0, Hc1, Hc2.
  destruct (vcore_cur _ _ _ _ i (vv_core _ _ _ _ _ (proj1 Hm)) Hi) as (p & Hp & _).
  destruct (view_proc _ (mview m) i p eq_refl Hp) as (q & Hq & _). fold k in Hq. clear Hp p HB Hr Hm.
  destruct (mk m) as [ic k0]. cbn [ext] in *. subst k. rename k0 into k. split_and!.
  - intros Hno. pose proof (yield_run h s ic k i q Hi Hq Hl) as H. by rewrite Hc0 in H.
  - intros l Hh. pose proof (yield_run h s ic k i q Hi Hq Hl) as H. destruct (Hc1 l Hh) as [H1 _].
    rewrite decide_False in H; [done|]. unfold s32. divlia.
  - intros lk c Hlk Hh Hall. destruct (Hc1 lk Hh) as [H1 H2]. specialize (H2 Hall).
    pose proof (sleep_run h s lk c ic k i q Hlk Hi Hq Hl Hh ltac:(lia)) as H. by rewrite decide_True in H.
  - intros lk c l Hlk Hh Hh' Hne. pose proof (Hc2 l lk Hh' Hh Hne).
    pose proof (sleep_run h s lk c ic k i q Hlk Hi Hq Hl Hh ltac:(lia)) as H'. rewrite decide_False in H' by lia. done.
  - intros c. unfold to_sched, sleep1. rewrite !run_pbind. cbn [kgets run fst snd ext]. by rewrite Hi.
  - intros lk e [ic1 k1]. apply wake_run.
Qed.

(** C23. The scheduler is fair: in any sequence of passes of a CPU's
    scheduler loop over the process table, whatever the processes do in
    between, a process that stays runnable is chosen within [NPROC] + 1
    choices. *)
Theorem scheduler_fair (f : nat -> fsk kernel) (pos : nat -> nat) (pick : nat -> option nat) (j : nat) :
  (forall n, exists k', does (scheduler_next (pos n)) (f n) (pick n) k') ->
  (forall n, pos (S n) = match pick n with Some i => S i | None => 0%nat end) ->
  (forall n, length (ptable (ext (f n))) = NPROC) -> (pos 0 <= NPROC)%nat -> (j < NPROC)%nat ->
  (forall n, state (the_proc (ext (f n)) j) = RUNNABLE) ->
  exists n, (n <= NPROC)%nat /\ pick n = Some j.
Proof.
  intros Hdo Hpos Hlen H0 Hj Hrun.
  assert (Hpick : forall n, pick n = find_runnable (drop (pos n) (ptable (ext (f n)))) (pos n)).
  { intros n. destruct (Hdo n) as (k' & S' & h & s & s' & E). unfold scheduler_next in E.
    rewrite run_pbind in E. cbn [kgets run fst snd] in E.
    destruct (find_runnable (drop (pos n) (ptable (ext (f n)))) (pos n)); [by injection E|].
    rewrite run_pbind in E. destruct (run h release_pt _) as [? [? ?]| |]; [by injection E|done..]. }
  set (phi := fun p : nat => if decide (p <= j)%nat then (j - p)%nat else (NPROC - p + 1 + j)%nat).
  assert (Hstep : forall n, (pos n <= NPROC)%nat -> pick n = Some j \/ (pos (S n) <= NPROC)%nat /\ (phi (pos (S n)) < phi (pos n))%nat).
  { intros n Hn. pose proof (find_runnable_spec (drop (pos n) (ptable (ext (f n)))) (pos n)) as Hs. rewrite <- Hpick in Hs.
    assert (Hjt : exists p, ptable (ext (f n)) !! j = Some p /\ state p = RUNNABLE).
    { destruct (lookup_lt_is_Some_2 (ptable (ext (f n))) j) as [p Hp]; [by rewrite Hlen|]. exists p. split; [done|].
      pose proof (Hrun n) as R. unfold the_proc in R. by rewrite Hp in R. }
    destruct Hjt as (p & Hp & Hpr). rewrite Hpos. destruct (pick n) as [i|].
    - destruct Hs as (x & q & -> & Hx & _ & Hb). rewrite lookup_drop in Hx. apply lookup_lt_Some in Hx. rewrite Hlen in Hx.
      destruct (decide (pos n + x = j)%nat) as [->|Hne]; [by left|right]. split; [lia|]. subst phi. cbn beta.
      destruct (decide (pos n <= j)%nat) as [Hle|Hgt]; [|rewrite decide_False; lia].
      assert (pos n + x < j)%nat; [|rewrite decide_True; lia].
      destruct (decide (j < pos n + x)%nat) as [Hlt|]; [|lia]. exfalso.
      apply (Hb (j - pos n)%nat p); [lia| |done]. rewrite lookup_drop. by replace (pos n + (j - pos n))%nat with j by lia.
    - right. split; [lia|]. subst phi. cbn beta. rewrite decide_True by lia.
      destruct (decide (pos n <= j)%nat) as [Hle|Hgt]; [|lia]. exfalso.
      apply (Hs (j - pos n)%nat p); [|done]. rewrite lookup_drop. by replace (pos n + (j - pos n))%nat with j by lia. }
  assert (Hgen : forall b n, (pos n <= NPROC)%nat -> (phi (pos n) <= b)%nat -> exists n', (n' <= n + b)%nat /\ pick n' = Some j).
  { induction b as [|b IH]; intros n Hn Hb; (destruct (Hstep n Hn) as [E|[Hn' Hd]]; [exists n; split; [lia|done]|]); [lia|].
    destruct (IH (S n) Hn') as (n' & ? & ?); [lia|]. exists n'. split; [lia|done]. }
  destruct (Hgen NPROC 0%nat H0) as (n & Hn & E); [|by exists n]. subst phi. cbn beta. case_decide; lia.
Qed.

End machine.

(** ** An example: two CPUs, the first process starts to fork *)

Definition demo_kernel : kernel :=
  Kernel (replicate NFILE file0) ∅
    (set_state RUNNABLE (set_pid 1 proc0) :: replicate 63 proc0)
    (initlock "ptable") 2 (Some 0%nat) 0 (Cpu 0 false true) None demo_vm 0 console0 0 true ∅ [].
Definition demo_cpu1 : other := Other 1 (Cpu 0 false true) None 0.
Definition demo_m0 : mach := Mach (FsK [] demo_kernel) 0 (fun _ => CFork) (fun _ => NoWork) [demo_cpu1].

Definition no_disk (o : op) : M unit (op_ret o) := panic "no disk".
Definition after {A} (p : P A) (k : fsk kernel) : fsk kernel :=
  match run no_disk p (tt, k) with Ok _ (_, k') => k' | _ => k end.

Definition demo_k1 : fsk kernel := after scheduler_start (FsK [] demo_kernel).
Definition demo_k2 : fsk kernel := after (scheduler_next 0) demo_k1.
Definition demo_k3 : fsk kernel := after (resume 0 CFork) demo_k2.
Definition demo_works : nat -> work := upd_work 0 NoWork (fun _ => NoWork).
Definition demo_m1 : mach := Mach demo_k3 1 (fun _ => CFork) demo_works [demo_cpu1].

(** Slot 1 is taken, and the other CPU looks at the table. *)
Definition demo_k4 : fsk kernel := after allocproc1 demo_k3.
Definition demo_m2 : mach := Mach demo_k4 1 (set_cont 1 CFork (fun _ => CFork))
  (upd_work 0 (FStack 1) (upd_work 1 NoWork demo_works)) [demo_cpu1].
Definition demo_k5 : fsk kernel := FsK (icache demo_k4) (switch_cpu demo_cpu1 (ext demo_k4)).
Definition demo_cpu0 : other := Other 0 (kcpu (ext demo_k4)) (Some 0%nat) 1.
Definition demo_k6 : fsk kernel := after scheduler_start demo_k5.
Definition demo_m3 : mach := Mach demo_k6 0 (conts demo_m2) (works demo_m2) [demo_cpu0].

(** Or the process takes the lock of the clock. *)
Definition demo_k7 : fsk kernel := after (acquire_lk TicksLock) demo_k3.
Definition demo_m4 : mach := Mach demo_k7 1 (fun _ => CFork) demo_works [demo_cpu1].

Lemma demo_booted : booted 0 demo_m0.
Proof.
  split; [unfold NPROC; lia|vm_compute; reflexivity|done|done|done|done| | | |done|done].
  - intros l. unfold vlk. by case_bool_decide.
  - apply (bool_decide_unpack _). vm_compute. exact I.
  - by repeat constructor.
Qed.

Ltac demo_run := exists unit, no_disk, tt, tt; vm_compute; reflexivity.

Lemma demo_steps : nsteps (mstep 0 0 0 0) 2 demo_m0 demo_m1.
Proof.
  eapply nsteps_l; [apply (MStart 0 0 0 0 demo_m0 demo_k1); [done|demo_run]|]. apply nsteps_once.
  apply (MPick 0 0 0 0 (Mach demo_k1 0 (fun _ => CFork) (fun _ => NoWork) [demo_cpu1]) 0 demo_k2 (inl 0) demo_k3).
  - done.
  - vm_compute. reflexivity.
  - demo_run.
  - demo_run.
Qed.

Lemma demo_fork_steps : nsteps (mstep 0 0 0 0) 5 demo_m0 demo_m3.
Proof.
  change 5%nat with (2 + 3)%nat. eapply nsteps_trans; [exact demo_steps|].
  eapply nsteps_l; [apply (MAlloc 0 0 0 0 demo_m1 0 (Some 1%nat) demo_k4); [done|done|vm_compute; reflexivity|demo_run]|].
  eapply nsteps_l; [apply (MCpu 0 0 0 0 demo_m2 [] demo_cpu1 []); reflexivity|]. apply nsteps_once.
  apply (MStart 0 0 0 0 (Mach demo_k5 0 (conts demo_m2) (works demo_m2) [demo_cpu0]) demo_k6); [done|demo_run].
Qed.

Lemma demo_lock_steps : nsteps (mstep 0 0 0 0) 3 demo_m0 demo_m4.
Proof.
  change 3%nat with (2 + 1)%nat. eapply nsteps_trans; [exact demo_steps|]. apply nsteps_once.
  apply (MAcquire 0 0 0 0 demo_m1 0 TicksLock demo_k7); [done|done|vm_compute; reflexivity|demo_run].
Qed.

Lemma process_table_witness : nsteps (mstep 0 0 0 0) 5 demo_m0 demo_m3 /\
  state (the_proc (ext (mk demo_m3)) 1) = EMBRYO /\ parent (the_proc (ext (mk demo_m3)) 1) = None /\
  holding 1 (ptlock (ext (mk demo_m3))) = true /\
  (exists j b q, embryo_of (works demo_m3 j) = Some (1%nat, b) /\ ptable (ext (mk demo_m3)) !! j = Some q /\ live (pview q)) /\
  0%nat ∈ running (mview demo_m3) (others demo_m3) /\ NoDup (running (mview demo_m3) (others demo_m3)).
Proof.
  destruct (process_table 0 0 0 0 0 demo_m0 5 demo_m3 demo_booted demo_fork_steps) as (_ & _ & He & Hr & Hn & _).
  split; [exact demo_fork_steps|]. split; [vm_compute; reflexivity|]. split; [vm_compute; reflexivity|].
  split; [vm_compute; reflexivity|]. split; [|split; [|exact Hn]].
  - destruct (He 1%nat (the_proc (ext (mk demo_m3)) 1)) as (j & b & q & H1 & H2 & H3 & _); [vm_compute; reflexivity..|].
    exists j, b, q. split; [exact H1|]. split; [exact H2|exact H3].
  - eapply Hr; [reflexivity|]. vm_compute. reflexivity.
Defined.

Lemma giveup_returns_witness : exists e k',
  run no_disk (to_sched (sleep1 (Some TicksLock) WTicks)) (tt, mk demo_m4) = Ok e (tt, k') /\
  locked (get_lock TicksLock (ext (mk demo_m4))) = 1 /\ locked (get_lock TicksLock (ext k')) = 0 /\
  state (the_proc (ext k') 0) = SLEEPING.
Proof.
  destruct (giveup_returns 0 0 0 0 0 demo_m0 3 demo_m4 0 unit no_disk tt demo_booted demo_lock_steps) as (_ & _ & Hs & _).
  - vm_compute. reflexivity.
  - vm_compute. reflexivity.
  - destruct (Hs TicksLock WTicks) as (e & k' & H1 & H2 & H3 & H4 & H5 & _).
    + done.
    + vm_compute. reflexivity.
    + intros l. unfold get_lock. case_bool_decide as Hl; [vm_compute; done|].
      destruct (decide (l = TicksLock)) as [->|Hne]; [done|].
      assert (klocks (ext (mk demo_m4)) = {[TicksLock := Lock "" 1 (Some 0%nat)]}) as -> by (vm_compute; reflexivity).
      rewrite lookup_singleton_ne by done. done.
    + exists e, k'. split; [exact H1|]. split; [vm_compute; reflexivity|]. split; [exact H5|exact H3].
Defined.

Lemma scheduler_fair_witness : exists n, (n <= NPROC)%nat /\ (if Nat.even n then Some 0%nat else None) = Some 0%nat.
Proof.
  apply (scheduler_fair (fun _ => demo_k1) (fun n => if Nat.even n then 0%nat else 1%nat)
    (fun n => if Nat.even n then Some 0%nat else None) 0).
  - intros n. destruct (Nat.even n).
    + exists demo_k2, unit, no_disk, tt, tt. vm_compute. reflexivity.
    + exists (after (scheduler_next 1) demo_k1), unit, no_disk, tt, tt. vm_compute. reflexivity.
  - intros n. rewrite Nat.even_succ, <- Nat.negb_even. by destruct (Nat.even n).
  - intros n. vm_compute. reflexivity.
  - cbn. lia.
  - unfold NPROC. lia.
  - intros n. vm_compute. reflexivity.
Defined.

(** [kill] looks for its argument among free slots too: [kill(0)]
    returns 0 and marks a free slot, and [allocproc], which does not reset
    the mark, then hands out a process that is born killed. *)
Theorem kill_free_slot S (h : forall o, M S (op_ret o)) s : exists k',
  run h (let! r := kill 0 in let! np := allocproc 0 0 in Ret (r, np)) (s, demo_k3) = Ok (0, Some 1%nat) (s, k') /\
  state (the_proc (ext demo_k3) 1) = UNUSED /\ killed (the_proc (ext demo_k3) 1) = false /\
  state (the_proc (ext k') 1) = EMBRYO /\ pid (the_proc (ext k') 1) = 2 /\ killed (the_proc (ext k') 1) = true.
Proof.
  eexists. split; [vm_compute; reflexivity|]. split_and!; vm_compute; reflexivity.
Qed.
