(* ===== verification/Syscall.v ===== *)
(** * System call arguments and the calls on processes (syscall.c, sysproc.c)

    A system call reads its arguments from the user stack of the current
    process.  A call that switches to the scheduler ends in [inr e], as the
    functions of Proc.v do. *)

From stdpp Require Import base numbers list gmap strings.
From Stdlib Require Import ZArith Lia.
From S2P Require Import Prelude Disk Bio Log Blk Kstring Printf Ring Console Pipe Kalloc Fs Vm Spinlock Kernel File Proc.

Local Open Scope Z_scope.
Local Open Scope prog_scope.
Local Abbreviation P := (prog (fsk kernel)).

(** ** Arguments *)

Definition mysz : P Z := kgets (fun k => sz (myproc k)).

(** The word at [addr]; [None] for -1. *)
Definition fetchint (addr : Z) : P (option Z) :=
  let! sz := mysz in
  if (sz <=? addr) || (sz <? u32 (addr + 4)) then Ret None
  else let! w := uread4 addr in Ret (Some (s32 w)).

(** The bytes from [s] up to a NUL, at most [n] of them. *)
Fixpoint fetchstr_loop (n : nat) (s : Z) : P (option (list Z)) :=
  match n with
  | O => Ret None
  | S n =>
      let! c := uread1 s in
      if c =? 0 then Ret (Some [])
      else let! r := fetchstr_loop n (s + 1) in Ret (cons c <$> r)
  end.

(** [fetchstr]: the string; its length is the value the code returns. *)
Definition fetchstr (addr : Z) : P (option (list Z)) :=
  let! sz := mysz in
  if sz <=? addr then Ret None else fetchstr_loop (Z.to_nat (sz - addr)) addr.

Definition argint (n : Z) : P (option Z) :=
  let! p := kgets myproc in
  let! esp := on_mem (ld (tf p + tf_esp)) in
  fetchint (u32 (esp + 4 + 4 * n)).

(** [argptr]: the address. *)
Definition argptr (n size : Z) : P (option Z) :=
  let! i := argint n in
  match i with
  | None => Ret None
  | Some i =>
      let! sz := mysz in
      if (sz <=? u32 i) || (sz <? u32 (u32 i + size)) then Ret None else Ret (Some (u32 i))
  end.

Definition argstr (n : Z) : P (option (list Z)) :=
  let! addr := argint n in
  match addr with
  | None => Ret None
  | Some addr => fetchstr (u32 addr)
  end.

(** ** The calls on processes *)

Section sysproc.
Context (kend kdata trapret forkret : Z).

Definition sys_fork : P (Z + bool) := let! r := fork kend kdata trapret forkret in Ret (inl r).
Definition sys_exit : P (Z + bool) := let! e := exit kend in Ret (inr e).
Definition sys_wait : P (Z + bool) := wait1 kend.

Definition sys_kill : P (Z + bool) :=
  let! n := argint 0 in
  match n with None => Ret (inl (-1)) | Some n => let! r := kill n in Ret (inl r) end.

Definition sys_getpid : P (Z + bool) := let! n := kgets (fun k => pid (myproc k)) in Ret (inl n).

Definition sys_sbrk : P (Z + bool) :=
  let! n := argint 0 in
  match n with
  | None => Ret (inl (-1))
  | Some n =>
      let! addr := mysz in
      let! r := growproc kend n in
      if r <? 0 then Ret (inl (-1))
      else upd_cur (fun p => set_sz (u32 (sz p + n)) p) >>> Ret (inl (s32 addr))
  end.

(** The loop of [sys_sleep], from its test to its return or sleep. *)
Definition sleep_loop (ticks0 n : Z) : P (Z + bool) :=
  let! k := kgets id in
  if u32 (ticks k - ticks0) <? u32 n then
    if killed (myproc k) then release_lk TicksLock >>> Ret (inl (-1))
    else let! e := sleep1 (Some TicksLock) WTicks in Ret (inr e)
  else release_lk TicksLock >>> Ret (inl 0).

Definition sys_sleep : P (Z + bool) :=
  let! n := argint 0 in
  match n with
  | None => Ret (inl (-1))
  | Some n => acquire_lk TicksLock >>> let! ticks0 := kgets ticks in sleep_loop ticks0 n
  end.
(** [sys_sleep] goes on. *)
Definition sys_sleep2 (e : bool) (ticks0 n : Z) : P (Z + bool) :=
  sleep2 TicksLock e >>> sleep3 TicksLock >>> sleep_loop ticks0 n.

Definition sys_uptime : P (Z + bool) :=
  acquire_lk TicksLock >>>
  let! t := kgets ticks in
  release_lk TicksLock >>> Ret (inl (s32 t)).

(** A write to an I/O port. *)
Definition outb (port data : Z) : P unit := kmod (fun k => set_kport ((port, data) :: kport k) k).

(** The loop of [sys_halt] over the string. *)
Fixpoint halt_loop (p : list Z) : P unit :=
  match p with
  | [] => Ret tt
  | c :: p => outb 0x8900 c >>> halt_loop p
  end.
Definition sys_halt : P (Z + bool) := halt_loop (chars "Shutdown") >>> Ret (inl 0).

Definition sys_alarm : P (Z + bool) :=
  let! t := argint 0 in
  match t with
  | None => Ret (inl (-1))
  | Some t =>
      let! hd := argptr 1 1 in
      match hd with
      | None => Ret (inl (-1))
      | Some hd =>
          upd_cur (fun p => set_alarmhandler hd (set_alarmticked 0 (set_alarmticks (u32 t) p))) >>> Ret (inl 0)
      end
  end.

End sysproc.
