(* ===== verification/Exec.v ===== *)
(** * Program images (exec.c, loaduvm of vm.c)

    [exec] builds a page directory from a file in the ELF format, puts the
    arguments on a new stack and makes it the image of the process. *)

From stdpp Require Import base numbers list gmap strings.
From Stdlib Require Import ZArith Lia.
From S2P Require Import Prelude Disk Bio Log Blk Kstring Printf Ring Console Pipe Kalloc Fs Vm Spinlock Kernel File Proc.

Local Open Scope Z_scope.
Local Open Scope prog_scope.
Local Abbreviation P := (prog (fsk kernel)).

(** [struct elfhdr] and [struct proghdr]. *)
Definition ELF_MAGIC : Z := 1179403647.
Definition ELF_PROG_LOAD : Z := 1.
Definition sizeof_elfhdr : Z := 52.
Definition sizeof_proghdr : Z := 32.

Record elfhdr : Type := Elf { e_magic : Z; e_entry : Z; e_phoff : Z; e_phnum : Z }.
Definition dec_elf (d : list Z) : elfhdr := Elf (get_le 4 0 d) (get_le 4 24 d) (get_le 4 28 d) (get_le 2 44 d).

Record proghdr : Type := Phdr { p_type : Z; p_off : Z; p_vaddr : Z; p_filesz : Z; p_memsz : Z }.
Definition dec_phdr (d : list Z) : proghdr :=
  Phdr (get_le 4 0 d) (get_le 4 4 d) (get_le 4 8 d) (get_le 4 16 d) (get_le 4 20 d).

Section exec.
(** [junk]: what the stack holds in the place of the ELF header. *)
Context (kend kdata : Z) (junk : list Z).

(** [loaduvm]: what [readi] reads goes to the page. *)
Fixpoint loaduvm_loop (fuel : nat) (pgdir addr : Z) (ip : nat) (offset sz i : Z) : P Z :=
  match fuel with
  | O => PPanic "fuel"
  | S f =>
      if i <? sz then
        let! pte := on_mem (walkpgdir pgdir (u32 (addr + i)) false) in
        if pte =? 0 then PPanic "loaduvm: address should exist"
        else
          let! e := on_mem (ld pte) in
          let n := if sz - i <? PGSIZE then sz - i else PGSIZE in
          let! (r, bs) := readi devread ip (u32 (offset + i)) n in
          on_mem (setmem (fun m => store_bytes m (p2v (PTE_ADDR e)) bs)) >>>
          if negb (u32 r =? n) then Ret (-1)
          else loaduvm_loop f pgdir addr ip offset sz (u32 (i + PGSIZE))
      else Ret 0
  end.

Definition loaduvm (pgdir addr : Z) (ip : nat) (offset sz : Z) : P Z :=
  if negb (addr mod PGSIZE =? 0) then PPanic "loaduvm: addr must be page aligned"
  else loaduvm_loop (S (Z.to_nat (sz / PGSIZE + 1))) pgdir addr ip offset sz 0.

(** The label [bad]. *)
Definition bad (pgdir : Z) (ip : option nat) : P Z :=
  (if pgdir =? 0 then Ret tt else on_mem (freevm kend pgdir)) >>>
  (match ip with Some ip => iunlockput ip | None => Ret tt end) >>>
  Ret (-1).

(** The loop over the program headers, [n] of them from [off] on: the size,
    or [None] for a jump to [bad]. *)
Fixpoint load_loop (n : nat) (pgdir : Z) (ip : nat) (off sz : Z) : P (option Z) :=
  match n with
  | O => Ret (Some sz)
  | S n =>
      let! (r, d) := readi devread ip (u32 off) sizeof_proghdr in
      let ph := dec_phdr d in
      if negb (u32 r =? sizeof_proghdr) then Ret None
      else if negb (p_type ph =? ELF_PROG_LOAD) then load_loop n pgdir ip (s32 (off + sizeof_proghdr)) sz
      else if p_memsz ph <? p_filesz ph then Ret None
      else
        let! sz := on_mem (allocuvm kend pgdir sz (u32 (p_vaddr ph + p_memsz ph))) in
        if sz =? 0 then Ret None
        else
          let! r := loaduvm pgdir (p_vaddr ph) ip (p_off ph) (p_filesz ph) in
          if r <? 0 then Ret None
          else load_loop n pgdir ip (s32 (off + sizeof_proghdr)) sz
  end.

(** The argument strings: the stack pointer and their addresses. *)
Fixpoint push_args (pgdir sp : Z) (argc : nat) (argv : list (list Z)) : P (option (Z * list Z)) :=
  match argv with
  | [] => Ret (Some (sp, []))
  | s :: argv =>
      if (MAXARG <=? argc)%nat then Ret None
      else
        let sp := Z.land (u32 (sp - (Z.of_nat (length s) + 1))) (u32 (Z.lnot 3)) in
        let! r := on_mem (copyout pgdir sp (s ++ [0])) in
        if r <? 0 then Ret None
        else
          let! rest := push_args pgdir sp (S argc) argv in
          Ret (match rest with Some (sp', l) => Some (sp', sp :: l) | None => None end)
  end.

(** The last element of a path. *)
Fixpoint last_elem (s last : list Z) : list Z :=
  match s with
  | [] => last
  | c :: s => last_elem s (if c =? slash then s else last)
  end.

(** The part of [exec] after the image has been loaded. *)
Definition exec_stack (path : list Z) (argv : list (list Z)) (entry pgdir sz : Z) : P Z :=
  let sz := PGROUNDUP sz in
  let! sz := on_mem (allocuvm kend pgdir sz (u32 (sz + 2 * PGSIZE))) in
  if sz =? 0 then bad pgdir None
  else
    on_mem (clearpteu pgdir (u32 (sz - 2 * PGSIZE))) >>>
    let! r := push_args pgdir sz 0 argv in
    match r with
    | None => bad pgdir None
    | Some (sp, args) =>
        let argc := Z.of_nat (length args) in
        let ustack := 4294967295 :: argc :: u32 (sp - (argc + 1) * 4) :: args ++ [0] in
        let sp := u32 (sp - (3 + argc + 1) * 4) in
        let! r := on_mem (copyout pgdir sp (concat (le_enc 4 <$> ustack))) in
        if r <? 0 then bad pgdir None
        else
          upd_cur (fun p => set_name (safestrcpy_name 16 (name p) (last_elem path path)) p) >>>
          let! p := kgets myproc in
          upd_cur (set_pgdir pgdir) >>>
          upd_cur (set_sz sz) >>>
          on_mem (st (tf p + tf_eip) entry) >>>
          on_mem (st (tf p + tf_esp) sp) >>>
          on_mem (freevm kend (Kernel.pgdir p)) >>>
          Ret 0
    end.

(** [exec]; the comparison of [readi]'s result with [sizeof(elf)] is
    unsigned. *)
Definition exec (path : list Z) (argv : list (list Z)) : P Z :=
  let! r := namei devread kcwd path in
  match r with
  | None => Ret (-1)
  | Some ip =>
      ilock ip >>>
      let! (r, d) := readi devread ip 0 sizeof_elfhdr in
      let elf := dec_elf (d ++ drop (length d) junk) in
      if u32 r <? sizeof_elfhdr then bad 0 (Some ip)
      else if negb (e_magic elf =? ELF_MAGIC) then bad 0 (Some ip)
      else
        let! pgdir := on_mem (setupkvm kdata) in
        if pgdir =? 0 then bad 0 (Some ip)
        else
          let! sz := load_loop (Z.to_nat (e_phnum elf)) pgdir ip (s32 (e_phoff elf)) 0 in
          match sz with
          | None => bad pgdir (Some ip)
          | Some sz => iunlockput ip >>> exec_stack path argv (e_entry elf) pgdir sz
          end
  end.

End exec.
