(* ===== verification/Boot.v ===== *)
(** * The boot loader (bootmain.c)

    [bootmain] reads the kernel, an ELF file that starts at sector 1 of the
    disk, into physical memory.  The disk controller is a parameter ([Pio])
    with what its manual promises as laws ([PioOk]): it becomes ready if it is
    polled often enough, and then has the sector it was told to read.  The
    theorem: with segments in increasing order, as the code's comment asks
    for, memory holds each segment of the file, with zeros after it. *)

From stdpp Require Import base numbers list gmap strings.
From Stdlib Require Import ZArith Lia.
From S2P Require Import Prelude Kstring Kalloc Vm Ide Exec.

Local Open Scope Z_scope.

Definition SECTSIZE : Z := 512.

(** ** The controller *)

Class Pio (D : Type) : Type := {
  pinb : Z -> D -> Z * D;
  poutb : Z -> Z -> D -> D;
  pinsl : Z -> nat -> D -> list Z * D;
  sector_of : Z -> list Z;
  reading : D -> option Z
}.

(** The state after [n] reads of the status. *)
Fixpoint polled {D} `{Pio D} (n : nat) (d : D) : D :=
  match n with O => d | S n => polled n (pinb 0x1f7 d).2 end.

Definition status_ok {D} `{Pio D} (d : D) : bool := Z.land (pinb 0x1f7 d).1 0xC0 =? 0x40.

Class PioOk (D : Type) `{Pio D} : Prop := {
  pio_ready d : exists n, status_ok (polled n d) = true;
  pio_poll d : reading (pinb 0x1f7 d).2 = reading d;
  (** The command block and the command to read. *)
  pio_read d a b c e : 0 <= a < 256 -> 0 <= b < 256 -> 0 <= c < 256 -> 0xe0 <= e < 0xf0 ->
    reading (poutb 0x1f7 0x20 (poutb 0x1f6 e (poutb 0x1f5 c (poutb 0x1f4 b (poutb 0x1f3 a (poutb 0x1f2 1 d)))))) = Some (lba a b c e);
  pio_data d l : status_ok d = true -> reading d = Some l -> (pinsl 0x1f0 (Z.to_nat (SECTSIZE / 4)) (pinb 0x1f7 d).2).1 = sector_of l;
  pio_sector l : length (sector_of l) = Z.to_nat SECTSIZE
}.

Section boot.
Context {D : Type} `{Pio D}.

(** [fuel] bounds the polls of each wait. *)
Fixpoint waitdisk (fuel : nat) (d : D) : option D :=
  match fuel with
  | O => None
  | S f =>
      let '(r, d) := pinb 0x1f7 d in
      if negb (Z.land r 0xC0 =? 0x40) then waitdisk f d else Some d
  end.

Definition readsect (fuel : nat) (dst offset : Z) (s : D * mem) : option (D * mem) :=
  let '(d, m) := s in
  d ← waitdisk fuel d;
  let d := poutb 0x1f2 1 d in
  let d := poutb 0x1f3 (u8 offset) d in
  let d := poutb 0x1f4 (u8 (Z.shiftr offset 8)) d in
  let d := poutb 0x1f5 (u8 (Z.shiftr offset 16)) d in
  let d := poutb 0x1f6 (u8 (Z.lor (Z.shiftr offset 24) 0xE0)) d in
  let d := poutb 0x1f7 0x20 d in
  d ← waitdisk fuel d;
  let '(data, d) := pinsl 0x1f0 (Z.to_nat (SECTSIZE / 4)) d in
  Some (d, store_bytes m dst data).

(** The loop of [readseg]. *)
Fixpoint readseg_loop (fuel n : nat) (pa epa offset : Z) (s : D * mem) : option (D * mem) :=
  match n with
  | O => None
  | S n =>
      if pa <? epa then
        s ← readsect fuel pa offset s;
        readseg_loop fuel n (u32 (pa + SECTSIZE)) epa (u32 (offset + 1)) s
      else Some s
  end.

Definition readseg (fuel : nat) (pa count offset : Z) (s : D * mem) : option (D * mem) :=
  let epa := u32 (pa + count) in
  let pa := u32 (pa - offset mod SECTSIZE) in
  let offset := u32 (offset / SECTSIZE + 1) in
  readseg_loop fuel (Z.to_nat (count / SECTSIZE + 3)) pa epa offset s.

(** The loop over the program headers. *)
Fixpoint load_segs (fuel n : nat) (ph eph : Z) (s : D * mem) : option (D * mem) :=
  match n with
  | O => None
  | S n =>
      if ph <? eph then
        let pa := load4 s.2 (ph + 12) in
        s ← readseg fuel pa (load4 s.2 (ph + 16)) (load4 s.2 (ph + 4)) s;
        let filesz := load4 s.2 (ph + 16) in
        let memsz := load4 s.2 (ph + 20) in
        let s := if filesz <? memsz then (s.1, stosb s.2 (u32 (pa + filesz)) 0 (Z.to_nat (memsz - filesz))) else s in
        load_segs fuel n (u32 (ph + sizeof_proghdr)) eph s
      else Some s
  end.

(** The address that is called, or [None] when the disk has no ELF file; the
    outer [option] is for [fuel]. *)
Definition bootmain (fuel : nat) (s : D * mem) : option (option Z * (D * mem)) :=
  let elf := 0x10000 in
  s ← readseg fuel elf 4096 0 s;
  if negb (load4 s.2 elf =? ELF_MAGIC) then Some (None, s)
  else
    let ph := u32 (elf + load4 s.2 (elf + 28)) in
    let phnum := load2 s.2 (elf + 44) in
    let eph := u32 (ph + sizeof_proghdr * phnum) in
    s ← load_segs fuel (S (Z.to_nat phnum)) ph eph s;
    Some (Some (load4 s.2 (elf + 24)), s).

(** ** Sectors *)

Context `{!PioOk D}.

(** A byte of the kernel's file. *)
Definition kbyte (o : Z) : Z := u8 (aget 0 (sector_of (o / SECTSIZE + 1)) (o mod SECTSIZE)).

Lemma waitdisk_mono f f' d d' : waitdisk f d = Some d' -> (f <= f')%nat -> waitdisk f' d = Some d'.
Proof.
  revert d f'. induction f as [|f IH]; intros d f' Hw Hf; [done|]. destruct f' as [|f']; [lia|]. cbn [waitdisk] in *.
  destruct (pinb 0x1f7 d) as [r d1]. destruct (negb _); [|done]. apply IH; [done|lia].
Qed.

Lemma waitdisk_ok d : exists N d0, reading d0 = reading d /\ status_ok d0 = true /\
  forall fuel, (N <= fuel)%nat -> waitdisk fuel d = Some (pinb 0x1f7 d0).2.
Proof.
  destruct (pio_ready d) as [n Hn]. revert d Hn. induction n as [|n IH]; intros d Hn; cbn [polled] in Hn.
  - exists 1%nat, d. split; [done|]. split; [done|]. intros fuel Hf. destruct fuel; [lia|]. cbn [waitdisk].
    unfold status_ok in Hn. destruct (pinb 0x1f7 d) as [r d1]. cbn [fst snd] in *. by rewrite Hn.
  - destruct (IH _ Hn) as (N & d0 & Hr & Hs & Hw). destruct (status_ok d) eqn:Hd.
    + exists 1%nat, d. split; [done|]. split; [done|]. intros fuel Hf. destruct fuel; [lia|]. cbn [waitdisk].
      unfold status_ok in Hd. destruct (pinb 0x1f7 d) as [r d1]. cbn [fst snd] in *. by rewrite Hd.
    + exists (S N), d0. rewrite Hr, pio_poll. split; [done|]. split; [done|]. intros fuel Hf. destruct fuel; [lia|]. cbn [waitdisk].
      unfold status_ok in Hd. specialize (Hw fuel ltac:(lia)). destruct (pinb 0x1f7 d) as [r d1]. cbn [fst snd] in *. by rewrite Hd.
Qed.

Lemma lba_boot offset : 0 <= offset < 2 ^ 24 ->
  lba (u8 offset) (u8 (Z.shiftr offset 8)) (u8 (Z.shiftr offset 16)) (u8 (Z.lor (Z.shiftr offset 24) 0xE0)) = offset /\
  u8 (Z.lor (Z.shiftr offset 24) 0xE0) = 0xE0.
Proof.
  intros Ho. assert (Z.shiftr offset 24 = 0) as -> by (rewrite Z.shiftr_div_pow2 by lia; apply Z.div_small; lia).
  split; [|done]. unfold lba. change (u8 (Z.lor 0 0xE0)) with 0xE0. change (Z.shiftl (Z.land 0xE0 15) 24) with 0.
  rewrite !Z.shiftr_div_pow2, !Z.shiftl_mul_pow2 by lia. unfold u8. change (2 ^ 8) with 256. change (2 ^ 16) with 65536.
  change (2 ^ 24) with 16777216 in *. divlia.
Qed.

Lemma store_bytes_spec bs : forall m a x, store_bytes m a bs x =
  if decide (a <= x < a + Z.of_nat (length bs)) then u8 (aget 0 bs (x - a)) else m x.
Proof.
  induction bs as [|b bs IH]; intros m a x; cbn [store_bytes length].
  - by rewrite decide_False by lia.
  - rewrite IH. destruct (decide (x = a)) as [->|Hne].
    + rewrite decide_False, decide_True by lia. rewrite upd_eq. rewrite Z.sub_diag. done.
    + rewrite upd_ne by done. destruct (decide (a + 1 <= x < a + 1 + Z.of_nat (length bs))).
      * rewrite decide_True by lia. f_equal. unfold aget. rewrite !decide_True by lia.
        replace (Z.to_nat (x - a)) with (S (Z.to_nat (x - (a + 1)))) by lia. done.
      * by rewrite decide_False by lia.
Qed.

Lemma readsect_ok dst offset d m : 0 <= offset < 2 ^ 24 -> exists N d', forall fuel, (N <= fuel)%nat ->
  readsect fuel dst offset (d, m) = Some (d', store_bytes m dst (sector_of offset)).
Proof.
  intros Ho. destruct (waitdisk_ok d) as (N1 & d1 & _ & _ & H1). destruct (lba_boot offset Ho) as [Hl He].
  set (d2 := poutb 0x1f7 0x20 (poutb 0x1f6 (u8 (Z.lor (Z.shiftr offset 24) 0xE0)) (poutb 0x1f5 (u8 (Z.shiftr offset 16))
    (poutb 0x1f4 (u8 (Z.shiftr offset 8)) (poutb 0x1f3 (u8 offset) (poutb 0x1f2 1 (pinb 0x1f7 d1).2)))))).
  destruct (waitdisk_ok d2) as (N2 & d3 & Hr & Hs & H2).
  assert (Hrd : reading d2 = Some offset).
  { unfold d2. rewrite pio_read; [by rewrite Hl|apply u8_range|apply u8_range|apply u8_range|rewrite He; lia]. }
  exists (Nat.max N1 N2), (pinsl 0x1f0 (Z.to_nat (SECTSIZE / 4)) (pinb 0x1f7 d3).2).2. intros fuel Hf.
  unfold readsect. rewrite H1 by lia. cbn [mbind option_bind]. fold d2. rewrite H2 by lia. cbn [mbind option_bind].
  pose proof (pio_data d3 offset Hs ltac:(congruence)) as Hd. destruct (pinsl 0x1f0 (Z.to_nat (SECTSIZE / 4)) (pinb 0x1f7 d3).2) as [x d4].
  cbn [fst snd] in *. by rewrite Hd.
Qed.

Lemma readseg_loop_ok epa : forall n k d m pa offset, (k < n)%nat -> 0 <= pa -> pa + SECTSIZE * Z.of_nat k < 2 ^ 32 ->
  0 <= offset -> offset + Z.of_nat k < 2 ^ 24 -> pa + SECTSIZE * (Z.of_nat k - 1) < epa <= pa + SECTSIZE * Z.of_nat k \/ k = 0%nat /\ epa <= pa ->
  exists N d' m', (forall fuel, (N <= fuel)%nat -> readseg_loop fuel n pa epa offset (d, m) = Some (d', m')) /\
    forall x, m' x = if decide (pa <= x < pa + SECTSIZE * Z.of_nat k)
      then u8 (aget 0 (sector_of (offset + (x - pa) / SECTSIZE)) ((x - pa) mod SECTSIZE)) else m x.
Proof.
  induction n as [|n IH]; intros k d m pa offset Hk Hpa Hpe Ho Hoe He; [lia|]. unfold SECTSIZE in *. cbn [readseg_loop].
  destruct k as [|k].
  { exists 0%nat, d, m. split; [|intros x; by rewrite decide_False by lia]. intros fuel _. by rewrite (proj2 (Z.ltb_ge pa epa)) by lia. }
  destruct (readsect_ok pa offset d m) as (N1 & d1 & H1); [lia|]. set (m1 := store_bytes m pa (sector_of offset)) in *.
  destruct (IH k d1 m1 (pa + 512) (offset + 1)) as (N2 & d' & m' & H2 & Hm); [lia|lia|lia|lia|lia|destruct k; lia|].
  exists (Nat.max N1 N2), d', m'. split.
  - intros fuel Hf. rewrite (proj2 (Z.ltb_lt pa epa)) by lia. rewrite H1 by lia. cbn [mbind option_bind].
    unfold SECTSIZE. rewrite !u32_id by lia. apply H2. lia.
  - intros x. rewrite Hm. unfold m1. rewrite store_bytes_spec, pio_sector. change (Z.of_nat (Z.to_nat SECTSIZE)) with 512.
    destruct (decide (pa + 512 <= x < pa + 512 + 512 * Z.of_nat k)) as [Hx|Hx].
    + rewrite decide_True by lia. assert (E1 : offset + 1 + (x - (pa + 512)) / 512 = offset + (x - pa) / 512) by divlia.
      assert (E2 : (x - (pa + 512)) mod 512 = (x - pa) mod 512) by divlia. by rewrite E1, E2.
    + destruct (decide (pa <= x < pa + 512)) as [Hx1|Hx1]; [rewrite decide_True by lia|by rewrite decide_False by lia].
      rewrite Z.div_small, Z.mod_small, Z.add_0_r by lia. done.
Qed.

(** [readseg] brings the bytes of the file, in whole sectors. *)
Lemma readseg_ok pa count offset d m : 0 <= offset < 2 ^ 32 -> 0 <= count -> 0 <= pa - offset mod SECTSIZE -> pa + count + SECTSIZE < 2 ^ 32 ->
  offset + count + 2 * SECTSIZE <= 2 ^ 32 ->
  exists N d' m', (forall fuel, (N <= fuel)%nat -> readseg fuel pa count offset (d, m) = Some (d', m')) /\
    (forall x, pa <= x < pa + count -> m' x = kbyte (offset + (x - pa))) /\
    (forall x, x < pa - offset mod SECTSIZE \/ pa + count + SECTSIZE <= x -> m' x = m x).
Proof.
  intros Ho Hc Hpa Hend Hoe. unfold readseg. pose proof (Z.mod_pos_bound offset SECTSIZE ltac:(unfold SECTSIZE; lia)) as Hm.
  set (pa0 := pa - offset mod SECTSIZE) in *. set (k := Z.to_nat ((pa + count - pa0 + SECTSIZE - 1) / SECTSIZE)).
  assert (Hk : Z.of_nat k = (pa + count - pa0 + SECTSIZE - 1) / SECTSIZE).
  { unfold k. rewrite Z2Nat.id; [done|]. apply Z.div_pos; unfold pa0, SECTSIZE in *; lia. }
  rewrite (u32_id (pa + count)), (u32_id pa0), (u32_id (offset / SECTSIZE + 1)) by (unfold pa0, SECTSIZE in *; divlia).
  destruct (readseg_loop_ok (pa + count) (Z.to_nat (count / SECTSIZE + 3)) k d m pa0 (offset / SECTSIZE + 1)) as (N & d' & m' & H1 & H2);
    try (unfold pa0, SECTSIZE in *; divlia).
  exists N, d', m'. split; [done|]. split.
  - intros x Hx. rewrite H2, decide_True by (unfold pa0, SECTSIZE in *; divlia). unfold kbyte. f_equal.
    assert (E1 : offset / SECTSIZE + 1 + (x - pa0) / SECTSIZE = (offset + (x - pa)) / SECTSIZE + 1) by (unfold pa0, SECTSIZE in *; divlia).
    assert (E2 : (x - pa0) mod SECTSIZE = (offset + (x - pa)) mod SECTSIZE) by (unfold pa0, SECTSIZE in *; divlia).
    by rewrite E1, E2.
  - intros x Hx. rewrite H2, decide_False; [done|]. unfold pa0, SECTSIZE in *. divlia.
Qed.

(** ** The kernel *)

(** The program header [i] of the file, and its fields. *)
Definition ph_at (i : Z) : Z := load4 kbyte 28 + sizeof_proghdr * i.
Definition ph_off (i : Z) : Z := load4 kbyte (ph_at i + 4).
Definition ph_paddr (i : Z) : Z := load4 kbyte (ph_at i + 12).
Definition ph_filesz (i : Z) : Z := load4 kbyte (ph_at i + 16).
Definition ph_memsz (i : Z) : Z := load4 kbyte (ph_at i + 20).
Definition ph_start (i : Z) : Z := ph_paddr i - ph_off i mod SECTSIZE.
Definition ph_end (i : Z) : Z := ph_paddr i + Z.max (ph_filesz i) (ph_memsz i).

(** A kernel that can be loaded: its headers are in the first page, its
    segments lie above the page they are read to, in increasing order. *)
Record kernel_ok : Prop := {
  ko_magic : load4 kbyte 0 = ELF_MAGIC;
  ko_headers : load4 kbyte 28 + sizeof_proghdr * load2 kbyte 44 <= 4096;
  ko_range i : 0 <= i < load2 kbyte 44 -> 0x11000 <= ph_start i /\ ph_end i + SECTSIZE < 2 ^ 32 /\
    ph_off i + ph_filesz i + 2 * SECTSIZE <= 2 ^ 32;
  ko_order i j : 0 <= i < j -> j < load2 kbyte 44 -> ph_end i <= ph_start j
}.

Definition loaded (m : mem) (i : Z) : Prop :=
  (forall x, ph_paddr i <= x < ph_paddr i + ph_filesz i -> m x = kbyte (ph_off i + (x - ph_paddr i))) /\
  (forall x, ph_paddr i + ph_filesz i <= x < ph_paddr i + ph_memsz i -> m x = 0).

(** The first page of the file is at 0x10000. *)
Definition header (m : mem) : Prop := forall o, 0 <= o < 4096 -> m (0x10000 + o) = kbyte o.

Lemma kbyte_ok : mem_ok kbyte.
Proof. intros o. apply u8_range. Qed.

Lemma header_load4 m o : header m -> 0 <= o -> o + 4 <= 4096 -> load4 m (0x10000 + o) = load4 kbyte o.
Proof.
  intros Hh H0 H1. unfold load4. rewrite <- !Z.add_assoc. rewrite !Hh by lia. done.
Qed.

Lemma load_segs_S fuel n ph eph d m pa filesz memsz off d1 m1 :
  ph < eph -> load4 m (ph + 12) = pa -> load4 m (ph + 16) = filesz -> load4 m (ph + 4) = off ->
  readseg fuel pa filesz off (d, m) = Some (d1, m1) -> load4 m1 (ph + 16) = filesz -> load4 m1 (ph + 20) = memsz ->
  load_segs fuel (S n) ph eph (d, m) = load_segs fuel n (u32 (ph + sizeof_proghdr)) eph
    (d1, if filesz <? memsz then stosb m1 (u32 (pa + filesz)) 0 (Z.to_nat (memsz - filesz)) else m1).
Proof.
  intros Hl E1 E2 E3 E4 E5 E6. cbn [load_segs]. rewrite (proj2 (Z.ltb_lt _ _) Hl). cbn [fst snd]. rewrite E1, E2, E3, E4.
  cbn [mbind option_bind fst snd]. rewrite E5, E6. by destruct (filesz <? memsz).
Qed.

Lemma bootmain_calls fuel d m d1 m1 ph eph d2 m2 phoff phnum entry :
  readseg fuel 0x10000 4096 0 (d, m) = Some (d1, m1) -> load4 m1 0x10000 = ELF_MAGIC -> load4 m1 (0x10000 + 28) = phoff -> load2 m1 (0x10000 + 44) = phnum ->
  ph = u32 (0x10000 + phoff) -> eph = u32 (ph + sizeof_proghdr * phnum) ->
  load_segs fuel (S (Z.to_nat phnum)) ph eph (d1, m1) = Some (d2, m2) -> load4 m2 (0x10000 + 24) = entry ->
  bootmain fuel (d, m) = Some (Some entry, (d2, m2)).
Proof.
  intros E1 E2 E3 E4 E5 E6 E7 E8. unfold bootmain. rewrite E1. cbn [mbind option_bind snd]. rewrite E2, Z.eqb_refl. cbn [negb].
  rewrite E3, E4, <- E5, <- E6, E7. cbn [mbind option_bind snd]. by rewrite E8.
Qed.

Lemma bootmain_not_elf fuel d m d1 m1 :
  readseg fuel 0x10000 4096 0 (d, m) = Some (d1, m1) -> load4 m1 0x10000 <> ELF_MAGIC -> bootmain fuel (d, m) = Some (None, (d1, m1)).
Proof.
  intros E1 E2. unfold bootmain. rewrite E1. cbn [mbind option_bind snd]. by rewrite (proj2 (Z.eqb_neq _ _) E2).
Qed.

Lemma ph_off_range i : 0 <= ph_off i < 2 ^ 32.
Proof. apply load4_range, kbyte_ok. Qed.

Lemma ph_filesz_range i : 0 <= ph_filesz i < 2 ^ 32.
Proof. apply load4_range, kbyte_ok. Qed.

Lemma ph_memsz_range i : 0 <= ph_memsz i < 2 ^ 32.
Proof. apply load4_range, kbyte_ok. Qed.

Lemma header_fields m i : header m -> 0 <= ph_at i -> ph_at i + 32 <= 4096 ->
  load4 m (0x10000 + ph_at i + 4) = ph_off i /\ load4 m (0x10000 + ph_at i + 12) = ph_paddr i /\
  load4 m (0x10000 + ph_at i + 16) = ph_filesz i /\ load4 m (0x10000 + ph_at i + 20) = ph_memsz i.
Proof.
  intros Hh H0 H1. rewrite <- !Z.add_assoc. split; [|split; [|split]]; apply header_load4; (done || lia).
Qed.

Lemma header_load2 m o : header m -> 0 <= o -> o + 2 <= 4096 -> load2 m (0x10000 + o) = load2 kbyte o.
Proof. intros Hh H0 H1. unfold load2. rewrite <- !Z.add_assoc. rewrite !Hh by lia. done. Qed.

Lemma load2_nonneg o : 0 <= load2 kbyte o.
Proof. unfold load2. pose proof (kbyte_ok o). pose proof (kbyte_ok (o + 1)). lia. Qed.

#[local] Opaque load4 load2 kbyte.

Lemma load_step d m i : kernel_ok -> header m -> 0 <= i < load2 kbyte 44 ->
  exists N d' m', header m' /\ loaded m' i /\ (forall x, 0x11000 <= x < ph_start i -> m' x = m x) /\
    forall fuel n eph, (N <= fuel)%nat -> 0x10000 + ph_at i < eph ->
      load_segs fuel (S n) (0x10000 + ph_at i) eph (d, m) = load_segs fuel n (u32 (0x10000 + ph_at i + sizeof_proghdr)) eph (d', m').
Proof.
  intros [K1 K2 K3 K4] Hh Hi. destruct (K3 i Hi) as (R1 & R2 & R3). unfold ph_start, ph_end, SECTSIZE in *.
  assert (Ha : 0 <= ph_at i /\ ph_at i + 32 <= 4096).
  { unfold ph_at, sizeof_proghdr in *. pose proof (load4_range kbyte 28 kbyte_ok). lia. }
  pose proof (ph_off_range i) as Bo. pose proof (ph_filesz_range i) as Bf. pose proof (ph_memsz_range i) as Bm.
  destruct (readseg_ok (ph_paddr i) (ph_filesz i) (ph_off i) d m) as (N & d' & m1 & E & H1 & H2); unfold SECTSIZE in *; try lia.
  pose proof (Z.mod_pos_bound (ph_off i) 512 ltac:(lia)) as Bmod. set (r := ph_off i mod 512) in *. clearbody r.
  clear K1 K2 K3 K4.
  assert (Hh1 : header m1) by (intros o Hoo; rewrite H2 by lia; by apply Hh).
  set (m2 := if ph_filesz i <? ph_memsz i then stosb m1 (u32 (ph_paddr i + ph_filesz i)) 0 (Z.to_nat (ph_memsz i - ph_filesz i)) else m1).
  assert (Hm2 : forall x, m2 x = if decide (ph_paddr i + ph_filesz i <= x < ph_paddr i + ph_memsz i) then 0 else m1 x).
  { intros x. unfold m2. destruct (Z.ltb_spec (ph_filesz i) (ph_memsz i)); [|by rewrite decide_False by lia].
    rewrite stosb_spec, (u32_id (ph_paddr i + ph_filesz i)) by lia. rewrite Z2Nat.id by lia. repeat case_decide; (done || lia). }
  exists N, d', m2. split; [intros o Hoo; rewrite Hm2, decide_False by lia; by apply Hh1|]. split; [|split].
  - split; intros x Hx; rewrite Hm2; [rewrite decide_False by lia; by apply H1|by rewrite decide_True by lia].
  - intros x Hx. rewrite Hm2, decide_False by lia. apply H2. lia.
  - intros fuel n eph Hf He. destruct (header_fields m i Hh) as (F1 & F2 & F3 & F4); [lia|lia|].
    destruct (header_fields m1 i Hh1) as (G1 & G2 & G3 & G4); [lia|lia|]. apply (load_segs_S fuel _ _ _ _ _ _ _ _ _ _ _ He F2 F3 F1 (E fuel ltac:(lia)) G3 G4).
Qed.

Lemma load_segs_ok : kernel_ok -> forall k i d m, 0 <= i -> i + Z.of_nat k = load2 kbyte 44 -> header m -> (forall j, 0 <= j < i -> loaded m j) ->
  exists N d' m', header m' /\ (forall j, 0 <= j < load2 kbyte 44 -> loaded m' j) /\
    forall fuel, (N <= fuel)%nat -> load_segs fuel (S k) (0x10000 + ph_at i) (0x10000 + ph_at (load2 kbyte 44)) (d, m) = Some (d', m').
Proof.
  intros Hk. pose proof (ko_headers Hk) as K2. pose proof (load4_range kbyte 28 kbyte_ok) as B28.
  induction k as [|k IH]; intros i d m Hi Hn Hh Hl.
  { exists 0%nat, d, m. split; [done|]. split; [intros j Hj; apply Hl; lia|]. intros fuel _. cbn [load_segs].
    replace i with (load2 kbyte 44) by lia. by rewrite Z.ltb_irrefl. }
  destruct (load_step d m i Hk Hh ltac:(lia)) as (N1 & d1 & m1 & Hh1 & Hl1 & Hold & E1).
  destruct (IH (i + 1) d1 m1) as (N2 & d' & m' & Hh' & Hl' & E2); [lia|lia|done| |].
  - intros j Hj. destruct (decide (j = i)) as [->|Hne]; [done|]. destruct (Hl j ltac:(lia)) as [L1 L2].
    pose proof (ko_order Hk j i ltac:(lia) ltac:(lia)) as Ho. destruct (ko_range Hk j ltac:(lia)) as (R1 & _). unfold ph_end, ph_start in *.
    pose proof (Z.mod_pos_bound (ph_off j) SECTSIZE ltac:(unfold SECTSIZE; lia)).
    pose proof (ph_filesz_range j).
    split; intros x Hx; rewrite Hold by lia; auto.
  - exists (Nat.max N1 N2), d', m'. split; [done|]. split; [done|]. intros fuel Hf.
    rewrite E1; [|lia|unfold ph_at, sizeof_proghdr in *; lia]. rewrite u32_id by (unfold ph_at, sizeof_proghdr in *; lia).
    replace (0x10000 + ph_at i + sizeof_proghdr) with (0x10000 + ph_at (i + 1)) by (unfold ph_at; lia). apply E2. lia.
Qed.

(** C39. The boot loader brings the kernel into memory.  For a disk with an ELF
    file whose headers are in its first page and whose segments lie in
    increasing order above the buffer for that page, [bootmain] ends by
    calling the file's entry point, with the bytes of every segment at its
    physical address and zeros after them up to its size in memory.  When the
    file is not in the ELF format nothing is called. *)
Theorem bootmain_loads d m :
  (kernel_ok -> exists N d' m', (forall j, 0 <= j < load2 kbyte 44 -> loaded m' j) /\
     forall fuel, (N <= fuel)%nat -> bootmain fuel (d, m) = Some (Some (load4 kbyte 24), (d', m'))) /\
  (load4 kbyte 0 <> ELF_MAGIC -> exists N s', forall fuel, (N <= fuel)%nat -> bootmain fuel (d, m) = Some (None, s')).
Proof.
  destruct (readseg_ok 0x10000 4096 0 d m) as (N1 & d1 & m1 & E1 & H1 & _); [lia|lia|by vm_compute|by vm_compute|by vm_compute|].
  assert (Hh : header m1) by (intros o Ho; rewrite H1 by lia; f_equal; lia).
  assert (Hmag : load4 m1 0x10000 = load4 kbyte 0) by (apply (header_load4 m1 0); (done || lia)).
  split.
  - intros Hk. pose proof (ko_headers Hk) as K2. pose proof (load4_range kbyte 28 kbyte_ok) as B28.
    pose proof (load2_nonneg 44) as Hn0.
    destruct (load_segs_ok Hk (Z.to_nat (load2 kbyte 44)) 0 d1 m1) as (N2 & d' & m' & Hh' & Hl & E2); [lia|lia|done|lia|].
    exists (Nat.max N1 N2), d', m'. split; [done|]. intros fuel Hf.
    apply (bootmain_calls fuel d m d1 m1 (0x10000 + ph_at 0) (0x10000 + ph_at (load2 kbyte 44)) d' m' (load4 kbyte 28) (load2 kbyte 44)).
    + apply E1. lia.
    + rewrite Hmag. apply (ko_magic Hk).
    + apply header_load4; (done || lia).
    + apply header_load2; (done || lia).
    + unfold ph_at, sizeof_proghdr in *. rewrite u32_id by lia. lia.
    + unfold ph_at, sizeof_proghdr in *. rewrite u32_id by lia. lia.
    + apply E2. lia.
    + apply header_load4; (done || lia).
  - intros Hmg. exists N1, (d1, m1). intros fuel Hf. apply bootmain_not_elf; [by apply E1|by rewrite Hmag].
Qed.

End boot.

(** ** A disk with a kernel *)

(** A controller that is busy for the next [dp_busy] reads of its status. *)
Record demo_pio := DemoPio { dp_regs : Z -> Z; dp_cmd : option Z; dp_busy : nat }.

(** An ELF file with one segment: 600 bytes at offset 4096 of the file, for
    physical address 0x100000, where it takes 1000 bytes. *)
Definition demo_header : list Z :=
  [0x7f; 0x45; 0x4c; 0x46] ++ replicate 20 0 ++ [0x0c; 0; 0x10; 0] ++ [52; 0; 0; 0] ++ replicate 12 0 ++ [1; 0] ++ replicate 6 0 ++
  [1; 0; 0; 0] ++ [0; 0x10; 0; 0] ++ [0; 0; 0x10; 0x80] ++ [0; 0; 0x10; 0] ++ [0x58; 2; 0; 0] ++ [0xe8; 3; 0; 0] ++ replicate 436 0.

Definition demo_sector (l : Z) : list Z := if l =? 1 then demo_header else replicate 512 (u8 l).

#[local] Instance demo_pio_pio : Pio demo_pio := {
  pinb p d := if p =? 0x1f7 then (match dp_busy d with O => 0x40 | S _ => 0x80 end, DemoPio (dp_regs d) (dp_cmd d) (pred (dp_busy d))) else (0, d);
  poutb p v d :=
    if (p =? 0x1f7) && (v =? 0x20) then
      DemoPio (dp_regs d) (Some (lba (dp_regs d 0x1f3) (dp_regs d 0x1f4) (dp_regs d 0x1f5) (dp_regs d 0x1f6))) 2
    else DemoPio (fun x => if x =? p then v else dp_regs d x) (dp_cmd d) (dp_busy d);
  pinsl p n d := (match dp_cmd d with Some l => demo_sector l | None => [] end, DemoPio (dp_regs d) None (dp_busy d));
  sector_of := demo_sector;
  reading := dp_cmd
}.

#[local] Instance demo_pio_ok : PioOk demo_pio.
Proof.
  split.
  - intros [r c b]. exists b. revert r c. induction b as [|b IH]; intros r c; [done|]. apply (IH r c).
  - done.
  - intros d a b c e _ _ _ _. done.
  - intros [r c b] l Hs Hr. cbn in *. by rewrite Hr.
  - intros l. cbn. unfold demo_sector. destruct (l =? 1); [done|apply length_replicate].
Qed.

Lemma demo_kernel_ok : kernel_ok (D := demo_pio).
Proof.
  assert (E : load2 (kbyte (D := demo_pio)) 44 = 1) by by vm_compute.
  split; [by vm_compute|by vm_compute| |]; rewrite E.
  - intros i Hi. replace i with 0 by lia. by vm_compute.
  - lia.
Qed.

Lemma bootmain_loads_witness : kernel_ok (D := demo_pio) /\
  exists N d' m', (forall j, 0 <= j < load2 (kbyte (D := demo_pio)) 44 -> loaded (D := demo_pio) m' j) /\
    forall fuel, (N <= fuel)%nat ->
      bootmain fuel (DemoPio (fun _ => 0) None 3, fun _ => 0) = Some (Some (load4 (kbyte (D := demo_pio)) 24), (d', m')).
Proof.
  split; [exact demo_kernel_ok|]. exact (proj1 (bootmain_loads (D := demo_pio) (DemoPio (fun _ => 0) None 3) (fun _ => 0)) demo_kernel_ok).
Defined.
