(* ===== verification/Sysfile.v ===== *)
(** * System calls on files (sysfile.c) and the dispatch (syscall.c)

    The calls that create, open, read, write, link and remove files, and
    [syscall], which all system calls go through. *)

From stdpp Require Import base numbers list gmap strings.
From Stdlib Require Import ZArith Lia.
From S2P Require Import Prelude Abi Disk Bio Log Blk Kstring Printf Ring Console Pipe Kalloc Fs Vm Spinlock Kernel File Proc Syscall Exec.

Local Open Scope Z_scope.
Local Open Scope prog_scope.
Local Abbreviation P := (prog (fsk kernel)).

(** ** File descriptors *)

(** [argfd]: the descriptor and the file. *)
Definition argfd (n : Z) : P (option (nat * nat)) :=
  let! fd := argint n in
  match fd with
  | None => Ret None
  | Some fd =>
      if (fd <? 0) || (Z.of_nat NOFILE <=? fd) then Ret None
      else
        let! f := kgets (fun k => ofile (myproc k) !! Z.to_nat fd) in
        match f with
        | Some (Some f) => Ret (Some (Z.to_nat fd, f))
        | _ => Ret None
        end
  end.

Fixpoint find_fd (l : list (option nat)) (i : nat) : option nat :=
  match l with
  | [] => None
  | None :: _ => Some i
  | Some _ :: l => find_fd l (S i)
  end.

Definition set_fd (fd : nat) (f : option nat) : P unit :=
  upd_cur (fun p => set_ofile (<[fd := f]> (ofile p)) p).

(** [fdalloc]: the descriptor; [None] for -1. *)
Definition fdalloc (f : nat) : P (option nat) :=
  let! l := kgets (fun k => ofile (myproc k)) in
  match find_fd l 0 with
  | Some fd => set_fd fd (Some f) >>> Ret (Some fd)
  | None => Ret None
  end.

Definition sys_dup : P Z :=
  let! r := argfd 0 in
  match r with
  | None => Ret (-1)
  | Some (_, f) =>
      let! fd := fdalloc f in
      match fd with
      | None => Ret (-1)
      | Some fd => let! _ := filedup f in Ret (Z.of_nat fd)
      end
  end.

(** The arguments of [read] and [write]: the file, the count and the
    address. *)
Definition arg_rw : P (option (nat * Z * Z)) :=
  let! r := argfd 0 in
  match r with
  | None => Ret None
  | Some (_, f) =>
      let! n := argint 2 in
      match n with
      | None => Ret None
      | Some n =>
          let! p := argptr 1 n in
          match p with None => Ret None | Some p => Ret (Some (f, n, p)) end
      end
  end.

Definition sys_read : P Z :=
  let! a := arg_rw in
  match a with
  | None => Ret (-1)
  | Some (f, n, p) => let! (r, bs) := fileread f n in uwrite p bs >>> Ret r
  end.

Definition sys_write : P Z :=
  let! a := arg_rw in
  match a with
  | None => Ret (-1)
  | Some (f, n, p) => filewrite f p n
  end.

Section sysfile.
Context (kend kdata : Z) (junk : list Z).

Definition sys_close : P Z :=
  let! r := argfd 0 in
  match r with
  | None => Ret (-1)
  | Some (fd, f) => set_fd fd None >>> fileclose kend f >>> Ret 0
  end.

(** [*st = ...]: the fields of [struct stat]. *)
Definition write_stat (a : Z) (st : stat) : P unit :=
  uwrite a (le_enc 2 (st_type st)) >>>
  uwrite (u32 (a + 4)) (le_enc 4 (st_dev st)) >>>
  uwrite (u32 (a + 8)) (le_enc 4 (st_ino st)) >>>
  uwrite (u32 (a + 12)) (le_enc 2 (st_nlink st)) >>>
  uwrite (u32 (a + 16)) (le_enc 4 (st_size st)).

Definition sys_fstat : P Z :=
  let! r := argfd 0 in
  match r with
  | None => Ret (-1)
  | Some (_, f) =>
      let! a := argptr 1 20 in
      match a with
      | None => Ret (-1)
      | Some a =>
          let! st := filestat f in
          match st with None => Ret (-1) | Some st => write_stat a st >>> Ret 0 end
      end
  end.

(** ** Links *)

Definition sys_link : P Z :=
  let! old := argstr 0 in
  match old with None => Ret (-1) | Some old =>
  let! new := argstr 1 in
  match new with None => Ret (-1) | Some new =>
  let! r := namei devread kcwd old in
  match r with None => Ret (-1) | Some ip =>
    begin_trans >>>
    ilock ip >>>
    let! i := getip ip in
    if d_type (dino i) =? T_DIR then iunlockput ip >>> commit_trans >>> Ret (-1)
    else
      let bad :=
        ilock ip >>>
        upddino ip (fun d => set_nlink (s16 (d_nlink d - 1)) d) >>>
        iupdate ip >>> iunlockput ip >>> commit_trans >>> Ret (-1) in
      upddino ip (fun d => set_nlink (s16 (d_nlink d + 1)) d) >>>
      iupdate ip >>>
      iunlock ip >>>
      let! r := nameiparent devread kcwd new in
      match r with
      | None => bad
      | Some (dp, nm) =>
          ilock dp >>>
          let! d := getip dp in
          let! i := getip ip in
          let! r := (if negb (idev d =? idev i) then Ret (-1)
                     else dirlink devread devwrite dp nm (inum i)) in
          if r <? 0 then iunlockput dp >>> bad
          else iunlockput dp >>> iput ip >>> commit_trans >>> Ret 0
      end
  end end end.

Fixpoint isdirempty_loop (fuel : nat) (dp : nat) (off : Z) : P bool :=
  match fuel with
  | O => PPanic "fuel"
  | S f =>
      let! i := getip dp in
      if off <? d_size (dino i) then
        let! (r, de) := readi devread dp off DIRENT in
        if negb (r =? DIRENT) then PPanic "isdirempty: readi"
        else if negb (de_inum de =? 0) then Ret false
        else isdirempty_loop f dp (off + DIRENT)
      else Ret true
  end.

Definition isdirempty (dp : nat) : P bool :=
  let! i := getip dp in isdirempty_loop (dir_fuel (d_size (dino i))) dp (2 * DIRENT).

Definition dot : list Z := [46].
Definition dotdot : list Z := [46; 46].

Definition sys_unlink : P Z :=
  let! path := argstr 0 in
  match path with None => Ret (-1) | Some path =>
  let! r := nameiparent devread kcwd path in
  match r with None => Ret (-1) | Some (dp, nm) =>
    begin_trans >>>
    ilock dp >>>
    let bad := iunlockput dp >>> commit_trans >>> Ret (-1) in
    if (namecmp nm dot =? 0) || (namecmp nm dotdot =? 0) then bad
    else
      let! r := dirlookup devread dp nm in
      match r with
      | None => bad
      | Some (ip, off) =>
          ilock ip >>>
          let! i := getip ip in
          if d_nlink (dino i) <? 1 then PPanic "unlink: nlink < 1"
          else
            let! full := (if d_type (dino i) =? T_DIR then let! e := isdirempty ip in Ret (negb e) else Ret false) in
            if (full : bool) then iunlockput ip >>> bad
            else
              let! r := writei devwrite dp (replicate 16 0) off in
              if negb (r =? DIRENT) then PPanic "unlink: writei"
              else
                (if d_type (dino i) =? T_DIR
                 then upddino dp (fun d => set_nlink (s16 (d_nlink d - 1)) d) >>> iupdate dp
                 else Ret tt) >>>
                iunlockput dp >>>
                upddino ip (fun d => set_nlink (s16 (d_nlink d - 1)) d) >>>
                iupdate ip >>>
                iunlockput ip >>>
                commit_trans >>>
                Ret 0
      end
  end end.

(** ** Creation *)

Definition create (path : list Z) (type major minor : Z) : P (option nat) :=
  let! r := nameiparent devread kcwd path in
  match r with None => Ret None | Some (dp, nm) =>
    ilock dp >>>
    let! r := dirlookup devread dp nm in
    match r with
    | Some (ip, _) =>
        iunlockput dp >>>
        ilock ip >>>
        let! i := getip ip in
        if (type =? T_FILE) && (d_type (dino i) =? T_FILE) then Ret (Some ip)
        else iunlockput ip >>> Ret None
    | None =>
        let! d := getip dp in
        let! ip := ialloc (idev d) type in
        ilock ip >>>
        upddino ip (fun d => set_nlink 1 (set_dev major minor d)) >>>
        iupdate ip >>>
        (if type =? T_DIR then
           upddino dp (fun d => set_nlink (s16 (d_nlink d + 1)) d) >>>
           iupdate dp >>>
           let! i := getip ip in
           let! d := getip dp in
           let! r := dirlink devread devwrite ip dot (inum i) in
           if r <? 0 then PPanic "create dots"
           else
             let! r := dirlink devread devwrite ip dotdot (inum d) in
             if r <? 0 then PPanic "create dots" else Ret tt
         else Ret tt) >>>
        let! i := getip ip in
        let! r := dirlink devread devwrite dp nm (inum i) in
        if r <? 0 then PPanic "create: dirlink"
        else iunlockput dp >>> Ret (Some ip)
    end
  end.

(** [sys_open], once the inode is found and locked. *)
Definition open_file (ip : nat) (omode : Z) : P Z :=
  let! f := filealloc in
  match f with
  | None => iunlockput ip >>> Ret (-1)
  | Some f =>
      let! fd := fdalloc f in
      match fd with
      | None => fileclose kend f >>> iunlockput ip >>> Ret (-1)
      | Some fd =>
          iunlock ip >>>
          kmod (upd_file f (fun x => File FD_INODE (fref x) (negb (fhas omode O_WRONLY))
            (fhas omode O_WRONLY || fhas omode O_RDWR) (fpipe x) ip 0)) >>>
          Ret (Z.of_nat fd)
      end
  end.

Definition sys_open : P Z :=
  let! path := argstr 0 in
  match path with None => Ret (-1) | Some path =>
  let! omode := argint 1 in
  match omode with None => Ret (-1) | Some omode =>
    if fhas omode O_CREATE then
      begin_trans >>>
      let! ip := create path T_FILE 0 0 in
      commit_trans >>>
      match ip with None => Ret (-1) | Some ip => open_file ip omode end
    else
      let! r := namei devread kcwd path in
      match r with None => Ret (-1) | Some ip =>
        ilock ip >>>
        let! i := getip ip in
        if (d_type (dino i) =? T_DIR) && negb (omode =? O_RDONLY) then iunlockput ip >>> Ret (-1)
        else open_file ip omode
      end
  end end.

(** The end of [sys_mkdir] and [sys_mknod]. *)
Definition created (r : option nat) : P Z :=
  match r with
  | None => commit_trans >>> Ret (-1)
  | Some ip => iunlockput ip >>> commit_trans >>> Ret 0
  end.

Definition sys_mkdir : P Z :=
  begin_trans >>>
  let! path := argstr 0 in
  match path with
  | None => created None
  | Some path => let! r := create path T_DIR 0 0 in created r
  end.

Definition sys_mknod : P Z :=
  begin_trans >>>
  let! path := argstr 0 in
  match path with None => created None | Some path =>
  let! major := argint 1 in
  match major with None => created None | Some major =>
  let! minor := argint 2 in
  match minor with None => created None | Some minor =>
    let! r := create path T_DEV (s16 major) (s16 minor) in created r
  end end end.

Definition sys_chdir : P Z :=
  let! path := argstr 0 in
  match path with None => Ret (-1) | Some path =>
  let! r := namei devread kcwd path in
  match r with None => Ret (-1) | Some ip =>
    ilock ip >>>
    let! i := getip ip in
    if negb (d_type (dino i) =? T_DIR) then iunlockput ip >>> Ret (-1)
    else
      iunlock ip >>>
      (let! c := kgets kcwd in iput c) >>>
      upd_cur (set_cwd (Some ip)) >>>
      Ret 0
  end end.

(** ** Programs and pipes *)

(** The argument vector at [uargv], from its element [i] on; [n] elements of
    [argv] are left. *)
Fixpoint fetch_argv (n : nat) (uargv i : Z) : P (option (list (list Z))) :=
  match n with
  | O => Ret None
  | S n =>
      let! uarg := fetchint (u32 (uargv + 4 * i)) in
      match uarg with
      | None => Ret None
      | Some uarg =>
          if uarg =? 0 then Ret (Some [])
          else
            let! s := fetchstr (u32 uarg) in
            match s with
            | None => Ret None
            | Some s => let! r := fetch_argv n uargv (i + 1) in Ret (cons s <$> r)
            end
      end
  end.

Definition sys_exec : P Z :=
  let! path := argstr 0 in
  match path with None => Ret (-1) | Some path =>
  let! uargv := argint 1 in
  match uargv with None => Ret (-1) | Some uargv =>
    let! argv := fetch_argv MAXARG (u32 uargv) 0 in
    match argv with None => Ret (-1) | Some argv => exec kend kdata junk path argv end
  end end.

Definition sys_pipe : P Z :=
  let! fd := argptr 0 8 in
  match fd with None => Ret (-1) | Some fd =>
  let! r := pipealloc kend in
  match r with None => Ret (-1) | Some (rf, wf) =>
    let! fd0 := fdalloc rf in
    match fd0 with
    | None => fileclose kend rf >>> fileclose kend wf >>> Ret (-1)
    | Some fd0 =>
        let! fd1 := fdalloc wf in
        match fd1 with
        | None => set_fd fd0 None >>> fileclose kend rf >>> fileclose kend wf >>> Ret (-1)
        | Some fd1 => uwrite4 fd (Z.of_nat fd0) >>> uwrite4 (u32 (fd + 4)) (Z.of_nat fd1) >>> Ret 0
        end
    end
  end end.

(** ** The dispatch *)

Context (trapret forkret : Z).

Definition returns (p : P Z) : P (Z + bool) := let! r := p in Ret (inl r).

(** The table [syscalls], by number. *)
Definition syscalls : list (Z * P (Z + bool)) :=
  [(SYS_fork, sys_fork kend kdata trapret forkret);
   (SYS_exit, sys_exit kend);
   (SYS_wait, sys_wait kend);
   (SYS_pipe, returns sys_pipe);
   (SYS_read, returns sys_read);
   (SYS_kill, sys_kill);
   (SYS_exec, returns sys_exec);
   (SYS_fstat, returns sys_fstat);
   (SYS_chdir, returns sys_chdir);
   (SYS_dup, returns sys_dup);
   (SYS_getpid, sys_getpid);
   (SYS_sbrk, sys_sbrk kend);
   (SYS_sleep, sys_sleep);
   (SYS_uptime, sys_uptime);
   (SYS_open, returns sys_open);
   (SYS_write, returns sys_write);
   (SYS_mknod, returns sys_mknod);
   (SYS_unlink, returns sys_unlink);
   (SYS_link, returns sys_link);
   (SYS_mkdir, returns sys_mkdir);
   (SYS_close, returns sys_close);
   (SYS_halt, sys_halt);
   (SYS_alarm, sys_alarm)].

Definition find_call (num : Z) : option (P (Z + bool)) := snd ∘ snd <$> list_find (fun c => fst c = num) syscalls.

(** Store the result of a call. *)
Definition set_eax (r : Z) : P unit :=
  let! p := kgets myproc in on_mem (st (tf p + tf_eax) (u32 r)).

(** [syscall]; [Some e] when the call has switched to the scheduler. *)
Definition syscall : P (option bool) :=
  let! p := kgets myproc in
  let! num := on_mem (ld (tf p + tf_eax)) in
  match find_call (s32 num) with
  | Some call =>
      let! r := call in
      match r with
      | inl r => set_eax r >>> Ret None
      | inr e => Ret (Some e)
      end
  | None => set_eax (-1) >>> Ret None
  end.

End sysfile.
