(* ===== verification/Trap.v ===== *)
(** * Traps (trap.c)

    [trap], the entry to the kernel from system calls, interrupts and faults.
    [Some e] as a result means that the process has switched to the
    scheduler; [trap2] is what follows the [yield] of a clock tick. *)

From stdpp Require Import base numbers list gmap strings.
From Stdlib Require Import ZArith Lia.
From S2P Require Import Prelude Disk Bio Log Blk Kstring Printf Ring Console Pipe Kalloc Fs Vm Spinlock Kernel File Proc Syscall Exec Sysfile.

Local Open Scope Z_scope.
Local Open Scope prog_scope.
Local Abbreviation P := (prog (fsk kernel)).

Definition T_PGFLT : Z := 14.
Definition T_SYSCALL : Z := 64.
Definition T_IRQ0 : Z := 32.
Definition IRQ_TIMER : Z := 0.
Definition IRQ_KBD : Z := 1.
Definition IRQ_COM1 : Z := 4.
Definition IRQ_IDE : Z := 14.
Definition IRQ_SPURIOUS : Z := 31.

(** A console interrupt with the characters [cs]: [consoleintr] wakes the
    readers when a line is complete. *)
Definition console_input (cs : list Z) : P unit :=
  let! c := kgets kcons in
  match consoleintr cs c with
  | None => PPanic "consputc"
  | Some c' =>
      kmod (set_kcons c') >>>
      if (wakeups c <? wakeups c')%nat then wakeup WInput else Ret tt
  end.

Definition kbd_interrupt (ds : list Z) : P unit :=
  let! sh := kgets kshift in
  let '(cs, sh) := kbdchars ds sh in
  kmod (set_kshift sh) >>> console_input cs.

(** [ideintr] of memide.c. *)
Definition ideintr : P unit := Ret tt.

Section trap.
(** The bytes the keyboard controller and the serial port hold, and [cr2]. *)
Context (kend kdata trapret forkret : Z) (junk : list Z).
Context (kbd uart : list Z) (cr2 : Z).

(** The clock tick. *)
Definition timer_tick (tf cs : Z) : P unit :=
  let! k := kgets id in
  (if (cpuid k =? 0)%nat then
     acquire_lk TicksLock >>>
     kmod (fun k => set_ticks (u32 (ticks k + 1)) k) >>> wakeup WTicks >>>
     release_lk TicksLock
   else Ret tt) >>>
  match cur k with
  | Some _ =>
      if (Z.land cs 3 =? 3) && negb (alarmhandler (myproc k) =? 0) then
        let t := u32 (alarmticked (myproc k) + 1) in
        if alarmticks (myproc k) <=? t then
          upd_cur (set_alarmticked 0) >>>
          let! esp := on_mem (ld (tf + tf_esp)) in
          let! eip := on_mem (ld (tf + tf_eip)) in
          on_mem (st (tf + tf_esp) (u32 (esp - 4))) >>>
          uwrite4 (u32 (esp - 4)) eip >>>
          on_mem (st (tf + tf_eip) (alarmhandler (myproc k)))
        else upd_cur (set_alarmticked t)
      else Ret tt
  | None => Ret tt
  end.

(** The [switch] of [trap]. *)
Definition trap_switch (tf trapno cs : Z) : P unit :=
  if trapno =? T_IRQ0 + IRQ_TIMER then timer_tick tf cs
  else if trapno =? T_IRQ0 + IRQ_IDE then ideintr
  else if trapno =? T_IRQ0 + IRQ_IDE + 1 then Ret tt
  else if trapno =? T_IRQ0 + IRQ_KBD then kbd_interrupt kbd
  else if trapno =? T_IRQ0 + IRQ_COM1 then console_input uart
  else if (trapno =? T_IRQ0 + 7) || (trapno =? T_IRQ0 + IRQ_SPURIOUS) then Ret tt
  else if trapno =? T_PGFLT then pgfault cr2
  else
    let! k := kgets id in
    if bool_decide (cur k = None) || (Z.land cs 3 =? 0) then PPanic "trap"
    else upd_cur (set_killed true).

(** [if(proc && proc->killed && (tf->cs&3) == DPL_USER) exit()]. *)
Definition exit_if_killed (cs : Z) (rest : P (option bool)) : P (option bool) :=
  let! k := kgets id in
  if bool_decide (is_Some (cur k)) && killed (myproc k) && (Z.land cs 3 =? 3)
  then let! e := exit kend in Ret (Some e) else rest.

Definition trap (tf : Z) : P (option bool) :=
  let! trapno := on_mem (ld (tf + tf_trapno)) in
  let! cs := on_mem (ld (tf + tf_cs)) in
  if trapno =? T_SYSCALL then
    let! k := kgets id in
    if killed (myproc k) then let! e := exit kend in Ret (Some e)
    else
      upd_cur (set_tf tf) >>>
      let! r := syscall kend kdata junk trapret forkret in
      match r with
      | Some e => Ret (Some e)
      | None =>
          let! k := kgets id in
          if killed (myproc k) then let! e := exit kend in Ret (Some e) else Ret None
      end
  else
    trap_switch tf trapno cs >>>
    exit_if_killed cs
      (let! k := kgets id in
       if bool_decide (is_Some (cur k)) && bool_decide (state (myproc k) = RUNNING) && (trapno =? T_IRQ0 + IRQ_TIMER)
       then let! e := yield1 in Ret (Some e)
       else exit_if_killed cs (Ret None)).

(** After the [yield]. *)
Definition trap2 (e : bool) (cs : Z) : P (option bool) := yield2 e >>> exit_if_killed cs (Ret None).

End trap.
