(* ===== verification/Seg.v ===== *)
(** * Segments, gates and the entry to the kernel (mmu.h, vm.c, trap.c)

    The descriptors that the kernel gives to the processor: the segments of
    [seginit], the task state of [switchuvm] and the gates of [tvinit], on the
    registers that they are loaded into.  What the processor reads from them
    ([seg_base], [seg_limit], [gate_offset], [int_allowed]) is as in Intel's
    manual.  The theorem is about protection: which interrupts user code may
    raise, where they lead, and on which stack. *)

From stdpp Require Import base numbers list gmap strings.
From Stdlib Require Import ZArith Lia.
From S2P Require Import Prelude Kstring Kalloc Vm Spinlock Kernel Trap.

Local Open Scope Z_scope.
Local Open Scope kernel_scope.

(** ** Descriptors *)

Definition SEG_KCODE : Z := 1.
Definition SEG_KDATA : Z := 2.
Definition SEG_KCPU : Z := 3.
Definition SEG_UCODE : Z := 4.
Definition SEG_UDATA : Z := 5.
Definition SEG_TSS : Z := 6.
Definition NSEGS : nat := 7.

Definition DPL_USER : Z := 3.
Definition STA_X : Z := 8.
Definition STA_W : Z := 2.
Definition STA_R : Z := 2.
Definition STS_T32A : Z := 9.
Definition STS_IG32 : Z := 14.
Definition STS_TG32 : Z := 15.

(** The bit fields of [struct segdesc]; a value is cut to its field. *)
Record segdesc : Type := SegDesc {
  lim_15_0 : Z; base_15_0 : Z; base_23_16 : Z; stype : Z; sapp : Z; sdpl : Z; sp : Z; lim_19_16 : Z;
  avl : Z; srsv1 : Z; db : Z; sg : Z; base_31_24 : Z
}.

Definition field (w x : Z) : Z := x mod 2 ^ w.

Definition SEG (type base lim dpl : Z) : segdesc :=
  SegDesc (field 16 (Z.land (Z.shiftr lim 12) 0xffff)) (field 16 (Z.land base 0xffff))
    (field 8 (Z.land (Z.shiftr base 16) 0xff)) (field 4 type) 1 (field 2 dpl) 1
    (field 4 (Z.shiftr lim 28)) 0 0 1 1 (field 8 (Z.shiftr base 24)).

Definition SEG16 (type base lim dpl : Z) : segdesc :=
  SegDesc (field 16 (Z.land lim 0xffff)) (field 16 (Z.land base 0xffff))
    (field 8 (Z.land (Z.shiftr base 16) 0xff)) (field 4 type) 1 (field 2 dpl) 1
    (field 4 (Z.shiftr lim 16)) 0 0 1 0 (field 8 (Z.shiftr base 24)).

(** [gdt[i].s = 0]. *)
Definition set_s (x : Z) (d : segdesc) : segdesc :=
  SegDesc (lim_15_0 d) (base_15_0 d) (base_23_16 d) (stype d) (field 1 x) (sdpl d) (sp d) (lim_19_16 d)
    (avl d) (srsv1 d) (db d) (sg d) (base_31_24 d).

Definition no_desc : segdesc := SegDesc 0 0 0 0 0 0 0 0 0 0 0 0 0.

Record gatedesc : Type := GateDesc {
  off_15_0 : Z; gcs : Z; gargs : Z; grsv1 : Z; gtype : Z; gs0 : Z; gdpl : Z; gp : Z; off_31_16 : Z
}.

Definition SETGATE (istrap : bool) (sel off d : Z) : gatedesc :=
  GateDesc (field 16 (Z.land off 0xffff)) (field 16 sel) 0 0
    (field 4 (if istrap then STS_TG32 else STS_IG32)) 0 (field 2 d) 1 (field 16 (Z.shiftr off 16)).

(** ** The registers of a CPU *)

(** The fields of [struct taskstate] that the kernel sets. *)
Record taskstate : Type := TaskState { ss0 : Z; esp0 : Z }.

(** The table of [struct cpu], the registers it and others are loaded into,
    and the interrupt state. *)
Record machine : Type := Machine {
  gdt : list segdesc; gdtr : Z * Z; gsreg : Z; ts : taskstate; tr : Z; cr3 : Z; ints : cpu;
  cpuvar : Z; procvar : Z
}.

Definition set_gdt (i : Z) (d : segdesc) (m : machine) : machine :=
  Machine (<[Z.to_nat i := d]> (gdt m)) (gdtr m) (gsreg m) (ts m) (tr m) (cr3 m) (ints m) (cpuvar m) (procvar m).
Definition lgdt (p size : Z) (m : machine) : machine :=
  Machine (gdt m) (u16 (size - 1), p) (gsreg m) (ts m) (tr m) (cr3 m) (ints m) (cpuvar m) (procvar m).
Definition loadgs (v : Z) (m : machine) : machine :=
  Machine (gdt m) (gdtr m) v (ts m) (tr m) (cr3 m) (ints m) (cpuvar m) (procvar m).
Definition set_ts (t : taskstate) (m : machine) : machine :=
  Machine (gdt m) (gdtr m) (gsreg m) t (tr m) (cr3 m) (ints m) (cpuvar m) (procvar m).
Definition ltr (v : Z) (m : machine) : machine :=
  Machine (gdt m) (gdtr m) (gsreg m) (ts m) v (cr3 m) (ints m) (cpuvar m) (procvar m).
Definition lcr3 (v : Z) (m : machine) : machine :=
  Machine (gdt m) (gdtr m) (gsreg m) (ts m) (tr m) v (ints m) (cpuvar m) (procvar m).
Definition set_ints (c : cpu) (m : machine) : machine :=
  Machine (gdt m) (gdtr m) (gsreg m) (ts m) (tr m) (cr3 m) c (cpuvar m) (procvar m).
Definition set_vars (c p : Z) (m : machine) : machine :=
  Machine (gdt m) (gdtr m) (gsreg m) (ts m) (tr m) (cr3 m) (ints m) c p.

Section seg.
(** The address of this CPU's [struct cpu] and of its fields [gdt], [cpu] and
    [ts]. *)
Context (c cgdt ccpu cts : Z).

Definition seginit (m : machine) : machine :=
  let m := set_gdt SEG_KCODE (SEG (Z.lor STA_X STA_R) 0 0xffffffff 0) m in
  let m := set_gdt SEG_KDATA (SEG STA_W 0 0xffffffff 0) m in
  let m := set_gdt SEG_UCODE (SEG (Z.lor STA_X STA_R) 0 0xffffffff DPL_USER) m in
  let m := set_gdt SEG_UDATA (SEG STA_W 0 0xffffffff DPL_USER) m in
  let m := set_gdt SEG_KCPU (SEG STA_W ccpu 8 0) m in
  let m := lgdt cgdt (Z.of_nat NSEGS * 8) m in
  let m := loadgs (Z.shiftl SEG_KCPU 3) m in
  set_vars c 0 m.

Definition sizeof_taskstate : Z := 104.

(** [switchuvm(p)]: [kstack] is that of the current process, [pgdir] that of
    [p]. *)
Definition switchuvm (kstack pgdir : Z) : M machine unit := fun m =>
  let m := set_ints (pushcli (ints m)) m in
  let m := set_gdt SEG_TSS (set_s 0 (SEG16 STS_T32A cts (sizeof_taskstate - 1) 0)) m in
  let m := set_ts (TaskState (u16 (Z.shiftl SEG_KDATA 3)) (u32 (kstack + KSTACKSIZE))) m in
  let m := ltr (Z.shiftl SEG_TSS 3) m in
  if pgdir =? 0 then Panic "switchuvm: no pgdir"
  else
    let m := lcr3 (v2p pgdir) m in
    match popcli (ints m) with
    | Ok _ i => Ok tt (set_ints i m)
    | Panic msg => Panic msg
    | Sleep w i => Sleep w (set_ints i m)
    end.

Definition switchkvm (kpgdir : Z) (m : machine) : machine := lcr3 (v2p kpgdir) m.

(** [kpgdir] is set to what [setupkvm] returns. *)
Definition kvmalloc (kdata : Z) : M (kmem * machine) Z := fun '(k, m) =>
  match setupkvm kdata k with
  | Ok kpgdir k => Ok kpgdir (k, switchkvm kpgdir m)
  | Panic msg => Panic msg
  | Sleep w k => Sleep w (k, m)
  end.

End seg.

(** [idt] and [tickslock]. *)
Definition tvinit (vectors : Z -> Z) : list gatedesc * spinlock :=
  let idt := (fun i => SETGATE false (Z.shiftl SEG_KCODE 3) (vectors i) 0) <$> seqZ 0 256 in
  let idt := <[Z.to_nat T_SYSCALL := SETGATE true (Z.shiftl SEG_KCODE 3) (vectors T_SYSCALL) DPL_USER]> idt in
  (idt, initlock "time").

(** What [lidt] is given: the limit and the address of the table. *)
Definition idtinit (idt : Z) : Z * Z := (u16 (256 * 8 - 1), idt).

(** ** What the processor reads *)

Definition seg_base (d : segdesc) : Z :=
  base_15_0 d + Z.shiftl (base_23_16 d) 16 + Z.shiftl (base_31_24 d) 24.
(** The last byte of the segment. *)
Definition seg_limit (d : segdesc) : Z :=
  let lim := lim_15_0 d + Z.shiftl (lim_19_16 d) 16 in
  if sg d =? 1 then Z.shiftl lim 12 + 4095 else lim.

Definition gate_offset (g : gatedesc) : Z := off_15_0 g + Z.shiftl (off_31_16 g) 16.

(** The descriptor of a selector, from the table that [lgdt] loaded. *)
Definition descriptor (m : machine) (sel : Z) : option segdesc :=
  let i := Z.shiftr sel 3 in
  if 8 * i + 7 <=? (gdtr m).1 then gdt m !! Z.to_nat i else None.

(** The kinds of descriptors: present, 32-bit code that is not conforming;
    data that grows up and may be written; an available task state; a gate for
    interrupts or traps. *)
Definition is_code (d : segdesc) : bool :=
  (sp d =? 1) && (sapp d =? 1) && (db d =? 1) && Z.testbit (stype d) 3 && negb (Z.testbit (stype d) 2).
Definition is_data (d : segdesc) : bool :=
  (sp d =? 1) && (sapp d =? 1) && (db d =? 1) && negb (Z.testbit (stype d) 3) && negb (Z.testbit (stype d) 2) &&
  Z.testbit (stype d) 1.
Definition is_tss (d : segdesc) : bool := (sp d =? 1) && (sapp d =? 0) && (stype d =? 9).
Definition is_gate (g : gatedesc) : bool := (gp g =? 1) && (gs0 g =? 0) && ((gtype g =? 14) || (gtype g =? 15)).

(** The low bits of a selector: the table, 0 for the global one, and the
    requested privilege level. *)
Definition sel_low (sel : Z) : Z := sel mod 8.

(** The instruction [int] at privilege level [cpl]. *)
Definition int_allowed (cpl : Z) (g : gatedesc) : bool := (gp g =? 1) && (cpl <=? gdpl g).

(** An interrupt gate turns interrupts off; a trap gate does not. *)
Definition turns_off (g : gatedesc) : bool := gtype g =? STS_IG32.

Lemma field_land w x : 0 <= w -> field w (Z.land x (Z.ones w)) = field w x.
Proof. intros Hw. unfold field. rewrite Z.land_ones, Z.mod_mod by lia. done. Qed.

Lemma seg_decode type base lim dpl : 0 <= base < 2 ^ 32 -> 0 <= lim < 2 ^ 32 ->
  seg_base (SEG type base lim dpl) = base /\ seg_limit (SEG type base lim dpl) = Z.shiftl (Z.shiftr lim 12) 12 + 4095 /\
  seg_base (SEG16 type base lim dpl) = base /\ (lim < 2 ^ 20 -> seg_limit (SEG16 type base lim dpl) = lim).
Proof.
  intros Hb Hl. unfold seg_base, seg_limit. cbn [SEG SEG16 base_15_0 base_23_16 base_31_24 lim_15_0 lim_19_16 sg].
  change 0xffff with (Z.ones 16). change 0xff with (Z.ones 8). rewrite !field_land by lia. unfold field.
  rewrite !Z.shiftl_mul_pow2, !Z.shiftr_div_pow2 by lia. change (1 =? 1) with true. change (0 =? 1) with false. cbn iota.
  change (2 ^ 32) with 4294967296 in *. change (2 ^ 16) with 65536. change (2 ^ 8) with 256. change (2 ^ 4) with 16.
  change (2 ^ 24) with 16777216. change (2 ^ 12) with 4096. change (2 ^ 28) with 268435456. change (2 ^ 20) with 1048576.
  split_and!; [divlia|divlia|divlia|intros; divlia].
Qed.

Lemma gate_decode istrap sel off d : 0 <= off < 2 ^ 32 -> gate_offset (SETGATE istrap sel off d) = off.
Proof.
  intros Ho. unfold gate_offset. cbn [SETGATE off_15_0 off_31_16]. change 0xffff with (Z.ones 16). rewrite field_land by lia.
  unfold field. rewrite Z.shiftl_mul_pow2, Z.shiftr_div_pow2 by lia. change (2 ^ 32) with 4294967296 in *. change (2 ^ 16) with 65536. divlia.
Qed.

Lemma tvinit_gate vectors i : 0 <= i < 256 -> (tvinit vectors).1 !! Z.to_nat i =
  Some (if decide (i = T_SYSCALL) then SETGATE true (Z.shiftl SEG_KCODE 3) (vectors i) DPL_USER
        else SETGATE false (Z.shiftl SEG_KCODE 3) (vectors i) 0).
Proof.
  intros Hi. unfold tvinit. cbn [fst]. case_decide as He.
  - subst i. rewrite list_lookup_insert_eq; [done|]. rewrite length_fmap, length_seqZ. vm_compute. lia.
  - rewrite list_lookup_insert_ne by (unfold T_SYSCALL in *; lia).
    rewrite list_lookup_fmap, lookup_seqZ_lt by lia. cbn. do 3 f_equal. lia.
Qed.

(** ** Protection *)

(** A CPU with its table of segments, and interrupts off when it is nested in
    [pushcli]. *)
Record machine_ok (m : machine) : Prop := {
  mo_gdt : length (gdt m) = NSEGS;
  mo_ncli : 0 <= ncli (ints m) < 2 ^ 31 - 1;
  mo_off : 0 < ncli (ints m) -> ifl (ints m) = false
}.

Lemma cli_pair c0 : 0 <= ncli c0 < 2 ^ 31 - 1 -> (0 < ncli c0 -> ifl c0 = false) ->
  exists c1, popcli (pushcli c0) = Ok tt c1 /\ ncli c1 = ncli c0 /\ ifl c1 = ifl c0.
Proof.
  intros Hn Hi. unfold popcli, pushcli. cbn [ifl ncli intena]. rewrite (s32_id (ncli c0 + 1)) by lia.
  rewrite (s32_id (ncli c0 + 1 - 1)) by lia. replace (ncli c0 + 1 - 1) with (ncli c0) by lia.
  destruct (Z.ltb_spec (ncli c0) 0); [lia|]. eexists. split; [done|]. cbn [ncli ifl]. split; [done|].
  destruct (Z.eqb_spec (ncli c0) 0); cbn [andb]; [by destruct (ifl c0)|]. rewrite Hi by lia. done.
Qed.

(** C38. The kernel is entered only where it means to be.  After [tvinit],
    [seginit] and [switchuvm]: every gate is a valid gate that leads to its
    vector through a selector of a segment of executable code, which is
    privileged and covers all addresses; user code may
    raise only the system call, and only that leaves interrupts on; the stack
    that the processor then switches to is the top of the process's kernel
    stack, in a privileged segment of writable data that covers all addresses,
    found through the task state whose descriptor [switchuvm] loaded; the
    user's code and data segments are code and data, with the user's privilege,
    and the page directory is that of the process. *)
Theorem kernel_entry vectors c cgdt ccpu cts kstack pgdir m : machine_ok m -> pgdir <> 0 ->
  (forall i, 0 <= i < 256 -> 0 <= vectors i < 2 ^ 32) -> 0 <= cts < 2 ^ 32 -> 0 <= kstack -> kstack + KSTACKSIZE < 2 ^ 32 ->
  exists m', switchuvm cts kstack pgdir (seginit c cgdt ccpu m) = Ok tt m' /\ machine_ok m' /\ ifl (ints m') = ifl (ints m) /\
    (forall n, 0 <= n < 256 -> exists g d, (tvinit vectors).1 !! Z.to_nat n = Some g /\ is_gate g = true /\ gate_offset g = vectors n /\
       sel_low (gcs g) = 0 /\ descriptor m' (gcs g) = Some d /\ is_code d = true /\ sdpl d = 0 /\ seg_base d = 0 /\ seg_limit d = 2 ^ 32 - 1 /\
       (int_allowed 3 g = true <-> n = T_SYSCALL) /\ (turns_off g = true <-> n <> T_SYSCALL)) /\
    (exists d t, sel_low (ss0 (ts m')) = 0 /\ descriptor m' (ss0 (ts m')) = Some d /\ is_data d = true /\ sdpl d = 0 /\ seg_base d = 0 /\ seg_limit d = 2 ^ 32 - 1 /\
       esp0 (ts m') = kstack + KSTACKSIZE /\
       descriptor m' (tr m') = Some t /\ is_tss t = true /\ seg_base t = cts /\ seg_limit t = sizeof_taskstate - 1) /\
    (exists d, descriptor m' (8 * SEG_UCODE + DPL_USER) = Some d /\ is_code d = true /\ sdpl d = DPL_USER) /\
    (exists d, descriptor m' (8 * SEG_UDATA + DPL_USER) = Some d /\ is_data d = true /\ sdpl d = DPL_USER) /\
    cr3 m' = v2p pgdir.
Proof.
  intros [Hg Hn Hi] Hp Hv Hts Hk0 Hk. destruct m as [g gr gsr t tr0 cr ci cv pv]. cbn [gdt ints] in *.
  destruct g as [|d0 [|d1 [|d2 [|d3 [|d4 [|d5 [|d6 [|]]]]]]]]; try done. clear Hg.
  destruct (cli_pair ci Hn Hi) as (c1 & Hc & Hn1 & Hi1).
  unfold switchuvm. destruct (Z.eqb_spec pgdir 0); [done|].
  cbn [seginit set_gdt lgdt loadgs set_vars set_ints set_ts ltr lcr3 ints gdt]. rewrite Hc.
  eexists. split; [reflexivity|]. destruct (seg_decode STS_T32A cts (sizeof_taskstate - 1) 0 Hts ltac:(vm_compute; split; congruence)) as (_ & _ & B1 & B2).
  split; [split; cbn [set_ints gdt ints]; [done|by rewrite Hn1|by rewrite Hn1, Hi1]|]. split; [done|]. split; [|split; [|split; [|split; [|done]]]].
  - intros n0 Hn0. eexists _, (SEG (Z.lor STA_X STA_R) 0 0xffffffff 0). split; [by apply tvinit_gate|].
    case_decide as He; (split; [reflexivity|]; split; [by apply gate_decode, Hv|]); do 6 (split; [reflexivity|]).
    + change (int_allowed 3 _) with true. change (turns_off _) with false. by split.
    + change (int_allowed 3 _) with false. change (turns_off _) with true. by split.
  - exists (SEG STA_W 0 0xffffffff 0), (set_s 0 (SEG16 STS_T32A cts (sizeof_taskstate - 1) 0)).
    do 6 (split; [reflexivity|]).
    split; [apply u32_id; unfold KSTACKSIZE in *; lia|]. split; [reflexivity|]. split; [reflexivity|].
    split; [exact B1|]. apply B2. vm_compute. reflexivity.
  - eexists. split; [reflexivity|]. split; reflexivity.
  - eexists. split; [reflexivity|]. split; reflexivity.
Qed.

(** A CPU as it comes out of entry.S. *)
Definition machine0 : machine := Machine (replicate NSEGS no_desc) (0, 0) 0 (TaskState 0 0) 0 0 (Cpu 0 false false) 0 0.

Lemma kernel_entry_witness : exists m', switchuvm 2148600000 2147491840 2147495936 (seginit 2148599900 2148599940 2148600200 machine0) = Ok tt m' /\
  cr3 m' = 12288.
Proof.
  destruct (kernel_entry (fun i => 2148532224 + 10 * i) 2148599900 2148599940 2148600200 2148600000 2147491840 2147495936 machine0)
    as (m' & E & _ & _ & _ & _ & _ & _ & Hc).
  - split; [reflexivity|cbn; lia|cbn; lia].
  - lia.
  - lia.
  - lia.
  - lia.
  - unfold KSTACKSIZE. lia.
  - exists m'. split; [exact E|exact Hc].
Defined.
