(* ===== verification/SysProps.v ===== *)
(** * What the system calls check

    The bounds of system call arguments, two places where the checks fail,
    and an example of system calls on a small file system. *)

From stdpp Require Import base numbers list gmap strings relations.
From Stdlib Require Import ZArith Lia.
From S2P Require Import Prelude Disk Bio Log Blk Kstring Printf Ring Console Pipe Kalloc Fs Icache FsProps Vm Spinlock Kernel File Proc Syscall Exec Sysfile Trap ProcSpec ProcInv.

Local Open Scope Z_scope.
Local Open Scope prog_scope.
Local Abbreviation P := (prog (fsk kernel)).

(** ** Reading arguments does not change the process *)

Definition same_procs (k k' : fsk kernel) : Prop := ptable (ext k') = ptable (ext k) /\ cur (ext k') = cur (ext k).
#[export] Instance same_procs_pre : PreOrder same_procs.
Proof. split; [done|]. intros k1 k2 k3 [H1 H2] [H3 H4]. split; congruence. Qed.

Lemma procs_mem {A} (m : M kmem A) : keeps same_procs (on_mem m).
Proof.
  intros S h s k a s' k'. unfold on_mem. cbn [run snd fst].
  destruct (m (kmm (ext k))) as [x t| |c t]; cbn [run snd fst]; [|done|done]. by intros [= -> _ <-].
Qed.
#[local] Hint Resolve procs_mem : keeps.

Lemma procs_touch va : keeps same_procs (touch va).
Proof. unfold touch, pgfault, kgets. keep. Qed.
#[local] Hint Resolve procs_touch : keeps.

Lemma procs_uread1 va : keeps same_procs (uread1 va).
Proof. unfold uread1, kgets. keep. Qed.
#[local] Hint Resolve procs_uread1 : keeps.

Lemma procs_uread n : forall va, keeps same_procs (uread va n).
Proof. induction n as [|n IH]; intros va; cbn [uread]; keep. Qed.
#[local] Hint Resolve procs_uread : keeps.

Lemma procs_fetchint a : keeps same_procs (fetchint a).
Proof. unfold fetchint, uread4, mysz, kgets. keep. Qed.
#[local] Hint Resolve procs_fetchint : keeps.

Lemma procs_argint n : keeps same_procs (argint n).
Proof. unfold argint, kgets. keep. Qed.

Lemma same_procs_sz k k' : same_procs k k' -> sz (myproc (ext k')) = sz (myproc (ext k)).
Proof. intros [H1 H2]. unfold myproc. by rewrite H1, H2. Qed.

(** ** Bounds *)

Section bounds.
Context {S : Type} (h : forall o, M S (op_ret o)).

Lemma fetchint_bound s k addr w s' k' : 0 <= addr < 2 ^ 32 -> 0 <= sz (myproc (ext k)) <= KERNBASE ->
  run h (fetchint addr) (s, k) = Ok (Some w) (s', k') -> addr + 4 <= sz (myproc (ext k)).
Proof.
  intros Ha Hs. unfold fetchint. cbn [mysz kgets pbind run snd].
  set (z := sz (myproc (ext k))) in *.
  destruct (Z.leb_spec z addr); cbn [orb]; [done|]. destruct (Z.ltb_spec z (u32 (addr + 4))); [done|]. intros _.
  rewrite u32_id in * by (unfold KERNBASE in *; lia). lia.
Qed.

Lemma fetchstr_loop_bound n : forall a s k str s' k',
  run h (fetchstr_loop n a) (s, k) = Ok (Some str) (s', k') -> (length str < n)%nat /\ Forall (fun c => c <> 0) str.
Proof.
  induction n as [|n IH]; intros a s k str s' k'; cbn [fetchstr_loop]; [done|]. rewrite run_pbind.
  destruct (run h (uread1 a) (s, k)) as [c [s1 k1]| |]; [|done..]. destruct (Z.eqb_spec c 0) as [->|Hc].
  - intros [= <- _ _]. split; [simpl; lia|constructor].
  - rewrite run_pbind. destruct (run h (fetchstr_loop n (a + 1)) (s1, k1)) as [[r|] [s2 k2]| |] eqn:E; [|done..].
    intros [= <- _ _]. apply IH in E as [H1 H2]. split; [simpl; lia|by constructor].
Qed.
End bounds.

(** C36. The arguments a system call accepts lie in the memory of the
    process that makes it: a word, a buffer of non-negative size and a string
    with its NUL end at or before the process's size, and a string has no NUL
    inside. *)
Theorem arg_bounds S (h : forall o, M S (op_ret o)) s k : 0 <= sz (myproc (ext k)) <= KERNBASE ->
  let limit := sz (myproc (ext k)) in
  (forall addr w s' k', 0 <= addr < 2 ^ 32 -> run h (fetchint addr) (s, k) = Ok (Some w) (s', k') -> addr + 4 <= limit) /\
  (forall n size a s' k', 0 <= size < 2 ^ 31 -> run h (argptr n size) (s, k) = Ok (Some a) (s', k') ->
     0 <= a /\ a + size <= limit) /\
  (forall addr str s' k', 0 <= addr < 2 ^ 32 -> run h (fetchstr addr) (s, k) = Ok (Some str) (s', k') ->
     addr + Z.of_nat (length str) < limit /\ Forall (fun c => c <> 0) str).
Proof.
  intros Hs limit. split_and!.
  - intros addr w s' k' Ha E. by eapply fetchint_bound.
  - intros n size a s' k' Hn. unfold argptr. rewrite run_pbind.
    destruct (run h (argint n) (s, k)) as [[i|] [s1 k1]| |] eqn:E; [|done..].
    apply procs_argint, same_procs_sz in E. cbn [mysz kgets pbind run snd]. rewrite E. fold limit.
    pose proof (u32_range i) as Hi.
    destruct (Z.leb_spec limit (u32 i)); cbn [orb]; [done|].
    destruct (Z.ltb_spec limit (u32 (u32 i + size))); [done|]. intros [= <- _ _].
    rewrite (u32_id (u32 i + size)) in * by (subst limit; unfold KERNBASE in *; lia). lia.
  - intros addr str s' k' Ha. unfold fetchstr. cbn [mysz kgets pbind run snd]. fold limit.
    destruct (Z.leb_spec limit addr); [done|]. intros [H1 H2]%fetchstr_loop_bound. split; [lia|done].
Qed.

(** ** An example process

    Its page directory, page table, three pages at the addresses 0, 4096 and
    8192, and a kernel stack with the trap frame; two free pages. *)

Module Demo.

Definition page (n : Z) : Z := demo_end + 4096 * n.
Definition pg : Z := page 0.
Definition tframe : Z := page 5.

(** The first [n] user pages are mapped. *)
Definition m0 (n : Z) : mem :=
  let m := store4 (fun _ => 0) pg (v2p (page 1) + 7) in
  let m := store4 m (page 6) (page 7) in
  let m := store4 m (page 1) (v2p (page 2) + 7) in
  if n =? 1 then m
  else store4 (store4 m (page 1 + 4) (v2p (page 3) + 7)) (page 1 + 8) (v2p (page 4) + 7).

(** A system call [eax] with three arguments, on the user stack at 100. *)
Definition args (eax a0 a1 a2 : Z) (m : mem) : mem :=
  store4 (store4 (store4 (store4 (store4 m (tframe + tf_eax) eax) (tframe + tf_esp) 100)
    (page 2 + 104) a0) (page 2 + 108) a1) (page 2 + 112) a2.

(** The path "/a" at 200, "/" at 210 and the bytes "hello" at 300. *)
Definition m1 (n : Z) : mem :=
  store_bytes (store_bytes (store_bytes (m0 n) (page 2 + 200) [47; 97; 0]) (page 2 + 210) [47; 0])
    (page 2 + 300) [104; 101; 108; 108; 111].

Definition process (n : Z) : proc :=
  Proc (4096 * n) pg tframe RUNNING 1 None tframe 0 None false (replicate NOFILE None) (Some 0%nat) (replicate 16 0) 0 0 0.
Definition kern (n : Z) (m : mem) : kernel :=
  Kernel (replicate NFILE file0) ∅ (process n :: replicate 63 proc0) (initlock "ptable") 2 (Some 0%nat)
    0 (Cpu 0 false true) (Some 0%nat) (Kmem m (page 6) true) 0 console0 0 true ∅ [].

(** The root directory is inode 1 of the small file system. *)
Definition k0 (n : Z) : fsk kernel := FsK (Inode 1 1 1 2 (Small.dino1 T_DIR) :: replicate 49 inode0) (kern n (m1 n)).
Definition disk : bstate :=
  BState (<[(1, 2) := enc_dinode 64 (Small.dino1 T_DIR) (replicate 512 0)]> (img Small.b0)) ∅ ∅ false.

(** Make a system call and return its result. *)
Definition call (eax a0 a1 a2 : Z) : P Z :=
  on_mem (setmem (args eax a0 a1 a2)) >>>
  let! _ := syscall demo_end demo_end [] 0 0 in
  let! r := on_mem (ld (tframe + tf_eax)) in Ret (s32 r).

(** [open(p, O_CREATE|O_RDWR)], [write], [close], [open], [read], [dup],
    [unlink], [open] and [mkdir]. *)
Definition session : P (list Z) :=
  let! a := call 15 200 514 0 in
  let! b := call 16 a 300 5 in
  let! c := call 21 a 0 0 in
  let! d := call 15 200 0 0 in
  let! e := call 5 d 400 100 in
  let! bs := uread 400 5 in
  let! f := call 10 d 0 0 in
  let! g := call 18 200 0 0 in
  let! i := call 15 200 0 0 in
  let! j := call 20 200 0 0 in
  Ret ([a; b; c; d; e] ++ bs ++ [f; g; i; j]).

Example session_runs : exists b k, run (block_op Small.L) session (disk, k0 3) =
  Ok [0; 5; 0; 0; 5; 104; 101; 108; 108; 111; 1; 0; -1; 0] (b, k) /\ active b = false /\ Blk.locked b = ∅.
Proof.
  assert (Hc : match run (block_op Small.L) session (disk, k0 3) with
    | Ok l (b, _) => bool_decide (l = [0; 5; 0; 0; 5; 104; 101; 108; 108; 111; 1; 0; -1; 0]) && negb (active b) &&
        bool_decide (Blk.locked b = ∅)
    | _ => false end = true) by (vm_compute; reflexivity).
  destruct (run (block_op Small.L) session (disk, k0 3)) as [l [b k]| |]; [|discriminate Hc..].
  apply andb_true_iff in Hc as [[H1%bool_decide_eq_true H2%negb_true_iff]%andb_true_iff H3%bool_decide_eq_true].
  exists b, k. subst l. done.
Qed.

End Demo.

Lemma arg_bounds_witness : let k := Demo.k0 3 in
  exists k', run (block_op Small.L) (fetchstr 200) (Demo.disk, k) = Ok (Some [47; 97]) (Demo.disk, k') /\
    200 + Z.of_nat (length [47; 97]) < sz (myproc (ext k)).
Proof.
  intros k. destruct (arg_bounds bstate (block_op Small.L) Demo.disk k) as (_ & _ & H).
  { vm_compute. split; discriminate. }
  eexists. split; [vm_compute; reflexivity|]. eapply (H 200 [47; 97]); [lia|vm_compute; reflexivity].
Defined.

(** C37. [sbrk] adds its argument to the size twice.  A process of three
    pages that gives two back is left with a size just below 2^32, and the
    kernel then accepts a buffer at any kernel address. *)
Theorem sbrk_escapes :
  let start := FsK [] (Demo.kern 3 (Demo.args 12 (2 ^ 32 - 8192) KERNBASE 0 (Demo.m1 3))) in
  exists k' k'', run no_disk (sys_sbrk demo_end) (tt, start) = Ok (inl 12288) (tt, k') /\
    sz (myproc (ext k')) = 2 ^ 32 - 4096 /\
    run no_disk (argptr 1 4096) (tt, k') = Ok (Some KERNBASE) (tt, k'').
Proof.
  intros start.
  assert (Hc : match run no_disk (sys_sbrk demo_end) (tt, start) with
    | Ok (inl r) (_, k') => (r =? 12288) && (sz (myproc (ext k')) =? 2 ^ 32 - 4096) &&
        match run no_disk (argptr 1 4096) (tt, k') with Ok (Some a) _ => a =? KERNBASE | _ => false end
    | _ => false end = true) by (vm_compute; reflexivity).
  destruct (run no_disk (sys_sbrk demo_end) (tt, start)) as [[r|] [[] k']| |]; [|discriminate Hc..]. clear start.
  apply andb_true_iff in Hc as [[->%Z.eqb_eq H1%Z.eqb_eq]%andb_true_iff Hc].
  destruct (run no_disk (argptr 1 4096) (tt, k')) as [[a|] [[] k'']| |] eqn:E; [|discriminate Hc..].
  apply Z.eqb_eq in Hc as ->. by exists k', k''.
Qed.

(** A negative count passes the check of a buffer: [read] of a
    directory of 16 bytes with the count -4095 into the last byte of a process
    of one page returns 16, and has written 15 bytes beyond the process's end,
    on a page it did not have. *)
Theorem read_overruns : exists b k',
  run (block_op Small.L) (let! fd := Demo.call 15 210 0 0 in let! r := Demo.call 5 fd 4095 (-4095) in Ret (fd, r))
    (Demo.disk, Demo.k0 1) = Ok (0, 16) (b, k') /\
  sz (myproc (ext k')) = 4096 /\
  mapped (km (kmm (ext (Demo.k0 1)))) Demo.pg 4096 = false /\ mapped (km (kmm (ext k'))) Demo.pg 4096 = true /\
  ubyte (km (kmm (ext k'))) Demo.pg 4097 = 46.
Proof.
  set (p := pbind _ _).
  assert (Hc : match run (block_op Small.L) p (Demo.disk, Demo.k0 1) with
    | Ok (fd, r) (_, k') => (fd =? 0) && (r =? 16) && (sz (myproc (ext k')) =? 4096) &&
        mapped (km (kmm (ext k'))) Demo.pg 4096 && (ubyte (km (kmm (ext k'))) Demo.pg 4097 =? 46)
    | _ => false end = true) by (vm_compute; reflexivity).
  destruct (run (block_op Small.L) p (Demo.disk, Demo.k0 1)) as [[fd r] [b k']| |]; [|discriminate Hc..].
  exists b, k'. repeat (apply andb_true_iff in Hc as [Hc ?]).
  repeat match goal with H : (_ =? _) = true |- _ => apply Z.eqb_eq in H end. subst. split_and!; try assumption; vm_compute; reflexivity.
Qed.
