(* ===== verification/Umalloc.v ===== *)
(** * The user library's allocator (umalloc.c)

    [malloc] and [free] on a circular list of free blocks, kept in the headers
    of the blocks in the order of their addresses.  Memory is words at byte
    addresses: the header of a block at [a] has its [ptr] at [a] and its
    [size], in units of eight bytes, at [a + 4].  The theorem is about any
    sequence of calls: blocks handed out never overlap, nothing the allocator
    does touches them, and the loops end. *)

From stdpp Require Import base numbers list strings relations.
From Stdlib Require Import ZArith Lia Sorting.Sorted.
From S2P Require Import Prelude.

Local Open Scope Z_scope.

(** [p->s.ptr] and [p->s.size]. *)
Definition sptr (m : wmem) (p : Z) : Z := m p.
Definition ssize (m : wmem) (p : Z) : Z := m (p + 4).
Definition sizeof_Header : Z := 8.

(** Memory, [freep] and the break of the process. *)
Record heap : Type := Heap { wm : wmem; freep : Z; brk : Z }.

Section umalloc.
(** The address of [base], and what [sbrk] makes of a break and a number of
    bytes: the new break, or nothing. *)
Context (base : Z) (sbrk : Z -> Z -> option Z).

(** The search of [free] for the block before [bp]. *)
Fixpoint free_find (fuel : nat) (m : wmem) (bp p : Z) : option Z :=
  match fuel with
  | O => None
  | S f =>
      if (p <? bp) && (bp <? sptr m p) then Some p
      else if (sptr m p <=? p) && ((p <? bp) || (bp <? sptr m p)) then Some p
      else free_find f m bp (sptr m p)
  end.

(** Joining the block [bp] with the free block above it, which follows [p]. *)
Definition join_upper (m : wmem) (bp p : Z) : wmem :=
  if u32 (bp + sizeof_Header * ssize m bp) =? sptr m p then
    let m := wput m (bp + 4) (u32 (ssize m bp + ssize m (sptr m p))) in
    wput m bp (sptr m (sptr m p))
  else wput m bp (sptr m p).

(** Joining it with the free block [p] below it. *)
Definition join_lower (m : wmem) (bp p : Z) : wmem :=
  if u32 (p + sizeof_Header * ssize m p) =? bp then
    let m := wput m (p + 4) (u32 (ssize m p + ssize m bp)) in
    wput m p (sptr m bp)
  else wput m p bp.

Definition free (fuel : nat) (ap : Z) (h : heap) : option heap :=
  let bp := ap - sizeof_Header in
  p ← free_find fuel (wm h) bp (freep h);
  Some (Heap (join_lower (join_upper (wm h) bp p) bp p) p (brk h)).

(** The result is [freep], or 0. *)
Definition morecore (fuel : nat) (nu : Z) (h : heap) : option (Z * heap) :=
  let nu := if nu <? 4096 then 4096 else nu in
  match sbrk (brk h) (u32 (nu * sizeof_Header)) with
  | None => Some (0, h)
  | Some brk' =>
      let hp := brk h in
      h' ← free fuel (hp + sizeof_Header) (Heap (wput (wm h) (hp + 4) nu) (freep h) brk');
      Some (freep h', h')
  end.

(** The loop of [malloc]; [n] bounds its iterations. *)
Fixpoint malloc_loop (n fuel : nat) (nunits prevp p : Z) (h : heap) : option (Z * heap) :=
  match n with
  | O => None
  | S n =>
      let m := wm h in
      if nunits <=? ssize m p then
        if ssize m p =? nunits then Some (p + sizeof_Header, Heap (wput m prevp (sptr m p)) prevp (brk h))
        else
          let left := ssize m p - nunits in
          let m := wput m (p + 4) left in
          let p := u32 (p + sizeof_Header * left) in
          Some (p + sizeof_Header, Heap (wput m (p + 4) nunits) prevp (brk h))
      else if p =? freep h then
        r ← morecore fuel nunits h;
        let '(p, h) := r in
        if p =? 0 then Some (0, h)
        else malloc_loop n fuel nunits p (sptr (wm h) p) h
      else malloc_loop n fuel nunits p (sptr m p) h
  end.

Definition malloc (n fuel : nat) (nbytes : Z) (h : heap) : option (Z * heap) :=
  let nunits := u32 (nbytes + sizeof_Header - 1) / sizeof_Header + 1 in
  let h := if freep h =? 0 then Heap (wput (wput (wm h) base base) (base + 4) 0) base (brk h) else h in
  malloc_loop n fuel nunits (freep h) (sptr (wm h) (freep h)) h.

(** ** The invariant *)

(** A block of the heap: address, units, and whether it is free. *)
Record block : Type := Block { baddr : Z; bunits : Z; bfree : bool }.
Definition bend (b : block) : Z := baddr b + 8 * bunits b.

(** Blocks in the order of their addresses, within [lo] and [hi]. *)
Fixpoint ordered (lo hi : Z) (bs : list block) : Prop :=
  match bs with
  | [] => lo <= hi
  | b :: bs => lo <= baddr b /\ 0 < bunits b /\ ordered (bend b) hi bs
  end.

Definition frees (bs : list block) : list Z := baddr <$> (filter (fun b => bfree b = true) bs).
Definition live (bs : list block) : list block := filter (fun b => bfree b = false) bs.

(** Each element points to the next, the last to [e]. *)
Fixpoint chain (m : wmem) (l : list Z) (e : Z) : Prop :=
  match l with
  | [] => True
  | x :: l => sptr m x = hd e l /\ chain m l e
  end.

Record inv (h : heap) (bs : list block) : Prop := Inv {
  inv_base : 0 < base;
  inv_ordered : ordered (base + 8) (brk h) bs;
  inv_brk : brk h < 2 ^ 32;
  inv_sizes : forall b, b ∈ bs -> ssize (wm h) (baddr b) = bunits b;
  inv_base_size : ssize (wm h) base = 0;
  inv_chain : chain (wm h) (base :: frees bs) base;
  inv_freep : freep h ∈ base :: frees bs
}.

(** ** Blocks in order *)

(** Membership in appended lists. *)
Ltac mem :=
  repeat match goal with
  | |- context [_ ∈ _ ++ _] => rewrite elem_of_app
  | |- context [_ ∈ _ :: _] => rewrite elem_of_cons
  end; rewrite ?elem_of_nil; tauto.

Lemma ordered_app lo hi bs1 b bs2 :
  ordered lo hi (bs1 ++ b :: bs2) <->
  ordered lo (baddr b) bs1 /\ 0 < bunits b /\ ordered (bend b) hi bs2.
Proof. revert lo. induction bs1 as [|c bs1 IH]; intros lo; simpl; [done|]. rewrite IH. tauto. Qed.

Lemma ordered_in lo hi bs b : ordered lo hi bs -> b ∈ bs ->
  lo <= baddr b /\ 0 < bunits b /\ bend b <= hi.
Proof.
  revert lo. induction bs as [|c bs IH]; intros lo Ho Hb; [by apply not_elem_of_nil in Hb|].
  destruct Ho as (H1 & H2 & H3).
  assert (Hle : bend c <= hi).
  { clear -H3. revert H3. generalize (bend c). induction bs as [|d bs IH]; simpl; [done|].
    intros lo (? & ? & ?%IH). unfold bend in *. lia. }
  apply elem_of_cons in Hb as [->|Hb]; [done|].
  destruct (IH _ H3 Hb) as (? & ? & ?). unfold bend in *. lia.
Qed.

Lemma ordered_le lo hi bs : ordered lo hi bs -> lo <= hi.
Proof.
  destruct bs as [|b bs]; [done|]. intros Ho.
  destruct (ordered_in _ _ _ b Ho) as (? & ? & ?); [by left|]. unfold bend in *. lia.
Qed.

Lemma ordered_weaken lo lo' hi bs : ordered lo hi bs -> lo' <= lo -> ordered lo' hi bs.
Proof. destruct bs; simpl; [lia|]. intros (? & ? & ?) ?. repeat split; [lia|done..]. Qed.

Lemma elem_of_frees x bs : x ∈ frees bs <-> exists b, b ∈ bs /\ bfree b = true /\ baddr b = x.
Proof.
  unfold frees. rewrite list_elem_of_fmap. setoid_rewrite list_elem_of_filter. naive_solver.
Qed.

Lemma frees_app bs1 bs2 : frees (bs1 ++ bs2) = frees bs1 ++ frees bs2.
Proof. unfold frees. by rewrite filter_app, fmap_app. Qed.

Lemma live_app bs1 bs2 : live (bs1 ++ bs2) = live bs1 ++ live bs2.
Proof. apply filter_app. Qed.

(** Headers do not overlap. *)
Definition apart (x y : Z) : Prop := x + 8 <= y.

Lemma frees_apart lo hi bs : ordered lo hi bs ->
  StronglySorted apart (frees bs) /\ Forall (Z.le lo) (frees bs) /\ Forall (fun x => x + 8 <= hi) (frees bs).
Proof.
  revert lo. induction bs as [|b bs IH]; intros lo; [repeat constructor|].
  intros (H1 & H2 & H3). destruct (IH _ H3) as (Hs & Hl & Hh).
  assert (Hw : Forall (apart (baddr b)) (frees bs)).
  { eapply Forall_impl; [exact Hl|]. intros x. simpl. unfold apart, bend. lia. }
  pose proof (ordered_le _ _ _ H3). unfold bend in *.
  destruct b as [a n []]; cbn in *; (split; [|split]); try constructor; try done; simpl; try lia.
  all: eapply Forall_impl; [exact Hl|]; intros x; simpl; lia.
Qed.

Lemma base_apart h bs : inv h bs -> StronglySorted apart (base :: frees bs).
Proof.
  intros Hi. destruct (frees_apart _ _ _ (inv_ordered _ _ Hi)) as (Hs & Hl & _).
  by constructor.
Qed.

(** ** Chains *)

Lemma chain_app m l1 l2 e : chain m (l1 ++ l2) e <-> chain m l1 (hd e l2) /\ chain m l2 e.
Proof.
  induction l1 as [|x l1 IH]; simpl; [tauto|]. rewrite IH.
  destruct l1; simpl; tauto.
Qed.

Lemma chain_put m x v l e : x ∉ l -> chain m l e -> chain (wput m x v) l e.
Proof.
  induction l as [|y l IH]; simpl; [done|]. intros Hx (Hy & Hc).
  apply not_elem_of_cons in Hx as [Hx Hl]. split; [|by apply IH].
  unfold sptr, wput in *. destruct (Z.eqb_spec y x); congruence.
Qed.

Lemma chain_up m l e x : StronglySorted apart (l ++ [e]) -> chain m l e -> x ∈ l ->
  x < sptr m x <= e.
Proof.
  induction l as [|y l IH]; simpl; intros Hs Hc Hx; [by apply not_elem_of_nil in Hx|].
  apply StronglySorted_inv in Hs as [Hs Hy]. destruct Hc as [Hm Hc].
  apply elem_of_cons in Hx as [->|Hx]; [|by apply IH].
  rewrite Forall_forall in Hy. rewrite Hm. unfold apart in Hy.
  destruct l as [|z l]; simpl in *.
  - specialize (Hy e ltac:(by left)). lia.
  - pose proof (Hy z ltac:(by left)). apply StronglySorted_inv in Hs as [_ Hz].
    rewrite Forall_forall in Hz. specialize (Hz e). unfold apart in Hz.
    rewrite list_elem_of_In, in_app_iff in Hz. simpl in Hz. lia.
Qed.

Lemma chain_next m l e x : StronglySorted apart l -> chain m l e -> x ∈ l ->
  sptr m x = e \/ (x < sptr m x /\ sptr m x ∈ l).
Proof.
  induction l as [|y l IH]; simpl; intros Hs Hc Hx; [by apply not_elem_of_nil in Hx|].
  apply StronglySorted_inv in Hs as [Hs Hy]. destruct Hc as [Hm Hc].
  apply elem_of_cons in Hx as [->|Hx].
  - rewrite Hm. destruct l as [|z l]; [by left|]. right. simpl.
    rewrite Forall_forall in Hy. specialize (Hy z ltac:(by left)). unfold apart in Hy.
    split; [lia|]. right. left.
  - destruct (IH Hs Hc Hx) as [|[]]; [by left|]. right. split; [done|]. by right.
Qed.

(** [l] is what following the pointers from [x] visits. *)
Fixpoint path (m : wmem) (x : Z) (l : list Z) : Prop :=
  match l with
  | [] => True
  | y :: l => sptr m x = y /\ path m y l
  end.

Lemma chain_path m x l e : chain m (x :: l) e -> path m x (l ++ [e]).
Proof.
  revert x. induction l as [|y l IH]; intros x [Hx Hc]; simpl in *; [done|].
  split; [done|]. by apply IH.
Qed.

Lemma path_app m x l1 y l2 : path m x (l1 ++ [y]) -> path m y l2 -> path m x (l1 ++ y :: l2).
Proof.
  revert x. induction l1 as [|z l1 IH]; intros x; simpl; [tauto|].
  intros [? ?] ?. split; [done|]. by apply IH.
Qed.

(** Once around the circle from [s]. *)
Lemma circle m e l l1 s l2 : chain m (e :: l) e -> e :: l = l1 ++ s :: l2 ->
  path m s (l2 ++ l1 ++ [s]).
Proof.
  intros Hc E. rewrite E in Hc. apply chain_app in Hc as [H1 H2]. simpl in H1.
  destruct l1 as [|z l1]; simpl in *.
  - injection E as -> ->. by apply chain_path.
  - injection E as -> ->. apply path_app; [by apply chain_path|]. by apply chain_path.
Qed.

(** ** [free] *)

Definition stops (m : wmem) (bp p : Z) : bool :=
  ((p <? bp) && (bp <? sptr m p)) || ((sptr m p <=? p) && ((p <? bp) || (bp <? sptr m p))).

Lemma free_find_path fuel m bp p s l : path m s l -> p ∈ s :: l -> stops m bp p = true ->
  (forall x, x ∈ s :: l -> x <> p -> stops m bp x = false) -> (length l < fuel)%nat ->
  free_find fuel m bp s = Some p.
Proof.
  unfold stops. revert s fuel.
  induction l as [|y l IH]; intros s [|fuel] Hp Hin Hstop Hno Hf; cbn [length] in Hf; try lia;
    cbn [free_find].
  all: destruct (decide (s = p)) as [->|Hne];
    [by destruct (_ && _); [|cbn in Hstop; rewrite Hstop]|].
  - apply list_elem_of_singleton in Hin. congruence.
  - destruct Hp as [<- Hp]. pose proof (Hno s ltac:(by left) Hne) as [H1 H2]%orb_false_iff.
    rewrite H1, H2. apply IH; [done| |done| |lia].
    + apply elem_of_cons in Hin as [?|?]; congruence.
    + intros x Hx. apply Hno. by right.
Qed.

(** The search stops at the free block before [a] and nowhere else. *)
Lemma stops_before m e l1 p l2 a : StronglySorted apart (l1 ++ p :: l2) -> hd p l1 = e ->
  chain m (l1 ++ p :: l2) e -> p < a -> Forall (Z.lt a) l2 ->
  stops m a p = true /\ (forall x, x ∈ l1 ++ p :: l2 -> x <> p -> stops m a x = false).
Proof.
  intros Hs He Hc Hp Hl2. rewrite Forall_forall in Hl2.
  apply chain_app in Hc as [Hc1 [Hcp Hc2]]. simpl in Hc1.
  assert (Hle : e <= p).
  { destruct l1 as [|z l1]; simpl in *; subst; [lia|].
    apply StronglySorted_inv in Hs as [_ Hz]. rewrite Forall_forall in Hz.
    specialize (Hz p). rewrite list_elem_of_In, in_app_iff in Hz. unfold apart in Hz. simpl in Hz. lia. }
  assert (Hs1 : StronglySorted apart (l1 ++ [p]) /\ StronglySorted apart l2).
  { clear -Hs. induction l1 as [|z l1 IH]; simpl in *; apply StronglySorted_inv in Hs as [Hs Hz].
    - split; [by repeat constructor|done].
    - destruct (IH Hs) as [? ?]. split; [|done]. constructor; [done|].
      rewrite Forall_forall in Hz |- *. intros y Hy. apply Hz. revert Hy. mem. }
  destruct Hs1 as [Hs1 Hs2]. unfold stops. split.
  - rewrite Hcp. destruct l2 as [|y l2]; simpl.
    + lia.
    + specialize (Hl2 y ltac:(by left)). lia.
  - intros x [Hx|[->|Hx]%elem_of_cons]%elem_of_app Hne; [|done|].
    + pose proof (chain_up _ _ _ _ Hs1 Hc1 Hx). lia.
    + pose proof (Hl2 _ Hx). destruct (chain_next _ _ _ _ Hs2 Hc2 Hx) as [->|[? ?]]; lia.
Qed.

Lemma cons_snoc {A} (x : A) l : exists l' y, x :: l = l' ++ [y].
Proof. destruct (exists_last (l := x :: l)) as (l' & y & ->); [done|eauto]. Qed.

Lemma free_find_ok fuel h bs1 a n bs2 l1 p : inv h (bs1 ++ Block a n false :: bs2) ->
  base :: frees bs1 = l1 ++ [p] -> (length (frees (bs1 ++ bs2)) < fuel)%nat ->
  p < a /\ free_find (S fuel) (wm h) a (freep h) = Some p.
Proof.
  intros Hi E Hf. pose proof (inv_ordered _ _ Hi) as Ho. apply ordered_app in Ho as (Ho1 & Hn & Ho2).
  pose proof (base_apart _ _ Hi) as Hs. pose proof (inv_chain _ _ Hi) as Hc. pose proof (inv_freep _ _ Hi) as Hp.
  assert (Ef : base :: frees (bs1 ++ Block a n false :: bs2) = l1 ++ p :: frees bs2).
  { rewrite frees_app, app_comm_cons, E, <- app_assoc. done. }
  rewrite Ef in Hs, Hp. simpl in Ho1.
  assert (Hpa : p < a).
  { assert (Hpin : p ∈ base :: frees bs1) by (rewrite E; mem).
    pose proof (ordered_le _ _ _ Ho1). apply elem_of_cons in Hpin as [->|Hpin]; [lia|].
    destruct (frees_apart _ _ _ Ho1) as (_ & _ & Hb). rewrite Forall_forall in Hb. specialize (Hb _ Hpin). lia. }
  split; [done|].
  assert (Hhd : hd p l1 = base) by (destruct l1; simpl in *; congruence).
  assert (Hl2 : Forall (Z.lt a) (frees bs2)).
  { destruct (frees_apart _ _ _ Ho2) as (_ & Hb & _). eapply Forall_impl; [exact Hb|].
    intros x. unfold bend. simpl. simpl in Hn. lia. }
  destruct (stops_before (wm h) base l1 p (frees bs2) a) as [Hst Hno]; try done.
  { by rewrite <- Ef. }
  apply list_elem_of_split in Hp as (k1 & k2 & Ek).
  assert (Hlen : length (k2 ++ k1 ++ [freep h]) = S (length (frees (bs1 ++ bs2)))).
  { pose proof (f_equal length Ek) as L1. pose proof (f_equal length E) as L2. rewrite frees_app.
    rewrite !length_app in *. simpl in *. rewrite ?length_app in *. simpl in *. lia. }
  assert (Hpk : p ∈ k1 ++ freep h :: k2) by (rewrite <- Ek; mem). rewrite elem_of_app, elem_of_cons in Hpk.
  apply (free_find_path _ _ _ _ _ (k2 ++ k1 ++ [freep h])); [|mem|done| |lia].
  - eapply circle; [exact Hc|]. by rewrite Ef.
  - intros x Hx. apply Hno. rewrite Ek. revert Hx. mem.
Qed.

(** The state of [free] between its two halves: [a] points to the block after
    it, and [p] does not point to [a] yet. *)
Record mid (m : wmem) (hi : Z) (l1 : list Z) (p : Z) (bs1 : list block) (a n : Z) (bs2 : list block) : Prop := Mid {
  mid_ordered : ordered (base + 8) hi (bs1 ++ Block a n false :: bs2);
  mid_sizes : forall b, b ∈ bs1 ++ Block a n false :: bs2 -> ssize m (baddr b) = bunits b;
  mid_base_size : ssize m base = 0;
  mid_lower : chain m l1 p;
  mid_upper : chain m (frees bs2) base;
  mid_ptr : sptr m a = hd base (frees bs2)
}.

(** Where the headers are, around a block at [a]. *)
Lemma free_places hi bs1 a n bs2 l1 p : ordered (base + 8) hi (bs1 ++ Block a n false :: bs2) ->
  base :: frees bs1 = l1 ++ [p] ->
  base <= p /\ p + 8 <= a /\ 0 < n /\ a + 8 * n <= hi /\ (forall x, x ∈ l1 -> x + 8 <= p) /\
  (forall b, b ∈ bs1 -> base + 8 <= baddr b /\ baddr b + 8 <= bend b <= a) /\
  (forall b, b ∈ bs2 -> a + 8 * n <= baddr b /\ baddr b + 8 <= bend b <= hi) /\
  (forall x, x ∈ frees bs2 -> a + 8 * n <= x).
Proof.
  intros (Ho1 & Hn & Ho2)%ordered_app E. simpl in Hn, Ho1. unfold bend in Ho2. simpl in Ho2.
  destruct (frees_apart _ _ _ Ho1) as (Hs & Hl & Hh). pose proof (ordered_le _ _ _ Ho1).
  pose proof (ordered_le _ _ _ Ho2).
  assert (Hp : base <= p /\ p + 8 <= a).
  { assert (Hpin : p ∈ base :: frees bs1) by (rewrite E; mem).
    rewrite Forall_forall in Hl, Hh. apply elem_of_cons in Hpin as [->|Hpin]; [lia|].
    specialize (Hl _ Hpin). specialize (Hh _ Hpin). simpl in *. lia. }
  assert (Hb1 : forall b, b ∈ bs1 -> base + 8 <= baddr b /\ baddr b + 8 <= bend b <= a).
  { intros b Hb. destruct (ordered_in _ _ _ _ Ho1 Hb) as (? & ? & ?). unfold bend in *. lia. }
  assert (Hb2 : forall b, b ∈ bs2 -> a + 8 * n <= baddr b /\ baddr b + 8 <= bend b <= hi).
  { intros b Hb. destruct (ordered_in _ _ _ _ Ho2 Hb) as (? & ? & ?). unfold bend in *. lia. }
  do 2 (split; [lia|]). do 2 (split; [done|]). split; [|do 2 (split; [done|])].
  - assert (Hs' : StronglySorted apart (l1 ++ [p])).
    { rewrite <- E. constructor; [done|]. eapply Forall_impl; [exact Hl|]. intros x. unfold apart. simpl. lia. }
    clear -Hs'. induction l1 as [|y l1 IH]; intros x Hx; [by apply not_elem_of_nil in Hx|].
    simpl in Hs'. apply StronglySorted_inv in Hs' as [Hs Hy]. rewrite Forall_forall in Hy.
    apply elem_of_cons in Hx as [->|Hx]; [|by apply IH].
    specialize (Hy p). unfold apart in Hy. apply Hy. mem.
  - intros x (b & Hb & _ & <-)%elem_of_frees. by apply Hb2.
Qed.

(** A free block that starts where the ordered blocks may start is the first. *)
Lemma frees_first lo hi bs l : ordered lo hi bs -> frees bs = lo :: l ->
  exists n bs', bs = Block lo n true :: bs' /\ frees bs' = l.
Proof.
  destruct bs as [|[a n []] bs]; intros Ho E; simpl in *; [done| |].
  - injection E as -> <-. eauto.
  - exfalso. destruct Ho as (H1 & H2 & H3). destruct (frees_apart _ _ _ H3) as (_ & Hl & _).
    rewrite Forall_forall in Hl. change (frees bs = lo :: l) in E.
    specialize (Hl lo). rewrite E in Hl. unfold bend in Hl. simpl in *. specialize (Hl ltac:(by left)). lia.
Qed.

(** The last free block is the last block if it ends where the ordered blocks
    may end. *)
Lemma frees_last lo hi bs x l p n : ordered lo hi bs -> x :: frees bs = l ++ [p] -> l <> [] ->
  (forall b, b ∈ bs -> baddr b = p -> bunits b = n) -> p + 8 * n = hi ->
  exists bs', bs = bs' ++ [Block p n true] /\ x :: frees bs' = l.
Proof.
  intros Ho E Hl Hn Hp. destruct l as [|y l]; [done|]. injection E as <- E.
  destruct bs as [|b bs] using rev_ind; [by destruct l|]. clear IHbs.
  rewrite frees_app in E. apply ordered_app in Ho as (Ho1 & Hb & Ho2). simpl in Ho2.
  destruct b as [a k []]; cbn in E.
  - apply app_inj_tail in E as [<- Ea]. simpl in Ea. subst a. pose proof (Hn (Block p k true)) as Hk. simpl in Hk.
    rewrite Hk by mem. eauto.
  - exfalso. rewrite app_nil_r in E.
    assert (Hin : p ∈ frees bs) by (rewrite E; mem).
    apply elem_of_frees in Hin as (c & Hc & _ & <-).
    destruct (ordered_in _ _ _ _ Ho1 Hc) as (_ & _ & He).
    pose proof (Hn c ltac:(mem) eq_refl). unfold bend in *. simpl in *. lia.
Qed.

Lemma sizes_put (bs : list block) m x v : (forall b, b ∈ bs -> ssize m (baddr b) = bunits b) ->
  (forall b, b ∈ bs -> baddr b + 4 <> x) -> forall b, b ∈ bs -> ssize (wput m x v) (baddr b) = bunits b.
Proof.
  intros Hm Hx b Hb. unfold ssize, wput in *. destruct (Z.eqb_spec (baddr b + 4) x) as [E|]; [|by apply Hm].
  by destruct (Hx b Hb).
Qed.

Lemma join_upper_ok h bs1 a n bs2 l1 p : inv h (bs1 ++ Block a n false :: bs2) ->
  base :: frees bs1 = l1 ++ [p] ->
  exists n' bs2', let m := join_upper (wm h) a p in
    mid m (brk h) l1 p bs1 a n' bs2' /\ live bs2' = live bs2 /\ n <= n' /\
    (length (frees bs2') <= length (frees bs2))%nat /\
    (forall x, x <> a -> x <> a + 4 -> m x = wm h x).
Proof.
  intros [Hbase Ho Hbrk Hsz Hb0 Hc Hfp] E.
  destruct (free_places _ _ _ _ _ _ _ Ho E) as (Hp1 & Hp2 & Hn & Hn2 & Hl1 & Hb1 & Hb2 & Hf2).
  rewrite frees_app, app_comm_cons, E, <- app_assoc in Hc.
  apply chain_app in Hc as [Hc1 [Hcp Hc2]]. change (frees (Block a n false :: bs2)) with (frees bs2) in *.
  simpl in Hc1, Hcp.
  assert (Ha : ssize (wm h) a = n) by (apply (Hsz (Block a n false)); mem).
  unfold join_upper. rewrite Ha, Hcp, u32_id by (unfold sizeof_Header; lia).
  assert (Hl1' : forall k v m, 0 <= k < 8 -> chain m l1 p -> chain (wput m (a + k) v) l1 p).
  { intros k v m Hk. apply chain_put. intros Hin%Hl1. lia. }
  assert (Hf2' : forall k v m l, 0 <= k < 8 -> (forall x, x ∈ l -> x ∈ frees bs2) ->
    chain m l base -> chain (wput m (a + k) v) l base).
  { intros k v m l Hk Hl. apply chain_put. intros Hin%Hl%Hf2. lia. }
  specialize (Hl1' 0) as H10. specialize (Hf2' 0) as H20. rewrite Z.add_0_r in H10, H20.
  destruct (Z.eqb_spec (a + sizeof_Header * n) (hd base (frees bs2))) as [Heq|Hne]; unfold sizeof_Header in *.
  - destruct (frees bs2) as [|q l] eqn:Ef; simpl in Heq; [lia|].
    subst q.
    pose proof (proj1 (ordered_app _ _ _ _ _) Ho) as (Ho1 & _ & Ho2).
    destruct (frees_first _ _ _ _ Ho2 Ef) as (n2 & bs2' & -> & El). unfold bend in *. simpl in *.
    assert (Hq : ssize (wm h) (a + 8 * n) = n2) by (apply (Hsz (Block (a + 8 * n) n2 true)); mem).
    destruct Ho2 as (_ & Hn2' & Ho2).
    pose proof (Hb2 (Block (a + 8 * n) n2 true) ltac:(mem)) as Hq2. simpl in Hq2.
    exists (n + n2), bs2'. rewrite Hq, u32_id by lia.
    split; [|split; [done|split; [lia|split; [rewrite El; lia|]]]].
    + constructor.
      * apply ordered_app. unfold bend in *. simpl in *. split; [done|]. split; [lia|].
        eapply ordered_weaken; [exact Ho2|lia].
      * intros b [Hb|[->|Hb]%elem_of_cons]%elem_of_app; simpl.
        -- destruct (Hb1 _ Hb). unfold ssize. rewrite !wput_ne by lia. apply Hsz. mem.
        -- unfold ssize. rewrite wput_ne, wput_eq by lia. done.
        -- destruct (Hb2 b ltac:(by right)). unfold ssize. rewrite !wput_ne by lia. apply Hsz. mem.
      * unfold ssize in *. rewrite !wput_ne by lia. done.
      * apply H10; [lia|]. apply Hl1'; [lia|done].
      * rewrite El. destruct Hc2 as [_ Hc2]. apply H20; [lia|by right|]. apply Hf2'; [lia|by right|done].
      * unfold sptr. rewrite wput_eq, El. destruct Hc2 as [Hq' _]. unfold sptr in Hq', Hcp.
        rewrite (wput_ne _ _ _ p), Hcp, wput_ne by lia. done.
    + intros x H1 H2. by rewrite !wput_ne.
  - exists n, bs2. split; [|split; [done|split; [lia|split; [lia|]]]].
    + constructor; [done| | | | |].
      * intros b Hb. unfold ssize. rewrite wput_ne; [by apply Hsz|].
        apply elem_of_app in Hb as [Hb|[->|Hb]%elem_of_cons]; simpl.
        -- destruct (Hb1 _ Hb). lia.
        -- lia.
        -- destruct (Hb2 _ Hb). lia.
      * unfold ssize in *. rewrite wput_ne by lia. done.
      * apply H10; [lia|done].
      * apply H20; [lia|done|done].
      * unfold sptr. by rewrite wput_eq.
    + intros x H1 H2. by rewrite !wput_ne.
Qed.

Lemma ordered_pair lo hi bs b c : ordered lo hi bs -> b ∈ bs -> c ∈ bs ->
  b = c \/ bend b <= baddr c \/ bend c <= baddr b.
Proof.
  intros Ho (bs1 & bs2 & ->)%list_elem_of_split Hc.
  apply ordered_app in Ho as (Ho1 & _ & Ho2).
  apply elem_of_app in Hc as [Hc|[->|Hc]%elem_of_cons]; [|by left|].
  - destruct (ordered_in _ _ _ _ Ho1 Hc). tauto.
  - destruct (ordered_in _ _ _ _ Ho2 Hc). tauto.
Qed.

(** Writing the pointer of a header leaves the sizes alone. *)
Lemma sizes_ptr hi bs m p v : ordered (base + 8) hi bs -> p ∈ base :: frees bs ->
  (forall b, b ∈ bs -> ssize m (baddr b) = bunits b) ->
  forall b, b ∈ bs -> ssize (wput m p v) (baddr b) = bunits b.
Proof.
  intros Ho Hp Hsz b Hb. unfold ssize. rewrite wput_ne; [by apply Hsz|].
  destruct (ordered_in _ _ _ _ Ho Hb) as (? & ? & ?).
  apply elem_of_cons in Hp as [->|(c & Hc & _ & <-)%elem_of_frees]; [lia|].
  destruct (ordered_in _ _ _ _ Ho Hc) as (? & ? & ?).
  destruct (ordered_pair _ _ _ _ _ Ho Hb Hc) as [->|]; unfold bend in *; lia.
Qed.

(** What [free] leaves: the blocks [bs] where [bs1], a block of at least [n]
    units and [bs2] were, nothing but the header [p] written. *)
Definition joined (m m' : wmem) (hi p n : Z) (bs1 bs2 bs : list block) : Prop :=
  inv (Heap m' p hi) bs /\ live bs = live bs1 ++ live bs2 /\
  (length (frees bs) <= S (length (frees (bs1 ++ bs2))))%nat /\
  (exists b, b ∈ bs /\ bfree b = true /\ n <= bunits b) /\
  (forall x, x <> p -> x <> p + 4 -> m' x = m x).

Section lower.
Context (m : wmem) (hi : Z) (l1 : list Z) (p : Z) (bs1 : list block) (a n : Z) (bs2 : list block).
Context (Hbase : 0 < base) (Hhi : hi < 2 ^ 32) (E : base :: frees bs1 = l1 ++ [p]).
Context (Hmid : mid m hi l1 p bs1 a n bs2).

Lemma lower_chain k v m' : 0 <= k < 8 -> chain m' l1 p -> chain m' (frees bs2) base ->
  chain (wput m' (p + k) v) l1 p /\ chain (wput m' (p + k) v) (frees bs2) base.
Proof.
  destruct (free_places _ _ _ _ _ _ _ (mid_ordered _ _ _ _ _ _ _ _ Hmid) E)
    as (Hp1 & Hp2 & Hn & Hn2 & Hl1 & Hb1 & Hb2 & Hf2).
  intros Hk H1 H2. split; apply chain_put; try done.
  - intros Hin%Hl1. lia.
  - intros Hin%Hf2. lia.
Qed.

Lemma lower_apart : p + 8 * ssize m p <> a -> exists bs, joined m (wput m p a) hi p n bs1 bs2 bs.
Proof.
  destruct Hmid as [Ho Hsz Hb0 Hc1 Hc2 Hca].
  destruct (free_places _ _ _ _ _ _ _ Ho E) as (Hp1 & Hp2 & Hn & Hn2 & Hl1 & Hb1 & Hb2 & Hf2).
  intros Hne. destruct (lower_chain 0 a m) as [Hc1' Hc2']; [lia|done..|]. rewrite Z.add_0_r in *.
  assert (Ef : base :: frees (bs1 ++ Block a n true :: bs2) = l1 ++ p :: a :: frees bs2).
  { rewrite frees_app, app_comm_cons, E, <- app_assoc. done. }
  assert (Ho' : ordered (base + 8) hi (bs1 ++ Block a n true :: bs2)) by (apply ordered_app in Ho; by apply ordered_app).
  exists (bs1 ++ Block a n true :: bs2). split; [|split; [|split; [|split]]].
  - constructor; [done|done|done| | | |].
    + simpl. apply (sizes_ptr hi); [done|rewrite Ef; mem|].
      intros b [Hb|[->|Hb]%elem_of_cons]%elem_of_app; [apply Hsz; mem|apply (Hsz (Block a n false)); mem|apply Hsz; mem].
    + unfold ssize in *. simpl. rewrite wput_ne; [done|].
      assert (Hpin : p ∈ base :: frees bs1) by (rewrite E; mem).
      apply elem_of_cons in Hpin as [->|(c & Hc & _ & <-)%elem_of_frees]; [lia|].
      destruct (Hb1 _ Hc). lia.
    + simpl wm. rewrite Ef. apply chain_app. split; [done|]. simpl. split; [apply wput_eq|]. split; [|done].
      unfold sptr in *. by rewrite wput_ne by lia.
    + simpl freep. rewrite Ef. mem.
  - rewrite live_app. done.
  - rewrite !frees_app. change (frees (Block a n true :: bs2)) with (a :: frees bs2). rewrite !length_app. cbn [length]. lia.
  - exists (Block a n true). split; [mem|]. simpl. split; [done|lia].
  - intros x H1 H2. by rewrite wput_ne.
Qed.

Lemma lower_join : p + 8 * ssize m p = a -> exists bs,
  joined m (wput (wput m (p + 4) (ssize m p + ssize m a)) p (sptr m a)) hi p n bs1 bs2 bs.
Proof.
  destruct Hmid as [Ho Hsz Hb0 Hc1 Hc2 Hca].
  destruct (free_places _ _ _ _ _ _ _ Ho E) as (Hp1 & Hp2 & Hn & Hn2 & Hl1 & Hb1 & Hb2 & Hf2).
  intros Heq. pose proof (proj1 (ordered_app _ _ _ _ _) Ho) as (Ho1 & _ & Ho2). simpl in Ho1.
  destruct (frees_last _ _ _ _ _ _ (ssize m p) Ho1 E) as (bs1' & E1 & El); [| |done|].
  { intros El1. pose proof E as E0. rewrite El1 in E0. injection E0 as Eb _. rewrite <- Eb, Hb0 in Heq. lia. }
  { intros b Hb <-. symmetry. apply Hsz. mem. }
  set (np := ssize m p) in *.
  assert (Ha : ssize m a = n) by (apply (Hsz (Block a n false)); mem). rewrite Ha.
  destruct (Hb1 (Block p np true)) as [Hpb1 Hpb2]; [rewrite E1; mem|]. unfold bend in Hpb2, Ho2. simpl in *.
  rewrite E1 in Ho1. apply ordered_app in Ho1 as (Ho1 & _ & _). simpl in Ho1.
  destruct (lower_chain 4 (np + n) m) as [Hc3 Hc4]; [lia|done..|].
  destruct (lower_chain 0 (sptr m a) _ ltac:(lia) Hc3 Hc4) as [Hc5 Hc6]. rewrite Z.add_0_r in *.
  assert (Ef : base :: frees (bs1' ++ Block p (np + n) true :: bs2) = l1 ++ p :: frees bs2).
  { by rewrite frees_app, app_comm_cons, El. }
  exists (bs1' ++ Block p (np + n) true :: bs2). split; [|split; [|split; [|split]]].
  - constructor; [done| |done| | | |].
    + apply ordered_app. unfold bend. simpl. split; [done|]. split; [lia|].
      eapply ordered_weaken; [exact Ho2|lia].
    + intros b [Hb|[->|Hb]%elem_of_cons]%elem_of_app; simpl.
      * destruct (ordered_in _ _ _ _ Ho1 Hb) as (? & ? & ?). unfold bend, ssize in *.
        rewrite !wput_ne by lia. apply Hsz. rewrite E1. mem.
      * unfold ssize. by rewrite wput_ne, wput_eq by lia.
      * destruct (Hb2 _ Hb). unfold ssize. rewrite !wput_ne by lia. apply Hsz. mem.
    + unfold ssize in *. simpl. by rewrite !wput_ne by lia.
    + simpl wm. rewrite Ef. apply chain_app. split; [done|]. simpl. split; [|done].
      unfold sptr in *. by rewrite wput_eq.
    + simpl freep. rewrite Ef. mem.
  - rewrite E1, !live_app. cbn. by rewrite app_nil_r.
  - rewrite E1, !frees_app. change (frees (Block p (np + n) true :: bs2)) with (p :: frees bs2).
    rewrite !length_app. cbn [length]. lia.
  - exists (Block p (np + n) true). split; [mem|]. simpl. split; [done|lia].
  - intros x H1 H2. by rewrite !wput_ne.
Qed.

Lemma join_lower_ok : exists bs, joined m (join_lower m a p) hi p n bs1 bs2 bs.
Proof.
  destruct Hmid as [Ho Hsz Hb0 Hc1 Hc2 Hca].
  destruct (free_places _ _ _ _ _ _ _ Ho E) as (Hp1 & Hp2 & Hn & Hn2 & Hl1 & Hb1 & Hb2 & Hf2).
  assert (Ha : ssize m a = n) by (apply (Hsz (Block a n false)); mem).
  assert (Hpin : p ∈ base :: frees bs1) by (rewrite E; mem).
  assert (Hps : 0 <= ssize m p /\ p + 8 * ssize m p <= a).
  { apply elem_of_cons in Hpin as [->|(c & Hc & _ & <-)%elem_of_frees]; [lia|].
    rewrite Hsz by mem. destruct (Hb1 _ Hc). unfold bend in *. lia. }
  unfold join_lower. rewrite (u32_id (p + _)), (u32_id (ssize m p + ssize m a)) by (unfold sizeof_Header; lia).
  destruct (Z.eqb_spec (p + sizeof_Header * ssize m p) a); unfold sizeof_Header in *.
  - destruct lower_join as (bs & Hj); [done|]. exists bs. unfold sptr in *.
    rewrite (wput_ne _ (p + 4) _ a) by lia. done.
  - by apply lower_apart.
Qed.
End lower.

(** The words of the blocks [bs] are the same in [m] and [m']. *)
Definition kept (m m' : wmem) (bs : list block) : Prop :=
  forall b x, b ∈ bs -> baddr b <= x < bend b -> m' x = m x.

Lemma elem_of_live b bs : b ∈ live bs <-> bfree b = false /\ b ∈ bs.
Proof. unfold live. by rewrite list_elem_of_filter. Qed.

(** A word of a live block is in no header of the free list. *)
Lemma live_not_header h bs b p x : inv h bs -> b ∈ live bs -> p ∈ base :: frees bs ->
  baddr b <= x < bend b -> x <> p /\ x <> p + 4.
Proof.
  intros Hi [Hf Hb]%elem_of_live Hp Hx. pose proof (inv_ordered _ _ Hi) as Ho.
  destruct (ordered_in _ _ _ _ Ho Hb) as (? & ? & ?).
  apply elem_of_cons in Hp as [->|(c & Hc & Hfc & <-)%elem_of_frees]; [lia|].
  destruct (ordered_in _ _ _ _ Ho Hc) as (? & ? & ?).
  destruct (ordered_pair _ _ _ _ _ Ho Hb Hc) as [->|Hd]; [congruence|]. unfold bend in *. lia.
Qed.

Lemma free_ok fuel h bs1 a n bs2 : inv h (bs1 ++ Block a n false :: bs2) ->
  (length (frees (bs1 ++ bs2)) < fuel)%nat ->
  exists h' bs, free (S fuel) (a + 8) h = Some h' /\ inv h' bs /\ brk h' = brk h /\
    live bs = live bs1 ++ live bs2 /\ (length (frees bs) <= S (length (frees (bs1 ++ bs2))))%nat /\
    (exists b, b ∈ bs /\ bfree b = true /\ n <= bunits b) /\
    kept (wm h) (wm h') (live bs1 ++ live bs2).
Proof.
  intros Hi Hf. destruct (cons_snoc base (frees bs1)) as (l1 & p & E).
  destruct (free_find_ok _ _ _ _ _ _ _ _ Hi E Hf) as [Hpa Hfind].
  destruct (join_upper_ok _ _ _ _ _ _ _ Hi E) as (n' & bs2' & Hmid & Hlive & Hn & Hlen & Hfr1).
  destruct (join_lower_ok _ _ _ _ _ _ _ _ (inv_base _ _ Hi) (inv_brk _ _ Hi) E Hmid)
    as (bs & Hinv & Hl & Hlen2 & (b & Hb & Hbf & Hbn) & Hfr2).
  exists (Heap (join_lower (join_upper (wm h) a p) a p) p (brk h)), bs.
  split; [|split; [done|split; [done|split; [by rewrite Hl, Hlive|split; [|split]]]]].
  - unfold free, sizeof_Header. rewrite Z.add_simpl_r, Hfind. done.
  - rewrite frees_app, length_app in *. lia.
  - exists b. split; [done|]. split; [done|lia].
  - intros c x Hc Hx. cbn [wm].
    assert (Hc' : c ∈ live (bs1 ++ Block a n false :: bs2) /\ (bend c <= a \/ a + 8 * n <= baddr c)).
    { pose proof (inv_ordered _ _ Hi) as (Ho1 & Hn1 & Ho2)%ordered_app.
      rewrite live_app. change (live (Block a n false :: bs2)) with (Block a n false :: live bs2). revert Hc. rewrite !elem_of_app, elem_of_cons, !elem_of_live.
      intros [[? Hc]|[? Hc]]; (split; [tauto|]).
      - left. by destruct (ordered_in _ _ _ _ Ho1 Hc) as (? & ? & ?).
      - right. by destruct (ordered_in _ _ _ _ Ho2 Hc) as (? & ? & ?). }
    destruct Hc' as [Hc1 Hc2].
    destruct (live_not_header _ _ _ p x Hi Hc1) as [Hx1 Hx2]; [|done|].
    { rewrite frees_app, app_comm_cons, E. mem. }
    pose proof (inv_ordered _ _ Hi) as (_ & Hn1 & _)%ordered_app. simpl in Hn1.
    rewrite Hfr2, Hfr1 by lia. done.
Qed.

(** ** [malloc] *)

(** The interface to the kernel: [sbrk] adds at least what was asked for, and
    stays within the address space. *)
Hypothesis sbrk_grows : forall b n b', 0 <= n < 2 ^ 31 -> sbrk b n = Some b' -> b + n <= b' < 2 ^ 32.

Definition morecore_bytes (nu : Z) : Z := 8 * Z.max nu 4096.

Lemma freep_pos h bs : inv h bs -> 0 < freep h.
Proof.
  intros Hi. pose proof (inv_base _ _ Hi). pose proof (inv_freep _ _ Hi) as [->|Hp]%elem_of_cons; [done|].
  destruct (frees_apart _ _ _ (inv_ordered _ _ Hi)) as (_ & Hl & _). rewrite Forall_forall in Hl.
  specialize (Hl _ Hp). simpl in Hl. lia.
Qed.

Lemma ordered_snoc lo hi bs n hi' : ordered lo hi bs -> 0 < n -> hi + 8 * n <= hi' ->
  ordered lo hi' (bs ++ [Block hi n false]).
Proof. intros Ho Hn Hh. apply ordered_app. unfold bend. simpl. done. Qed.

Lemma morecore_ok fuel h bs nu : inv h bs -> 0 < nu -> morecore_bytes nu < 2 ^ 31 ->
  (length (frees bs) < fuel)%nat ->
  (morecore (S fuel) nu h = Some (0, h) /\ sbrk (brk h) (morecore_bytes nu) = None) \/
  exists h' bs', morecore (S fuel) nu h = Some (freep h', h') /\ inv h' bs' /\
    live bs' = live bs /\ (length (frees bs') <= S (length (frees bs)))%nat /\
    (exists b, b ∈ bs' /\ bfree b = true /\ nu <= bunits b) /\ kept (wm h) (wm h') (live bs).
Proof.
  intros Hi Hnu Hb Hf. unfold morecore.
  assert (En : (if nu <? 4096 then 4096 else nu) = Z.max nu 4096) by (destruct (Z.ltb_spec nu 4096); lia).
  rewrite En. unfold morecore_bytes in *. rewrite u32_id, (Z.mul_comm _ sizeof_Header) by (unfold sizeof_Header; lia).
  change sizeof_Header with 8 at 1. destruct (sbrk _ _) as [brk'|] eqn:Es; [right|by left].
  apply sbrk_grows in Es; [|lia]. set (N := Z.max nu 4096) in *.
  assert (Hi' : inv (Heap (wput (wm h) (brk h + 4) N) (freep h) brk') (bs ++ [Block (brk h) N false])).
  { destruct Hi as [Hbase Ho Hbrk Hsz Hb0 Hc Hfp]. pose proof (ordered_le _ _ _ Ho).
    assert (Ef : frees (bs ++ [Block (brk h) N false]) = frees bs) by (rewrite frees_app; apply app_nil_r).
    constructor; cbn [wm brk freep]; rewrite ?Ef; try done; try lia.
    - apply ordered_snoc; [done|lia|lia].
    - intros b [Hb'|[->|[]%not_elem_of_nil]%elem_of_cons]%elem_of_app; unfold ssize; simpl; [|apply wput_eq].
      destruct (ordered_in _ _ _ _ Ho Hb') as (? & ? & ?). unfold bend in *.
      rewrite wput_ne by lia. by apply Hsz.
    - unfold ssize in *. by rewrite wput_ne by lia.
    - apply chain_put; [|done]. destruct (frees_apart _ _ _ Ho) as (_ & _ & Hh). rewrite Forall_forall in Hh.
      intros [?|Hin%Hh]%elem_of_cons; lia. }
  destruct (free_ok fuel _ _ _ _ _ Hi') as (h' & bs' & Hfree & Hinv & _ & Hl & Hlen & Hbig & Hk).
  { by rewrite app_nil_r. }
  unfold sizeof_Header. cbn [freep] in *. rewrite Hfree. cbn. rewrite app_nil_r in Hl, Hlen, Hk.
  exists h', bs'. repeat (split; [done|]). split.
  - destruct Hbig as (b & ? & ? & ?). exists b. repeat split; [done..|lia].
  - intros b x Hb' Hx. rewrite (Hk _ _ Hb' Hx). cbn [wm]. apply wput_ne.
    apply elem_of_live in Hb' as [_ Hb']. destruct (ordered_in _ _ _ _ (inv_ordered _ _ Hi) Hb') as (? & ? & ?). lia.
Qed.

(** What a successful [malloc] of [k] units returns. *)
Definition granted (h : heap) (bs : list block) (k r : Z) (h' : heap) : Prop :=
  exists bs', inv h' bs' /\ live bs' ≡ₚ Block (r - 8) k false :: live bs /\ kept (wm h) (wm h') (live bs).

(** The free block before [p] is the one that points to it. *)
Lemma before_free h bs1 p np bs2 prevp : inv h (bs1 ++ Block p np true :: bs2) ->
  prevp ∈ base :: frees (bs1 ++ Block p np true :: bs2) -> sptr (wm h) prevp = p ->
  exists l1, base :: frees bs1 = l1 ++ [prevp].
Proof.
  intros Hi Hin Hp. destruct (cons_snoc base (frees bs1)) as (l1 & q & E). exists l1.
  pose proof (base_apart _ _ Hi) as Hs. pose proof (inv_chain _ _ Hi) as Hc.
  pose proof (inv_ordered _ _ Hi) as (Ho1 & _ & _)%ordered_app. apply ordered_le in Ho1. simpl in Ho1.
  rewrite frees_app in *. change (frees (Block p np true :: bs2)) with (p :: frees bs2) in *.
  rewrite app_comm_cons, E, <- app_assoc in *. simpl in Hs, Hc, Hin.
  destruct (proj1 (chain_app _ _ _ _) Hc) as [Hc1 [_ Hc2]].
  assert (Hs1 : StronglySorted apart (l1 ++ [q]) /\ StronglySorted apart (p :: frees bs2) /\ q < p).
  { clear -Hs. induction l1 as [|z l1 IH]; simpl in *; apply StronglySorted_inv in Hs as [Hs Hz].
    - rewrite Forall_forall in Hz. specialize (Hz p ltac:(mem)). unfold apart in Hz.
      split; [by repeat constructor|split; [done|lia]].
    - destruct (IH Hs) as [? ?]. split; [|done]. constructor; [done|].
      rewrite Forall_forall in Hz |- *. intros y Hy. apply Hz. revert Hy. mem. }
  destruct Hs1 as (Hs1 & Hs2 & Hqp).
  apply elem_of_app in Hin as [Hin|[->|Hin]%elem_of_cons]; [|done|]; exfalso.
  - pose proof (chain_up _ _ _ _ Hs1 Hc1 Hin). lia.
  - assert (p <= prevp).
    { apply elem_of_cons in Hin as [->|Hin]; [lia|]. apply StronglySorted_inv in Hs2 as [_ Hz].
      rewrite Forall_forall in Hz. specialize (Hz _ Hin). unfold apart in Hz. lia. }
    destruct (chain_next _ _ _ _ Hs2 Hc2 Hin) as [|[]]; lia.
Qed.

Section take.
Context (h : heap) (bs1 : list block) (p np : Z) (bs2 : list block) (prevp k : Z).
Local Abbreviation bs := (bs1 ++ Block p np true :: bs2).
Context (Hi : inv h bs) (Hin : prevp ∈ base :: frees bs) (Hp : sptr (wm h) prevp = p).

Lemma take_all : k = np ->
  granted h bs k (p + 8) (Heap (wput (wm h) prevp (sptr (wm h) p)) prevp (brk h)).
Proof.
  intros ->. destruct (before_free _ _ _ _ _ _ Hi Hin Hp) as (l1 & E).
  pose proof Hi as [Hbase Ho Hbrk Hsz Hb0 Hc Hfp].
  assert (Ho' : ordered (base + 8) (brk h) (bs1 ++ Block p np false :: bs2)) by (apply ordered_app in Ho; by apply ordered_app).
  destruct (free_places _ _ _ _ _ _ _ Ho' E) as (Hp1 & Hp2 & Hn & Hn2 & Hl1 & Hb1 & Hb2 & Hf2).
  assert (Ef : base :: frees (bs1 ++ Block p np false :: bs2) = l1 ++ prevp :: frees bs2).
  { rewrite frees_app, app_comm_cons, E, <- app_assoc. done. }
  exists (bs1 ++ Block p np false :: bs2). split; [|split].
  - rewrite frees_app, app_comm_cons, E, <- app_assoc in Hc.
    apply chain_app in Hc as (Hc1 & _ & Hcp & Hc2). fold (frees bs2) in Hc2.
    constructor; cbn [wm brk freep]; try done.
    + apply (sizes_ptr (brk h)); [done|rewrite Ef; mem|].
      intros b [Hb|[->|Hb]%elem_of_cons]%elem_of_app; [apply Hsz; mem|apply (Hsz (Block p np true)); mem|apply Hsz; mem].
    + unfold ssize in *. rewrite wput_ne; [done|].
      assert (Hpin : prevp ∈ base :: frees bs1) by (rewrite E; mem).
      apply elem_of_cons in Hpin as [->|(c & Hc & _ & <-)%elem_of_frees]; [lia|].
      destruct (Hb1 _ Hc). lia.
    + rewrite Ef. apply chain_app. split; [apply chain_put; [intros Hx%Hl1; lia|done]|]. simpl.
      split; [unfold sptr; by rewrite wput_eq|]. apply chain_put; [intros Hx%Hf2; lia|done].
    + rewrite Ef. mem.
  - rewrite !live_app, Z.add_simpl_r. symmetry. apply Permutation_middle.
  - intros b x Hb Hx. cbn [wm]. apply wput_ne. by destruct (live_not_header _ _ _ prevp x Hi Hb).
Qed.

Lemma take_part : 0 < k < np -> let q := p + 8 * (np - k) in
  granted h bs k (q + 8) (Heap (wput (wput (wm h) (p + 4) (np - k)) (q + 4) k) prevp (brk h)).
Proof.
  intros Hk q. assert (Hq : q = p + 8 * (np - k)) by done. clearbody q. pose proof Hi as [Hbase Ho Hbrk Hsz Hb0 Hc Hfp].
  pose proof (proj1 (ordered_app _ _ _ _ _) Ho) as (Ho1 & _ & Ho2). unfold bend in Ho2. simpl in Ho1, Ho2.
  pose proof (ordered_le _ _ _ Ho1).
  assert (Hf : forall x, x ∈ base :: frees bs -> x <> p + 4 /\ x <> q + 4).
  { destruct (frees_apart _ _ _ Ho1) as (_ & _ & Hl). destruct (frees_apart _ _ _ Ho2) as (_ & Hh & _).
    rewrite Forall_forall in Hl, Hh. intros x. rewrite frees_app.
    change (frees (Block p np true :: bs2)) with (p :: frees bs2).
    intros [->|[Hx%Hl|[->|Hx%Hh]%elem_of_cons]%elem_of_app]%elem_of_cons; simpl in *; lia. }
  assert (Ef : frees (bs1 ++ Block p (np - k) true :: Block q k false :: bs2) = frees bs) by (by rewrite !frees_app).
  exists (bs1 ++ Block p (np - k) true :: Block q k false :: bs2). split; [|split].
  - constructor; cbn [wm brk freep]; rewrite ?Ef; try done.
    + apply ordered_app. unfold bend. simpl. unfold bend. simpl.
      split; [done|]. do 3 (split; [lia|]). eapply ordered_weaken; [exact Ho2|lia].
    + intros b [Hb|[->|[->|Hb]%elem_of_cons]%elem_of_cons]%elem_of_app; unfold ssize; simpl.
      * destruct (ordered_in _ _ _ _ Ho1 Hb) as (? & ? & ?). unfold bend in *.
        rewrite !wput_ne by lia. apply Hsz. mem.
      * by rewrite wput_ne, wput_eq by lia.
      * apply wput_eq.
      * destruct (ordered_in _ _ _ _ Ho2 Hb) as (? & ? & ?). unfold bend in *.
        rewrite !wput_ne by lia. apply Hsz. mem.
    + unfold ssize in *. by rewrite !wput_ne by lia.
    + apply chain_put; [by intros []%Hf|]. apply chain_put; [by intros []%Hf|done].
  - rewrite !live_app, Z.add_simpl_r. symmetry. apply Permutation_middle.
  - intros b x [Hbf Hb]%elem_of_live Hx. cbn [wm].
    destruct (ordered_pair _ _ _ b (Block p np true) Ho Hb ltac:(mem)) as [->|Hd]; [done|].
    unfold bend in *. simpl in Hd. rewrite !wput_ne by lia. done.
Qed.
End take.

Lemma malloc_take n fuel h bs prevp p np k : inv h bs -> prevp ∈ base :: frees bs ->
  sptr (wm h) prevp = p -> Block p np true ∈ bs -> 0 < k <= np ->
  exists r h', malloc_loop (S n) fuel k prevp p h = Some (r, h') /\ r <> 0 /\ granted h bs k r h'.
Proof.
  intros Hi Hin Hp Hb Hk. cbn [malloc_loop].
  pose proof (inv_ordered _ _ Hi) as Ho. pose proof (inv_brk _ _ Hi). pose proof (inv_base _ _ Hi).
  destruct (ordered_in _ _ _ _ Ho Hb) as (Hp1 & _ & Hp2). unfold bend in Hp2. simpl in Hp1, Hp2.
  assert (Hnp : ssize (wm h) p = np) by (apply (inv_sizes _ _ Hi (Block p np true)); done).
  rewrite Hnp. rewrite (proj2 (Z.leb_le _ _)) by lia.
  apply list_elem_of_split in Hb as (bs1 & bs2 & ->).
  destruct (Z.eqb_spec np k) as [->|Hne]; unfold sizeof_Header in *.
  - eexists _, _. split; [done|]. split; [lia|]. by apply take_all.
  - eexists _, _. split; [done|]. rewrite u32_id by lia.
    split; [lia|]. apply take_part; first [done|lia].
Qed.

(** Following the free list to a block of at least [k] units. *)
Lemma malloc_search l : forall n fuel h bs prevp p k, inv h bs -> prevp ∈ base :: frees bs ->
  path (wm h) prevp (p :: l) -> (forall x, x ∈ p :: l -> x ∈ base :: frees bs) ->
  (exists l', p :: l = l' ++ [freep h] /\ (freep h ∉ l')) -> (length l < n)%nat -> 0 < k ->
  (exists np, (exists q, q ∈ p :: l /\ Block q np true ∈ bs) /\ k <= np) ->
  exists r h', malloc_loop n fuel k prevp p h = Some (r, h') /\ r <> 0 /\ granted h bs k r h'.
Proof.
  induction l as [|y l IH]; intros [|n] fuel h bs prevp p k Hi Hin Hp Hl He Hn Hk (np & (q & Hq & Hb) & Hkn);
    cbn [length] in Hn; try lia; destruct Hp as [Hp Hpath].
  - apply list_elem_of_singleton in Hq as ->. eapply malloc_take; try done.
  - destruct (decide (k <= ssize (wm h) p)) as [Hbig|Hsmall].
    + assert (Hpf : p ∈ base :: frees bs) by (apply Hl; mem).
      apply elem_of_cons in Hpf as [->|(c & Hc & Hcf & <-)%elem_of_frees].
      { rewrite (inv_base_size _ _ Hi) in Hbig. lia. }
      rewrite (inv_sizes _ _ Hi _ Hc) in Hbig. destruct c as [a m f]; simpl in *; subst f.
      eapply malloc_take; try done.
    + destruct He as ([|z l'] & He & Hnot); [by destruct l|]. injection He as <- He.
      apply not_elem_of_cons in Hnot as [Hpne Hnot].
      cbn [malloc_loop]. rewrite (proj2 (Z.leb_gt _ _)), (proj2 (Z.eqb_neq p (freep h))) by (lia || congruence).
      destruct Hpath as [Hy Hpath]. rewrite Hy.
      apply IH; try done; try lia; [apply Hl; mem|intros x Hx; apply Hl; revert Hx; mem|eauto|].
      exists np. split; [|done]. exists q. split; [|done].
      apply elem_of_cons in Hq as [->|]; [|done].
      pose proof (inv_sizes _ _ Hi _ Hb). simpl in *. lia.
Qed.

(** Once around the free list from [freep]. *)
Lemma circle_inv h bs : inv h bs -> exists l,
  path (wm h) (freep h) (l ++ [freep h]) /\ (forall x, (x ∈ l ++ [freep h]) <-> (x ∈ base :: frees bs)) /\
  (freep h ∉ l) /\ length l = length (frees bs).
Proof.
  intros Hi. pose proof (inv_freep _ _ Hi) as (l1 & l2 & E)%list_elem_of_split.
  exists (l2 ++ l1). rewrite <- app_assoc. split; [by eapply circle; [apply (inv_chain _ _ Hi)|]|].
  split; [intros x; rewrite E; mem|]. split.
  - pose proof (base_apart _ _ Hi) as Hs. rewrite E in Hs.
    rewrite elem_of_app. clear -Hs. induction l1 as [|z l1 IH]; simpl in *;
      apply StronglySorted_inv in Hs as [Hs Hz]; rewrite Forall_forall in Hz.
    + intros [Hx|Hx%elem_of_nil]; [|done]. specialize (Hz _ Hx). unfold apart in Hz. lia.
    + specialize (Hz (freep h)). unfold apart in Hz. rewrite elem_of_cons. intros [Hx|[Hx|Hx]].
      * apply IH; tauto.
      * assert (z + 8 <= freep h) by (apply Hz; mem). lia.
      * apply IH; tauto.
  - pose proof (f_equal length E) as L. rewrite !length_app in *. simpl in *. lia.
Qed.

Lemma malloc_found n fuel h bs k : inv h bs -> (length (frees bs) < n)%nat -> 0 < k ->
  (exists b, b ∈ bs /\ bfree b = true /\ k <= bunits b) ->
  exists r h', malloc_loop n fuel k (freep h) (sptr (wm h) (freep h)) h = Some (r, h') /\ r <> 0 /\
    granted h bs k r h'.
Proof.
  intros Hi Hn Hk ([a np f] & Hb & Hf & Hkn). simpl in *. subst f.
  destruct (circle_inv _ _ Hi) as (l & Hp & Hl & Hnot & Hlen).
  assert (Ha : a ∈ l ++ [freep h]).
  { apply Hl. right. apply elem_of_frees. by exists (Block a np true). }
  destruct (l ++ [freep h]) as [|y l'] eqn:E; [by destruct l|].
  destruct Hp as [Hy Hp]. rewrite Hy.
  apply (malloc_search l'); try done.
  - apply (inv_freep _ _ Hi).
  - intros x Hx. by apply Hl.
  - by exists l.
  - pose proof (f_equal length E) as L. rewrite length_app in L. simpl in L. lia.
  - exists np. split; [|done]. by exists a.
Qed.

(** With no block large enough, the loop comes round to [morecore]. *)
Lemma malloc_dry l : forall n fuel h prevp p k, path (wm h) prevp (p :: l) ->
  (exists l', p :: l = l' ++ [freep h] /\ (freep h ∉ l')) -> (forall x, x ∈ p :: l -> ssize (wm h) x < k) ->
  malloc_loop (length l + S n) fuel k prevp p h =
    (r ← morecore fuel k h;
     let '(p, h) := r in
     if p =? 0 then Some (0, h) else malloc_loop n fuel k p (sptr (wm h) p) h).
Proof.
  induction l as [|y l IH]; intros n fuel h prevp p k [Hp Hpath] (l' & He & Hnot) Hs; cbn [length Nat.add malloc_loop];
    (rewrite (proj2 (Z.leb_gt _ _)); [|apply Hs; mem]).
  - destruct l' as [|? []]; [|done..]. injection He as ->. by rewrite Z.eqb_refl.
  - destruct l' as [|z l']; [by destruct l|]. injection He as <- He.
    apply not_elem_of_cons in Hnot as [Hpne Hnot].
    rewrite (proj2 (Z.eqb_neq p (freep h))) by congruence.
    pose proof Hpath as [Hy _]. rewrite Hy. apply IH; [done|eauto|]. intros x Hx. apply Hs. by right.
Qed.

Lemma malloc_loop_ok n fuel h bs k : inv h bs -> (2 * length (frees bs) + 2 < n)%nat ->
  (length (frees bs) < fuel)%nat -> 0 < k -> morecore_bytes k < 2 ^ 31 ->
  exists r h', malloc_loop n (S fuel) k (freep h) (sptr (wm h) (freep h)) h = Some (r, h') /\
    ((r = 0 /\ h' = h /\ sbrk (brk h) (morecore_bytes k) = None) \/ (r <> 0 /\ granted h bs k r h')).
Proof.
  intros Hi Hn Hf Hk Hk2.
  destruct (decide (Exists (fun b => bfree b = true /\ k <= bunits b) bs)) as [He|Hne].
  - apply Exists_exists in He as (b & ? & ? & ?).
    destruct (malloc_found n (S fuel) h bs k) as (r & h' & ? & ? & ?); [done|lia|done|by exists b|].
    eexists _, _. split; [done|]. by right.
  - rewrite <- Forall_Exists_neg, Forall_forall in Hne.
    destruct (circle_inv _ _ Hi) as (l & Hp & Hl & Hnot & Hlen).
    destruct (l ++ [freep h]) as [|y l'] eqn:E; [by destruct l|].
    assert (Hl' : length l' = length (frees bs)).
    { pose proof (f_equal length E) as L. rewrite length_app in L. simpl in L. lia. }
    replace n with (length l' + S (n - S (length l')))%nat by lia.
    pose proof Hp as [Hy _]. rewrite Hy, malloc_dry; [|done|by exists l|].
    2: { intros x [->|(c & Hc & Hcf & <-)%elem_of_frees]%Hl%elem_of_cons.
      - by rewrite (inv_base_size _ _ Hi).
      - rewrite (inv_sizes _ _ Hi _ Hc). specialize (Hne _ Hc).
        destruct (Z.lt_ge_cases (bunits c) k); [done|]. destruct Hne. split; [done|lia]. }
    destruct (morecore_ok fuel h bs k Hi Hk Hk2 Hf) as [[-> Hs]|(h2 & bs2 & -> & Hi2 & Hl2 & Hlen2 & Hbig & Hk3)]; cbn.
    + exists 0, h. split; [done|]. by left.
    + pose proof (freep_pos _ _ Hi2). rewrite (proj2 (Z.eqb_neq _ _)) by lia.
      destruct (malloc_found (n - S (length l')) (S fuel) h2 bs2 k) as (r & h' & Hr & Hr0 & bs' & ? & ? & Hk4);
        [done|lia|done|done|].
      exists r, h'. split; [done|]. right. split; [done|]. exists bs'. rewrite Hl2 in *.
      split; [done|]. split; [done|]. intros b x Hb Hx.
      rewrite <- (Hk3 _ _ Hb Hx). by apply (Hk4 b).
Qed.

(** Before the first call the list does not exist. *)
Definition served (h : heap) (bs : list block) : Prop :=
  inv h bs \/ (freep h = 0 /\ bs = [] /\ 0 < base /\ base + 8 <= brk h < 2 ^ 32).

Definition units (nbytes : Z) : Z := (nbytes + 7) / 8 + 1.

Lemma malloc_ok n fuel h bs nb : served h bs -> (2 * length (frees bs) + 2 < n)%nat ->
  (length (frees bs) < fuel)%nat -> 0 <= nb < 2 ^ 31 - 16 ->
  exists r h', malloc n (S fuel) nb h = Some (r, h') /\
    ((r = 0 /\ served h' bs /\ kept (wm h) (wm h') (live bs) /\
      sbrk (brk h) (morecore_bytes (units nb)) = None) \/
     (r <> 0 /\ granted h bs (units nb) r h')).
Proof.
  intros Hs Hn Hf Hnb. unfold malloc, sizeof_Header.
  replace (nb + 8 - 1) with (nb + 7) by lia. rewrite u32_id by lia. fold (units nb).
  assert (Hu : 0 < units nb /\ morecore_bytes (units nb) < 2 ^ 31).
  { unfold morecore_bytes, units. pose proof (Z.div_mod (nb + 7) 8). pose proof (Z.mod_pos_bound (nb + 7) 8).
    pose proof (Z.div_pos (nb + 7) 8). lia. }
  destruct Hs as [Hi|(Hz & -> & Hb & Hb2)].
  - rewrite (proj2 (Z.eqb_neq _ _)) by (pose proof (freep_pos _ _ Hi); lia).
    destruct (malloc_loop_ok n fuel h bs (units nb)) as (r & h' & -> & [(-> & -> & ?)|[? ?]]); try tauto.
    + exists 0, h. split; [done|]. left. split; [done|]. split; [by left|]. split; [|done]. by intros b x _ _.
    + exists r, h'. split; [done|]. by right.
  - rewrite Hz, Z.eqb_refl. set (h1 := Heap _ _ _).
    assert (Hi : inv h1 []).
    { constructor; [done|simpl; lia|simpl; lia|by intros b ?%elem_of_nil| |split; [|done]|simpl; mem].
      - unfold ssize. simpl. by rewrite wput_eq.
      - unfold sptr. simpl. by rewrite wput_ne, wput_eq by lia. }
    destruct (malloc_loop_ok n fuel h1 [] (units nb)) as (r & h' & -> & [(-> & -> & ?)|[? Hg]]); try tauto.
    + exists 0, h1. split; [done|]. left. split; [done|]. split; [by left|]. split; [|done]. by intros b x ?%elem_of_nil.
    + exists r, h'. split; [done|]. right. split; [done|].
      destruct Hg as (bs' & ? & ? & _). exists bs'. split; [done|]. split; [done|]. by intros b x ?%elem_of_nil.
Qed.

(** ** Fuel *)

Lemma free_find_mono f f' m bp p q : free_find f m bp p = Some q -> (f <= f')%nat -> free_find f' m bp p = Some q.
Proof.
  revert f' p. induction f as [|f IH]; intros [|f'] p Hq Hf; try done; [lia|]. cbn [free_find] in *.
  destruct (_ && _); [done|]. destruct (_ && _); [done|]. apply IH; [done|lia].
Qed.

Lemma free_mono f f' ap h h' : free f ap h = Some h' -> (f <= f')%nat -> free f' ap h = Some h'.
Proof.
  unfold free. intros (p & Hp & Hh)%bind_Some Hf. by rewrite (free_find_mono _ _ _ _ _ _ Hp Hf).
Qed.

Lemma morecore_mono f f' nu h r : morecore f nu h = Some r -> (f <= f')%nat -> morecore f' nu h = Some r.
Proof.
  unfold morecore. destruct (sbrk _ _); [|done]. intros (h1 & H1 & Hr)%bind_Some Hf.
  by rewrite (free_mono _ _ _ _ _ H1 Hf).
Qed.

Lemma malloc_loop_mono n n' f f' k prevp p h r : malloc_loop n f k prevp p h = Some r ->
  (n <= n')%nat -> (f <= f')%nat -> malloc_loop n' f' k prevp p h = Some r.
Proof.
  revert n' prevp p h. induction n as [|n IH]; intros [|n'] prevp p h Hr Hn Hf; try done; [lia|].
  cbn [malloc_loop] in *. destruct (_ <=? _); [done|]. destruct (_ =? _); [|apply IH; [done|lia|done]].
  apply bind_Some in Hr as ([p1 h1] & H1 & Hr). rewrite (morecore_mono _ _ _ _ _ H1 Hf). simpl.
  destruct (p1 =? 0); [done|]. apply IH; [done|lia|done].
Qed.

Lemma malloc_mono n n' f f' nb h r : malloc n f nb h = Some r -> (n <= n')%nat -> (f <= f')%nat ->
  malloc n' f' nb h = Some r.
Proof. unfold malloc. apply malloc_loop_mono. Qed.

(** ** A program that uses the allocator

    Its state is the heap and what it holds: pointers with the number of
    bytes it asked for.  It calls [malloc], frees what it holds, and writes to
    the bytes it asked for. *)

Inductive client : heap * list (Z * Z) -> heap * list (Z * Z) -> Prop :=
| client_malloc n f nb h r h' ps : 0 <= nb < 2 ^ 31 - 16 -> malloc n f nb h = Some (r, h') ->
    client (h, ps) (h', if r =? 0 then ps else (r, nb) :: ps)
| client_free f r nb h h' ps1 ps2 : free f r h = Some h' ->
    client (h, ps1 ++ (r, nb) :: ps2) (h', ps1 ++ ps2)
| client_write r nb x v h ps : (r, nb) ∈ ps -> r <= x < r + nb ->
    client (h, ps) (Heap (wput (wm h) x v) (freep h) (brk h), ps).

(** A held pointer is the payload of a live block. *)
Definition holds (p : Z * Z) (b : block) : Prop :=
  baddr b = p.1 - 8 /\ p.2 + 8 <= 8 * bunits b.

Definition owns (h : heap) (ps : list (Z * Z)) : Prop :=
  exists bs bl, served h bs /\ live bs ≡ₚ bl /\ Forall2 holds ps bl.

Lemma served_split h bs bl1 b bl2 : served h bs -> live bs ≡ₚ bl1 ++ b :: bl2 ->
  exists bs1 bs2, bs = bs1 ++ b :: bs2 /\ bfree b = false /\ inv h bs /\ live bs1 ++ live bs2 ≡ₚ bl1 ++ bl2.
Proof.
  intros Hs Hl. assert (Hb : b ∈ live bs) by (rewrite Hl; mem).
  pose proof Hb as [Hf Hin]%elem_of_live. destruct Hs as [Hi|(_ & -> & _)]; [|by apply elem_of_nil in Hin].
  apply list_elem_of_split in Hin as (bs1 & bs2 & ->). exists bs1, bs2. repeat (split; [done|]).
  apply (Permutation_app_inv _ _ _ _ b). rewrite <- Hl, live_app.
  assert (El : live (b :: bs2) = b :: live bs2) by (unfold live; by rewrite filter_cons_True).
  by rewrite El.
Qed.

Lemma holds_kept m m' ps bs bl : live bs ≡ₚ bl -> Forall2 holds ps bl -> kept m m' (live bs) ->
  forall r nb x, (r, nb) ∈ ps -> r <= x < r + nb -> m' x = m x.
Proof.
  intros Hl Hh Hk r nb x (i & Hp)%list_elem_of_lookup Hx.
  destruct (Forall2_lookup_l _ _ _ _ _ Hh Hp) as (b & Hb & H1 & H2). simpl in *.
  apply (Hk b); [|unfold bend; lia]. rewrite Hl. by eapply list_elem_of_lookup_2.
Qed.

Lemma owns_malloc h ps nb : owns h ps -> 0 <= nb < 2 ^ 31 - 16 ->
  exists N r h', (forall n f, (N <= n)%nat -> (N <= f)%nat -> malloc n f nb h = Some (r, h')) /\
    owns h' (if r =? 0 then ps else (r, nb) :: ps) /\
    (forall r nb x, (r, nb) ∈ ps -> r <= x < r + nb -> wm h' x = wm h x) /\
    (r = 0 -> sbrk (brk h) (morecore_bytes (units nb)) = None).
Proof.
  intros (bs & bl & Hs & Hl & Hh) Hnb. set (F := (2 * length (frees bs) + 3)%nat).
  destruct (malloc_ok F F h bs nb Hs) as (r & h' & Hm & Hr); [lia|lia|done|].
  exists (S F), r, h'. split.
  { intros n f Hn Hf. eapply malloc_mono; [exact Hm|lia|lia]. }
  destruct Hr as [(-> & Hs' & Hk & Hsb)|(Hr0 & bs' & Hi' & Hl' & Hk)].
  - split; [by exists bs, bl|]. split; [exact (holds_kept _ _ _ _ _ Hl Hh Hk)|done].
  - rewrite (proj2 (Z.eqb_neq _ _)) by done. split; [|split; [exact (holds_kept _ _ _ _ _ Hl Hh Hk)|by intros ->]].
    exists bs', (Block (r - 8) (units nb) false :: bl). split; [by left|]. split; [by rewrite Hl', Hl|].
    constructor; [|done]. split; [done|]. simpl. unfold units.
    pose proof (Z.div_mod (nb + 7) 8). pose proof (Z.mod_pos_bound (nb + 7) 8). lia.
Qed.

Lemma owns_free h ps1 r nb ps2 : owns h (ps1 ++ (r, nb) :: ps2) ->
  exists N h', (forall f, (N <= f)%nat -> free f r h = Some h') /\ owns h' (ps1 ++ ps2) /\
    (forall r nb x, (r, nb) ∈ ps1 ++ ps2 -> r <= x < r + nb -> wm h' x = wm h x).
Proof.
  intros (bs & bl & Hs & Hl & Hh). apply Forall2_app_inv_l in Hh as (bl1 & bl2' & H1 & H2 & ->).
  apply Forall2_cons_inv_l in H2 as (b & bl2 & [Hb1 Hb2] & H2 & ->).
  destruct (served_split _ _ _ _ _ Hs Hl) as (bs1 & bs2 & -> & Hbf & Hi & Hl').
  destruct b as [a n f]; simpl in *; subst.
  set (F := S (length (frees (bs1 ++ bs2)))).
  destruct (free_ok F _ _ _ _ _ Hi) as (h' & bs' & Hf & Hi' & _ & Hlive & _ & _ & Hk); [lia|].
  rewrite Z.sub_add in Hf. exists (S F), h'.
  split; [intros f Hle; by eapply free_mono|]. assert (Hh : Forall2 holds (ps1 ++ ps2) (bl1 ++ bl2)) by (by apply Forall2_app).
  split; [|rewrite <- Hlive in Hk; eapply holds_kept; [|done|done]; by rewrite Hlive].
  exists bs', (bl1 ++ bl2). split; [by left|]. split; [by rewrite Hlive|done].
Qed.

Lemma owns_write h ps r nb x v : owns h ps -> (r, nb) ∈ ps -> r <= x < r + nb ->
  owns (Heap (wput (wm h) x v) (freep h) (brk h)) ps.
Proof.
  intros (bs & bl & Hs & Hl & Hh) Hp Hx. exists bs, bl. split; [|done].
  apply list_elem_of_lookup in Hp as (i & Hp). destruct (Forall2_lookup_l _ _ _ _ _ Hh Hp) as (b & Hb & H1 & H2).
  assert (Hbl : b ∈ live bs) by (rewrite Hl; by eapply list_elem_of_lookup_2). simpl in *.
  destruct Hs as [Hi|(_ & -> & _)]; [left|by apply elem_of_nil in Hbl].
  assert (Hnh : forall p, p ∈ base :: frees bs -> x <> p /\ x <> p + 4).
  { intros p Hpf. eapply live_not_header; [exact Hi|exact Hbl|done|unfold bend; lia]. }
  pose proof (Hnh base ltac:(mem)). destruct Hi as [Hbase Ho Hbrk Hsz Hb0 Hc Hfp].
  constructor; cbn [wm brk freep]; try done.
  - intros c Hc'. unfold ssize. rewrite wput_ne; [by apply Hsz|].
    apply elem_of_live in Hbl as [_ Hbl]. destruct (ordered_in _ _ _ _ Ho Hc') as (? & ? & ?).
    destruct (ordered_pair _ _ _ _ _ Ho Hbl Hc') as [->|?]; unfold bend in *; lia.
  - unfold ssize in *. rewrite wput_ne by lia. exact Hb0.
  - apply chain_put; [|done]. intros Hin%Hnh. by destruct Hin.
Qed.

Lemma owns_client h ps h' ps' : client (h, ps) (h', ps') -> owns h ps -> owns h' ps'.
Proof.
  intros Hc Ho. inversion Hc as [n f nb h1 r h2 ps1 Hnb Hm|f r nb h1 h2 ps1 ps2 Hf|r nb x v h1 ps1 Hp Hx]; subst.
  - destruct (owns_malloc _ _ _ Ho Hnb) as (N & r2 & h2 & Hall & Ho2 & _).
    pose proof (malloc_mono n (Nat.max n N) f (Nat.max f N) _ _ _ Hm ltac:(lia) ltac:(lia)) as Hm'.
    rewrite Hall in Hm' by lia. by injection Hm' as <- <-.
  - destruct (owns_free _ _ _ _ _ Ho) as (N & h2 & Hall & Ho2 & _).
    pose proof (free_mono f (Nat.max f N) _ _ _ Hf ltac:(lia)) as Hf'.
    rewrite Hall in Hf' by lia. by injection Hf' as <-.
  - by eapply owns_write.
Qed.

Lemma owns_apart h ps i j r1 n1 r2 n2 : owns h ps -> i <> j ->
  ps !! i = Some (r1, n1) -> ps !! j = Some (r2, n2) -> r1 + n1 <= r2 - 8 \/ r2 + n2 <= r1 - 8.
Proof.
  intros (bs & bl & Hs & Hl & Hh) Hij H1 H2.
  destruct (Forall2_lookup_l _ _ _ _ _ Hh H1) as (b1 & Hb1 & E1 & L1).
  destruct (Forall2_lookup_l _ _ _ _ _ Hh H2) as (b2 & Hb2 & E2 & L2). simpl in *.
  assert (Hin : b2 ∈ take i bl ++ drop (S i) bl).
  { rewrite elem_of_app. destruct (decide (j < i)%nat).
    - left. apply (list_elem_of_lookup_2 _ j). by rewrite lookup_take_lt by lia.
    - right. apply (list_elem_of_lookup_2 _ (j - S i)). rewrite lookup_drop. by replace (S i + (j - S i))%nat with j by lia. }
  rewrite <- (take_drop_middle _ _ _ Hb1) in Hl.
  destruct (served_split _ _ _ _ _ Hs Hl) as (bs1 & bs2 & -> & _ & Hi & Hl').
  rewrite <- Hl' in Hin. apply inv_ordered, ordered_app in Hi as (Ho1 & _ & Ho2).
  apply elem_of_app in Hin as [[_ Hin]%elem_of_live|[_ Hin]%elem_of_live].
  - destruct (ordered_in _ _ _ _ Ho1 Hin) as (? & ? & ?). unfold bend in *. lia.
  - destruct (ordered_in _ _ _ _ Ho2 Hin) as (? & ? & ?). unfold bend in *. lia.
Qed.

(** C29. The allocator, under any program that frees what it holds and writes
    within what it asked for: blocks held never overlap, and their words are
    never touched by [malloc] or [free]; both calls return, and [malloc]
    returns 0 only when [sbrk] refuses. *)
Theorem umalloc_safe h0 h ps : freep h0 = 0 -> 0 < base -> base + 8 <= brk h0 < 2 ^ 32 ->
  rtc client (h0, []) (h, ps) ->
  (forall i j r1 n1 r2 n2, i <> j -> ps !! i = Some (r1, n1) -> ps !! j = Some (r2, n2) ->
     r1 + n1 <= r2 - 8 \/ r2 + n2 <= r1 - 8) /\
  (forall nb, 0 <= nb < 2 ^ 31 - 16 ->
     exists N r h', (forall n f, (N <= n)%nat -> (N <= f)%nat -> malloc n f nb h = Some (r, h')) /\
       (forall r nb x, (r, nb) ∈ ps -> r <= x < r + nb -> wm h' x = wm h x) /\
       (r = 0 -> sbrk (brk h) (morecore_bytes (units nb)) = None)) /\
  (forall ps1 r nb ps2, ps = ps1 ++ (r, nb) :: ps2 ->
     exists N h', (forall f, (N <= f)%nat -> free f r h = Some h') /\
       (forall r nb x, (r, nb) ∈ ps1 ++ ps2 -> r <= x < r + nb -> wm h' x = wm h x)).
Proof.
  intros Hf Hb Hbrk Hr.
  assert (Ho : owns h ps).
  { remember (h0, []) as s0 eqn:E0. remember (h, ps) as s eqn:E.
    assert (H0 : owns s0.1 s0.2).
    { subst. exists [], []. split; [by right|]. split; [done|constructor]. }
    clear E0. revert H0 E. induction Hr as [s|[h1 p1] [h2 p2] s Hc Hr IH]; [by intros ? ->|].
    intros H1. apply IH. by eapply owns_client. }
  split; [intros; by eapply owns_apart|]. split.
  - intros nb Hnb. destruct (owns_malloc _ _ _ Ho Hnb) as (N & r & h' & ? & _ & ? & ?). by exists N, r, h'.
  - intros ps1 r nb ps2 ->. destruct (owns_free _ _ _ _ _ Ho) as (N & h' & ? & _ & ?). by exists N, h'.
Qed.
End umalloc.

(** ** An instance

    [sbrk] as sys_sbrk and growproc implement it: it fails at 2 GB, and adds
    its argument to the size of the process twice. *)
Definition demo_sbrk (b n : Z) : option Z := if b + n <? 2 ^ 31 then Some (b + 2 * n) else None.

Lemma demo_sbrk_grows b n b' : 0 <= n < 2 ^ 31 -> demo_sbrk b n = Some b' -> b + n <= b' < 2 ^ 32.
Proof. unfold demo_sbrk. destruct (Z.ltb_spec (b + n) (2 ^ 31)); [|done]. intros ? [= <-]. lia. Qed.

Definition demo_heap : heap := Heap (fun _ => 0) 0 12288.

(** Two blocks are allocated, the first is freed, and the second can be. *)
Lemma umalloc_safe_witness :
  exists r1 h1 r2 h2 h3, malloc 4096 demo_sbrk 9 9 10 demo_heap = Some (r1, h1) /\
    malloc 4096 demo_sbrk 9 9 20 h1 = Some (r2, h2) /\ free 9 r1 h2 = Some h3 /\ r1 <> 0 /\ r2 <> 0 /\
    exists N h4, forall f, (N <= f)%nat -> free f r2 h3 = Some h4.
Proof.
  eexists _, _, _, _, _. split; [vm_compute; reflexivity|]. split; [vm_compute; reflexivity|].
  split; [vm_compute; reflexivity|]. do 2 (split; [lia|]).
  match goal with |- exists N h4, forall f, _ -> free f ?r ?h = _ =>
    destruct (umalloc_safe 4096 demo_sbrk demo_sbrk_grows demo_heap h [(r, 20)]) as (_ & _ & Hfree) end.
  - reflexivity.
  - lia.
  - simpl. lia.
  - eapply rtc_l; [eapply (client_malloc 4096 demo_sbrk 9 9 10); [lia|vm_compute; reflexivity]|].
    eapply rtc_l; [eapply (client_malloc 4096 demo_sbrk 9 9 20); [lia|vm_compute; reflexivity]|].
    eapply rtc_l; [|apply rtc_refl]. eapply (client_free 4096 demo_sbrk 9 _ 10 _ _ [_] []). vm_compute. reflexivity.
  - destruct (Hfree [] 45008 20 []) as (N & h4 & Hf & _); [reflexivity|]. exists N, h4. exact Hf.
Defined.

(** The size in units is computed in 32 bits: a request of 2^32 - 1 bytes
    succeeds with a block that has a header and no payload. *)
Lemma malloc_wraps : exists r h, malloc 4096 demo_sbrk 9 9 (2 ^ 32 - 1) demo_heap = Some (r, h) /\
  r <> 0 /\ ssize (wm h) (r - 8) = 1.
Proof. eexists _, _. split; [vm_compute; reflexivity|]. split; [done|vm_compute; reflexivity]. Qed.
