(* ===== verification/Uthread.v ===== *)
(** * User-level threads (uthread.c, uthread_switch.S)

    The table of threads, the scheduler and the switch, on a memory of words
    and the registers.  The theorems: a thread that is switched away from
    continues later with its registers as they were, whatever runs in
    between; a new thread starts at its function; and the choice of the next
    thread is not fair. *)

From stdpp Require Import base numbers list strings relations.
From Stdlib Require Import ZArith Lia.
From S2P Require Import Prelude.

Local Open Scope Z_scope.

Definition FREE : Z := 0.
Definition RUNNING : Z := 1.
Definition RUNNABLE : Z := 2.
Definition STACK_SIZE : Z := 8192.
Definition MAX_THREAD : Z := 4.

(** [struct thread] is [sp], then the stack, then [state]. *)
Definition sp_of (t : Z) : Z := t.
Definition stack_of (t : Z) : Z := t + 4.
Definition state_of (t : Z) : Z := t + 4 + STACK_SIZE.
Definition sizeof_thread : Z := 4 + STACK_SIZE + 4.

Record regs : Type := Regs {
  eax : Z; ecx : Z; edx : Z; ebx : Z; ebp : Z; esi : Z; edi : Z; esp : Z; eip : Z
}.

Record threads : Type := Threads {
  tm : wmem; current_thread : Z; next_thread : Z; rs : regs
}.

Definition set_tm (f : wmem -> wmem) (s : threads) : threads :=
  Threads (f (tm s)) (current_thread s) (next_thread s) (rs s).
Definition set_next (t : Z) (s : threads) : threads :=
  Threads (tm s) (current_thread s) t (rs s).
Definition state (s : threads) (t : Z) : Z := tm s (state_of t).

(** ** The switch *)

Definition pushal (m : wmem) (r : regs) : wmem :=
  let e := esp r in
  wput (wput (wput (wput (wput (wput (wput (wput m (e - 4) (eax r)) (e - 8) (ecx r)) (e - 12) (edx r))
    (e - 16) (ebx r)) (e - 20) e) (e - 24) (ebp r)) (e - 28) (esi r)) (e - 32) (edi r).

(** [popal] and [ret] with the stack pointer [e]. *)
Definition popal_ret (m : wmem) (e : Z) : regs :=
  Regs (m (e + 28)) (m (e + 24)) (m (e + 20)) (m (e + 16)) (m (e + 8)) (m (e + 4)) (m e)
    (e + 36) (m (e + 32)).

Definition thread_switch (s : threads) : threads :=
  let m := pushal (tm s) (rs s) in
  let m := wput m (sp_of (current_thread s)) (esp (rs s) - 32) in
  let t := next_thread s in
  Threads m t 0 (popal_ret m (m (sp_of t))).

(** [call thread_switch], with the address of the next instruction. *)
Definition call_switch (ra : Z) (s : threads) : threads :=
  let r := rs s in
  let e := esp r - 4 in
  thread_switch (Threads (wput (tm s) e ra) (current_thread s) (next_thread s)
    (Regs (eax r) (ecx r) (edx r) (ebx r) (ebp r) (esi r) (edi r) e (eip r))).

Section table.
Context (all_thread : Z).

Definition table_end : Z := all_thread + MAX_THREAD * sizeof_thread.

(** The loops over the table: the first thread that satisfies [f], or the end. *)
Fixpoint find_thread (n : nat) (f : Z -> bool) (t : Z) : Z :=
  match n with
  | O => t
  | S n => if f t then t else find_thread n f (t + sizeof_thread)
  end.

Definition thread_init (s : threads) : threads :=
  Threads (wput (tm s) (state_of all_thread) RUNNING) all_thread (next_thread s) (rs s).

(** [None] is the exit after the message about a deadlock. *)
Definition thread_schedule (ra : Z) (s : threads) : option threads :=
  let t := find_thread (Z.to_nat MAX_THREAD)
    (fun t => (state s t =? RUNNABLE) && negb (t =? current_thread s)) all_thread in
  let s := if t <? table_end then set_next t s else s in
  let s := if (table_end <=? t) && (state s (current_thread s) =? RUNNABLE)
           then set_next (current_thread s) s else s in
  if next_thread s =? 0 then None
  else if negb (current_thread s =? next_thread s) then
    Some (call_switch ra (set_tm (fun m => wput m (state_of (next_thread s)) RUNNING) s))
  else Some (set_next 0 s).

Definition thread_create (func : Z) (s : threads) : threads :=
  let t := find_thread (Z.to_nat MAX_THREAD) (fun t => state s t =? FREE) all_thread in
  let m := tm s in
  let m := wput m (sp_of t) (stack_of t + STACK_SIZE) in
  let m := wput m (sp_of t) (m (sp_of t) - 4) in
  let m := wput m (m (sp_of t)) func in
  let m := wput m (sp_of t) (m (sp_of t) - 32) in
  set_tm (fun _ => wput m (state_of t) RUNNABLE) s.

Definition thread_yield (ra : Z) (s : threads) : option threads :=
  thread_schedule ra (set_tm (fun m => wput m (state_of (current_thread s)) RUNNABLE) s).
End table.

(** ** Switching away and back *)

Ltac wm := unfold sp_of, stack_of, state_of in *; rewrite ?wput_eq, ?wput_ne by lia.

(** The words in which a thread's registers are kept while it waits. *)
Definition frame (t e x : Z) : Prop := x = sp_of t \/ e - 32 <= x < e + 4.

Lemma pushal_ne m r x : (x < esp r - 32 \/ esp r <= x) -> pushal m r x = m x.
Proof. intros. unfold pushal. by wm. Qed.

Lemma popal_pushal m r v : popal_ret (fun x => if x =? v then esp r - 32 else pushal m r x) (esp r - 32) =
  Regs (eax r) (ecx r) (edx r) (ebx r) (ebp r) (esi r) (edi r) (esp r + 4) (m (esp r)) \/
  esp r - 32 <= v < esp r + 4.
Proof.
  destruct (decide (esp r - 32 <= v < esp r + 4)); [by right|left].
  unfold popal_ret. f_equal; try lia.
  all: match goal with |- context [?x =? ?v] => rewrite (proj2 (Z.eqb_neq x v)) by lia end.
  8: rewrite pushal_ne by lia; f_equal; lia.
  all: unfold pushal; repeat (rewrite wput_ne by lia); try (by rewrite wput_eq);
    match goal with |- wput _ ?a _ ?b = _ => replace b with a by lia; by rewrite wput_eq end.
Qed.

(** C30. A thread [a] that calls [thread_switch] continues, when some thread
    later switches back to it, after its call and with every register as it
    was, whatever the threads in between did outside the words that keep it. *)
Theorem switch_resumes s s2 : let a := current_thread s in let e := esp (rs s) in
  (a < e - 32 \/ e + 4 <= a) ->
  next_thread s2 = a -> (forall x, frame a e x -> tm s2 x = tm (thread_switch s) x) ->
  (forall x, frame a e x -> x <> sp_of (current_thread s2) /\
     (x < esp (rs s2) - 32 \/ esp (rs s2) <= x)) ->
  let s3 := thread_switch s2 in
  current_thread s3 = a /\ next_thread s3 = 0 /\
  rs s3 = Regs (eax (rs s)) (ecx (rs s)) (edx (rs s)) (ebx (rs s)) (ebp (rs s)) (esi (rs s)) (edi (rs s))
    (e + 4) (tm s e).
Proof.
  intros a e Ha Hn Hm Hd s3. split; [exact Hn|]. split; [done|].
  assert (Hf : forall x, frame a e x -> tm s3 x = if x =? a then e - 32 else pushal (tm s) (rs s) x).
  { intros x Hx. destruct (Hd _ Hx) as [Hne Hout]. cbn [s3 thread_switch tm].
    rewrite wput_ne, pushal_ne, Hm by done. cbn [thread_switch tm]. reflexivity. }
  assert (Hsp : tm s3 (sp_of a) = e - 32) by (rewrite Hf by (by left); unfold sp_of; by rewrite Z.eqb_refl).
  destruct (popal_pushal (tm s) (rs s) a) as [Hpp|?]; [|subst e; lia].
  etrans; [|exact Hpp]. cbn [s3 thread_switch rs]. rewrite Hn. change (wput _ _ _) with (tm s3). rewrite Hsp.
  unfold popal_ret. fold e. f_equal; apply Hf; right; lia.
Qed.

(** Thread 100 switches to thread 10000 and back; 10000 has changed a word of
    its own stack and its registers. *)
Lemma switch_resumes_witness :
  let s := Threads (fun x => x) 100 10000 (Regs 1 2 3 4 5 6 7 8000 0) in
  let s2 := Threads (wput (tm (thread_switch s)) 17000 9) 10000 100 (Regs 9 9 9 9 9 9 9 18000 0) in
  rs (thread_switch s2) = Regs 1 2 3 4 5 6 7 8004 8000.
Proof.
  intros s s2. refine (proj2 (proj2 (switch_resumes s s2 _ _ _ _))).
  - left. reflexivity.
  - reflexivity.
  - intros x [->|Hx].
    + reflexivity.
    + apply wput_ne. unfold s in Hx. simpl in Hx. lia.
  - intros x [->|Hx]; simpl; unfold sp_of; [lia|]. unfold s in Hx. simpl in Hx. lia.
Defined.

(** ** Choosing a thread *)

Section choice.
Context (all_thread : Z) (Hpos : 0 < all_thread).

Definition thread (i : Z) : Z := all_thread + i * sizeof_thread.

(** Where the running thread is in its own stack, with room for the call and
    the registers. *)
Definition on_stack (s : threads) : Prop :=
  stack_of (current_thread s) + 36 <= esp (rs s) <= stack_of (current_thread s) + STACK_SIZE.

Lemma find_thread_first n f i k : (k < n)%nat -> f (thread (i + Z.of_nat k)) = true ->
  (forall j, (j < k)%nat -> f (thread (i + Z.of_nat j)) = false) ->
  find_thread n f (thread i) = thread (i + Z.of_nat k).
Proof.
  revert i k. induction n as [|n IH]; intros i k Hk Hf Hno; [lia|]. cbn [find_thread].
  destruct k as [|k].
  - rewrite Z.add_0_r in *. by rewrite Hf.
  - pose proof (Hno 0%nat ltac:(lia)) as H0. rewrite Z.add_0_r in H0. rewrite H0.
    replace (thread i + sizeof_thread) with (thread (i + 1)) by (unfold thread; lia).
    replace (i + Z.of_nat (S k)) with (i + 1 + Z.of_nat k) by lia. apply IH; [lia| |].
    + by replace (i + 1 + Z.of_nat k) with (i + Z.of_nat (S k)) by lia.
    + intros j Hj. replace (i + 1 + Z.of_nat j) with (i + Z.of_nat (S j)) by lia. apply Hno. lia.
Qed.

Lemma find_thread_table f k : 0 <= k < MAX_THREAD -> f (thread k) = true ->
  (forall j, 0 <= j < k -> f (thread j) = false) -> find_thread (Z.to_nat MAX_THREAD) f all_thread = thread k.
Proof.
  intros Hk Hf Hno. unfold MAX_THREAD in Hk.
  pose proof (find_thread_first (Z.to_nat MAX_THREAD) f 0 (Z.to_nat k)) as H.
  unfold thread at 2 3 in H. rewrite Z.mul_0_l, Z.add_0_r, Z.add_0_l, Z2Nat.id in H by lia.
  apply H; [unfold MAX_THREAD; lia|done|]. intros j Hj. apply Hno. lia.
Qed.

(** The words a switch from the running thread writes are on its stack and in
    its [sp]. *)
Lemma call_switch_state ra s i : on_stack s -> 0 <= i < MAX_THREAD ->
  (exists c, current_thread s = thread c /\ 0 <= c < MAX_THREAD) ->
  tm (call_switch ra s) (state_of (thread i)) = tm s (state_of (thread i)).
Proof.
  intros Hs Hi (c & Hc & Hc2). unfold call_switch, thread_switch, on_stack in *. cbn [tm rs esp current_thread].
  rewrite Hc in *. unfold thread, sizeof_thread, state_of, stack_of, sp_of, STACK_SIZE, MAX_THREAD in *.
  rewrite wput_ne, pushal_ne, wput_ne; cbn [esp]; lia.
Qed.

(** The first runnable thread other than the running one gets to run. *)
Lemma thread_yield_first ra s c k : on_stack s -> next_thread s = 0 -> current_thread s = thread c ->
  0 <= c < MAX_THREAD -> 0 <= k < MAX_THREAD -> c <> k -> state s (thread k) = RUNNABLE ->
  (forall j, 0 <= j < k -> j <> c -> state s (thread j) <> RUNNABLE) ->
  exists s', thread_yield all_thread ra s = Some s' /\ current_thread s' = thread k /\ next_thread s' = 0 /\
    (forall j, 0 <= j < MAX_THREAD -> state s' (thread j) =
       if j =? k then RUNNING else if j =? c then RUNNABLE else state s (thread j)).
Proof.
  intros Hs Hn Hc Hc2 Hk Hne Hr Hno. unfold thread_yield, thread_schedule.
  set (s1 := set_tm _ s).
  assert (Hst : forall j, 0 <= j < MAX_THREAD ->
    state s1 (thread j) = if j =? c then RUNNABLE else state s (thread j)).
  { intros j Hj. unfold s1, state, set_tm. cbn [tm]. rewrite Hc.
    destruct (Z.eqb_spec j c) as [->|]; [apply wput_eq|]. apply wput_ne.
    unfold state_of, thread, sizeof_thread, STACK_SIZE. lia. }
  assert (Hinj : forall j, (thread j =? current_thread s1) = (j =? c)).
  { intros j. cbn [s1 set_tm current_thread]. rewrite Hc. unfold thread, sizeof_thread, STACK_SIZE.
    destruct (Z.eqb_spec j c) as [->|]; [apply Z.eqb_refl|]. apply Z.eqb_neq. lia. }
  rewrite (find_thread_table _ k); [|done| |].
  2: { rewrite Hst, Hinj by lia. rewrite (proj2 (Z.eqb_neq k c)) by lia. by rewrite Hr. }
  2: { intros j Hj. rewrite Hst, Hinj by lia. destruct (Z.eqb_spec j c); [apply andb_false_r|].
    rewrite (proj2 (Z.eqb_neq _ _)); [done|]. apply Hno; lia. }
  assert (Hlt : thread k < table_end all_thread) by (unfold thread, table_end, sizeof_thread, STACK_SIZE in *; lia).
  rewrite (proj2 (Z.ltb_lt _ _) Hlt), (proj2 (Z.leb_gt _ _) Hlt). cbn [andb next_thread set_next current_thread].
  rewrite (proj2 (Z.eqb_neq (thread k) 0)) by (unfold thread, sizeof_thread, STACK_SIZE; lia).
  rewrite Z.eqb_sym, Hinj, (proj2 (Z.eqb_neq k c)) by lia. cbn [negb].
  eexists. split; [done|]. split; [done|]. split; [done|]. intros j Hj.
  unfold state. rewrite call_switch_state; [|done|done|by exists c].
  cbn [set_tm set_next tm]. destruct (Z.eqb_spec j k) as [->|]; [apply wput_eq|].
  rewrite wput_ne by (unfold state_of, thread, sizeof_thread, STACK_SIZE; lia). by apply Hst.
Qed.

(** Between two calls the running thread may change memory and registers, but
    not the states of the threads, and is on its own stack. *)
Definition computes (s s1 : threads) : Prop :=
  current_thread s1 = current_thread s /\ next_thread s1 = next_thread s /\
  (forall j, 0 <= j < MAX_THREAD -> state s1 (thread j) = state s (thread j)) /\ on_stack s1.

(** Threads that only yield. *)
Inductive yields : threads -> threads -> Prop :=
| yields_step ra s s1 s2 : computes s s1 -> thread_yield all_thread ra s1 = Some s2 -> yields s s2.

(** Threads 1 and 2 take turns, and it is the turn of [c]. *)
Definition turn (c : Z) (s : threads) : Prop :=
  next_thread s = 0 /\ state s (thread 0) <> RUNNABLE /\ state s (thread 3) = RUNNABLE /\
  (c = 1 \/ c = 2) /\ current_thread s = thread c /\ state s (thread (3 - c)) = RUNNABLE.

Lemma yield_turn ra c s s1 : turn c s -> computes s s1 ->
  exists s2, thread_yield all_thread ra s1 = Some s2 /\ turn (3 - c) s2.
Proof.
  intros (H0 & H1 & H3 & Hcase & Hc' & H2) (Hc & Hn & Hst & Hs). rewrite <- Hc in Hc'. rewrite <- Hn in H0.
  rewrite <- Hst in H1, H2, H3 by (unfold MAX_THREAD; lia).
  destruct (thread_yield_first ra s1 c (3 - c)) as (s3 & Hy & Hc3 & Hn3 & Hs3); try done; unfold MAX_THREAD; try lia.
  { intros j Hj Hj1. replace j with 0 by lia. done. }
  exists s3. split; [done|]. unfold turn. rewrite !Hs3 by (unfold MAX_THREAD; lia).
  destruct Hcase as [->| ->]; simpl; tauto.
Qed.

(** C31. The scheduler always takes the first runnable thread of the table
    other than the caller.  With the initial thread not runnable, as [main]
    leaves it, two threads that yield alternate for ever: after [n] calls it
    is the turn of the one that started when [n] is even and of the other one
    when it is odd, and the next call returns, in the other thread.  A third
    thread, always runnable, never runs. *)
Theorem third_thread_starves n c s s' : turn c s -> nsteps yields n s s' ->
  let c' := if Nat.even n then c else 3 - c in
  current_thread s' = thread c' /\ state s' (thread 3) = RUNNABLE /\ current_thread s' <> thread 3 /\
  forall ra s1, computes s' s1 ->
    exists s2, thread_yield all_thread ra s1 = Some s2 /\ yields s' s2 /\ current_thread s2 = thread (3 - c').
Proof.
  intros Ht Hr c'. assert (Ht' : turn c' s').
  { subst c'. revert c Ht. induction Hr as [s|n s s1 s2 Hy Hr IH]; intros c Ht; [done|].
    destruct Hy as [ra s s0 s1 Hc Hy]. destruct (yield_turn ra c s s0 Ht Hc) as (s3 & Hy' & Ht3).
    rewrite Hy in Hy'. injection Hy' as <-. specialize (IH _ Ht3). rewrite Nat.even_succ, <- Nat.negb_even.
    destruct (Nat.even n); simpl; [done|]. by replace (3 - (3 - c)) with c in IH by lia. }
  pose proof Ht' as (_ & _ & H3 & Hcase & Hc & _). split; [done|]. split; [done|]. split.
  - rewrite Hc. unfold thread, sizeof_thread, STACK_SIZE. lia.
  - intros ra s1 Hs1. destruct (yield_turn ra c' s' s1 Ht' Hs1) as (s2 & E & Ht2).
    exists s2. split; [done|]. split; [by apply (yields_step ra s' s1)|]. by destruct Ht2 as (_ & _ & _ & _ & ? & _).
Qed.
End choice.

(** [main] after it has created three threads and switched to the first. *)
Definition demo_threads : threads :=
  let s := thread_init 4096 (Threads (fun _ => 0) 0 0 (Regs 0 0 0 0 0 0 0 12000 0)) in
  let s := thread_create 4096 77 (thread_create 4096 77 (thread_create 4096 77 s)) in
  match thread_schedule 4096 55 s with Some s => s | None => s end.

(** The second thread after the first one has yielded, and the first again. *)
Lemma third_thread_starves_witness : exists s1 s2,
  thread_yield 4096 66 demo_threads = Some s1 /\ current_thread s1 = thread 4096 2 /\
  thread_yield 4096 66 s1 = Some s2 /\ current_thread s2 = thread 4096 1 /\ current_thread s2 <> thread 4096 3.
Proof.
  assert (turn 4096 1 demo_threads) as Ht.
  { split; [reflexivity|]. split; [vm_compute; discriminate|]. split; [vm_compute; reflexivity|].
    split; [by left|]. split; vm_compute; reflexivity. }
  assert (computes 4096 demo_threads demo_threads) as Hc.
  { split; [reflexivity|]. split; [reflexivity|]. split; [reflexivity|]. split; vm_compute; discriminate. }
  destruct (third_thread_starves 4096 ltac:(lia) 0 1 demo_threads demo_threads Ht (nsteps_O _ _))
    as (_ & _ & _ & H).
  destruct (H 66 demo_threads Hc) as (s1 & E1 & Hy1 & Hc1).
  assert (computes 4096 s1 s1) as Hcs1.
  { split; [reflexivity|]. split; [reflexivity|]. split; [reflexivity|].
    revert E1. vm_compute. intros [= <-]. split; discriminate. }
  destruct (third_thread_starves 4096 ltac:(lia) 1 1 demo_threads s1 Ht (nsteps_once _ _ Hy1))
    as (_ & _ & _ & H1).
  destruct (H1 66 s1 Hcs1) as (s2 & E2 & Hy2 & Hc2).
  exists s1, s2. split; [exact E1|]. split; [exact Hc1|]. split; [exact E2|]. split; [exact Hc2|].
  apply (third_thread_starves 4096 ltac:(lia) 2 1 demo_threads s2 Ht).
  eapply nsteps_l; [exact Hy1|]. apply nsteps_once, Hy2.
Defined.

(** ** A new thread *)

(** The first switch to a new thread enters its function, at the top of its
    own stack. *)
Lemma thread_create_starts all_thread func s s2 t : 0 < all_thread ->
  find_thread (Z.to_nat MAX_THREAD) (fun t => state s t =? FREE) all_thread = t ->
  next_thread s2 = t ->
  (forall x, x = t \/ stack_of t + STACK_SIZE - 36 <= x < stack_of t + STACK_SIZE ->
     tm s2 x = tm (thread_create all_thread func s) x /\ x <> sp_of (current_thread s2) /\
     (x < esp (rs s2) - 32 \/ esp (rs s2) <= x)) ->
  let s3 := thread_switch s2 in
  current_thread s3 = t /\ eip (rs s3) = func /\ esp (rs s3) = stack_of t + STACK_SIZE.
Proof.
  intros Hp Ht Hn Hm s3. unfold thread_create in Hm. rewrite Ht in Hm. cbn [set_tm tm] in Hm.
  assert (Hsp : tm s3 t = stack_of t + STACK_SIZE - 36).
  { destruct (Hm t) as (H1 & H2 & H3); [by left|]. cbn [s3 thread_switch tm].
    rewrite wput_ne, pushal_ne, H1 by done. unfold sp_of, stack_of, state_of, STACK_SIZE in *.
    rewrite wput_ne, wput_eq by lia. rewrite wput_ne by (rewrite !wput_eq; lia). rewrite !wput_eq. lia. }
  assert (Hpc : tm s3 (stack_of t + STACK_SIZE - 4) = func).
  { destruct (Hm (stack_of t + STACK_SIZE - 4)) as (H1 & H2 & H3); [right; lia|]. cbn [s3 thread_switch tm].
    rewrite wput_ne, pushal_ne, H1 by done. unfold sp_of, stack_of, state_of, STACK_SIZE in *.
    rewrite !wput_ne by lia. rewrite !wput_eq. done. }
  split; [exact Hn|]. cbn [s3 thread_switch rs]. rewrite Hn. change (wput _ _ _) with (tm s3).
  unfold sp_of. rewrite Hsp. cbn [popal_ret eip esp]. split; [|lia]. rewrite <- Hpc. f_equal. lia.
Qed.

(** With every slot in use, [thread_create] goes beyond the table: it sets up
    a thread just after it. *)
Lemma thread_create_overruns :
  table_end 4096 = 36896 /\ tm (thread_create 4096 77 demo_threads) 36896 <> tm demo_threads 36896.
Proof. vm_compute. split; [reflexivity|discriminate]. Qed.
